(* ===== verification/_CoqProject ===== *)
-Q . S2P
Prelude.v
Machine.v
Param.v
Mutex.v
LockLiveness.v
Palloc.v
FreeList.v
PallocAlloc.v
PallocFree.v
PallocTheorems.v
PoolShared.v
VmState.v
Host.v
Vmalloc.v
Zone.v
ZoneScan.v
Heap.v
KallocProofs.v
ZoneEscape.v
KallocFree.v
KallocTheorems.v
Checks.v
PallocWitness.v
SharedWitness.v
KallocWitness.v
Ptable.v
Sv39.v
PtProofs.v
KpageProofs.v
PtTheorems.v
PtWitness.v
Global.v
Bytes.v
GlobalTheorems.v
GlobalBytes.v
ReallocShrink.v
GlobalWitness.v
Riscv.v
Device.v
DeviceTheorems.v
Trap.v
TrapTheorems.v
CsrModel.v
Boot.v
AllocCrate.v
Main.v
BootTheorems.v
VmInit.v
GallocTest.v
MainTheorems.v
BootWitness.v
