(* ===== verification/Prelude.v ===== *)
(** * reedos: a verification of the kernel

    reedos is a small RISC-V kernel for the QEMU virt machine. A hart enters at
    [_entry] (src/asm/entry.s) with a stack of its own, sets up supervisor mode and the
    timer in [_start] (src/main.rs) and [timerinit] (src/hw.rs), and jumps to [main].
    Hart 0 then builds the memory subsystem in [vm::init] (src/vm.rs): the physical page
    pool (src/vm/palloc.rs, behind the spinlock of src/lock/mutex.rs), the kernel heap
    (src/vm/vmalloc.rs) in a page of that pool, the global allocator
    (src/vm/global.rs) over both, and the kernel page table (src/vm/ptable.rs), whose
    tables come from the pool as well. Machine timer interrupts go through
    src/asm/trap.s to [m_handler] (src/trap.rs), which rearms the CLINT
    (src/device/clint.rs); the log (src/log.rs) writes to the UART (src/device/uart.rs).

    ** How the code is modelled

    A piece of code is a function of type [M S A := S → outcome (A * S)] (Machine.v):
    it returns, panics ([Panic]: a failed assertion, an [unwrap], an explicit [panic!],
    an overflow under overflow checks), accesses what is not RAM ([Fault]), or runs out
    of fuel ([Diverge]). Words are integers of [0, 2^64); [Config] says whether
    arithmetic is checked (the dev profile) or wraps (the release profile), so a theorem
    without a hypothesis on it holds for both. Memory is a finite map from aligned
    addresses to words; pointers are addresses; [&mut self] methods return the new
    value. A [while] is [loop fuel body]: [fuel] is a parameter of [Config], and every
    theorem that says that code returns names how much is enough: the number of pages
    or chunks involved, 512 for a zone, and more than the 32768 pages of the 128M of RAM
    for the kernel's map. Code is reasoned about with the weakest precondition [wp] of
    Machine.v, which excludes [Fault] and [Diverge].

    ** Files

    - Prelude.v, Machine.v: words, masks, tactics; outcomes, the monad, loops, memory, [wp].
    - Param.v: src/hw/param.rs; [Layout] is the addresses of the linker symbols, and
      [layout_ok] what src/kernel.ld promises about them.
    - Mutex.v: src/lock/mutex.rs, on one hart and as a step relation on many;
      LockLiveness.v: its infinite executions under a fair scheduler.
    - Palloc.v: src/vm/palloc.rs. FreeList.v: the doubly linked free list as a list of
      pages ([pagepool_rep]); PallocAlloc.v, PallocFree.v: the loops; PallocTheorems.v:
      the theorems and the interface [PageAllocSpec] its clients are proved against.
      PoolShared.v: the pool behind its lock, used by any number of harts at once.
    - VmState.v: memory and the [PAGEPOOL] static of src/vm.rs. Host.v: the bigger state
      that code with log lines runs in, and the simulation that strips the log.
    - Vmalloc.v: src/vm/vmalloc.rs. Zone.v, Heap.v: a zone as a list of chunks
      ([zone_rep]) and its live blocks; ZoneScan.v, KallocProofs.v, KallocFree.v:
      [scan], [alloc], [free]; ZoneEscape.v: a scan that leaves its zone;
      KallocTheorems.v: the theorems.
    - Ptable.v: src/vm/ptable.rs. Sv39.v: the hardware's table walk [sv39] and the tree
      of tables [pt_rep]; PtProofs.v, KpageProofs.v: mapping, and the regions of the
      kernel ([kernel_regions], [kmap]); PtTheorems.v: the theorems.
    - Global.v, GlobalTheorems.v: src/vm/global.rs. Bytes.v, GlobalBytes.v: memory as
      bytes, and what [alloc_zeroed] and [realloc] leave in their blocks;
      ReallocShrink.v: a [realloc] to a smaller size.
    - Riscv.v: src/hw/riscv.rs over any register file with the laws [CsrLaws], the
      part of the privileged architecture the kernel relies on; CsrModel.v is one.
    - Device.v, DeviceTheorems.v: the state [Sys] of the whole system, src/device and
      src/log.rs; the UART is any device with byte reads and writes.
    - Trap.v, TrapTheorems.v: src/trap.rs and src/asm/trap.s, instruction by instruction;
      what the compiler makes of a handler is a parameter with the calling convention
      [abi] as its hypothesis.
    - Boot.v, BootTheorems.v, VmInit.v: src/asm/entry.s, [_start], [timerinit],
      [vm::init] and [test_palloc].
    - AllocCrate.v, GallocTest.v: [Box] and [VecDeque] as [test_galloc] uses them, and
      the test. Main.v, MainTheorems.v: [main] and the panic handler of src/main.rs.
    - Checks.v: sound executable checks of the representations; the *Witness.v files
      apply the theorems to concrete machines.

    ** What is shown

    - Lock: at most one hart in a critical section, critical sections are atomic, and
      under a fair scheduler a waiting hart means that some hart gets the lock.
    - Page pool: every operation against the sorted list of free pages it represents,
      with what memory it may touch, on success, on exhaustion, on bad arguments; when
      [palloc_plural] terminates; and with several harts, that no page is lost or shared
      and no hart's page is written by another in any interleaving.
    - Heap: allocation and freeing against the live blocks: new blocks are aligned,
      big enough and disjoint, others and their contents stay; growth and exhaustion;
      [scan] computes the reference first fit on the list of chunks.
    - Global allocator: pages for big and blocks for small layouts, zeroed bytes, a
      [realloc] to a bigger size that keeps the bytes.
    - Page tables: after [page_map] the hardware walk translates the range and nothing
      else changes; [kpage_init] implements the abstract identity map of the kernel's
      regions, no page is writable and executable, stacks have guard pages. The layouts
      are those of [layout_ok]; under overflow checks no section may be empty
      ([sections_full]), and [kpage_init] panics on all others.
    - Boot: [main] is entered in supervisor mode with the timer armed; [vm::init] leaves
      an active table, an empty heap and a consistent pool; hart 0 gets through all of
      [main], both self tests included; the stacks of entry.s are the ones that are mapped.
    - Traps: a timer interrupt is transparent but for [x31]; every other trap panics.
    - Where the code does not do what it means to, a theorem shows how: a gap, a single
      page or the end of the free list in [alloc_pages], an empty section in
      [kpage_init], the second zone of a heap that is never used, [scan] leaving its zone
      (the theorems about a zone without room say when it stops at the end: [end_guard]),
      [free] writing to a page it gave back, [realloc] copying too much, the unsaved
      register, the log lock that excludes nobody.

    ** Not modelled

    Formatting ([core::fmt]) but for decimal numbers: the log takes formatted strings.
    The derived [Debug] instances of the error types. Processes, task lists, trap frames
    and hart contexts are types without operations, and nothing makes a value of them.
    Growing a [VecDeque] that is full, which the test never does, is an argument of
    AllocCrate.v. Weak memory: the harts of Mutex.v and PoolShared.v interleave.
    Translation is applied to the map the tables give ([sv39]), not to each access of the
    kernel after paging is on: the map is the identity on what it accesses. [sv39] is the
    walk of hardware that sets accessed and dirty bits itself, as QEMU does. Rust code is
    modelled at source level: the registers and the stack that compiled code uses only
    appear where traps interrupt it. Interrupts while [main] boots.

    Next: two-zone heaps in the client theorems of the global allocator; the heap, which
    has no lock, used by several harts; what hart 0 prints while it boots. *)

From stdpp Require Export prelude list gmap strings sorting.
From Stdlib Require Export ZArith Lia.

Open Scope Z_scope.

(** ** Automation *)

(** [lia] with [/] and [mod] turned into their defining equations. *)
Ltac zdm := Z.to_euclidean_division_equations; lia.

(** Splits every conjunction and existential of the context. *)
Ltac unpack :=
  repeat match goal with
  | H : _ ∧ _ |- _ => destruct H
  | H : ∃ _, _ |- _ => destruct H
  end.

(** Case analysis on a boolean comparison of the goal, keeping its meaning. *)
Ltac case_bool :=
  match goal with
  | |- context [?a =? ?b] => destruct (Z.eqb_spec a b)
  | |- context [?a <? ?b] => destruct (Z.ltb_spec a b)
  | |- context [?a <=? ?b] => destruct (Z.leb_spec a b)
  end.

(** Decides the comparisons of the goal that [lia] settles. *)
Ltac settle_bool :=
  repeat match goal with
  | |- context [?a =? ?b] =>
      first [ rewrite (proj2 (Z.eqb_eq a b)) by lia
            | rewrite (proj2 (Z.eqb_neq a b)) by lia ]
  | |- context [?a <? ?b] =>
      first [ rewrite (proj2 (Z.ltb_lt a b)) by lia
            | rewrite (proj2 (Z.ltb_ge a b)) by lia ]
  | |- context [?a <=? ?b] =>
      first [ rewrite (proj2 (Z.leb_le a b)) by lia
            | rewrite (proj2 (Z.leb_gt a b)) by lia ]
  end.

(** The database of the facts on machine arithmetic and alignment. *)
Create HintDb reedos.

(** ** Machine words

    A [usize] is an integer of [0, 2^64). *)

Definition u64_size : Z := 2 ^ 64.

Definition is_u64 (x : Z) : Prop := 0 ≤ x < u64_size.

(** Reduction modulo [2^64]: what release-profile arithmetic keeps. *)
Definition wrap (x : Z) : Z := x mod u64_size.

(** Bitwise complement at width 64, Rust's [!x]. *)
Definition unot (x : Z) : Z := Z.lxor x (Z.ones 64).

Lemma u64_size_eq : u64_size = 18446744073709551616.
Proof. reflexivity. Qed.

Lemma wrap_small x : is_u64 x → wrap x = x.
Proof. apply Z.mod_small. Qed.

Lemma wrap_neg x : - u64_size ≤ x < 0 → wrap x = x + u64_size.
Proof. unfold wrap. rewrite u64_size_eq. intros. zdm. Qed.

(** *** Masks *)

Lemma land_low x k : 0 ≤ k → Z.land x (Z.ones k) = x mod 2 ^ k.
Proof. intros. by apply Z.land_ones. Qed.

Lemma testbit_low a k i : 0 ≤ i < k → a mod 2 ^ k = 0 → Z.testbit a i = false.
Proof.
  intros Hi Ha. rewrite <- (Z.mod_pow2_bits_low a k i) by lia.
  rewrite Ha. apply Z.bits_0.
Qed.

Lemma testbit_high b k i : 0 ≤ k ≤ i → 0 ≤ b < 2 ^ k → Z.testbit b i = false.
Proof.
  intros Hi Hb. rewrite <- (Z.mod_small b (2 ^ k)) by lia.
  apply Z.mod_pow2_bits_high. lia.
Qed.

Lemma land_high x k :
  is_u64 x → 0 ≤ k ≤ 64 → Z.land x (unot (Z.ones k)) = x - x mod 2 ^ k.
Proof.
  intros Hx Hk. rewrite <- land_low by lia. rewrite Z.sub_nocarry_ldiff.
  - apply Z.bits_inj'. intros i Hi. unfold unot.
    rewrite Z.land_spec, Z.ldiff_spec, Z.lxor_spec, Z.land_spec.
    rewrite !Z.testbit_ones_nonneg by lia.
    destruct (Z.ltb_spec i 64), (Z.ltb_spec i k); try lia;
      destruct (Z.testbit x i) eqn:E; try done.
    rewrite (testbit_high x 64) in E; [done | lia | exact Hx].
  - apply Z.bits_inj'. intros i Hi.
    rewrite Z.ldiff_spec, Z.land_spec, Z.bits_0.
    by destruct (Z.testbit x i), (Z.testbit (Z.ones k) i).
Qed.

(** Bits below an alignment boundary do not meet an aligned value... *)
Lemma land_aligned_low a b k :
  0 ≤ k → a mod 2 ^ k = 0 → 0 ≤ b < 2 ^ k → Z.land a b = 0.
Proof.
  intros Hk Ha Hb. apply Z.bits_inj'. intros i Hi. rewrite Z.land_spec, Z.bits_0.
  destruct (Z.ltb_spec i k).
  - by rewrite (testbit_low a k).
  - rewrite (testbit_high b k) by done. apply andb_false_r.
Qed.

(** ... so or-ing them in is an addition. *)
Lemma lor_add a b k :
  0 ≤ k → a mod 2 ^ k = 0 → 0 ≤ b < 2 ^ k → Z.lor a b = a + b.
Proof.
  intros Hk Ha Hb. pose proof (land_aligned_low a b k Hk Ha Hb) as H.
  by rewrite Z.add_nocarry_lxor, Z.lxor_lor.
Qed.

(** Testing one bit with a mask. *)
Lemma land_bit x k : 0 ≤ k → (Z.land x (2 ^ k) =? 0) = negb (Z.testbit x k).
Proof.
  intros Hk. destruct (Z.testbit x k) eqn:E; simpl.
  - apply Z.eqb_neq. intros H. assert (Z.testbit (Z.land x (2 ^ k)) k = false) as Hb.
    { rewrite H. apply Z.bits_0. }
    rewrite Z.land_spec, E, Z.pow2_bits_true in Hb by done. done.
  - apply Z.eqb_eq. apply Z.bits_inj'. intros i Hi.
    rewrite Z.land_spec, Z.bits_0. destruct (decide (i = k)) as [->|]; [by rewrite E|].
    rewrite Z.pow2_bits_false by lia. apply andb_false_r.
Qed.
