(* ===== verification/Machine.v ===== *)
(** * The machine the kernel runs on

    What every component shares: the outcome of running a piece of kernel code,
    the state monad it is written in, the two arithmetic profiles of the Rust
    compiler, and the physical memory seen through aligned 64-bit accesses. *)

From S2P Require Import Prelude.

(** ** Outcomes

    [Panic] is a Rust panic (failed assertion, [unwrap]/[expect] on the wrong
    case, arithmetic overflow under overflow checks, explicit [panic!]);
    [Fault] an access outside of the RAM or a misaligned one, which the hardware
    turns into a trap; [Diverge] a loop that used up its fuel. *)
Inductive outcome (A : Type) : Type :=
  | Done (a : A)
  | Panic
  | Fault
  | Diverge.
Arguments Done {A} a.
Arguments Panic {A}.
Arguments Fault {A}.
Arguments Diverge {A}.

(** Rust's [Result]. *)
Inductive result (A E : Type) : Type :=
  | Ok (a : A)
  | Err (e : E).
Arguments Ok {A E} a.
Arguments Err {A E} e.

(** ** The build profile

    [overflow_checks] is true under the dev profile ([cargo build], [cargo run])
    and false under the release one, where arithmetic wraps. [fuel] bounds the
    iterations of every loop: the theorems say how much is enough. *)
Class Config : Type := {
  overflow_checks : bool;
  fuel : nat
}.

Definition dev (n : nat) : Config := {| overflow_checks := true; fuel := n |}.
Definition release (n : nat) : Config := {| overflow_checks := false; fuel := n |}.

(** ** The monad *)

Definition M (S A : Type) : Type := S → outcome (A * S).

#[export] Instance M_ret S : MRet (M S) := λ A a s, Done (a, s).
#[export] Instance M_bind S : MBind (M S) := λ A B k e s,
  match e s with
  | Done (a, s') => k a s'
  | Panic => Panic
  | Fault => Fault
  | Diverge => Diverge
  end.

Definition panic {S A} : M S A := λ _, Panic.
Definition diverge {S A} : M S A := λ _, Diverge.
Definition assert {S} (b : bool) : M S unit := if b then mret () else panic.

(** [Option::unwrap] and [Result::expect]. *)
Definition unwrap {S A} (o : option A) : M S A :=
  match o with Some a => mret a | None => panic end.
Definition expect {S A E} (r : result A E) : M S A :=
  match r with Ok a => mret a | Err _ => panic end.

(** A loop whose body either goes round again or leaves with a result. *)
Fixpoint loop {S X R} (n : nat) (body : X → M S (X + R)) (x : X) : M S R :=
  match n with
  | O => diverge
  | S n' =>
      r ← body x;
      match r with
      | inl x' => loop n' body x'
      | inr y => mret y
      end
  end.

(** Running code that owns part of a bigger state. *)
Definition zoom {S T A} (get : T → S) (put : S → T → T) (e : M S A) : M T A :=
  λ t, match e (get t) with
       | Done (a, s) => Done (a, put s t)
       | Panic => Panic
       | Fault => Fault
       | Diverge => Diverge
       end.

(** ** Arithmetic on [usize] *)

Definition checked {S} {cfg : Config} (x : Z) : M S Z :=
  if (0 <=? x) && (x <? u64_size) then mret x
  else if overflow_checks then panic else mret (wrap x).

Definition u_add {S} {cfg : Config} (a b : Z) : M S Z := checked (a + b).
Definition u_sub {S} {cfg : Config} (a b : Z) : M S Z := checked (a - b).
Definition u_mul {S} {cfg : Config} (a b : Z) : M S Z := checked (a * b).

(** [ptr.add(k)] on [*mut usize] and [ptr.byte_add(k)]: never checked. *)
Definition ptr_add (p k : Z) : Z := wrap (p + 8 * k).
Definition byte_add (p k : Z) : Z := wrap (p + k).

(** ** Memory

    The RAM as a finite map from 8-byte aligned addresses to words: an address
    the map does not have is not backed by RAM. *)

Abbreviation mem := (gmap Z Z).

Definition read (a : Z) : M mem Z := λ m,
  if a mod 8 =? 0 then
    match m !! a with Some v => Done (v, m) | None => Fault end
  else Fault.

Definition write (a v : Z) : M mem unit := λ m,
  if a mod 8 =? 0 then
    match m !! a with Some _ => Done ((), <[a := v]> m) | None => Fault end
  else Fault.

(** [ptr.write_bytes(b, n)] on [*mut usize]: [n] words, [v] the word made of
    eight bytes [b]. *)
Fixpoint fill (a v : Z) (n : nat) : M mem unit :=
  match n with
  | O => mret ()
  | S n' => write a v ;; fill (ptr_add a 1) v n'
  end.

(** A zeroed RAM of [n] words from [a] on. *)
Fixpoint ram (a : Z) (n : nat) : mem :=
  match n with
  | O => ∅
  | S n' => <[a := 0]> (ram (a + 8) n')
  end.

#[global] Arguments fill : simpl never.
#[global] Arguments ram : simpl never.
#[global] Arguments loop : simpl never.
#[global] Arguments ptr_add : simpl never.
#[global] Arguments byte_add : simpl never.

(** ** Weakest preconditions

    [wp e s Q P]: run from [s], the code [e] returns with [Q], or panics when
    [P]; it never faults and never runs out of fuel. *)
Definition wp {S A} (e : M S A) (s : S) (Q : A → S → Prop) (P : Prop) : Prop :=
  match e s with
  | Done (a, s') => Q a s'
  | Panic => P
  | Fault => False
  | Diverge => False
  end.

Section wp_rules.
Context {S : Type}.

Lemma wp_ret {A} (a : A) (s : S) Q P : Q a s → wp (mret a) s Q P.
Proof. done. Qed.

Lemma wp_bind {A B} (e : M S A) (k : A → M S B) s Q P :
  wp e s (λ a s', wp (k a) s' Q P) P → wp (x ← e; k x) s Q P.
Proof.
  unfold wp, mbind, M_bind. by destruct (e s) as [[a s']| | |].
Qed.

Lemma wp_mono {A} (e : M S A) s (Q Q' : A → S → Prop) (P P' : Prop) :
  wp e s Q P → (∀ a s', Q a s' → Q' a s') → (P → P') → wp e s Q' P'.
Proof. unfold wp. destruct (e s) as [[a s']| | |]; naive_solver. Qed.

(** Without a panic condition, a [wp] is a run that returns. *)
Lemma wp_done {A} (e : M S A) s Q :
  wp e s Q False ↔ ∃ a s', e s = Done (a, s') ∧ Q a s'.
Proof.
  unfold wp. destruct (e s) as [[a s']| | |]; split.
  all: try (intros (? & ? & [=] & ?); by subst).
  all: try done. eauto.
Qed.

Lemma wp_panic {A} s Q (P : Prop) : P → wp (panic : M S A) s Q P.
Proof. done. Qed.

Lemma wp_assert b s (Q : unit → S → Prop) P :
  (b = true → Q () s) → (b = false → P) → wp (assert b) s Q P.
Proof. destruct b; unfold assert; [intros H _; by apply H | intros _ H; by apply H]. Qed.

Lemma wp_assert_true b s (Q : unit → S → Prop) P :
  b = true → Q () s → wp (assert b) s Q P.
Proof. intros -> ?. by apply wp_ret. Qed.

(** One turn of a loop. *)
Lemma wp_loop_turn {X R} (body : X → M S (X + R)) n x s Q P :
  wp (body x) s (λ r s',
    match r with inl x' => wp (loop n body x') s' Q P | inr y => Q y s' end) P →
  wp (loop (Datatypes.S n) body x) s Q P.
Proof.
  intros H. unfold loop. fold (@loop S X R). apply wp_bind.
  eapply wp_mono; [exact H | | done]. intros [x'|y] s' H'; [done | by apply wp_ret].
Qed.

(** A loop is run by an invariant and a measure below its fuel. *)
Lemma wp_loop {X R} (I : X → S → Prop) (μ : X → S → nat)
    (body : X → M S (X + R)) n x s Q P :
  (∀ x s, I x s →
    wp (body x) s (λ r s',
      match r with
      | inl x' => I x' s' ∧ (μ x' s' < μ x s)%nat
      | inr y => Q y s'
      end) P) →
  I x s → (μ x s < n)%nat → wp (loop n body x) s Q P.
Proof.
  intros Hbody. revert x s. induction n as [|n IH]; intros x s HI Hn; [lia|].
  apply wp_loop_turn. eapply wp_mono; [by apply Hbody | | done].
  intros [x'|y] s' H; simpl in H; [|done].
  destruct H as [HI' Hμ]. apply IH; [done | lia].
Qed.

Section arithmetic.
Context {cfg : Config}.

Lemma wp_checked x s (Q : Z → S → Prop) P :
  is_u64 x → Q x s → wp (checked x) s Q P.
Proof.
  intros [H1 H2] HQ. unfold checked.
  rewrite (proj2 (Z.leb_le _ _) H1), (proj2 (Z.ltb_lt _ _) H2). by apply wp_ret.
Qed.

Lemma wp_u_add a b s (Q : Z → S → Prop) P :
  is_u64 (a + b) → Q (a + b) s → wp (u_add a b) s Q P.
Proof. apply wp_checked. Qed.

Lemma wp_u_sub a b s (Q : Z → S → Prop) P :
  is_u64 (a - b) → Q (a - b) s → wp (u_sub a b) s Q P.
Proof. apply wp_checked. Qed.

Lemma wp_u_mul a b s (Q : Z → S → Prop) P :
  is_u64 (a * b) → Q (a * b) s → wp (u_mul a b) s Q P.
Proof. apply wp_checked. Qed.

(** Out of range: a panic under overflow checks, reduction without them. *)
Lemma wp_checked_panic x s (Q : Z → S → Prop) (P : Prop) :
  overflow_checks = true → ¬ is_u64 x → P → wp (checked x) s Q P.
Proof.
  intros Hc Hx HP. unfold checked. rewrite Hc.
  destruct (Z.leb_spec 0 x), (Z.ltb_spec x u64_size); try by apply wp_panic.
  by destruct Hx.
Qed.

Lemma wp_checked_wrap x s (Q : Z → S → Prop) P :
  overflow_checks = false → Q (wrap x) s → wp (checked x) s Q P.
Proof.
  intros Hc HQ. unfold checked. rewrite Hc.
  destruct (Z.leb_spec 0 x), (Z.ltb_spec x u64_size); simpl;
    try (by apply wp_ret). by rewrite wrap_small in HQ.
Qed.

End arithmetic.
End wp_rules.

Lemma wp_zoom {S T A} (get : T → S) put (e : M S A) t Q P :
  wp e (get t) (λ a s, Q a (put s t)) P → wp (zoom get put e) t Q P.
Proof. unfold wp, zoom. by destruct (e (get t)) as [[a s]| | |]. Qed.

(** A panic, as a [wp] that never returns. *)
Lemma wp_panics {S A} (e : M S A) s : wp e s (λ _ _, False) True ↔ e s = Panic.
Proof. unfold wp. by destruct (e s) as [[a s']| | |]. Qed.

(** An exact run, as a [wp]. *)
Lemma wp_exact {S A} (e : M S A) s a s' :
  wp e s (λ b t, b = a ∧ t = s') False ↔ e s = Done (a, s').
Proof.
  unfold wp. destruct (e s) as [[b t]| | |]; split; try done.
  - by intros [-> ->].
  - by intros [= -> ->].
Qed.

(** The rest of a run after a step that returns. *)
Lemma bind_done {S A B} (e : M S A) (k : A → M S B) s a s' :
  e s = Done (a, s') → (x ← e; k x) s = k a s'.
Proof. unfold mbind, M_bind. by intros ->. Qed.

(** A loop that comes back to where it was never ends. *)
Lemma loop_stuck {S X R} (body : X → M S (X + R)) n x s :
  body x s = Done (inl x, s) → loop n body x s = Diverge.
Proof.
  intros Hb. induction n as [|n IH]; [done|].
  unfold loop. fold (@loop S X R). by rewrite (bind_done _ _ _ _ _ Hb).
Qed.

(** ** Memory lemmas *)

(** An address that can be accessed. *)
Definition valid (m : mem) (a : Z) : Prop := a mod 8 = 0 ∧ is_Some (m !! a).

Lemma wp_read a m v (Q : Z → mem → Prop) P :
  a mod 8 = 0 → m !! a = Some v → Q v m → wp (read a) m Q P.
Proof. intros Ha Hm HQ. unfold wp, read. by rewrite Ha, Hm. Qed.

Lemma wp_write a v m (Q : unit → mem → Prop) P :
  a mod 8 = 0 → is_Some (m !! a) → Q () (<[a := v]> m) → wp (write a v) m Q P.
Proof. intros Ha [w Hm] HQ. unfold wp, write. by rewrite Ha, Hm. Qed.

Lemma ptr_add_small p k : is_u64 (p + 8 * k) → ptr_add p k = p + 8 * k.
Proof. apply wrap_small. Qed.

Lemma byte_add_small p k : is_u64 (p + k) → byte_add p k = p + k.
Proof. apply wrap_small. Qed.

(** The words of a range. *)
Definition in_words (a : Z) (n : Z) (b : Z) : bool :=
  (a <=? b) && (b <? a + 8 * n) && (b mod 8 =? 0).

Lemma in_words_spec a n b :
  in_words a n b = true ↔ a ≤ b < a + 8 * n ∧ b mod 8 = 0.
Proof. unfold in_words. rewrite !andb_true_iff, Z.leb_le, Z.ltb_lt, Z.eqb_eq. tauto. Qed.

(** [fill] writes the words of its range and nothing else. *)
Lemma wp_fill n a v m (Q : unit → mem → Prop) P :
  a mod 8 = 0 → 0 ≤ a → a + 8 * Z.of_nat n < u64_size →
  (∀ b, in_words a (Z.of_nat n) b = true → is_Some (m !! b)) →
  (∀ m', (∀ b, m' !! b = if in_words a (Z.of_nat n) b then Some v else m !! b) → Q () m') →
  wp (fill a v n) m Q P.
Proof.
  revert a m. induction n as [|n IH]; intros a m Ha H0 Hn Hm HQ.
  - apply wp_ret, HQ. intros b. destruct (in_words a _ b) eqn:E; [|done].
    apply in_words_spec in E. lia.
  - change (fill a v (S n)) with (write a v ;; fill (ptr_add a 1) v n).
    apply wp_bind, wp_write; [done | |].
    { apply Hm, in_words_spec. lia. }
    rewrite ptr_add_small by (unfold is_u64; lia).
    replace (a + 8 * 1) with (a + 8) by lia.
    apply IH; [zdm | lia | lia | |].
    + intros b Hb. apply in_words_spec in Hb.
      rewrite lookup_insert_ne by lia. apply Hm, in_words_spec. lia.
    + intros m' Hm'. apply HQ. intros b. rewrite Hm'.
      destruct (in_words (a + 8) _ b) eqn:E1, (in_words a _ b) eqn:E2; try done.
      * apply in_words_spec in E1. exfalso.
        apply not_true_iff_false in E2. apply E2, in_words_spec. lia.
      * apply in_words_spec in E2. assert (b = a) as ->; [|apply lookup_insert_eq].
        apply not_true_iff_false in E1.
        destruct (decide (b = a)); [done|]. exfalso. apply E1, in_words_spec.
        split; [|tauto]. assert (a + 8 ≤ b) by zdm. lia.
      * apply lookup_insert_ne. intros ->.
        apply not_true_iff_false in E2. apply E2, in_words_spec. lia.
Qed.

Lemma ram_lookup n a b : a mod 8 = 0 →
  ram a n !! b = if in_words a (Z.of_nat n) b then Some 0 else None.
Proof.
  revert a. induction n as [|n IH]; intros a Ha.
  - unfold ram. rewrite lookup_empty. destruct (in_words a _ b) eqn:E; [|done].
    apply in_words_spec in E. lia.
  - change (ram a (S n)) with (<[a := 0]> (ram (a + 8) n)).
    destruct (decide (b = a)) as [->|Hne].
    + rewrite lookup_insert_eq. rewrite (proj2 (in_words_spec _ _ _)); [done|lia].
    + rewrite lookup_insert_ne by done. rewrite IH by zdm.
      assert (in_words (a + 8) (Z.of_nat n) b = in_words a (Z.of_nat (S n)) b) as ->; [|done].
      apply eq_true_iff_eq. rewrite !in_words_spec.
      split; intros [? ?]; (split; [|done]); [lia|].
      assert (a + 8 ≤ b) by zdm. lia.
Qed.

#[global] Opaque wp.

(** ** Stepping through code

    [wp_step] makes the next step of the program: a bind, a return, an
    arithmetic operation whose range [lia] settles, an assertion that holds. *)
Ltac u64_range := unfold is_u64 in *; rewrite ?u64_size_eq in *; lia.

Ltac wp_step :=
  lazymatch goal with
  | |- wp (mbind _ _) _ _ _ => apply wp_bind
  | |- wp (mret _) _ _ _ => apply wp_ret
  | |- wp (u_add _ _) _ _ _ => apply wp_u_add; [u64_range|]
  | |- wp (u_sub _ _) _ _ _ => apply wp_u_sub; [u64_range|]
  | |- wp (u_mul _ _) _ _ _ => apply wp_u_mul; [u64_range|]
  | |- wp (assert _) _ _ _ => apply wp_assert_true; [first [lia | reflexivity]|]
  end; cbn beta iota.

Ltac wp_steps := repeat wp_step.
