(* ===== verification/Param.v ===== *)
(** * System parameters and memory layout (src/hw/param.rs)

    The constants of the module, and the linker symbols its getters return as
    the fields of a record: their addresses are chosen by the linker script
    [kernel.ld], whose promises about them are [layout_ok]. *)

From S2P Require Import Prelude Machine.

Definition CLINT_BASE : Z := 0x2000000.
Definition UART_BASE : Z := 0x10000000.
Definition DRAM_BASE : Z := 0x80000000.
Definition PAGE_SIZE : Z := 4096.
Definition NHART : Z := 2.

(** The getters [text_end], [bss_end], ... of the linker symbols. *)
Record Layout : Type := mkLayout {
  text_end : Z;
  rodata_end : Z;
  data_end : Z;
  stacks_start : Z;
  stacks_end : Z;
  intstacks_start : Z;
  intstacks_end : Z;
  bss_start : Z;
  bss_end : Z;
  dram_end : Z
}.

(** ** Pages *)

Definition page_aligned (a : Z) : Prop := a mod PAGE_SIZE = 0.

#[export] Instance page_aligned_dec a : Decision (page_aligned a) := Z.eq_dec _ _.

(** The page an address lies in. *)
Definition page_of (a : Z) : Z := a - a mod PAGE_SIZE.

(** The sections of [kernel.ld] in their order, page aligned, the stacks of
    [NHART] harts, a guard page before [.bss], and 128M of memory. *)
Record layout_ok (L : Layout) : Prop := {
  lo_text : DRAM_BASE < text_end L;
  lo_rodata : text_end L ≤ rodata_end L;
  lo_data : rodata_end L ≤ data_end L;
  lo_stacks : stacks_start L = data_end L;
  lo_stacks_end : stacks_end L = stacks_start L + PAGE_SIZE * 3 * NHART;
  lo_intstacks : intstacks_start L = stacks_end L;
  lo_intstacks_end : intstacks_end L = intstacks_start L + PAGE_SIZE * 4 * NHART;
  lo_bss : bss_start L = intstacks_end L + PAGE_SIZE;
  lo_bss_end : bss_start L ≤ bss_end L;
  lo_dram : dram_end L = DRAM_BASE + 128 * 1024 * 1024;
  lo_dram_end : bss_end L ≤ dram_end L;
  lo_al_text : page_aligned (text_end L);
  lo_al_rodata : page_aligned (rodata_end L);
  lo_al_data : page_aligned (data_end L);
  lo_al_bss : page_aligned (bss_end L)
}.

Lemma page_of_aligned a : page_aligned (page_of a).
Proof. unfold page_of, page_aligned, PAGE_SIZE. zdm. Qed.

Lemma page_of_id a : page_aligned a → page_of a = a.
Proof. unfold page_of, page_aligned. lia. Qed.

Lemma page_of_bounds a : page_of a ≤ a < page_of a + PAGE_SIZE.
Proof. unfold page_of, PAGE_SIZE. zdm. Qed.

Lemma page_of_unique p a :
  page_aligned p → p ≤ a < p + PAGE_SIZE → page_of a = p.
Proof. unfold page_of, page_aligned, PAGE_SIZE. zdm. Qed.

Lemma page_aligned_add p k :
  page_aligned p → page_aligned (p + PAGE_SIZE * k).
Proof. unfold page_aligned, PAGE_SIZE. zdm. Qed.

Lemma page_aligned_8 p : page_aligned p → p mod 8 = 0.
Proof. unfold page_aligned, PAGE_SIZE. zdm. Qed.

(** Distinct pages are a page apart. *)
Lemma page_aligned_lt p q :
  page_aligned p → page_aligned q → p < q → p + PAGE_SIZE ≤ q.
Proof. unfold page_aligned, PAGE_SIZE. zdm. Qed.

#[export] Hint Resolve page_of_aligned page_aligned_8 page_aligned_add : reedos.
