(* ===== verification/Mutex.v ===== *)
(** * The spinlock (src/lock/mutex.rs)

    [Mutex] as one hart runs it, and, for several harts, the step relation of
    the atomic operations it is made of: the swap that acquires, the accesses to
    the protected value through the guard, and the store that releases. *)

From S2P Require Import Prelude Machine.

(** [AtomicU32] lock state, 0 unlocked and 1 locked, and the protected value. *)
Record Mutex (T : Type) : Type := mkMutex {
  lock_state : Z;
  inner : T
}.
Arguments mkMutex {T} _ _.
Arguments lock_state {T} _.
Arguments inner {T} _.

Definition Mutex_new {T} (value : T) : Mutex T := mkMutex 0 value.

(** The atomic [swap(1, Acquire)]: the old state, and the mutex locked. *)
Definition swap1 {T} (mu : Mutex T) : Z * Mutex T :=
  (lock_state mu, mkMutex 1 (inner mu)).

(** [while self.lock_state.swap(1) == 1 { spin_loop() }], then the guard. *)
Definition lock {S T} {cfg : Config} (mu : Mutex T) : M S (Mutex T) :=
  loop fuel (λ mu,
    let '(old, mu') := swap1 mu in
    mret (if old =? 1 then inl mu' else inr mu')) mu.

(** [Deref], [DerefMut] and [Drop] of the guard. *)
Definition deref {T} (mu : Mutex T) : T := inner mu.
Definition deref_mut {T} (v : T) (mu : Mutex T) : Mutex T := mkMutex (lock_state mu) v.
Definition guard_drop {T} (mu : Mutex T) : Mutex T := mkMutex 0 (inner mu).

Lemma wp_lock {S T} {cfg : Config} (mu : Mutex T) (s : S) Q P :
  (0 < fuel)%nat → lock_state mu = 0 → Q (mkMutex 1 (inner mu)) s →
  wp (lock mu) s Q P.
Proof.
  intros Hf H0 HQ. unfold lock. destruct fuel as [|n]; [lia|].
  apply wp_bind, wp_ret. rewrite H0. by apply wp_ret.
Qed.

(** A hart that locks a mutex it already holds spins for ever. *)
Lemma lock_held {S T} {cfg : Config} (mu : Mutex T) (s : S) :
  lock_state mu = 1 → lock mu s = Diverge.
Proof.
  unfold lock. generalize fuel. intros n H. revert mu H.
  induction n as [|n IH]; intros mu H; [done|].
  unfold loop at 1. unfold mbind at 1, M_bind, swap1. rewrite H. by apply IH.
Qed.

(** ** Several harts *)

Section harts.
Context {T : Type}.

(** Where a hart is. A critical section computes [f] of the protected value: it
    reads through [deref], then writes through [deref_mut], then drops the
    guard; these are separate steps, between which other harts run. *)
Inductive pc : Type :=
  | Outside
  | Spinning (f : T → T)
  | Acquired (f : T → T)
  | Loaded (f : T → T) (v : T)
  | Stored.

(** The mutex, the harts, and the updates in the order of their stores. *)
Record config : Type := mkConfig {
  mutex : Mutex T;
  harts : list pc;
  history : list (T → T)
}.

(** One atomic step of hart [i]. *)
Inductive hart_step (i : nat) : config → config → Prop :=
  | step_enter c f :
      harts c !! i = Some Outside →
      hart_step i c (mkConfig (mutex c) (<[i := Spinning f]> (harts c)) (history c))
  | step_swap c f old mu :
      harts c !! i = Some (Spinning f) → swap1 (mutex c) = (old, mu) →
      hart_step i c (mkConfig mu
        (<[i := if old =? 1 then Spinning f else Acquired f]> (harts c)) (history c))
  | step_load c f :
      harts c !! i = Some (Acquired f) →
      hart_step i c (mkConfig (mutex c)
        (<[i := Loaded f (deref (mutex c))]> (harts c)) (history c))
  | step_store c f v :
      harts c !! i = Some (Loaded f v) →
      hart_step i c (mkConfig (deref_mut (f v) (mutex c))
        (<[i := Stored]> (harts c)) (history c ++ [f]))
  | step_drop c :
      harts c !! i = Some Stored →
      hart_step i c (mkConfig (guard_drop (mutex c)) (<[i := Outside]> (harts c)) (history c)).

Definition step (c c' : config) : Prop := ∃ i, hart_step i c c'.

Definition holds (p : pc) : Prop :=
  match p with Outside | Spinning _ => False | _ => True end.

#[export] Instance holds_dec p : Decision (holds p).
Proof. destruct p; simpl; apply _. Defined.

(** [n] harts outside of the lock. *)
Definition start (n : nat) (v : T) : config :=
  mkConfig (Mutex_new v) (replicate n Outside) [].

(** The updates one after the other, with no interleaving. *)
Definition replay (fs : list (T → T)) (v : T) : T := fold_left (λ v f, f v) fs v.

(** The invariant: the lock word is a bit, it is set exactly when a hart is in
    its critical section, that hart is alone there, its copy is current, and the
    value is the replay of the history. *)
Record lock_inv (v0 : T) (c : config) : Prop := {
  li_bit : lock_state (mutex c) = 0 ∨ lock_state (mutex c) = 1;
  li_free : lock_state (mutex c) = 0 → ∀ i p, harts c !! i = Some p → ¬ holds p;
  li_held : lock_state (mutex c) = 1 → ∃ i p, harts c !! i = Some p ∧ holds p;
  li_excl : ∀ i j p q, harts c !! i = Some p → harts c !! j = Some q →
    holds p → holds q → i = j;
  li_fresh : ∀ i f v, harts c !! i = Some (Loaded f v) → v = inner (mutex c);
  li_value : inner (mutex c) = replay (history c) v0
}.

Lemma lock_inv_start n v : lock_inv v (start n v).
Proof.
  split; simpl; [by left | | done | | | done];
    intros; repeat match goal with
    | H : replicate _ _ !! _ = Some _ |- _ => apply lookup_replicate in H as [? _]; subst
    end; naive_solver.
Qed.

(** Case analysis on which hart a lookup in the stepped list is about. *)
Ltac hart_cases :=
  repeat match goal with
  | H : <[_ := _]> _ !! _ = Some _ |- _ =>
      apply list_lookup_insert_Some in H as [(? & ? & _) | [? H]]; simplify_eq
  end.

(** A step that leaves the lock word alone and keeps who is in the critical
    section keeps the exclusion half of the invariant. *)
Lemma keep_excl (hs : list pc) i p p' :
  hs !! i = Some p → (holds p' → holds p) →
  (∀ i j p q, hs !! i = Some p → hs !! j = Some q → holds p → holds q → i = j) →
  ∀ j k q r, <[i := p']> hs !! j = Some q → <[i := p']> hs !! k = Some r →
    holds q → holds r → j = k.
Proof. intros Hi Hp Hex j k q r Hq Hr ??. hart_cases; eauto. Qed.

(** Nor does it matter to the other half. *)
Lemma keep_held (hs : list pc) i p p' :
  hs !! i = Some p → (holds p → holds p') →
  (∃ j q, hs !! j = Some q ∧ holds q) → ∃ j q, <[i := p']> hs !! j = Some q ∧ holds q.
Proof.
  intros Hi Hp (j & q & Hj & Hq). destruct (decide (j = i)) as [->|Hne].
  - exists i, p'. simplify_eq. split; [|auto]. by eapply list_lookup_insert_eq, lookup_lt_Some.
  - exists j, q. by rewrite list_lookup_insert_ne.
Qed.

Lemma lock_inv_step v0 c c' : lock_inv v0 c → step c c' → lock_inv v0 c'.
Proof.
  intros [Hbit Hfree Hheld Hexcl Hfresh Hval] [i Hstep].
  inversion Hstep as [? f Hi | ? f old mu Hi Hsw | ? f Hi | ? f v Hi | ? Hi];
    subst; simpl.
  - split; simpl; [done | | intros H1; eapply keep_held; eauto | by eapply keep_excl | | done].
    + intros H0 j p Hp. hart_cases; [tauto | eauto].
    + intros j g w Hp. hart_cases; eauto.
  - injection Hsw as <- <-. split; simpl; [by right | done | | | | done].
    + intros _. destruct Hbit as [H0|H1].
      * rewrite H0. exists i, (Acquired f). split; [|done]. by eapply list_lookup_insert_eq, lookup_lt_Some.
      * rewrite H1. eapply keep_held; eauto.
    + destruct Hbit as [H0|H1].
      * specialize (Hfree H0). rewrite H0. intros j k p q Hj Hk Hp Hq. simpl in *.
        hart_cases; try done; exfalso; by eapply Hfree.
      * rewrite H1. by eapply keep_excl.
    + intros j g w Hp. destruct (_ =? _); hart_cases; eauto.
  - split; simpl; [done | | intros H1; eapply keep_held; eauto | by eapply keep_excl | | done].
    + intros H0. destruct (Hfree H0 _ _ Hi). done.
    + intros j g w Hp. hart_cases; eauto.
  - rewrite (Hfresh _ _ _ Hi).
    split; simpl; [done | | intros H1; eapply keep_held; eauto | by eapply keep_excl | |].
    + intros H0. destruct (Hfree H0 _ _ Hi). done.
    + intros j g w Hp. hart_cases.
      assert (i = j) by (eapply Hexcl; [exact Hi | exact Hp | done | done]). congruence.
    + unfold replay. rewrite fold_left_app. simpl. by rewrite Hval.
  - split; simpl; [by left | | done | by eapply keep_excl | | done].
    + intros _ j p Hp. hart_cases; [tauto|]. intros Hh.
      assert (i = j) by (eapply Hexcl; [exact Hi | exact Hp | done | done]). congruence.
    + intros j g w Hp. hart_cases; eauto.
Qed.

Lemma lock_inv_reachable n v c : rtc step (start n v) c → lock_inv v c.
Proof.
  intros H. remember (start n v) as c0 eqn:E.
  assert (lock_inv v c0) as Hc0 by (subst; apply lock_inv_start).
  clear E. induction H; eauto using lock_inv_step.
Qed.

(** C11: for any number of harts and any interleaving of their atomic steps, at
    most one hart is between acquiring the lock and dropping its guard. *)
Theorem mutual_exclusion n v c i j p q :
  rtc step (start n v) c →
  harts c !! i = Some p → harts c !! j = Some q → holds p → holds q → i = j.
Proof. intros H. apply (lock_inv_reachable _ _ _ H). Qed.

(** C12: the value behind the lock is always the result of applying the critical
    sections whole, one after the other, in the order in which they stored: no
    update is lost although each one reads and writes in separate steps. *)
Theorem critical_sections_atomic n v c :
  rtc step (start n v) c → inner (mutex c) = replay (history c) v.
Proof. intros H. apply (lock_inv_reachable _ _ _ H). Qed.

End harts.

(** ** A contended run: hart 0 holds the lock, hart 1 has tried to take it *)

Definition contended : config :=
  mkConfig (mkMutex 1 5) [Acquired (Z.add 1); Spinning (Z.mul 2)] [].

Lemma contended_reachable : rtc step (start 2 5) contended.
Proof.
  eapply rtc_l; [exists 0%nat; by apply (step_enter _ _ (Z.add 1))|].
  eapply rtc_l; [exists 1%nat; by apply (step_enter _ _ (Z.mul 2))|].
  eapply rtc_l; [exists 0%nat; by eapply step_swap|].
  eapply rtc_l; [exists 1%nat; by eapply step_swap|]. apply rtc_refl.
Qed.

Lemma mutual_exclusion_witness : (0 = 0)%nat.
Proof.
  apply (mutual_exclusion 2 5 contended 0 0 (Acquired (Z.add 1)) (Acquired (Z.add 1)));
    [exact contended_reachable | reflexivity | reflexivity | exact I | exact I].
Defined.

(** Hart 0 has stored, hart 1 is still waiting. *)
Definition one_stored : config :=
  mkConfig (mkMutex 1 6) [Stored; Spinning (Z.mul 2)] [Z.add 1].

Lemma critical_sections_atomic_witness : inner (mutex one_stored) = replay [Z.add 1] 5.
Proof.
  apply (critical_sections_atomic 2 5 one_stored).
  transitivity contended; [exact contended_reachable|].
  eapply rtc_l; [exists 0%nat; by apply (step_load _ _ (Z.add 1))|].
  eapply rtc_l; [exists 0%nat; by eapply step_store|]. apply rtc_refl.
Defined.
