(* ===== verification/LockLiveness.v ===== *)
(** * The spinlock: liveness (src/lock/mutex.rs)

    Infinite executions of the harts of [Mutex]: a fair scheduler never leaves a hart
    inside the code of the lock without a turn. The lock does not promise that a given
    hart gets it, but no hart waits while all the others do nothing. *)

From S2P Require Import Prelude Machine Mutex.

Section liveness.
Context {T : Type} (v0 : T) (n : nat).

(** An execution: at each tick one hart makes a step, or nothing happens. *)
Record execution (σ : nat → config (T := T)) : Prop := {
  ex_start : σ 0%nat = start n v0;
  ex_step : ∀ k, σ (S k) = σ k ∨ ∃ i, hart_step i (σ k) (σ (S k))
}.

(** From every tick on, a hart is outside of the lock or makes a step. *)
Definition fair (σ : nat → config (T := T)) : Prop :=
  ∀ i k, (i < n)%nat → ∃ k', (k ≤ k')%nat ∧
    (harts (σ k') !! i = Some Outside ∨ hart_step i (σ k') (σ (S k'))).

(** At tick [k] hart [j] gets the lock to run [f]. *)
Definition acquires (σ : nat → config (T := T)) (k j : nat) (f : T → T) : Prop :=
  harts (σ k) !! j = Some (Spinning f) ∧ harts (σ (S k)) !! j = Some (Acquired f).

Context (σ : nat → config (T := T)) (Hex : execution σ).

Lemma exec_reachable k : rtc step (start n v0) (σ k).
Proof using Hex.
  induction k as [|k IH]; [by rewrite (ex_start _ Hex)|].
  destruct (ex_step _ Hex k) as [->|[i H]]; [done|]. eapply rtc_r; [done | by exists i].
Qed.

Lemma exec_inv k : lock_inv v0 (σ k).
Proof using Hex. eapply lock_inv_reachable, exec_reachable. Qed.

(** The steps of a hart leave the others where they are. *)
Lemma hart_step_other i j c c' :
  hart_step i c c' → i ≠ j → harts (T := T) c' !! j = harts c !! j.
Proof using Type. intros H Hne. destruct H; simpl; by apply list_lookup_insert_ne. Qed.

Lemma hart_step_length i c c' :
  hart_step i c c' → length (harts (T := T) c') = length (harts c).
Proof using Type. intros H. destruct H; simpl; apply length_insert. Qed.

Lemma exec_length k : length (harts (σ k)) = n.
Proof using Hex.
  induction k as [|k IH]; [rewrite (ex_start _ Hex); simpl; apply length_replicate|].
  destruct (ex_step _ Hex k) as [->|[i H]]; [done|]. by rewrite (hart_step_length _ _ _ H).
Qed.

Lemma hart_step_at i c c' p :
  hart_step i c c' → harts (T := T) c !! i = Some p →
  match p with
  | Outside => ∃ f, harts c' !! i = Some (Spinning f)
  | Spinning f => harts c' !! i = Some (if lock_state (mutex c) =? 1 then Spinning f else Acquired f)
  | Acquired f => ∃ v, harts c' !! i = Some (Loaded f v)
  | Loaded f _ => harts c' !! i = Some Stored ∧ history c' = history c ++ [f]
  | Stored => harts c' !! i = Some Outside ∧ lock_state (mutex c') = 0
  end.
Proof using Type.
  intros H Hp. pose proof (lookup_lt_Some _ _ _ Hp).
  inversion H as [? f Hi | ? f old mu Hi Hsw | ? f Hi | ? f v Hi | ? Hi]; subst; simplify_eq;
    simpl; rewrite list_lookup_insert_eq by done; eauto. by injection Hsw as <- _.
Qed.

Lemma history_step i c c' : hart_step i c c' → history (T := T) c `prefix_of` history c'.
Proof using Type. intros H. destruct H; simpl; by (apply prefix_app_r || done). Qed.

Lemma history_grows k k' : (k ≤ k')%nat → history (σ k) `prefix_of` history (σ k').
Proof using Hex.
  intros Hle. induction Hle as [|k' _ IH]; [done|]. etrans; [exact IH|].
  destruct (ex_step _ Hex k') as [->|[i H]]; [done | by eapply history_step].
Qed.

(** While hart [i] is spinning at [k], up to any later tick some hart has got the lock
    or [i] is spinning still. *)
Lemma spinning_until i f k k' :
  harts (σ k) !! i = Some (Spinning f) → (k ≤ k')%nat →
  (∃ l j g, (k ≤ l < k')%nat ∧ acquires σ l j g) ∨ harts (σ k') !! i = Some (Spinning f).
Proof using Hex.
  intros Hk Hle. induction Hle as [|k' Hle IH]; [by right|].
  destruct IH as [(l & j & g & Hl & Ha)|Hi]; [left; exists l, j, g; split; [lia | done]|].
  destruct (ex_step _ Hex k') as [->|[j H]]; [by right|].
  destruct (decide (j = i)) as [->|Hne]; [|right; by rewrite (hart_step_other _ _ _ _ H)].
  pose proof (hart_step_at _ _ _ _ H Hi) as H'. simpl in H'. destruct (_ =? _); [by right|].
  left. exists k', i, f. split; [lia | done].
Qed.

(** A free lock stays free until a hart gets it. *)
Lemma free_until k k' :
  lock_state (mutex (σ k)) = 0 → (k ≤ k')%nat →
  (∃ l j g, (k ≤ l < k')%nat ∧ acquires σ l j g) ∨ lock_state (mutex (σ k')) = 0.
Proof using Hex.
  intros Hk Hle. induction Hle as [|k' Hle IH]; [by right|].
  destruct IH as [(l & j & g & Hl & Ha)|H0]; [left; exists l, j, g; split; [lia | done]|].
  destruct (ex_step _ Hex k') as [->|[j H]]; [by right|].
  inversion H as [c f Hi Hc E | c f old mu Hi Hsw Hc E | c f Hi Hc E | c f v Hi Hc E | c Hi Hc E]; subst;
    try (right; simpl; done).
  left. exists k', j, f. split; [lia|]. split; [done|]. rewrite <- E. simpl.
  injection Hsw as <- <-. rewrite H0. simpl. by eapply list_lookup_insert_eq, lookup_lt_Some.
Qed.

Context (Hfair : fair σ).

(** Under a fair scheduler a hart inside the code of the lock makes its next step. *)
Lemma fair_moves i k p :
  harts (σ k) !! i = Some p → p ≠ Outside →
  ∃ k', (k ≤ k')%nat ∧ harts (σ k') !! i = Some p ∧ hart_step i (σ k') (σ (S k')).
Proof using Hex Hfair.
  intros Hi Hp. assert (i < n)%nat as Hn by (rewrite <- (exec_length k); by eapply lookup_lt_Some).
  destruct (Hfair i k Hn) as (e & Hle & He). remember (e - k)%nat as d eqn:Hd.
  revert k Hi Hle Hd. induction d as [|d IH]; intros k Hi Hle Hd.
  - assert (e = k) as -> by lia. exists k. split_and!; [done | done |].
    destruct He as [He|He]; [congruence | done].
  - destruct (ex_step _ Hex k) as [E|[j H]].
    + destruct (IH (S k)) as (k' & ? & ?); [by rewrite E | lia | lia | exists k'; split; [lia | done]].
    + destruct (decide (j = i)) as [->|Hne]; [by exists k|].
      destruct (IH (S k)) as (k' & ? & ?);
        [by rewrite (hart_step_other _ _ _ _ H) | lia | lia | exists k'; split; [lia | done]].
Qed.

(** A hart that has stored drops its guard. *)
Lemma stored_drops i k :
  harts (σ k) !! i = Some Stored →
  ∃ k', (k < k')%nat ∧ harts (σ k') !! i = Some Outside ∧ lock_state (mutex (σ k')) = 0.
Proof using Hex Hfair.
  intros Hi. destruct (fair_moves _ _ _ Hi) as (k' & ? & Hk' & H); [done|].
  exists (S k'). split; [lia | exact (hart_step_at _ _ _ _ H Hk')].
Qed.

(** The whole critical section of a hart: it stores [f] behind the updates that were
    there at [k], is outside at [k'], and the lock is free then. *)
Definition completes (i : nat) (f : T → T) (k k' : nat) : Prop :=
  (k < k')%nat ∧ harts (σ k') !! i = Some Outside ∧ lock_state (mutex (σ k')) = 0 ∧
  ∃ h, history (σ k) `prefix_of` h ∧ h ++ [f] `prefix_of` history (σ k').

Lemma loaded_completes i k f v :
  harts (σ k) !! i = Some (Loaded f v) → ∃ k', completes i f k k'.
Proof using Hex Hfair.
  intros Hi. destruct (fair_moves _ _ _ Hi) as (k1 & H1 & Hk1 & Hs); [done|].
  destruct (hart_step_at _ _ _ _ Hs Hk1) as [H2 Hh].
  destruct (stored_drops _ _ H2) as (k' & ? & Ho & Hl). exists k'. split; [lia|]. split_and!; [done | done |].
  exists (history (σ k1)). split; [by apply history_grows|]. rewrite <- Hh. apply history_grows. lia.
Qed.

Lemma acquired_completes i k f :
  harts (σ k) !! i = Some (Acquired f) → ∃ k', completes i f k k'.
Proof using Hex Hfair.
  intros Hi. destruct (fair_moves _ _ _ Hi) as (k1 & H1 & Hk1 & Hs); [done|].
  destruct (hart_step_at _ _ _ _ Hs Hk1) as [v H2].
  destruct (loaded_completes _ _ _ _ H2) as (k' & ? & Ho & Hl & h & Hp & Hh). exists k'.
  split; [lia|]. split_and!; [done | done |]. exists h. split; [|done].
  etrans; [|exact Hp]. apply history_grows. lia.
Qed.

(** Whoever holds the lock leaves it. *)
Lemma held_released k :
  lock_state (mutex (σ k)) = 1 → ∃ k', (k < k')%nat ∧ lock_state (mutex (σ k')) = 0.
Proof using Hex Hfair.
  intros H1. destruct (li_held _ _ (exec_inv k) H1) as (i & p & Hi & Hp).
  destruct p as [|f|f|f v|]; try done.
  - destruct (acquired_completes _ _ _ Hi) as (k' & ? & _ & ? & _). by exists k'.
  - destruct (loaded_completes _ _ _ _ Hi) as (k' & ? & _ & ? & _). by exists k'.
  - destruct (stored_drops _ _ Hi) as (k' & ? & _ & ?). by exists k'.
Qed.

(** Somebody gets a free lock that a hart is waiting for. *)
Lemma free_acquired i f k :
  harts (σ k) !! i = Some (Spinning f) → lock_state (mutex (σ k)) = 0 →
  ∃ l j g, (k ≤ l)%nat ∧ acquires σ l j g.
Proof using Hex Hfair.
  intros Hi H0. destruct (fair_moves _ _ _ Hi) as (k' & Hle & Hk' & Hs); [done|].
  destruct (free_until k k' H0 Hle) as [(l & j & g & ? & Ha)|H0']; [exists l, j, g; split; [lia | done]|].
  exists k', i, f. split; [done|]. split; [done|].
  pose proof (hart_step_at _ _ _ _ Hs Hk') as E. simpl in E. by rewrite H0' in E.
Qed.

Lemma waiting_acquired i f k :
  harts (σ k) !! i = Some (Spinning f) → ∃ l j g, (k ≤ l)%nat ∧ acquires σ l j g.
Proof using Hex Hfair.
  intros Hi. destruct (li_bit _ _ (exec_inv k)) as [H0|H1]; [by eapply free_acquired|].
  destruct (held_released _ H1) as (k' & Hk & H0).
  destruct (spinning_until _ _ _ k' Hi) as [(l & j & g & ? & Ha)|Hi'];
    [lia | exists l, j, g; split; [lia | done] |].
  destruct (free_acquired _ _ _ Hi' H0) as (l & j & g & ? & Ha). exists l, j, g. split; [lia | done].
Qed.

(** C13: the spinlock does not deadlock: in every fair execution, whenever a hart is
    waiting for the lock, some waiting hart gets it later on, applies its update to the
    protected value behind all those that were applied before, and releases the lock. *)
Theorem lock_deadlock_free i f k :
  harts (σ k) !! i = Some (Spinning f) →
  ∃ k1 j g k2, (k ≤ k1)%nat ∧ acquires σ k1 j g ∧ completes j g k1 k2.
Proof using Hex Hfair.
  intros Hi. destruct (waiting_acquired _ _ _ Hi) as (k1 & j & g & Hle & Ha).
  destruct (acquired_completes _ _ _ (proj2 Ha)) as (k2 & H2 & Ho & Hl & h & Hp & Hh).
  exists k1, j, g, k2. split_and!; [done | done |]. split; [lia|]. split_and!; [done | done |].
  exists h. split; [|done]. etrans; [|exact Hp]. apply history_grows. lia.
Qed.

End liveness.

(** ** A fair execution: one hart that increments the value for ever *)

Definition solo_next (c : config (T := Z)) : config :=
  match harts c with
  | [Outside] => mkConfig (mutex c) [Spinning (Z.add 1)] (history c)
  | [Spinning f] =>
      mkConfig (swap1 (mutex c)).2 [if (swap1 (mutex c)).1 =? 1 then Spinning f else Acquired f] (history c)
  | [Acquired f] => mkConfig (mutex c) [Loaded f (deref (mutex c))] (history c)
  | [Loaded f v] => mkConfig (deref_mut (f v) (mutex c)) [Stored] (history c ++ [f])
  | [Stored] => mkConfig (guard_drop (mutex c)) [Outside] (history c)
  | _ => c
  end.

Definition solo (k : nat) : config := Nat.iter k solo_next (start 1 0).

Lemma solo_one k : ∃ p, harts (solo k) = [p].
Proof.
  induction k as [|k [p IH]]; [by eexists|]. change (solo (S k)) with (solo_next (solo k)).
  unfold solo_next. rewrite IH. destruct p; by eexists.
Qed.

Lemma solo_steps k : hart_step 0 (solo k) (solo (S k)).
Proof.
  destruct (solo_one k) as [p Hp]. change (solo (S k)) with (solo_next (solo k)).
  destruct (solo k) as [mu hs h]. simpl in Hp. subst hs. unfold solo_next. simpl.
  destruct p as [|f|f|f v|].
  - by apply (step_enter 0 (mkConfig mu [Outside] h)).
  - by apply (step_swap 0 (mkConfig mu [Spinning f] h) f).
  - by apply (step_load 0 (mkConfig mu [Acquired f] h)).
  - by apply (step_store 0 (mkConfig mu [Loaded f v] h)).
  - by apply (step_drop 0 (mkConfig mu [Stored] h)).
Qed.

Lemma solo_execution : execution 0 1 solo.
Proof. split; [done|]. intros k. right. exists 0%nat. apply solo_steps. Qed.

Lemma solo_fair : fair 1 solo.
Proof. intros i k Hi. exists k. split; [done|]. right. assert (i = 0)%nat as -> by lia. apply solo_steps. Qed.

Lemma lock_deadlock_free_witness :
  ∃ k1 j g k2, (11 ≤ k1)%nat ∧ acquires solo k1 j g ∧ completes solo j g k1 k2.
Proof. exact (lock_deadlock_free 0 1 solo solo_execution solo_fair 0 (Z.add 1) 11 eq_refl). Defined.
