(* ===== verification/Palloc.v ===== *)
(** * The physical page allocator (src/vm/palloc.rs)

    The definitions: pages and the links stored in the free ones, the pool and
    its two core routines [alloc_pages] and [free_pages], and the public
    operations of [PagePool], which take the lock around them. A method that
    takes [&mut self] returns the updated value. *)

From S2P Require Import Prelude Machine Param Mutex.

(** [VmError] of src/vm.rs. *)
Inductive VmError : Type :=
  | OutOfPages
  | PartialPalloc
  | PallocFail
  | PfreeFail
  | GNoSpace
  | Koom.

Inductive PageError : Type := NoGap.

#[export] Instance VmError_eq_dec : EqDecision VmError.
Proof. solve_decision. Defined.

Record Page : Type := mkPage { pg_addr : Z }.

(** The free list: head page, and the bounds of the pool. *)
Record Pool : Type := mkPool {
  free : option Page;
  bottom : Z;
  top : Z
}.

Record PagePool : Type := mkPagePool { pool : Mutex Pool }.

Definition set_free (self : Pool) (f : option Page) : Pool :=
  mkPool f (bottom self) (top self).

Definition null : Z := 0.

(** ** Pages *)

Section palloc.
Context {cfg : Config}.

Definition is_multiple {S} (addr size : Z) : M S bool :=
  mask ← u_sub size 1;
  mret (Z.land addr mask =? 0).

Definition Page_from (addr : Z) : Page := mkPage addr.

Definition Page_new (addr : Z) : M mem Page :=
  fill addr 0 512 ;; mret (mkPage addr).

Definition zero (self : Page) : M mem unit := fill (pg_addr self) 0 512.

Definition write_next (self : Page) (next : Z) : M mem unit :=
  write (ptr_add (pg_addr self) 1) next.

Definition write_prev (self : Page) (prev : Z) : M mem unit :=
  write (pg_addr self) prev.

Definition write_free (self : Page) (prev next : Z) : M mem unit :=
  write_prev self prev ;; write_next self next.

Definition read_free (self : Page) : M mem (Z * Z) :=
  prev ← read (pg_addr self);
  next ← read (ptr_add (pg_addr self) 1);
  mret (prev, next).

(** ** The pool *)

(** Links the pages of [bottom, top), [chunk_size] apart. *)
Definition Pool_new (bottom top chunk_size : Z) : M mem Pool :=
  free ← Page_new bottom;
  pa ← u_add bottom chunk_size;
  write_free free null pa ;;
  last ← u_sub top chunk_size;
  loop fuel (λ pa,
    if pa <? top then
      prev_pa ← u_sub pa chunk_size;
      next_pa ← (if pa =? last then mret null else u_add pa chunk_size);
      tmp ← Page_new pa;
      write_free tmp prev_pa next_pa ;;
      pa' ← u_add pa chunk_size;
      mret (inl pa')
    else mret (inr ())) pa ;;
  mret (mkPool (Some free) bottom top).

(** The inner [while] of [alloc_pages]: walk the list while it is contiguous
    and the region is too small. *)
Definition alloc_walk (start_region : Page) (num_pages : Z) (st : Page * Z) :
    M mem ((Page * Z) + result (Page * Z) PageError) :=
  let '(page, next) := st in
  after ← u_add (pg_addr page) 0x1000;
  if next =? after then
    d ← u_sub (pg_addr page) (pg_addr start_region);
    n1 ← u_sub num_pages 1;
    if d / 0x1000 <? n1 then
      let page := Page_from next in
      '(_, next) ← read_free page;
      if next =? 0x0 then mret (inr (Err NoGap))
      else mret (inl (page, next))
    else mret (inr (Ok (page, next)))
  else mret (inr (Ok (page, next))).

(** The outer [while]: until the region is big enough; a gap starts over. *)
Definition alloc_search (num_pages : Z) (st : Page * Z * Page) :
    M mem ((Page * Z * Page) + result (Page * Z * Page) PageError) :=
  let '(page, next, start_region) := st in
  d ← u_sub (pg_addr page) (pg_addr start_region);
  n1 ← u_sub num_pages 1;
  if d / 0x1000 <? n1 then
    r ← loop fuel (alloc_walk start_region num_pages) (page, next);
    match r with
    | Err e => mret (inr (Err e))
    | Ok (page, next) =>
        after ← u_add (pg_addr page) 0x1000;
        let start_region :=
          if next =? after then start_region else Page_from next in
        mret (inl (page, next, start_region))
    end
  else mret (inr (Ok (page, next, start_region))).

(** Zeroes the pages from [cur] to [page]. *)
Definition zero_region (page : Page) (cur : Page) : M mem (Page + unit) :=
  if pg_addr cur <=? pg_addr page then
    zero cur ;;
    a ← u_add (pg_addr cur) 0x1000;
    mret (inl (Page_from a))
  else mret (inr ()).

Definition alloc_pages (self : Pool) (page : Page) (num_pages : Z) :
    M mem (result Page PageError * Pool) :=
  '(prev, next) ← read_free page;
  assert (prev =? null) ;;
  r ← loop fuel (alloc_search num_pages) (page, next, page);
  match r with
  | Err e => mret (Err e, self)
  | Ok (page, next, start_region) =>
      '(sr_prev, _) ← read_free start_region;
      self ←
        (if sr_prev =? null then
           if next =? 0x0 then mret (set_free self None)
           else
             let next_page := Page_from next in
             write_prev next_page null ;;
             mret (set_free self (Some next_page))
         else
           let before_region := sr_prev in
           write_next (Page_from before_region) next ;;
           write_prev (Page_from next) before_region ;;
           mret self);
      loop fuel (zero_region page) start_region ;;
      mret (Ok start_region, self)
  end.

(** Zeroes the pages up to [stop] and links them to each other. *)
Definition link_region (stop : Z) (st : option Page * Page) :
    M mem ((option Page * Page) + unit) :=
  let '(prev_page, curr_page) := st in
  if pg_addr curr_page <? stop then
    zero curr_page ;;
    a ← u_add (pg_addr curr_page) 0x1000;
    let next_page := Page_from a in
    match prev_page with
    | None => write_next curr_page (pg_addr next_page)
    | Some prev =>
        write_prev curr_page (pg_addr prev) ;;
        write_next prev (pg_addr curr_page)
    end ;;
    mret (inl (Some curr_page, next_page))
  else mret (inr ()).

(** Walks to the last free page before [region_end]. *)
Definition find_slot (region_end : Page) (st : Page * Z) :
    M mem ((Page * Z) + (Page * Z)) :=
  let '(head, head_next) := st in
  if negb (head_next =? null) && (head_next <? pg_addr region_end) then
    let head := Page_from head_next in
    '(_, head_next) ← read_free head;
    mret (inl (head, head_next))
  else mret (inr (head, head_next)).

Definition free_pages (self : Pool) (page : Page) (num_pages : Z) : M mem Pool :=
  assert (negb (num_pages =? 0)) ;;
  n1 ← u_sub num_pages 1;
  off ← u_mul n1 0x1000;
  re ← u_add (pg_addr page) off;
  let region_end := Page_from re in
  stop ← u_add (pg_addr region_end) 0x1000;
  loop fuel (link_region stop) (None, page) ;;
  match free self with
  | Some head =>
      if pg_addr region_end <? pg_addr head then
        write_prev head (pg_addr region_end) ;;
        write_next region_end (pg_addr head) ;;
        write_prev page null ;;
        mret (set_free self (Some page))
      else
        '(_, head_next) ← read_free head;
        '(head, head_next) ← loop fuel (find_slot region_end) (head, head_next);
        if head_next =? null then
          write_next region_end null ;;
          write_prev page (pg_addr head) ;;
          write_next head (pg_addr page) ;;
          mret self
        else
          write_next head (pg_addr page) ;;
          write_prev page (pg_addr head) ;;
          write_next region_end head_next ;;
          write_prev (Page_from head_next) (pg_addr region_end) ;;
          mret self
  | None =>
      write_prev page null ;;
      write_next region_end null ;;
      mret (set_free self (Some page))
  end.

(** ** The public operations *)

Definition PagePool_new (bottom top : Z) : M mem PagePool :=
  b ← is_multiple bottom PAGE_SIZE;
  assert b ;;
  t ← is_multiple top PAGE_SIZE;
  assert t ;;
  p ← Pool_new bottom top PAGE_SIZE;
  mret (mkPagePool (Mutex_new p)).

Definition palloc (self : PagePool) : M mem (result Page VmError * PagePool) :=
  mu ← lock (pool self);
  match free (deref mu) with
  | None => mret (Err OutOfPages, mkPagePool (guard_drop mu))
  | Some page =>
      '(r, p) ← alloc_pages (deref mu) page 1;
      let self := mkPagePool (guard_drop (deref_mut p mu)) in
      mret (match r with Err _ => Err OutOfPages | Ok ptr => Ok ptr end, self)
  end.

Definition pfree (self : PagePool) (page : Page) :
    M mem (result unit VmError * PagePool) :=
  b ← is_multiple (pg_addr page) PAGE_SIZE;
  if negb b then panic
  else
    mu ← lock (pool self);
    p ← free_pages (deref mu) page 1;
    mret (Ok (), mkPagePool (guard_drop (deref_mut p mu))).

Definition palloc_plural (self : PagePool) (num_pages : Z) :
    M mem (result Z VmError * PagePool) :=
  assert (negb (num_pages =? 0)) ;;
  mu ← lock (pool self);
  match free (deref mu) with
  | None => mret (Err OutOfPages, mkPagePool (guard_drop mu))
  | Some page =>
      '(r, p) ← alloc_pages (deref mu) page num_pages;
      let self := mkPagePool (guard_drop (deref_mut p mu)) in
      mret (match r with Err _ => Err OutOfPages | Ok ptr => Ok (pg_addr ptr) end, self)
  end.

Definition pfree_plural (self : PagePool) (page num_pages : Z) :
    M mem (result unit VmError * PagePool) :=
  assert (negb (num_pages =? 0)) ;;
  b ← is_multiple page PAGE_SIZE;
  if negb b then panic
  else
    mu ← lock (pool self);
    p ← free_pages (deref mu) (Page_from page) num_pages;
    mret (Ok (), mkPagePool (guard_drop (deref_mut p mu))).

End palloc.
