(* ===== verification/FreeList.v ===== *)
(** * The free list in memory

    The free pages as a sorted list of addresses linked in memory ([dlseg],
    [pool_rep]), contiguous runs of pages, and the frame of an operation on
    memory ([same_outside], [keeps]): the vocabulary of the specification of
    src/vm/palloc.rs. *)

From S2P Require Import Prelude Machine Param Mutex Palloc.

(** ** Doubly linked segments *)

(** The address a list starts with, or the one that follows it. *)
Definition hd_or (next : Z) (l : list Z) : Z := default next (head l).

Definition last_or (prev : Z) (l : list Z) : Z := default prev (last l).

(** The pages [l] linked in memory, [prev] before the first, [next] after the
    last: word 0 of a page holds the previous page, word 1 the next. *)
Fixpoint dlseg (m : mem) (prev : Z) (l : list Z) (next : Z) : Prop :=
  match l with
  | [] => True
  | p :: l' =>
      m !! p = Some prev ∧ m !! (p + 8) = Some (hd_or next l') ∧ dlseg m p l' next
  end.

(** [n] contiguous pages from [p] on. *)
Fixpoint run (p : Z) (n : nat) : list Z :=
  match n with
  | O => []
  | S n' => p :: run (p + PAGE_SIZE) n'
  end.

Lemma list_cases {A} (l : list A) : l = [] ∨ ∃ x k, l = x :: k.
Proof. destruct l; eauto. Qed.

Lemma hd_or_app nx l1 l2 : hd_or nx (l1 ++ l2) = hd_or (hd_or nx l2) l1.
Proof. by destruct l1. Qed.

Lemma last_or_cons pv p l : last_or pv (p :: l) = last_or p l.
Proof. unfold last_or. rewrite last_cons. by destruct (last l). Qed.

Lemma last_or_app pv l p : last_or pv (l ++ [p]) = p.
Proof. unfold last_or. by rewrite last_snoc. Qed.

Lemma dlseg_app m pv l1 l2 nx :
  dlseg m pv (l1 ++ l2) nx ↔
  dlseg m pv l1 (hd_or nx l2) ∧ dlseg m (last_or pv l1) l2 nx.
Proof.
  revert pv. induction l1 as [|p l1 IH]; intros pv; simpl; [tauto|].
  rewrite IH, hd_or_app, last_or_cons. tauto.
Qed.

Lemma dlseg_frame m m' pv l nx :
  (∀ p, p ∈ l → m' !! p = m !! p ∧ m' !! (p + 8) = m !! (p + 8)) →
  dlseg m pv l nx → dlseg m' pv l nx.
Proof.
  revert pv. induction l as [|p l IH]; intros pv Hm; simpl; [done|].
  intros (H1 & H2 & H3). destruct (Hm p) as [-> ->]; [by left|].
  split_and!; [done | done |]. apply IH; [|done]. intros q Hq. apply Hm. by right.
Qed.

Lemma dlseg_lookup m pv l1 p l2 nx :
  dlseg m pv (l1 ++ p :: l2) nx →
  m !! p = Some (last_or pv l1) ∧ m !! (p + 8) = Some (hd_or nx l2).
Proof. intros [_ H]%dlseg_app. simpl in H. tauto. Qed.

(** ** Contiguous runs *)

Lemma run_app p a b : run p (a + b) = run p a ++ run (p + PAGE_SIZE * Z.of_nat a) b.
Proof.
  revert p. induction a as [|a IH]; intros p; simpl.
  - f_equal. lia.
  - rewrite IH. do 3 f_equal. lia.
Qed.

Lemma run_snoc p n : run p (S n) = run p n ++ [p + PAGE_SIZE * Z.of_nat n].
Proof. rewrite <- Nat.add_1_r, run_app. done. Qed.

Lemma length_run p n : length (run p n) = n.
Proof. revert p. induction n; intros p; simpl; auto. Qed.

Lemma elem_of_run q p n :
  q ∈ run p n ↔ ∃ i, 0 ≤ i < Z.of_nat n ∧ q = p + PAGE_SIZE * i.
Proof.
  revert p. induction n as [|n IH]; intros p; simpl.
  - split; [by intros ?%not_elem_of_nil | intros (i & ? & _); lia].
  - rewrite elem_of_cons, IH. split.
    + intros [->|(i & Hi & ->)]; [exists 0; lia | exists (i + 1); lia].
    + intros (i & Hi & ->). destruct (decide (i = 0)) as [->|]; [left; lia|].
      right. exists (i - 1). lia.
Qed.

Lemma last_or_run pv p n :
  last_or pv (run p (S n)) = p + PAGE_SIZE * Z.of_nat n.
Proof. by rewrite run_snoc, last_or_app. Qed.

(** ** Sorted lists of pages *)

Abbreviation sorted := (StronglySorted Z.lt).

Lemma sorted_cons_inv p l : sorted (p :: l) → sorted l ∧ ∀ q, q ∈ l → p < q.
Proof.
  intros [H1 H2]%StronglySorted_inv. split; [done|].
  intros q Hq. by eapply Forall_forall in H2.
Qed.

Lemma sorted_app l1 l2 :
  sorted (l1 ++ l2) ↔ sorted l1 ∧ sorted l2 ∧ ∀ a b, a ∈ l1 → b ∈ l2 → a < b.
Proof.
  induction l1 as [|p l1 IH]; simpl.
  - split; [|tauto]. intros H. split_and!; [constructor | done |].
    by intros a b ?%not_elem_of_nil.
  - split.
    + intros [H1 H2]%sorted_cons_inv. apply IH in H1 as (H3 & H4 & H5).
      split_and!; [|done|].
      * constructor; [done|]. apply Forall_forall. intros q Hq. apply H2. set_solver.
      * intros a b [->|Ha]%elem_of_cons Hb; [apply H2; set_solver | by apply H5].
    + intros ([H1 H2]%sorted_cons_inv & H3 & H4). constructor.
      * apply IH. split_and!; [done | done |]. intros a b ??. apply H4; set_solver.
      * apply Forall_forall. intros q [Hq|Hq]%elem_of_app; [by apply H2|].
        apply H4; set_solver.
Qed.

Lemma sorted_NoDup l : sorted l → NoDup l.
Proof.
  induction 1 as [|p l H IH Hp]; constructor; [|done].
  intros Hin. eapply Forall_forall in Hp; [|done]. lia.
Qed.

Lemma run_sorted p n : sorted (run p n).
Proof.
  revert p. induction n as [|n IH]; intros p; simpl; constructor; [done|].
  apply Forall_forall. intros q (i & ? & ->)%elem_of_run. unfold PAGE_SIZE. lia.
Qed.

(** ** Memory frames *)

(** [m'] differs from [m] only inside the pages of [ps]. *)
Definition same_outside (ps : list Z) (m m' : mem) : Prop :=
  ∀ a, page_of a ∉ ps → m' !! a = m !! a.

(** The page at [p] holds zeroes. *)
Definition page_zero (m : mem) (p : Z) : Prop :=
  ∀ a, p ≤ a < p + PAGE_SIZE → a mod 8 = 0 → m !! a = Some 0.

(** The page at [p] is backed by RAM. *)
Definition page_mapped (m : mem) (p : Z) : Prop :=
  ∀ a, p ≤ a < p + PAGE_SIZE → a mod 8 = 0 → is_Some (m !! a).

Lemma same_outside_refl ps m : same_outside ps m m.
Proof. done. Qed.

Lemma same_outside_trans ps m1 m2 m3 :
  same_outside ps m1 m2 → same_outside ps m2 m3 → same_outside ps m1 m3.
Proof. intros H1 H2 a Ha. by rewrite H2, H1. Qed.

Lemma same_outside_mono ps qs m m' :
  ps ⊆ qs → same_outside ps m m' → same_outside qs m m'.
Proof. intros Hs H a Ha. apply H. set_solver. Qed.

Lemma same_outside_insert ps m a v :
  page_of a ∈ ps → same_outside ps m (<[a := v]> m).
Proof. intros Ha b Hb. apply lookup_insert_ne. by intros ->. Qed.

(** [m'] differs from [m] at most in the pages [ps] and in the words [ws]. *)
Definition written (ps ws : list Z) (m m' : mem) : Prop :=
  ∀ a, page_of a ∉ ps → a ∉ ws → m' !! a = m !! a.

Lemma page_of_word0 p : page_aligned p → page_of p = p.
Proof. apply page_of_id. Qed.

Lemma page_of_word p k : page_aligned p → 0 ≤ k < PAGE_SIZE → page_of (p + k) = p.
Proof. intros. apply page_of_unique; [done | lia]. Qed.

#[export] Hint Resolve same_outside_refl : reedos.

(** The link words of two pages never meet. *)
Lemma word_ne p q : page_aligned p → page_aligned q → p ≠ q + 8.
Proof. unfold page_aligned, PAGE_SIZE. intros. intros ->. zdm. Qed.

Lemma is_Some_insert (m : mem) a b v : is_Some (m !! b) → is_Some (<[a := v]> m !! b).
Proof. intros H. destruct (decide (a = b)) as [->|]; [by rewrite lookup_insert_eq | by rewrite lookup_insert_ne]. Qed.

(** ** The representation of the pool *)

Record pool_rep (m : mem) (P : Pool) (l : list Z) : Prop := {
  pr_bottom : page_aligned (bottom P) ∧ 0 < bottom P;
  pr_top : page_aligned (top P) ∧ top P < u64_size;
  pr_free : free P = mkPage <$> head l;
  pr_sorted : sorted l;
  pr_pages : ∀ p, p ∈ l → page_aligned p ∧ bottom P ≤ p < top P;
  pr_links : dlseg m null l null;
  pr_ram : ∀ a, bottom P ≤ a < top P → a mod 8 = 0 → is_Some (m !! a)
}.

(** The page pool as its clients see it: unlocked, with the free pages [l]. *)
Definition pagepool_rep (m : mem) (pp : PagePool) (l : list Z) : Prop :=
  lock_state (pool pp) = 0 ∧ pool_rep m (inner (pool pp)) l.

Section facts.
Context {m : mem} {P : Pool} {l : list Z} (HP : pool_rep m P l).

Lemma pr_page_top p : p ∈ l → p + PAGE_SIZE ≤ top P.
Proof.
  intros Hp. destruct (pr_pages _ _ _ HP p Hp) as [? [? ?]].
  apply page_aligned_lt; [done | apply HP | done].
Qed.

Lemma pr_page_u64 p k : p ∈ l → 0 ≤ k ≤ PAGE_SIZE → is_u64 (p + k).
Proof.
  intros Hp Hk. pose proof (pr_page_top p Hp). destruct (pr_pages _ _ _ HP p Hp).
  destruct (pr_bottom _ _ _ HP), (pr_top _ _ _ HP). unfold is_u64. lia.
Qed.

Lemma pr_page_valid p k :
  p ∈ l → 0 ≤ k < PAGE_SIZE → k mod 8 = 0 → (p + k) mod 8 = 0 ∧ is_Some (m !! (p + k)).
Proof.
  intros Hp Hk H8. pose proof (pr_page_top p Hp). destruct (pr_pages _ _ _ HP p Hp).
  assert (p mod 8 = 0) by eauto with reedos.
  assert ((p + k) mod 8 = 0) by zdm. split; [done|]. apply HP; [lia | done].
Qed.

Lemma pr_mapped p : p ∈ l → page_mapped m p.
Proof.
  intros Hp a Ha H8. pose proof (pr_page_top p Hp). destruct (pr_pages _ _ _ HP p Hp).
  apply HP; [lia | done].
Qed.

End facts.

(** ** The routines on pages *)

Section wp_pages.
Context {cfg : Config}.

Lemma wp_write_prev p v m (Q : unit → mem → Prop) Pn :
  page_aligned p → is_Some (m !! p) → Q () (<[p := v]> m) →
  wp (write_prev (mkPage p) v) m Q Pn.
Proof. intros. apply wp_write; eauto with reedos. Qed.

Lemma wp_write_next p v m (Q : unit → mem → Prop) Pn :
  page_aligned p → is_u64 (p + 8) → is_Some (m !! (p + 8)) →
  Q () (<[p + 8 := v]> m) → wp (write_next (mkPage p) v) m Q Pn.
Proof.
  intros Hp Hu Hm HQ. unfold write_next. simpl. rewrite ptr_add_small by done.
  apply wp_write; [|done|done]. apply page_aligned_8 in Hp. zdm.
Qed.

Lemma wp_read_free p pv nx m (Q : Z * Z → mem → Prop) Pn :
  page_aligned p → is_u64 (p + 8) → m !! p = Some pv → m !! (p + 8) = Some nx →
  Q (pv, nx) m → wp (read_free (mkPage p)) m Q Pn.
Proof.
  intros Hp Hu H1 H2 HQ. unfold read_free. simpl. rewrite ptr_add_small by done.
  apply page_aligned_8 in Hp.
  eapply wp_bind, wp_read; [done | done |].
  eapply wp_bind, wp_read; [zdm | done |]. by apply wp_ret.
Qed.

(** Zeroing a page. *)
Lemma wp_zero p m (Q : unit → mem → Prop) Pn :
  page_aligned p → 0 ≤ p → p + PAGE_SIZE < u64_size → page_mapped m p →
  (∀ m', page_zero m' p → same_outside [p] m m' → Q () m') →
  wp (zero (mkPage p)) m Q Pn.
Proof.
  intros Hp H0 Hu Hm HQ. unfold zero, PAGE_SIZE in *. simpl.
  apply wp_fill; [eauto with reedos | done | lia | |].
  - intros b [Hb H8]%in_words_spec. apply Hm; [unfold PAGE_SIZE; lia | done].
  - intros m' Hm'. apply HQ.
    + intros a Ha H8. rewrite Hm', (proj2 (in_words_spec _ _ _)); [done|].
      unfold PAGE_SIZE in Ha. lia.
    + intros a Ha. rewrite Hm'. destruct (in_words _ _ a) eqn:E; [|done].
      apply in_words_spec in E as [E1 E2]. exfalso. apply Ha.
      rewrite (page_of_unique p); [set_solver | done | unfold PAGE_SIZE; lia].
Qed.

End wp_pages.

(** ** The memory after an operation *)

(** No word of the RAM goes away. *)
Definition keeps (m m' : mem) : Prop :=
  ∀ a, a mod 8 = 0 → is_Some (m !! a) → is_Some (m' !! a).

Lemma keeps_trans m1 m2 m3 : keeps m1 m2 → keeps m2 m3 → keeps m1 m3.
Proof. unfold keeps. eauto. Qed.

Lemma keeps_insert m a v : keeps m (<[a := v]> m).
Proof. intros b _ Hb. by apply is_Some_insert. Qed.

Lemma keeps_zero ps m m' :
  (∀ q, q ∈ ps → page_zero m' q) → same_outside ps m m' → keeps m m'.
Proof.
  intros Hz Hs a H8 Ha. destruct (decide (page_of a ∈ ps)) as [Hin|Hin].
  - rewrite (Hz _ Hin); [done | | done]. apply page_of_bounds.
  - by rewrite Hs.
Qed.

#[export] Hint Resolve keeps_insert : reedos.

(** A page away from the changed ones keeps its words. *)
Lemma same_outside_word ps m m' p k :
  same_outside ps m m' → page_aligned p → p ∉ ps → 0 ≤ k < PAGE_SIZE →
  m' !! (p + k) = m !! (p + k).
Proof. intros Hs Hp Hn Hk. apply Hs. by rewrite page_of_word. Qed.

Lemma page_zero_frame ps m m' p :
  same_outside ps m m' → page_aligned p → p ∉ ps → page_zero m p → page_zero m' p.
Proof.
  intros Hs Hp Hn Hz a Ha H8. rewrite Hs; [by apply Hz|].
  by rewrite (page_of_unique p).
Qed.

Lemma dlseg_same_outside ps m m' pv l nx :
  same_outside ps m m' → (∀ p, p ∈ l → page_aligned p ∧ p ∉ ps) →
  dlseg m pv l nx → dlseg m' pv l nx.
Proof.
  intros Hs Hl. apply dlseg_frame. intros p Hp. destruct (Hl p Hp) as [Ha Hn].
  split.
  - rewrite <- (Z.add_0_r p).
    apply (same_outside_word ps); [done | done | done | unfold PAGE_SIZE; lia].
  - apply (same_outside_word ps); [done | done | done | unfold PAGE_SIZE; lia].
Qed.

(** Pointing the first page of a segment to another predecessor. *)
Lemma dlseg_set_prev m pv pv' p l nx :
  (∀ q, q ∈ p :: l → page_aligned q) → p ∉ l →
  dlseg m pv (p :: l) nx → dlseg (<[p := pv']> m) pv' (p :: l) nx.
Proof.
  intros Hal Hp (H1 & H2 & H3). simpl.
  rewrite lookup_insert_eq, lookup_insert_ne by lia. split_and!; [done | done |].
  apply dlseg_frame with m; [|done]. intros q Hq. split; apply lookup_insert_ne.
  - intros ->. done.
  - apply word_ne; apply Hal; set_solver.
Qed.

(** Pointing the last page of a segment to another successor. *)
Lemma dlseg_set_next m pv l p nx nx' :
  (∀ q, q ∈ l ++ [p] → page_aligned q) → p ∉ l →
  dlseg m pv (l ++ [p]) nx → dlseg (<[p + 8 := nx']> m) pv (l ++ [p]) nx'.
Proof.
  intros Hal Hp [H1 (H2 & H3 & _)]%dlseg_app. apply dlseg_app. simpl. split_and!.
  - apply dlseg_frame with m; [|done]. intros q Hq. split; apply lookup_insert_ne.
    + apply not_eq_sym, word_ne; apply Hal; set_solver.
    + intros ?. assert (p = q) by lia. by subst.
  - rewrite lookup_insert_ne by lia. done.
  - by rewrite lookup_insert_eq.
  - done.
Qed.

(** Appending a page to a segment. *)
Lemma dlseg_snoc m pv l r q x y :
  (∀ u, u ∈ l ++ [r] → page_aligned u ∧ u ≠ q) → page_aligned q → r ∉ l →
  dlseg m pv (l ++ [r]) x → m !! (q + 8) = Some y →
  dlseg (<[r + 8 := q]> (<[q := r]> m)) pv ((l ++ [r]) ++ [q]) y.
Proof.
  intros Hu Hq Hr Hd Hy. destruct (Hu r) as [Hra Hrq]; [set_solver|].
  apply dlseg_app. rewrite last_or_app. split.
  - eapply dlseg_set_next; [by intros u [? _]%Hu | done |].
    eapply (dlseg_same_outside [q]); [| |exact Hd].
    + apply same_outside_insert. rewrite page_of_id by done. set_solver.
    + intros u [? ?]%Hu. split; [done | set_solver].
  - simpl. split_and!; [| |done].
    + rewrite lookup_insert_ne; [apply lookup_insert_eq|].
      by apply not_eq_sym, word_ne.
    + rewrite !lookup_insert_ne by lia. done.
Qed.

(** Dropping a prefix of the free list. *)
Lemma pool_rep_drop m m' P l1 l :
  pool_rep m P (l1 ++ l) → keeps m m' → dlseg m' null l null →
  pool_rep m' (set_free P (mkPage <$> head l)) l.
Proof.
  intros HP Hk Hl. destruct HP. split; simpl; try done.
  - apply sorted_app in pr_sorted0. tauto.
  - intros p Hp. apply pr_pages0. set_solver.
  - eauto.
Qed.
