(* ===== verification/PallocAlloc.v ===== *)
(** * Allocating pages

    What [alloc_pages] of src/vm/palloc.rs does on every branch: the walk over a
    contiguous run, the region found, the run that ends with the list, and the
    gap that comes too early, under both arithmetic profiles. *)

From S2P Require Import Prelude Machine Param Mutex Palloc FreeList.

(** ** Allocating *)

Section alloc.
Context {cfg : Config} {m : mem} {P : Pool} {l0 : list Z} (HP : pool_rep m P l0).

(** What the free list says about the page at a position. *)
Lemma wp_read_free_at l1 p l2 (Q : Z * Z → mem → Prop) Pn :
  l0 = l1 ++ p :: l2 → Q (last_or null l1, hd_or null l2) m →
  wp (read_free (mkPage p)) m Q Pn.
Proof.
  intros E HQ. assert (p ∈ l0) as Hp by (rewrite E; set_solver).
  pose proof (pr_links _ _ _ HP) as H. rewrite E in H.
  apply dlseg_lookup in H as [H1 H2].
  eapply wp_read_free; [by apply (pr_pages _ _ _ HP) | | done | done | done].
  apply (pr_page_u64 HP); [done | unfold PAGE_SIZE; lia].
Qed.

Lemma wp_read_free_head p l (Q : Z * Z → mem → Prop) Pn :
  l0 = p :: l → Q (null, hd_or null l) m → wp (read_free (mkPage p)) m Q Pn.
Proof. intros E HQ. by apply (wp_read_free_at [] p l). Qed.

Lemma pr_pos p : p ∈ l0 → 0 < p.
Proof. intros Hp. destruct (pr_pages _ _ _ HP p Hp), (pr_bottom _ _ _ HP). lia. Qed.

(** The walk goes on to the next page of the run, or runs off the list... *)
Lemma wp_walk_step s i n p l1 l2 (Q : _ → mem → Prop) Pn :
  l0 = l1 ++ p :: (p + PAGE_SIZE) :: l2 → p = s + PAGE_SIZE * i → 0 ≤ s →
  0 ≤ i < n - 1 → is_u64 n →
  Q (if hd_or null l2 =? 0 then inr (Err NoGap)
     else inl (mkPage (p + PAGE_SIZE), hd_or null l2)) m →
  wp (alloc_walk (mkPage s) n (mkPage p, p + PAGE_SIZE)) m Q Pn.
Proof.
  intros E Hp Hs Hi Hn HQ. unfold alloc_walk. cbn [pg_addr].
  assert (p ∈ l0) as Hin by (rewrite E; set_solver).
  pose proof (pr_page_u64 HP p PAGE_SIZE Hin ltac:(unfold PAGE_SIZE; lia)).
  change 0x1000 with PAGE_SIZE. unfold PAGE_SIZE in *. wp_steps.
  rewrite Z.eqb_refl. wp_steps.
  replace ((p - s) / 4096) with i by (subst p; zdm). settle_bool. wp_steps.
  eapply (wp_read_free_at (l1 ++ [p])); [by rewrite E, <- app_assoc|]. cbn beta iota.
  destruct (_ =? _); by wp_steps.
Qed.

(** ... or stops, at a gap or with enough pages. *)
Lemma wp_walk_stop s i n p next (Q : _ → mem → Prop) Pn :
  p ∈ l0 → p = s + PAGE_SIZE * i → 0 ≤ s → 0 ≤ i → 1 ≤ n → is_u64 n →
  next ≠ p + PAGE_SIZE ∨ n - 1 ≤ i →
  Q (inr (Ok (mkPage p, next))) m →
  wp (alloc_walk (mkPage s) n (mkPage p, next)) m Q Pn.
Proof.
  intros Hin Hp Hs Hi Hn Hu Hstop HQ. unfold alloc_walk. cbn [pg_addr].
  pose proof (pr_page_u64 HP p PAGE_SIZE Hin ltac:(unfold PAGE_SIZE; lia)).
  unfold PAGE_SIZE in *. wp_steps.
  destruct (Z.eqb_spec next (p + 0x1000)); wp_steps; [|done].
  replace ((p - s) / 4096) with i by (subst p; zdm). settle_bool. by wp_steps.
Qed.

(** The walk from the [i]-th page of a region over a run that is long enough. *)
Lemma wp_walk_enough j N s i n p l1 l2 (Q : _ → mem → Prop) Pn :
  l0 = l1 ++ run p (S (S j)) ++ l2 → p = s + PAGE_SIZE * i → 0 ≤ s → 0 ≤ i →
  is_u64 n → n - 1 = i + Z.of_nat j → (j < N)%nat →
  Q (Ok (mkPage (s + PAGE_SIZE * (n - 1)), s + PAGE_SIZE * n)) m →
  wp (loop N (alloc_walk (mkPage s) n) (mkPage p, p + PAGE_SIZE)) m Q Pn.
Proof.
  revert N p i l1. induction j as [|j IH]; intros N p i l1 E Hp Hs Hi Hu Hn HN HQ;
    (destruct N as [|N]; [lia|]); apply wp_loop_turn.
  - eapply (wp_walk_stop _ i); [rewrite E; set_solver | done | done | lia | lia | done | lia |].
    replace (s + PAGE_SIZE * (n - 1)) with p in HQ by (rewrite Hn; lia).
    by replace (s + PAGE_SIZE * n) with (p + PAGE_SIZE) in HQ by lia.
  - eapply (wp_walk_step _ i); [exact E | done | done | lia | done |].
    replace (hd_or null _) with (p + PAGE_SIZE + PAGE_SIZE)
      by reflexivity.
    assert (0 < p) by (apply pr_pos; rewrite E; set_solver).
    unfold PAGE_SIZE at 1 2. settle_bool.
    eapply (IH N _ (i + 1) (l1 ++ [p])); [by rewrite E, <- app_assoc | ..];
      try done; unfold PAGE_SIZE in *; lia.
Qed.

(** The walk over a run that ends too early, at a gap before [q]. *)
Lemma wp_walk_gap k N s i n p q l1 l2 (Q : _ → mem → Prop) Pn :
  l0 = l1 ++ run p (S k) ++ q :: l2 → q ≠ p + PAGE_SIZE * (Z.of_nat k + 1) →
  p = s + PAGE_SIZE * i → 0 ≤ s → 0 ≤ i → is_u64 n → i + Z.of_nat k ≤ n - 1 →
  (k < N)%nat →
  Q (Ok (mkPage (p + PAGE_SIZE * Z.of_nat k), q)) m →
  wp (loop N (alloc_walk (mkPage s) n)
        (mkPage p, hd_or q (run (p + PAGE_SIZE) k))) m Q Pn.
Proof.
  revert N p i l1. induction k as [|k IH];
    intros N p i l1 E Hq Hp Hs Hi Hu Hn HN HQ;
    (destruct N as [|N]; [lia|]); apply wp_loop_turn.
  - eapply (wp_walk_stop _ i); [rewrite E; set_solver | done | done | lia | lia | done | |].
    + left. unfold hd_or. simpl. unfold PAGE_SIZE in *. lia.
    + unfold hd_or. simpl. by replace (p + PAGE_SIZE * Z.of_nat 0) with p in HQ by lia.
  - eapply (wp_walk_step _ i); [exact E | done | done | lia | done |].
    match goal with |- context [hd_or null ?l =? 0] =>
      replace (hd_or null l) with (hd_or q (run (p + PAGE_SIZE + PAGE_SIZE) k))
        by (destruct k; reflexivity)
    end.
    assert (0 < hd_or q (run (p + PAGE_SIZE + PAGE_SIZE) k)).
    { apply pr_pos. rewrite E. destruct k; unfold hd_or; simpl; set_solver. }
    settle_bool.
    eapply (IH N _ (i + 1) (l1 ++ [p])); [by rewrite E, <- app_assoc | ..];
      try done; unfold PAGE_SIZE in *; try lia.
    by match goal with H : Q (Ok (mkPage ?a, _)) _ |- Q (Ok (mkPage ?b, _)) _ =>
      replace b with a by lia end.
Qed.

(** The walk over a run that is the end of the list. *)
Lemma wp_walk_end k N s i n p l1 (Q : _ → mem → Prop) Pn :
  l0 = l1 ++ run p (S (S k)) → p = s + PAGE_SIZE * i → 0 ≤ s → 0 ≤ i →
  is_u64 n → i + Z.of_nat k + 1 ≤ n - 1 → (k < N)%nat →
  Q (Err NoGap) m →
  wp (loop N (alloc_walk (mkPage s) n) (mkPage p, p + PAGE_SIZE)) m Q Pn.
Proof.
  revert N p i l1. induction k as [|k IH]; intros N p i l1 E Hp Hs Hi Hu Hn HN HQ;
    (destruct N as [|N]; [lia|]); apply wp_loop_turn.
  - eapply (wp_walk_step _ i); [exact E | done | done | lia | done |]. done.
  - eapply (wp_walk_step _ i); [exact E | done | done | lia | done |].
    replace (hd_or null _) with (p + PAGE_SIZE + PAGE_SIZE) by reflexivity.
    assert (0 < p) by (apply pr_pos; rewrite E; set_solver).
    unfold PAGE_SIZE at 1 2. settle_bool.
    eapply (IH N _ (i + 1) (l1 ++ [p])); [by rewrite E, <- app_assoc | ..];
      try done; unfold PAGE_SIZE in *; lia.
Qed.

End alloc.

Section alloc_ok.
Context {cfg : Config}.

(** Zeroing the pages of a region. *)
Lemma wp_zero_region k N p e m (Q : unit → mem → Prop) Pn :
  e = p + PAGE_SIZE * (Z.of_nat k - 1) →
  page_aligned p → 0 ≤ p → p + PAGE_SIZE * Z.of_nat k < u64_size →
  (∀ q, q ∈ run p k → page_mapped m q) → (k < N)%nat →
  (∀ m', (∀ q, q ∈ run p k → page_zero m' q) → same_outside (run p k) m m' → Q () m') →
  wp (loop N (zero_region (mkPage e)) (mkPage p)) m Q Pn.
Proof.
  revert N p m. induction k as [|k IH]; intros N p m He Hal H0 Hu Hm HN HQ;
    (destruct N as [|N]; [lia|]); apply wp_loop_turn; unfold zero_region at 1;
    cbn [pg_addr]; unfold PAGE_SIZE in He, Hu; settle_bool.
  - apply wp_ret, HQ; [by intros q ?%not_elem_of_nil | done].
  - apply wp_bind, wp_zero; [done | done | unfold PAGE_SIZE; lia | apply Hm; set_solver |].
    intros m1 Hz Hs. unfold Page_from. wp_steps.
    assert (p ∉ run (p + 4096) k) as Hp
      by (intros (i & ? & ?)%elem_of_run; unfold PAGE_SIZE in *; lia).
    apply IH; [unfold PAGE_SIZE; lia | | lia | unfold PAGE_SIZE; lia | | lia |].
    + by apply (page_aligned_add p 1).
    + intros q Hq a Ha H8. eapply (keeps_zero [p]); [by intros ? ->%list_elem_of_singleton | done | done |].
      eapply Hm; [by right | done | done].
    + intros m2 Hz2 Hs2. apply HQ.
      * intros q [->|Hq]%elem_of_cons; [|by apply Hz2].
        by eapply page_zero_frame.
      * eapply same_outside_trans; (eapply same_outside_mono; [|done]); set_solver.
Qed.

(** A region of [n] pages is found at once when [n] is 1 or when the pages after
    the head are contiguous, one further page included. *)
Lemma wp_search_ok m P p n l (Q : _ → mem → Prop) Pn :
  pool_rep m P (run p (S n) ++ l) →
  n = 0%nat ∨ head l = Some (p + PAGE_SIZE * (Z.of_nat n + 1)) →
  (n + 2 < fuel)%nat →
  Q (Ok (mkPage (p + PAGE_SIZE * Z.of_nat n), hd_or null l, mkPage p)) m →
  wp (loop fuel (alloc_search (Z.of_nat n + 1))
        (mkPage p, hd_or null (run (p + PAGE_SIZE) n ++ l), mkPage p)) m Q Pn.
Proof.
  intros HP Hn Hf HQ. assert (p ∈ run p (S n) ++ l) as Hin by (simpl; set_solver).
  pose proof (pr_pos HP p Hin). pose proof (pr_page_u64 HP p 0 Hin ltac:(done)).
  destruct (pr_top _ _ _ HP).
  assert (p + PAGE_SIZE * Z.of_nat n ∈ run p (S n) ++ l) as Hlast
    by (rewrite run_snoc; set_solver).
  pose proof (pr_page_u64 HP _ PAGE_SIZE Hlast ltac:(unfold PAGE_SIZE; lia)) as Hu.
  unfold PAGE_SIZE in Hu.
  destruct fuel as [|[|N]] eqn:Ef; [lia | lia |].
  apply wp_loop_turn. unfold alloc_search at 1. cbn [pg_addr]. wp_steps.
  rewrite Z.sub_diag. change (0 / 0x1000) with 0.
  destruct n as [|n].
  { simpl in *. settle_bool. wp_steps. by rewrite Z.add_0_r in HQ. }
  destruct Hn as [?|Hn]; [done|]. destruct l as [|q l]; [done|]. injection Hn as ->.
  settle_bool. apply wp_bind. rewrite Ef.
  eapply (wp_walk_enough HP (S n) _ _ 0 _ _ [] l); [| lia | lia | done | | lia | lia |].
  { rewrite (run_snoc p (S (S n))), <- app_assoc. cbn [app]. do 3 f_equal. lia. }
  { u64_range. }
  unfold PAGE_SIZE. cbn beta iota. cbn [pg_addr]. wp_steps.
  replace (Z.of_nat (S n) + 1 - 1) with (Z.of_nat (S n)) by lia.
  settle_bool. apply wp_loop_turn. unfold alloc_search at 1. cbn [pg_addr]. wp_steps.
  replace ((p + 4096 * Z.of_nat (S n) - p) / 0x1000) with (Z.of_nat (S n)) by zdm.
  settle_bool. wp_steps. done.
Qed.

(** Taking the head of the list off: the next page becomes the head. *)
Lemma wp_unlink_head m P l1 l (Q : Pool → mem → Prop) Pn :
  pool_rep m P (l1 ++ l) →
  (∀ m', dlseg m' null l null → same_outside (take 1 l) m m' → written [] (take 1 l) m m' → keeps m m' →
    Q (set_free P (mkPage <$> head l)) m') →
  wp (if hd_or null l =? 0x0 then mret (set_free P None)
      else write_prev (Page_from (hd_or null l)) null ;;
           mret (set_free P (Some (Page_from (hd_or null l))))) m Q Pn.
Proof.
  intros HP HQ. destruct (proj1 (dlseg_app _ _ _ _ _) (pr_links _ _ _ HP)) as [_ Hl].
  destruct l as [|q l]; unfold hd_or; simpl.
  { apply wp_ret, HQ; [done | done | by intros a | by intros a]. }
  assert (q ∈ l1 ++ q :: l) as Hq by set_solver. pose proof (pr_pos HP q Hq).
  destruct (pr_pages _ _ _ HP q Hq) as [Hal _]. settle_bool.
  apply wp_bind, wp_write_prev; [done | |].
  { rewrite <- (Z.add_0_r q). by apply (pr_page_valid HP). }
  apply wp_ret, HQ.
  - pose proof (pr_sorted _ _ _ HP) as Hs. apply sorted_app in Hs as (_ & Hs & _).
    eapply dlseg_set_prev; [|by apply sorted_NoDup, NoDup_cons in Hs as [? _] | done].
    intros r Hr. apply (pr_pages _ _ _ HP). set_solver.
  - apply same_outside_insert. rewrite page_of_id by done. set_solver.
  - intros a _ Ha. apply lookup_insert_ne. set_solver.
  - apply keeps_insert.
Qed.

(** The pages of a run at the head of the list. *)
Lemma run_head_bounds m P p n l :
  pool_rep m P (run p (S n) ++ l) →
  page_aligned p ∧ 0 < p ∧ p + PAGE_SIZE * (Z.of_nat n + 1) < u64_size.
Proof.
  intros HP. assert (p ∈ run p (S n) ++ l) as Hp by (simpl; set_solver).
  assert (p + PAGE_SIZE * Z.of_nat n ∈ run p (S n) ++ l) as Hlast
    by (rewrite run_snoc; set_solver).
  pose proof (pr_page_top HP _ Hlast). pose proof (pr_pos HP p Hp).
  destruct (pr_pages _ _ _ HP p Hp), (pr_top _ _ _ HP). split_and!; [done | done | lia].
Qed.

Lemma run_sorted_disjoint m P l1 l :
  pool_rep m P (l1 ++ l) → ∀ q, q ∈ l → page_aligned q ∧ q ∉ l1.
Proof.
  intros HP q Hq. split; [apply (pr_pages _ _ _ HP); set_solver|].
  pose proof (pr_sorted _ _ _ HP) as Hs. apply sorted_app in Hs as (_ & _ & Hs).
  intros Hq1. specialize (Hs q q Hq1 Hq). lia.
Qed.

(** Allocating [n + 1] pages that are there: the head run, zeroed and unlinked. *)
Lemma wp_alloc_pages m P p n l (Q : _ → mem → Prop) Pn :
  pool_rep m P (run p (S n) ++ l) →
  n = 0%nat ∨ head l = Some (p + PAGE_SIZE * (Z.of_nat n + 1)) →
  (n + 2 < fuel)%nat →
  (∀ m' P', pool_rep m' P' l → (∀ q, q ∈ run p (S n) → page_zero m' q) →
    same_outside (run p (S n) ++ take 1 l) m m' → keeps m m' →
    written (run p (S n)) (take 1 l) m m' → bottom P' = bottom P → top P' = top P →
    Q (Ok (mkPage p), P') m') →
  wp (alloc_pages P (mkPage p) (Z.of_nat n + 1)) m Q Pn.
Proof.
  intros HP Hn Hf HQ. unfold alloc_pages.
  destruct (run_head_bounds _ _ _ _ _ HP) as (Hal & Hpos & Hu). unfold PAGE_SIZE in Hu.
  apply wp_bind, (wp_read_free_head HP p (run (p + PAGE_SIZE) n ++ l)); [done|].
  cbn beta iota. wp_steps.
  eapply wp_search_ok; [done | done | done |]. cbn beta iota.
  apply wp_bind, (wp_read_free_head HP p (run (p + PAGE_SIZE) n ++ l)); [done|].
  cbn beta iota. apply wp_bind. rewrite Z.eqb_refl.
  eapply wp_unlink_head; [done|]. intros m1 Hl1 Hs1 Hw1 Hk1.
  apply wp_bind, (wp_zero_region (S n)); [lia | done | lia | unfold PAGE_SIZE; lia | | lia |].
  - intros q Hq a Ha H8. apply Hk1; [done|].
    apply (pr_mapped HP q); [set_solver | done | done].
  - intros m2 Hz2 Hs2. apply wp_ret.
    pose proof (run_sorted_disjoint _ _ _ _ HP) as Hd.
    pose proof (keeps_zero _ _ _ Hz2 Hs2) as Hk2.
    apply HQ; [ | done | | by eapply keeps_trans | | done | done].
    + eapply pool_rep_drop; [done | by eapply keeps_trans |].
      by eapply dlseg_same_outside.
    + eapply same_outside_trans; (eapply same_outside_mono; [|done]); set_solver.
    + intros a Ha Hw. rewrite Hs2 by done. apply Hw1; [by apply not_elem_of_nil | done].
Qed.

End alloc_ok.

(** ** When the head run is too short *)

Section alloc_short.
Context {cfg : Config}.

(** The search over a run of [S k] pages followed by a gap leaves the last page
    of the run as [page] and the page after the gap as [start_region]. *)
Lemma wp_search_gap m P p k q l n (Q : _ → mem → Prop) Pn :
  pool_rep m P (run p (S k) ++ q :: l) →
  q ≠ p + PAGE_SIZE * (Z.of_nat k + 1) →
  Z.of_nat k + 1 ≤ n → 2 ≤ n → is_u64 n → (k < fuel)%nat →
  Q (inl (mkPage (p + PAGE_SIZE * Z.of_nat k), q, mkPage q)) m →
  wp (alloc_search n (mkPage p, hd_or null (run (p + PAGE_SIZE) k ++ q :: l), mkPage p))
    m Q Pn.
Proof.
  intros HP Hq Hk Hn Hu Hf HQ. destruct (run_head_bounds _ _ _ _ _ HP) as (Hal & Hpos & Hb).
  unfold alloc_search. cbn [pg_addr]. unfold PAGE_SIZE in Hb. wp_steps.
  rewrite Z.sub_diag. change (0 / 0x1000) with 0. settle_bool. apply wp_bind.
  rewrite hd_or_app. change (hd_or null (q :: l)) with q.
  eapply (wp_walk_gap HP k _ _ 0 _ _ _ []); [done | done | lia | lia | done | done | lia | done |].
  cbn beta iota. cbn [pg_addr]. unfold PAGE_SIZE in *. wp_steps. settle_bool. done.
Qed.

Lemma wp_alloc_pages_nogap m P p k n (Q : _ → mem → Prop) Pn :
  pool_rep m P (run p (S (S k))) → Z.of_nat k + 2 ≤ n → is_u64 n → (k + 1 < fuel)%nat →
  Q (Err NoGap, P) m → wp (alloc_pages P (mkPage p) n) m Q Pn.
Proof.
  intros HP Hk Hu Hf HQ. unfold alloc_pages.
  rewrite <- (app_nil_r (run p (S (S k)))) in HP.
  destruct (run_head_bounds _ _ _ _ _ HP) as (Hal & Hpos & Hb). rewrite app_nil_r in HP.
  apply wp_bind, (wp_read_free_head HP p (run (p + PAGE_SIZE) (S k))); [done|].
  cbn beta iota. wp_steps. destruct fuel as [|N] eqn:Ef; [lia|].
  apply wp_loop_turn. unfold alloc_search at 1. cbn [pg_addr].
  unfold PAGE_SIZE in Hb. wp_steps. rewrite Z.sub_diag. change (0 / 0x1000) with 0.
  settle_bool. apply wp_bind. rewrite Ef.
  eapply (wp_walk_end HP k _ _ 0 _ _ []); [done | lia | lia | done | done | lia | lia |].
  by wp_steps.
Qed.

(** A gap before the region is complete: the subtraction
    [page.addr - start_region.addr] is negative. *)
Lemma wp_alloc_pages_gap_dev m P p k q l n (Q : _ → mem → Prop) (Pn : Prop) :
  overflow_checks = true →
  pool_rep m P (run p (S k) ++ q :: l) → q ≠ p + PAGE_SIZE * (Z.of_nat k + 1) →
  Z.of_nat k + 1 ≤ n → 2 ≤ n → is_u64 n → (k + 1 < fuel)%nat →
  Pn → wp (alloc_pages P (mkPage p) n) m Q Pn.
Proof.
  intros Hc HP Hq Hk Hn Hu Hf HPn. unfold alloc_pages.
  apply wp_bind, (wp_read_free_head HP p (run (p + PAGE_SIZE) k ++ q :: l)); [done|].
  cbn beta iota. wp_steps. destruct fuel as [|[|N]] eqn:Ef; [lia|lia|].
  apply wp_loop_turn. apply (wp_search_gap m P p k q l); [done | done | done | lia | done | lia |]. cbn beta iota.
  apply wp_loop_turn. unfold alloc_search at 1. cbn [pg_addr].
  apply wp_bind, wp_checked_panic; [done | | done].
  pose proof (pr_sorted _ _ _ HP) as Hs. apply sorted_app in Hs as (_ & _ & Hs).
  specialize (Hs (p + PAGE_SIZE * Z.of_nat k) q).
  rewrite run_snoc in Hs. unfold is_u64. intros [? _].
  assert (p + PAGE_SIZE * Z.of_nat k < q) by (apply Hs; set_solver). lia.
Qed.

(** Without overflow checks the difference wraps to a huge number and the search
    stops with an empty region: the page after the gap is handed out although it
    stays in the free list, and no memory changes. *)
Lemma wp_alloc_pages_gap_release m P p k q l n (Q : _ → mem → Prop) Pn :
  overflow_checks = false →
  pool_rep m P (run p (S k) ++ q :: l) → q ≠ p + PAGE_SIZE * (Z.of_nat k + 1) →
  Z.of_nat k + 1 ≤ n → 2 ≤ n ≤ 2 ^ 51 → top P ≤ 2 ^ 63 → (k + 2 < fuel)%nat →
  Q (Ok (mkPage q), P) m → wp (alloc_pages P (mkPage p) n) m Q Pn.
Proof.
  intros Hc HP Hq Hk Hn Ht Hf HQ. unfold alloc_pages.
  assert (is_u64 n) as Hu by u64_range.
  apply wp_bind, (wp_read_free_head HP p (run (p + PAGE_SIZE) k ++ q :: l)); [done|].
  cbn beta iota. wp_steps. destruct fuel as [|[|N]] eqn:Ef; [lia|lia|].
  apply wp_loop_turn. apply (wp_search_gap m P p k q l); [done | done | done | lia | done | lia |]. cbn beta iota.
  apply wp_loop_turn. unfold alloc_search at 1. cbn [pg_addr].
  pose proof (pr_sorted _ _ _ HP) as Hs. apply sorted_app in Hs as (_ & _ & Hs).
  assert (p + PAGE_SIZE * Z.of_nat k < q) as Hlt
    by (apply Hs; [rewrite run_snoc|]; set_solver).
  set (r := p + PAGE_SIZE * Z.of_nat k) in *.
  assert (r ∈ run p (S k) ++ q :: l) as Hr by (rewrite run_snoc; set_solver).
  assert (q ∈ run p (S k) ++ q :: l) as Hqin by set_solver.
  pose proof (pr_pos HP r Hr). pose proof (pr_page_top HP q Hqin) as Hqt.
  destruct (pr_pages _ _ _ HP r Hr) as [Hra _], (pr_pages _ _ _ HP q Hqin) as [Hqa _].
  unfold PAGE_SIZE in Hqt. apply wp_bind, wp_checked_wrap; [done|].
  rewrite wrap_neg by u64_range. wp_steps. rewrite u64_size_eq.
  rewrite (proj2 (Z.ltb_ge _ _)) by zdm. wp_steps.
  apply (wp_read_free_at HP (run p (S k)) q l); [done|]. cbn beta iota.
  rewrite last_or_run. fold r. unfold null at 1. settle_bool. apply wp_bind.
  pose proof (pr_links _ _ _ HP) as Hl. pose proof Hl as Hl'.
  rewrite run_snoc, <- app_assoc in Hl. apply dlseg_lookup in Hl as [_ Hl]. fold r in Hl.
  apply dlseg_lookup in Hl' as [Hl' _]. rewrite last_or_run in Hl'. fold r in Hl'.
  unfold Page_from. apply wp_bind, wp_write_next; [done | u64_range | done |].
  rewrite insert_id by done.
  apply wp_bind, wp_write_prev; [done | done |].
  rewrite insert_id by done. wp_steps.
  apply wp_loop_turn. unfold zero_region at 1. cbn [pg_addr]. settle_bool. wp_steps. done.
Qed.

(** The only free page is not enough: the search takes the null link for the start of
    the next region. *)
Lemma search_single m P p n :
  pool_rep m P [p] → 2 ≤ n → is_u64 n → (0 < fuel)%nat →
  alloc_search n (mkPage p, null, mkPage p) m = Done (inl (mkPage p, null, mkPage null), m).
Proof.
  intros HP Hn Hu Hf. assert (p ∈ [p]) as Hin by left. pose proof (pr_pos HP p Hin).
  pose proof (pr_page_top HP p Hin). destruct (pr_top _ _ _ HP). unfold PAGE_SIZE in *.
  apply wp_exact. unfold alloc_search. cbn [pg_addr]. wp_steps.
  rewrite Z.sub_diag. change (0 / 0x1000) with 0. settle_bool. apply wp_bind.
  destruct fuel as [|N] eqn:Ef; [lia|]. apply wp_loop_turn. unfold alloc_walk at 1. cbn [pg_addr].
  unfold null. wp_steps. settle_bool. wp_steps. cbn [pg_addr]. wp_steps. by settle_bool.
Qed.

(** From there the region seems to reach from null to the page. *)
Lemma search_null m P p n :
  pool_rep m P [p] → 2 ≤ n → is_u64 n → (0 < fuel)%nat →
  alloc_search n (mkPage p, null, mkPage null) m =
    Done (if p / 0x1000 <? n - 1 then inl (mkPage p, null, mkPage null)
          else inr (Ok (mkPage p, null, mkPage null)), m).
Proof.
  intros HP Hn Hu Hf. assert (p ∈ [p]) as Hin by left. pose proof (pr_pos HP p Hin).
  pose proof (pr_page_top HP p Hin). destruct (pr_top _ _ _ HP). unfold PAGE_SIZE in *.
  apply wp_exact. unfold alloc_search. cbn [pg_addr]. unfold null. wp_steps. rewrite Z.sub_0_r.
  destruct (Z.ltb_spec (p / 0x1000) (n - 1)); [|by apply wp_ret]. apply wp_bind.
  destruct fuel as [|N] eqn:Ef; [lia|]. apply wp_loop_turn. unfold alloc_walk at 1. cbn [pg_addr].
  wp_steps. settle_bool. wp_steps. cbn [pg_addr]. wp_steps. by settle_bool.
Qed.

Lemma alloc_pages_single m P p n :
  pool_rep m P [p] → 2 ≤ n → is_u64 n → (1 < fuel)%nat → m !! null = None →
  alloc_pages P (mkPage p) n m = if p / 0x1000 <? n - 1 then Diverge else Fault.
Proof.
  intros HP Hn Hu Hf Hnull. unfold alloc_pages. rewrite (bind_done _ _ m (null, null) m);
    [|apply wp_exact, (wp_read_free_head HP p []); done].
  rewrite (bind_done _ _ m () m) by done. destruct fuel as [|[|N]] eqn:Ef; [lia | lia |].
  assert (0 < fuel)%nat as Hf' by (rewrite Ef; lia).
  pose proof (search_single m P p n HP Hn Hu Hf') as H1. pose proof (search_null m P p n HP Hn Hu Hf') as H2.
  assert (loop (S (S N)) (alloc_search n) (mkPage p, null, mkPage p) m =
    if p / 0x1000 <? n - 1 then Diverge else Done (Ok (mkPage p, null, mkPage null), m)) as Hl.
  { unfold loop. fold (@loop mem (Page * Z * Page)). rewrite (bind_done _ _ _ _ _ H1).
    destruct (p / 0x1000 <? n - 1).
    - exact (loop_stuck _ (S N) _ _ H2).
    - by rewrite (bind_done _ _ _ _ _ H2). }
  unfold mbind at 1, M_bind. rewrite Hl. destruct (p / 0x1000 <? n - 1); [done|].
  unfold mbind, M_bind, read_free, mbind, M_bind, read. unfold null in *. simpl. by rewrite Hnull.
Qed.

End alloc_short.
