(* ===== verification/PallocFree.v ===== *)
(** * Freeing pages and creating the pool

    [free_pages] puts a region back in its place of the sorted free list, on
    each of its four branches, and [Pool_new] links all the pages of the pool. *)

From S2P Require Import Prelude Machine Param Mutex Palloc FreeList.

(** ** Freeing *)

Section free.
Context {cfg : Config} {m0 : mem} {P : Pool} {l1 l2 : list Z} {p : Z} {n : nat}.
Context (HP : pool_rep m0 P (l1 ++ l2)).
Context (Hal : page_aligned p) (Hlo : bottom P ≤ p).
Context (Hhi : p + PAGE_SIZE * (Z.of_nat n + 1) ≤ top P).
Context (Hl1 : ∀ q, q ∈ l1 → q < p).
Context (Hl2 : ∀ q, q ∈ l2 → p + PAGE_SIZE * Z.of_nat n < q).

(** The freed region and its last page. *)
Let R := run p (S n).
Let re := p + PAGE_SIZE * Z.of_nat n.

Lemma region_page q : q ∈ R →
  page_aligned q ∧ bottom P ≤ q ∧ p ≤ q ≤ re ∧ q + PAGE_SIZE ≤ top P ∧ 0 < q ∧ top P < u64_size.
Proof.
  intros (i & Hi & ->)%elem_of_run. destruct (pr_bottom _ _ _ HP), (pr_top _ _ _ HP).
  unfold re, PAGE_SIZE in *. split_and!; try lia. by apply (page_aligned_add p i).
Qed.

Lemma region_new_sorted : sorted (l1 ++ R ++ l2).
Proof.
  pose proof (pr_sorted _ _ _ HP) as Hs. apply sorted_app in Hs as (H1 & H2 & H12).
  apply sorted_app. split_and!; [done | |].
  - apply sorted_app. split_and!; [apply run_sorted | done |].
    intros a b (_ & _ & ? & _)%region_page Hb. specialize (Hl2 b Hb). unfold re in *. lia.
  - intros a b Ha [Hb|Hb]%elem_of_app; [|by apply H12].
    apply region_page in Hb. specialize (Hl1 a Ha). lia.
Qed.

Lemma region_new_page q : q ∈ l1 ++ R ++ l2 →
  page_aligned q ∧ bottom P ≤ q < top P ∧ is_u64 (q + 8) ∧
  is_Some (m0 !! q) ∧ is_Some (m0 !! (q + 8)).
Proof.
  intros Hq. assert (page_aligned q ∧ bottom P ≤ q < top P) as [Ha Hb].
  { rewrite !elem_of_app in Hq. destruct Hq as [Hq|[Hq|Hq]].
    - apply (pr_pages _ _ _ HP). set_solver.
    - apply region_page in Hq. unfold PAGE_SIZE in Hq. split; [tauto | lia].
    - apply (pr_pages _ _ _ HP). set_solver. }
  destruct (pr_bottom _ _ _ HP) as [? ?], (pr_top _ _ _ HP) as [Ht ?].
  pose proof (page_aligned_lt q (top P) Ha Ht (proj2 Hb)). pose proof (page_aligned_8 q Ha).
  unfold PAGE_SIZE in *. split_and!; [done | lia | lia | | |].
  - u64_range.
  - apply HP; [lia | done].
  - apply HP; [lia | zdm].
Qed.

(** The three segments while they are spliced: [a] follows [l1], [b] precedes
    the region and [c] follows it, [d] precedes [l2]. *)
Definition parts (m : mem) (a b c d : Z) : Prop :=
  dlseg m null l1 a ∧ dlseg m b R c ∧ dlseg m d l2 null ∧
  same_outside (l1 ++ R ++ l2) m0 m ∧ keeps m0 m.

(** Writing a link word of a page leaves the segments without it alone. *)
Lemma dlseg_other m q k v pv l nx :
  q ∈ l1 ++ R ++ l2 → (∀ r, r ∈ l → r ∈ l1 ++ R ++ l2) → q ∉ l → 0 ≤ k ≤ 8 →
  dlseg m pv l nx → dlseg (<[q + k := v]> m) pv l nx.
Proof.
  intros Hq Hl Hn Hk. apply (dlseg_same_outside [q]).
  - apply same_outside_insert. rewrite page_of_word; [set_solver | | unfold PAGE_SIZE; lia].
    by apply region_new_page.
  - intros r Hr. split; [by apply region_new_page, Hl | set_solver].
Qed.

Lemma parts_frame m q k v :
  q ∈ l1 ++ R ++ l2 → 0 ≤ k ≤ 8 →
  same_outside (l1 ++ R ++ l2) m0 m ∧ keeps m0 m →
  same_outside (l1 ++ R ++ l2) m0 (<[q + k := v]> m) ∧ keeps m0 (<[q + k := v]> m).
Proof.
  intros Hq Hk [H1 H2]. split.
  - eapply same_outside_trans; [done|]. apply same_outside_insert.
    rewrite page_of_word; [done | by apply region_new_page | unfold PAGE_SIZE; lia].
  - eapply keeps_trans; [done|]. apply keeps_insert.
Qed.

(** The pages of the three segments are distinct. *)
Lemma parts_disjoint q :
  (q ∈ l1 → q ∉ R ∧ q ∉ l2) ∧ (q ∈ R → q ∉ l1 ∧ q ∉ l2) ∧ (q ∈ l2 → q ∉ l1 ∧ q ∉ R).
Proof.
  pose proof region_new_sorted as H. apply sorted_NoDup, NoDup_app in H as (_ & H1 & H2).
  apply NoDup_app in H2 as (_ & H2 & _).
  split_and!; intros Hq; specialize (H1 q); specialize (H2 q); set_solver.
Qed.

(** The four writes of the splice. *)

Lemma wp_splice_l1 l q v m a b c d (Q : unit → mem → Prop) Pn :
  l1 = l ++ [q] → parts m a b c d → (∀ m', parts m' v b c d → Q () m') →
  wp (write_next (mkPage q) v) m Q Pn.
Proof.
  intros E (Ha & Hb & Hc & Hf) HQ. assert (q ∈ l1) as Hq by (rewrite E; set_solver).
  assert (q ∈ l1 ++ R ++ l2) as Hq' by set_solver.
  destruct (region_new_page q Hq') as (? & ? & ? & ? & ?), (proj1 (parts_disjoint q) Hq).
  apply wp_write_next; [done | done | apply Hf; [|done] |].
  { assert (q mod 8 = 0) by eauto with reedos. zdm. }
  apply HQ. split_and!; [| | | by apply parts_frame..].
  - rewrite E. eapply dlseg_set_next; [| |by rewrite <- E].
    + intros r Hr. apply region_new_page. rewrite E. set_solver.
    + pose proof (pr_sorted _ _ _ HP) as Hs. rewrite E in Hs.
      apply sorted_app in Hs as [Hs _]. apply sorted_NoDup, NoDup_app in Hs. set_solver.
  - apply dlseg_other; [done | set_solver | done | lia | done].
  - apply dlseg_other; [done | set_solver | done | lia | done].
Qed.

Lemma wp_splice_l2 q l v m a b c d (Q : unit → mem → Prop) Pn :
  l2 = q :: l → parts m a b c d → (∀ m', parts m' a b c v → Q () m') →
  wp (write_prev (mkPage q) v) m Q Pn.
Proof.
  intros E (Ha & Hb & Hc & Hf) HQ. assert (q ∈ l2) as Hq by (rewrite E; set_solver).
  assert (q ∈ l1 ++ R ++ l2) as Hq' by set_solver.
  destruct (region_new_page q Hq') as (? & ? & ? & ? & ?).
  destruct (proj2 (proj2 (parts_disjoint q)) Hq).
  apply wp_write_prev; [done | apply Hf; [eauto with reedos | done] |].
  apply HQ. rewrite <- (Z.add_0_r q) at 1. split_and!; [| | | by apply parts_frame..].
  - apply dlseg_other; [done | set_solver | done | lia | done].
  - apply dlseg_other; [done | set_solver | done | lia | done].
  - rewrite Z.add_0_r, E. eapply dlseg_set_prev; [| |by rewrite <- E].
    + intros r Hr. apply region_new_page. rewrite E. set_solver.
    + pose proof (pr_sorted _ _ _ HP) as Hs. rewrite E in Hs.
      apply sorted_app in Hs as (_ & Hs & _). apply sorted_NoDup, NoDup_cons in Hs. tauto.
Qed.

Lemma wp_splice_first v m a b c d (Q : unit → mem → Prop) Pn :
  parts m a b c d → (∀ m', parts m' a v c d → Q () m') →
  wp (write_prev (mkPage p) v) m Q Pn.
Proof.
  intros (Ha & Hb & Hc & Hf) HQ. assert (p ∈ R) as Hq by (unfold R; simpl; set_solver).
  assert (p ∈ l1 ++ R ++ l2) as Hq' by set_solver.
  destruct (region_new_page p Hq') as (? & ? & ? & ? & ?).
  destruct (proj1 (proj2 (parts_disjoint p)) Hq).
  apply wp_write_prev; [done | apply Hf; [eauto with reedos | done] |].
  apply HQ. rewrite <- (Z.add_0_r p) at 1. split_and!; [| | | by apply parts_frame..].
  - apply dlseg_other; [done | set_solver | done | lia | done].
  - rewrite Z.add_0_r. eapply dlseg_set_prev; [| |exact Hb].
    + intros r Hr. apply region_new_page. unfold R. simpl. set_solver.
    + pose proof (sorted_NoDup _ (run_sorted p (S n))) as Hs. simpl in Hs.
      apply NoDup_cons in Hs. tauto.
  - apply dlseg_other; [done | set_solver | done | lia | done].
Qed.

Lemma wp_splice_last v m a b c d (Q : unit → mem → Prop) Pn :
  parts m a b c d → (∀ m', parts m' a b v d → Q () m') →
  wp (write_next (mkPage re) v) m Q Pn.
Proof.
  intros (Ha & Hb & Hc & Hf) HQ. assert (R = run p n ++ [re]) as E by apply run_snoc.
  assert (re ∈ R) as Hq by (rewrite E; set_solver).
  assert (re ∈ l1 ++ R ++ l2) as Hq' by set_solver.
  destruct (region_new_page re Hq') as (? & ? & ? & ? & ?).
  destruct (proj1 (proj2 (parts_disjoint re)) Hq).
  apply wp_write_next; [done | done | apply Hf; [|done] |].
  { assert (re mod 8 = 0) by eauto with reedos. zdm. }
  apply HQ. split_and!; [| | | by apply parts_frame..].
  - apply dlseg_other; [done | set_solver | done | lia | done].
  - rewrite E. eapply dlseg_set_next; [| |by rewrite <- E].
    + intros r Hr. apply region_new_page. rewrite E. set_solver.
    + pose proof (sorted_NoDup _ (run_sorted p (S n))) as Hs. fold R in Hs. rewrite E in Hs.
      apply NoDup_app in Hs. set_solver.
  - apply dlseg_other; [done | set_solver | done | lia | done].
Qed.

(** The spliced list represents the pool with the region put back. *)
Lemma parts_done m f :
  parts m p (last_or null l1) (hd_or null l2) re →
  f = mkPage <$> head (l1 ++ R ++ l2) → pool_rep m (set_free P f) (l1 ++ R ++ l2).
Proof.
  intros (Ha & Hb & Hc & Hs & Hk) Hf. pose proof HP as []. split; cbn [set_free free bottom top]; try done.
  - apply region_new_sorted.
  - intros q Hq. apply region_new_page in Hq. tauto.
  - apply dlseg_app. split; [exact Ha|]. apply dlseg_app. split; [exact Hb|].
    unfold R. by rewrite last_or_run.
  - intros a Ha' H8. eauto.
Qed.

(** The first loop zeroes the pages and links them to each other. *)
Definition link_prev (k : nat) : option Page :=
  match k with O => None | S j => Some (mkPage (p + PAGE_SIZE * Z.of_nat j)) end.

Definition link_inv (st : option Page * Page) (m : mem) : Prop :=
  ∃ k x, (k ≤ S n)%nat ∧ st = (link_prev k, mkPage (p + PAGE_SIZE * Z.of_nat k)) ∧
    dlseg m null (run p k) x ∧ same_outside R m0 m ∧ keeps m0 m.

Lemma region_nth k : (k ≤ n)%nat → p + PAGE_SIZE * Z.of_nat k ∈ R.
Proof. intros. apply elem_of_run. exists (Z.of_nat k). lia. Qed.

Lemma run_before k u : (k ≤ n)%nat → u ∈ run p k →
  page_aligned u ∧ u < p + PAGE_SIZE * Z.of_nat k.
Proof.
  intros Hk (i & Hi & ->)%elem_of_run. unfold PAGE_SIZE in *. split; [|lia].
  by apply (page_aligned_add p i).
Qed.

(** Once the page [q] is zeroed, the loop links it behind the [k] first ones. *)
Lemma wp_link_page k x m m1 q :
  (k ≤ n)%nat → q = p + PAGE_SIZE * Z.of_nat k →
  dlseg m null (run p k) x → page_zero m1 q → same_outside [q] m m1 →
  wp (match link_prev k with
      | None => write_next (mkPage q) (q + PAGE_SIZE)
      | Some prev => write_prev (mkPage q) (pg_addr prev) ;; write_next prev q
      end) m1
    (λ _ m2, (∃ y, dlseg m2 null (run p (S k)) y) ∧ same_outside R m1 m2 ∧ keeps m1 m2) False.
Proof.
  intros Hk Hq Hd Hz Hs. pose proof (region_nth k Hk) as HqR. rewrite <- Hq in HqR.
  destruct (region_page q HqR) as (Hqa & _ & _ & Hqt & Hq0 & Htop).
  assert (q mod 8 = 0) as Hq8 by eauto with reedos.
  assert (m1 !! q = Some 0) as Hz0 by (apply Hz; [unfold PAGE_SIZE; lia | done]).
  assert (m1 !! (q + 8) = Some 0) as Hz8 by (apply Hz; [unfold PAGE_SIZE; lia | zdm]).
  unfold PAGE_SIZE in Hqt. destruct k as [|k]; cbn [link_prev].
  - apply wp_write_next; [done | u64_range | done |].
    replace (p + _) with p in Hq by lia. subst q.
    split_and!; [exists (p + PAGE_SIZE) | | apply keeps_insert].
    + simpl. rewrite lookup_insert_ne, lookup_insert_eq by lia. done.
    + apply same_outside_insert. rewrite page_of_word; [done | done | unfold PAGE_SIZE; lia].
  - set (r := p + PAGE_SIZE * Z.of_nat k) in *.
    assert (r ∈ R) as HrR by (apply region_nth; lia).
    destruct (region_page r HrR) as (Hra & _ & _ & Hrt & Hr0 & _). unfold PAGE_SIZE in Hrt.
    assert (dlseg m1 null (run p k ++ [r]) x) as Hd1.
    { unfold r. rewrite <- run_snoc. eapply dlseg_same_outside; [done | | done].
      intros u Hu%run_before; [|done]. split; [tauto|].
      intros ->%list_elem_of_singleton. lia. }
    pose proof (proj2 (dlseg_lookup _ _ _ _ [] _ Hd1)) as Hr8.
    apply wp_bind, wp_write_prev; [done | done |]. cbn beta iota. cbn [pg_addr].
    apply wp_write_next; [done | u64_range | |].
    { rewrite lookup_insert_ne; [done | by apply word_ne]. }
    split_and!; [exists 0 | |].
    + rewrite run_snoc, <- Hq, run_snoc. fold r. eapply dlseg_snoc; [| done | | done | done].
      * intros u Hu. unfold r in Hu. rewrite <- run_snoc in Hu.
        apply run_before in Hu as [? ?]; [split; [done | lia] | done].
      * intros Hu%run_before; [|lia]. unfold r in Hu. lia.
    + eapply same_outside_trans; apply same_outside_insert.
      * by rewrite page_of_id.
      * rewrite page_of_word; [done | done | unfold PAGE_SIZE; lia].
    + eapply keeps_trans; apply keeps_insert.
Qed.

Lemma wp_link_region (Q : unit → mem → Prop) Pn :
  (n + 1 < fuel)%nat →
  (∀ m x, dlseg m null R x → same_outside R m0 m → keeps m0 m → Q () m) →
  wp (loop fuel (link_region (re + PAGE_SIZE)) (None, mkPage p)) m0 Q Pn.
Proof.
  intros Hf HQ.
  apply (wp_loop link_inv (λ st _, Z.to_nat ((re + PAGE_SIZE - pg_addr st.2) / PAGE_SIZE))).
  - intros st m (k & x & Hk & -> & Hd & Hs & Hkp). unfold link_region. cbn [pg_addr].
    set (q := p + PAGE_SIZE * Z.of_nat k).
    destruct (decide (k = S n)) as [->|Hne].
    { rewrite (proj2 (Z.ltb_ge _ _)) by (unfold q, re, PAGE_SIZE; lia).
      apply wp_ret. by apply (HQ _ x). }
    rewrite (proj2 (Z.ltb_lt _ _)) by (unfold q, re, PAGE_SIZE; lia).
    assert (q ∈ R) as HqR by (apply region_nth; lia).
    destruct (region_page q HqR) as (Hqa & Hqb & _ & Hqt & Hq0 & Htop).
    assert (q + PAGE_SIZE < u64_size) by lia.
    apply wp_bind, wp_zero; [done | lia | done | |].
    { intros a Ha H8. apply Hkp; [done|]. apply HP; [lia | done]. }
    intros m1 Hz Hs1. unfold PAGE_SIZE in Hqt. wp_steps. unfold Page_from. cbn [pg_addr].
    eapply wp_mono; [apply (wp_link_page k x m m1 q); [lia | done..] | | done].
    intros [] m2 ((y & Hy) & Hs2 & Hk2). apply wp_ret. split.
    + exists (S k), y. split_and!; [lia | | done | |].
      * cbn [link_prev]. fold q. do 2 f_equal. unfold q, PAGE_SIZE. lia.
      * do 2 (eapply same_outside_trans; [|done]).
        eapply same_outside_trans; [done|]. eapply same_outside_mono; [|done]. set_solver.
      * eapply keeps_trans; [done|]. eapply keeps_trans; [|done].
        eapply keeps_zero; [|done]. by intros ? ->%list_elem_of_singleton.
    + cbn [snd pg_addr]. unfold q, re, PAGE_SIZE in *.
      rewrite <- Z2Nat.inj_lt by zdm. zdm.
  - exists 0%nat, null. split_and!; [lia | | done | done | by intros a].
    cbn [link_prev]. do 2 f_equal. lia.
  - cbn [snd pg_addr]. unfold re, PAGE_SIZE.
    replace ((p + 4096 * Z.of_nat n + 4096 - p) / 4096) with (Z.of_nat n + 1) by zdm. lia.
Qed.

(** The second loop stops at the last free page before the region. *)
Lemma wp_find_slot m a N l q l' (Q : _ → mem → Prop) Pn :
  l1 = l ++ q :: l' → dlseg m null l1 (hd_or null l2) → a = hd_or (hd_or null l2) l' →
  (length l' < N)%nat →
  Q (mkPage (last_or q l'), hd_or null l2) m →
  wp (loop N (find_slot (mkPage re)) (mkPage q, a)) m Q Pn.
Proof.
  intros E Hd -> HN HQ. revert N l q HN E HQ.
  induction l' as [|r l' IH]; intros N l q HN E HQ; (destruct N as [|N]; [simpl in HN; lia|]);
    apply wp_loop_turn; unfold find_slot at 1; cbn [pg_addr].
  - cbn [hd_or head default from_option id]. change (hd_or (hd_or null l2) []) with (hd_or null l2).
    assert (negb (hd_or null l2 =? null) && (hd_or null l2 <? re) = false) as ->.
    { destruct l2 as [|b l2']; [done|]. unfold hd_or. simpl.
      assert (re < b) by (apply Hl2; set_solver). rewrite (proj2 (Z.ltb_ge b re)) by lia.
      apply andb_false_r. }
    apply wp_ret. done.
  - change (hd_or (hd_or null l2) (r :: l')) with r.
    assert (r ∈ l1) as Hr by (rewrite E; set_solver).
    assert (r ∈ l1 ++ R ++ l2) as Hr' by set_solver.
    destruct (region_new_page r Hr') as (Hra & Hrb & Hr8 & _ & _).
    assert (r < p) by auto. destruct (pr_bottom _ _ _ HP).
    unfold null at 1. rewrite (proj2 (Z.eqb_neq r 0)) by lia.
    rewrite (proj2 (Z.ltb_lt r re)) by (unfold re, PAGE_SIZE; lia). cbn [negb andb].
    rewrite E in Hd. replace (l ++ q :: r :: l') with ((l ++ [q]) ++ r :: l') in Hd
      by by rewrite <- app_assoc. pose proof (dlseg_lookup _ _ _ _ _ _ Hd) as [Hp Hn].
    apply wp_bind. eapply wp_read_free; [done | done | done | done |]. cbn beta iota.
    apply wp_ret. apply (IH N (l ++ [q])).
    + simpl in HN. lia.
    + by rewrite <- app_assoc.
    + by rewrite last_or_cons in HQ.
Qed.

(** What freeing establishes. *)
Definition freed (P' : Pool) (m' : mem) : Prop :=
  pool_rep m' P' (l1 ++ R ++ l2) ∧ same_outside (l1 ++ R ++ l2) m0 m' ∧
  bottom P' = bottom P ∧ top P' = top P.

Lemma freed_intro m f :
  parts m p (last_or null l1) (hd_or null l2) re →
  f = mkPage <$> head (l1 ++ R ++ l2) → freed (set_free P f) m.
Proof.
  intros Hp Hf. split_and!; [by apply parts_done | apply Hp | done | done].
Qed.

Lemma set_free_id : set_free P (free P) = P.
Proof. by destruct P. Qed.

(** Splicing the linked region in, on each of the four branches. *)
Lemma wp_splice_none m a b c d :
  l1 = [] → l2 = [] → parts m a b c d →
  wp (write_prev (mkPage p) null ;; write_next (mkPage re) null ;;
      mret (set_free P (Some (mkPage p)))) m freed False.
Proof.
  intros E1 E2 H. apply wp_bind. eapply wp_splice_first; [done|]. intros m1 H1.
  apply wp_bind. eapply wp_splice_last; [done|]. intros m2 H2. apply wp_ret.
  apply freed_intro; [|by rewrite E1].
  destruct H2 as (_ & Hb & _ & Hf).
  split_and!; [by rewrite E1 | by rewrite E1, E2 | by rewrite E2 | apply Hf | apply Hf].
Qed.

Lemma wp_splice_front h l m a b c d :
  l1 = [] → l2 = h :: l → parts m a b c d →
  wp (write_prev (mkPage h) re ;; write_next (mkPage re) h ;;
      write_prev (mkPage p) null ;; mret (set_free P (Some (mkPage p)))) m freed False.
Proof.
  intros E1 E2 H. apply wp_bind. eapply wp_splice_l2; [done | done |]. intros m1 H1.
  apply wp_bind. eapply wp_splice_last; [done|]. intros m2 H2.
  apply wp_bind. eapply wp_splice_first; [done|]. intros m3 H3. apply wp_ret.
  apply freed_intro; [|by rewrite E1].
  destruct H3 as (_ & Hb & Hc & Hf).
  split_and!; [by rewrite E1 | by rewrite E1, E2 | exact Hc | apply Hf | apply Hf].
Qed.

Lemma wp_splice_end l h m a b c d :
  l1 = l ++ [h] → l2 = [] → parts m a b c d →
  wp (write_next (mkPage re) null ;; write_prev (mkPage p) h ;;
      write_next (mkPage h) p ;; mret P) m freed False.
Proof.
  intros E1 E2 H. apply wp_bind. eapply wp_splice_last; [done|]. intros m1 H1.
  apply wp_bind. eapply wp_splice_first; [done|]. intros m2 H2.
  apply wp_bind. eapply wp_splice_l1; [done | done |]. intros m3 H3. apply wp_ret.
  rewrite <- set_free_id. apply freed_intro.
  - destruct H3 as (Ha & Hb & Hc & Hf). rewrite E1, last_or_app, E2.
    split_and!; [exact Ha | exact Hb | by rewrite E2 | apply Hf | apply Hf].
  - rewrite (pr_free _ _ _ HP), E1. by destruct l.
Qed.

Lemma wp_splice_middle l h r l' m a b c d :
  l1 = l ++ [h] → l2 = r :: l' → parts m a b c d →
  wp (write_next (mkPage h) p ;; write_prev (mkPage p) h ;;
      write_next (mkPage re) r ;; write_prev (mkPage r) re ;; mret P) m freed False.
Proof.
  intros E1 E2 H. apply wp_bind. eapply wp_splice_l1; [done | done |]. intros m1 H1.
  apply wp_bind. eapply wp_splice_first; [done|]. intros m2 H2.
  apply wp_bind. eapply wp_splice_last; [done|]. intros m3 H3.
  apply wp_bind. eapply wp_splice_l2; [done | done |]. intros m4 H4. apply wp_ret.
  rewrite <- set_free_id. apply freed_intro.
  - destruct H4 as (Ha & Hb & Hc & Hf). rewrite E1, last_or_app, E2.
    split_and!; [exact Ha | exact Hb | exact Hc | apply Hf | apply Hf].
  - rewrite (pr_free _ _ _ HP), E1. by destruct l.
Qed.

(** The free list beside the region just linked. *)
Lemma parts_intro m x :
  dlseg m null R x → same_outside R m0 m → keeps m0 m →
  parts m (hd_or null l2) null x (last_or null l1).
Proof.
  intros Hd Hs Hk. pose proof (pr_links _ _ _ HP) as [Ha Hc]%dlseg_app.
  assert (∀ q : Z, q ∈ l1 ∨ q ∈ l2 → page_aligned q ∧ q ∉ R) as Hdis.
  { intros q Hq. destruct (parts_disjoint q) as (?&?&?). split; [|naive_solver].
    apply (pr_pages _ _ _ HP). by apply elem_of_app. }
  split_and!; [| done | | | done].
  - eapply dlseg_same_outside; [done | auto | done].
  - eapply dlseg_same_outside; [done | auto | done].
  - eapply same_outside_mono; [|done]. set_solver.
Qed.

(** Inserting behind the head. *)
Lemma wp_insert_after h t m b c d :
  l1 = h :: t → parts m (hd_or null l2) b c d → (length l1 < fuel)%nat →
  wp ('(_, head_next) ← read_free (mkPage h);
      '(head, head_next) ← loop fuel (find_slot (mkPage re)) (mkPage h, head_next);
      if head_next =? null then
        write_next (mkPage re) null ;; write_prev (mkPage p) (pg_addr head) ;;
        write_next head p ;; mret P
      else
        write_next head p ;; write_prev (mkPage p) (pg_addr head) ;;
        write_next (mkPage re) head_next ;; write_prev (mkPage head_next) re ;; mret P)
    m freed False.
Proof.
  intros E Hparts Hf. pose proof Hparts as (Ha & _).
  assert (h ∈ l1 ++ R ++ l2) as Hh by (rewrite E; set_solver).
  destruct (region_new_page h Hh) as (Hha & _ & Hh8 & _ & _).
  pose proof Ha as Ha'. rewrite E in Ha'. destruct Ha' as (Hp & Hn & _).
  apply wp_bind. eapply wp_read_free; [done | done | done | done |]. cbn beta iota.
  apply wp_bind. eapply (wp_find_slot m _ _ []); [done | done | done | |].
  { rewrite E in Hf. simpl in Hf. lia. }
  cbn beta iota. cbn [pg_addr].
  assert (∃ l, l1 = l ++ [last_or h t]) as [l El].
  { rewrite E. destruct t as [|r t _] using rev_ind; [by exists []|].
    exists (h :: t). by rewrite last_or_app. }
  destruct (list_cases l2) as [E2 | (r & k2 & E2)]; rewrite E2 at 1.
  - eapply wp_splice_end; done.
  - assert (r ∈ l1 ++ R ++ l2) as Hr by (rewrite E2; set_solver).
    destruct (region_new_page r Hr) as (_ & Hrb & _). destruct (pr_bottom _ _ _ HP).
    rewrite E2. change (hd_or null (r :: k2)) with r. unfold null at 1. settle_bool.
    eapply wp_splice_middle; done.
Qed.

(** Freeing a region that is not free: it goes back in its place. *)
Lemma wp_free_pages :
  (n + 1 < fuel)%nat → (length l1 < fuel)%nat →
  wp (free_pages P (mkPage p) (Z.of_nat n + 1)) m0 freed False.
Proof.
  intros Hf1 Hf2. destruct (pr_bottom _ _ _ HP), (pr_top _ _ _ HP). unfold free_pages.
  assert (p + 4096 * (Z.of_nat n + 1) ≤ top P) by (unfold PAGE_SIZE in Hhi; lia).
  cbn [pg_addr]. wp_steps. unfold Page_from. cbn [pg_addr].
  replace (p + (Z.of_nat n + 1 - 1) * 0x1000) with re by (unfold re, PAGE_SIZE; lia).
  assert (0 < re + 4096 ≤ top P) by (unfold re, PAGE_SIZE; lia). wp_steps.
  apply (wp_link_region _ _ Hf1). intros m x Hd Hs Hk.
  pose proof (parts_intro m x Hd Hs Hk) as Hparts. rewrite (pr_free _ _ _ HP).
  destruct (list_cases l1) as [E1 | (h & t & E1)]; rewrite E1; simpl.
  - destruct (list_cases l2) as [E2 | (h & t & E2)]; rewrite E2; simpl.
    + eapply wp_splice_none; done.
    + assert (re < h) by (apply Hl2; rewrite E2; set_solver). settle_bool.
      eapply wp_splice_front; done.
  - assert (h < p) by (apply Hl1; rewrite E1; set_solver).
    rewrite (proj2 (Z.ltb_ge re h)) by (unfold re, PAGE_SIZE; lia).
    eapply wp_insert_after; done.
Qed.

End free.

(** ** Creating the pool *)

Section create.
Context {cfg : Config} {m0 : mem} {b t : Z} {n : nat}.
Context (Hal : page_aligned b) (Hb : 0 < b) (Ht : t = b + PAGE_SIZE * Z.of_nat n).
Context (Hu : t < u64_size) (Hn : (2 ≤ n)%nat).
Context (Hram : ∀ a, b ≤ a < t → a mod 8 = 0 → is_Some (m0 !! a)).

Lemma wp_Page_new q m (Q : Page → mem → Prop) Pn :
  page_aligned q → b ≤ q → q + PAGE_SIZE ≤ t → keeps m0 m →
  (∀ m', page_zero m' q → same_outside [q] m m' → keeps m0 m' → Q (mkPage q) m') →
  wp (Page_new q) m Q Pn.
Proof.
  intros Hq Hlo Hhi Hk HQ. unfold PAGE_SIZE in Hhi. unfold Page_new. apply wp_bind.
  apply (wp_zero q); [done | lia | unfold PAGE_SIZE; lia | |].
  { intros a Ha H8. unfold PAGE_SIZE in Ha. apply Hk, Hram; [done | lia | done]. }
  intros m1 Hz Hs. apply wp_ret, HQ; [done | done |]. eapply keeps_trans; [done|].
  eapply keeps_zero; [|done]. by intros ? ->%list_elem_of_singleton.
Qed.

Lemma wp_write_free q pv nx m (Q : unit → mem → Prop) Pn :
  page_aligned q → b ≤ q → q + PAGE_SIZE ≤ t → page_zero m q → keeps m0 m →
  (∀ m', m' !! q = Some pv → m' !! (q + 8) = Some nx → same_outside [q] m m' →
    keeps m0 m' → Q () m') →
  wp (write_free (mkPage q) pv nx) m Q Pn.
Proof.
  intros Hq Hlo Hhi Hz Hk HQ. assert (q mod 8 = 0) by eauto with reedos.
  unfold PAGE_SIZE in Hhi. unfold write_free.
  assert (m !! q = Some 0) by (apply Hz; [unfold PAGE_SIZE; lia | done]).
  assert (m !! (q + 8) = Some 0) by (apply Hz; [unfold PAGE_SIZE; lia | zdm]).
  apply wp_bind, wp_write_prev; [done | done |].
  apply wp_write_next; [done | u64_range | rewrite lookup_insert_ne by lia; done |].
  apply HQ.
  - rewrite lookup_insert_ne by lia. apply lookup_insert_eq.
  - apply lookup_insert_eq.
  - eapply same_outside_trans; apply same_outside_insert;
      [rewrite page_of_id by done | rewrite page_of_word by (done || unfold PAGE_SIZE; lia)];
      set_solver.
  - eapply keeps_trans; [done|]. eapply keeps_trans; apply keeps_insert.
Qed.

Definition new_next (k : nat) : Z := if decide (k = n) then null else b + PAGE_SIZE * Z.of_nat k.

Definition new_inv (pa : Z) (m : mem) : Prop :=
  ∃ k, (1 ≤ k ≤ n)%nat ∧ pa = b + PAGE_SIZE * Z.of_nat k ∧
    dlseg m null (run b k) (new_next k) ∧ keeps m0 m ∧ same_outside (run b n) m0 m.

Lemma new_inv_step k m m' :
  (1 ≤ k < n)%nat → dlseg m null (run b k) (new_next k) →
  m' !! (b + PAGE_SIZE * Z.of_nat k) = Some (b + PAGE_SIZE * Z.of_nat k - PAGE_SIZE) →
  m' !! (b + PAGE_SIZE * Z.of_nat k + 8) = Some (new_next (S k)) →
  same_outside [b + PAGE_SIZE * Z.of_nat k] m m' →
  dlseg m' null (run b (S k)) (new_next (S k)).
Proof.
  intros Hk Hd H1 H2 Hs. rewrite run_snoc. apply dlseg_app. split.
  - unfold hd_or. simpl. unfold new_next in Hd. rewrite decide_False in Hd by lia.
    eapply dlseg_same_outside; [done | | done].
    intros u (i & Hi & ->)%elem_of_run. split; [by apply page_aligned_add|].
    intros ?%list_elem_of_singleton. unfold PAGE_SIZE in *. lia.
  - destruct k as [|k]; [lia|]. rewrite last_or_run. simpl. split_and!; [|done|done].
    rewrite H1. f_equal. unfold PAGE_SIZE. lia.
Qed.

Lemma wp_new_turn pa m :
  new_inv pa m →
  wp (if pa <? t then
        prev_pa ← u_sub pa PAGE_SIZE;
        next_pa ← (if pa =? t - PAGE_SIZE then mret null else u_add pa PAGE_SIZE);
        tmp ← Page_new pa;
        write_free tmp prev_pa next_pa ;;
        pa' ← u_add pa PAGE_SIZE;
        mret (inl pa')
      else mret (inr ())) m
    (λ r m', match r with
             | inl pa' => new_inv pa' m' ∧
                 (Z.to_nat ((t - pa') / PAGE_SIZE) < Z.to_nat ((t - pa) / PAGE_SIZE))%nat
             | inr _ => dlseg m' null (run b n) null ∧ keeps m0 m' ∧ same_outside (run b n) m0 m'
             end) False.
Proof.
  intros (k & Hk & -> & Hd & Hkp & Hso). destruct (decide (k = n)) as [->|Hne].
  { rewrite (proj2 (Z.ltb_ge _ _)) by lia. apply wp_ret. unfold new_next in Hd.
    by rewrite decide_True in Hd. }
  set (q := b + PAGE_SIZE * Z.of_nat k). assert (page_aligned q) by by apply page_aligned_add.
  assert (b + PAGE_SIZE ≤ q ∧ q + PAGE_SIZE ≤ t) as [Hlo Hhi] by (unfold q, PAGE_SIZE in *; lia).
  rewrite (proj2 (Z.ltb_lt _ _)) by (unfold PAGE_SIZE in Hhi; lia).
  assert (q + 4096 ≤ t ∧ b + 4096 ≤ q) by (unfold PAGE_SIZE in *; lia).
  change PAGE_SIZE with 4096. wp_step. wp_step. apply wp_bind.
  assert (∀ Q : Z → mem → Prop, Q (new_next (S k)) m →
    wp (if q =? t - 4096 then mret null else u_add q 4096) m Q False) as Hnext.
  { intros Q HQ. unfold new_next in HQ. unfold PAGE_SIZE in *.
    destruct (decide (S k = n)); [rewrite (proj2 (Z.eqb_eq _ _)) by (unfold q; lia)
      | rewrite (proj2 (Z.eqb_neq _ _)) by (unfold q; lia)]; wp_steps; [done|].
    by replace (q + 4096) with (b + 4096 * Z.of_nat (S k)) by (unfold q; lia). }
  apply Hnext. cbn beta. apply wp_bind.
  apply (wp_Page_new q); [done | lia | done | done |]. intros m1 Hz Hs1 Hk1.
  apply wp_bind. apply (wp_write_free q); [done | lia | done | done | done |].
  intros m2 H1 H2 Hs2 Hk2. wp_steps. split.
  - assert (same_outside [q] m m2) as Hs12 by by eapply same_outside_trans.
    exists (S k). split; [lia|]. split; [unfold q, PAGE_SIZE; lia|].
    split; [by eapply new_inv_step; [lia | ..]|]. split; [done|].
    eapply same_outside_trans; [exact Hso|]. eapply same_outside_mono; [|exact Hs12].
    intros u ->%list_elem_of_singleton. apply elem_of_run. exists (Z.of_nat k). split; [lia | done].
  - unfold q, PAGE_SIZE in *. rewrite <- Z2Nat.inj_lt by zdm. zdm.
Qed.

Lemma wp_Pool_new (Q : Pool → mem → Prop) Pn :
  (n < fuel)%nat →
  (∀ m', pool_rep m' (mkPool (Some (mkPage b)) b t) (run b n) → same_outside (run b n) m0 m' →
    Q (mkPool (Some (mkPage b)) b t) m') →
  wp (Pool_new b t PAGE_SIZE) m0 Q Pn.
Proof.
  intros Hf HQ. assert (b + 4096 * Z.of_nat n = t) by (rewrite Ht; unfold PAGE_SIZE; lia).
  unfold Pool_new. apply wp_bind, (wp_Page_new b); [done | lia | unfold PAGE_SIZE; lia | by intros a |].
  intros m1 Hz1 Hs1 Hk1. apply wp_bind, wp_u_add; [unfold PAGE_SIZE; u64_range|]. apply wp_bind.
  apply (wp_write_free b); [done | lia | unfold PAGE_SIZE; lia | done | done |].
  intros m2 H1 H2 Hs2 Hk2. apply wp_bind, wp_u_sub; [unfold PAGE_SIZE; u64_range|]. apply wp_bind.
  eapply (wp_loop new_inv (λ pa _, Z.to_nat ((t - pa) / PAGE_SIZE))).
  - intros pa m Hinv. eapply wp_mono; [by apply wp_new_turn | | done].
    intros [pa'|[]] m' Hpost; [exact Hpost|]. destruct Hpost as (Hd & Hk & Hso). apply wp_ret, HQ; [|done].
    split; cbn [free bottom top]; [done | | | apply run_sorted | | done |].
    + split; [subst t; by apply page_aligned_add | done].
    + by destruct n as [|n']; [lia|].
    + intros q (i & Hi & ->)%elem_of_run. split; [by apply page_aligned_add|].
      unfold PAGE_SIZE in *. lia.
    + intros a Ha H8. apply Hk; [done|]. by apply Hram.
  - exists 1%nat. split; [lia|]. split; [unfold PAGE_SIZE; lia|].
    assert (same_outside (run b n) m0 m2) as Hso.
    { eapply same_outside_mono; [|by eapply same_outside_trans; [exact Hs1 | exact Hs2]].
      intros u ->%list_elem_of_singleton. apply elem_of_run. exists 0. split; [lia | unfold PAGE_SIZE; lia]. }
    split; [|by split]. unfold new_next. rewrite decide_False by lia. simpl.
    split_and!; [done | rewrite H2; f_equal; unfold PAGE_SIZE; lia | done].
  - unfold PAGE_SIZE. replace ((t - (b + 4096)) / 4096) with (Z.of_nat n - 1) by zdm. lia.
Qed.

End create.
