(* ===== verification/PallocTheorems.v ===== *)
(** * The page pool: what its operations promise

    The theorems on the public operations of src/vm/palloc.rs, over the free
    list as its clients see it ([pagepool_rep]), and the interface
    [PageAllocSpec] that the page tables and the kernel heap are proved against. *)

From S2P Require Import Prelude Machine Param Mutex Palloc.
From S2P Require Import FreeList PallocAlloc PallocFree.

(** ** Helpers *)

Section helpers.
Context {cfg : Config}.

Lemma wp_is_multiple {S} a (s : S) (Q : bool → S → Prop) P :
  Q (bool_decide (page_aligned a)) s → wp (is_multiple a PAGE_SIZE) s Q P.
Proof.
  intros HQ. unfold is_multiple. apply wp_bind, wp_u_sub; [unfold PAGE_SIZE; u64_range|]. apply wp_ret.
  change (PAGE_SIZE - 1) with (Z.ones 12). rewrite land_low by lia.
  replace (a mod 2 ^ 12 =? 0) with (bool_decide (page_aligned a)); [done|].
  unfold page_aligned, PAGE_SIZE. change (2 ^ 12) with 4096.
  case_bool; [by rewrite bool_decide_true | by rewrite bool_decide_false].
Qed.

(** Locking an unlocked pool. *)
Lemma wp_lock_pool {pp : PagePool} (m : mem) Q P :
  (0 < fuel)%nat → lock_state (pool pp) = 0 →
  Q (mkMutex 1 (inner (pool pp))) m → wp (lock (pool pp)) m Q P.
Proof. apply wp_lock. Qed.

Lemma pagepool_unlock m P l :
  pool_rep m P l → pagepool_rep m (mkPagePool (mkMutex 0 P)) l.
Proof. done. Qed.

(** What allocating [S n] pages from the head of the list gives. *)
Definition allocated (m : mem) (p : Z) (n : nat) (l : list Z) (pp' : PagePool) (m' : mem) : Prop :=
  pagepool_rep m' pp' l ∧ (∀ q, q ∈ run p n → page_zero m' q) ∧
  same_outside (run p n ++ take 1 l) m m' ∧ keeps m m' ∧ written (run p n) (take 1 l) m m'.

(** The addresses a pool manages. *)
Definition in_pool (pp : PagePool) (q : Z) : Prop :=
  page_aligned q ∧ bottom (inner (pool pp)) ≤ q < top (inner (pool pp)).

Definition same_bounds (pp pp' : PagePool) : Prop :=
  bottom (inner (pool pp')) = bottom (inner (pool pp)) ∧
  top (inner (pool pp')) = top (inner (pool pp)).

Lemma in_pool_bounds pp pp' q : same_bounds pp pp' → in_pool pp q → in_pool pp' q.
Proof. intros [E1 E2]. unfold in_pool. by rewrite E1, E2. Qed.

Lemma wp_palloc_plural m pp p n l (Q : _ → mem → Prop) Pn :
  pagepool_rep m pp (run p (S n) ++ l) →
  n = 0%nat ∨ head l = Some (p + PAGE_SIZE * (Z.of_nat n + 1)) →
  (n + 2 < fuel)%nat →
  (∀ m' pp', allocated m p (S n) l pp' m' → same_bounds pp pp' → Q (Ok p, pp') m') →
  wp (palloc_plural pp (Z.of_nat n + 1)) m Q Pn.
Proof.
  intros [Hl HP] Hn Hf HQ. unfold palloc_plural. wp_steps.
  apply wp_lock; [lia | done |]. unfold deref. cbn [inner].
  rewrite (pr_free _ _ _ HP). simpl.
  apply wp_bind. eapply wp_alloc_pages; [done | done | done |].
  intros m' P' HP' Hz Hs Hk Hw Eb Et. cbn beta iota. apply wp_ret, HQ; by split_and!.
Qed.

Lemma wp_palloc m pp p l (Q : _ → mem → Prop) Pn :
  pagepool_rep m pp (p :: l) → (2 < fuel)%nat →
  (∀ m' pp', allocated m p 1 l pp' m' → same_bounds pp pp' → Q (Ok (mkPage p), pp') m') →
  wp (palloc pp) m Q Pn.
Proof.
  intros [Hl HP] Hf HQ. unfold palloc.
  apply wp_bind, wp_lock; [lia | done |]. unfold deref. cbn [inner].
  rewrite (pr_free _ _ _ HP). simpl. apply wp_bind.
  apply (wp_alloc_pages m _ p 0 l); [done | by left | lia |].
  intros m' P' HP' Hz Hs Hk Hw Eb Et. cbn beta iota. apply wp_ret, HQ; by split_and!.
Qed.

(** What freeing the run puts back. *)
Lemma wp_pfree_plural m pp p n l1 l2 (Q : _ → mem → Prop) Pn :
  pagepool_rep m pp (l1 ++ l2) → page_aligned p →
  bottom (inner (pool pp)) ≤ p →
  p + PAGE_SIZE * (Z.of_nat n + 1) ≤ top (inner (pool pp)) →
  (∀ q, q ∈ l1 → q < p) → (∀ q, q ∈ l2 → p + PAGE_SIZE * Z.of_nat n < q) →
  (n + 1 < fuel)%nat → (length l1 < fuel)%nat →
  (∀ m' pp', pagepool_rep m' pp' (l1 ++ run p (S n) ++ l2) →
    same_outside (l1 ++ run p (S n) ++ l2) m m' → same_bounds pp pp' → Q (Ok (), pp') m') →
  wp (pfree_plural pp p (Z.of_nat n + 1)) m Q Pn.
Proof.
  intros [Hl HP] Hal Hlo Hhi H1 H2 Hf1 Hf2 HQ. unfold pfree_plural. wp_steps.
  apply wp_is_multiple. rewrite bool_decide_true by done. cbn [negb].
  apply wp_bind, wp_lock; [lia | done |]. unfold deref, Page_from. cbn [inner].
  apply wp_bind. eapply wp_mono; [by eapply wp_free_pages | | done].
  intros P' m' (HP' & Hs & ? & ?). apply wp_ret, HQ; [by apply pagepool_unlock | done | done].
Qed.

Lemma wp_pfree m pp p l1 l2 (Q : _ → mem → Prop) Pn :
  pagepool_rep m pp (l1 ++ l2) → page_aligned p →
  bottom (inner (pool pp)) ≤ p → p + PAGE_SIZE ≤ top (inner (pool pp)) →
  (∀ q, q ∈ l1 → q < p) → (∀ q, q ∈ l2 → p < q) →
  (1 < fuel)%nat → (length l1 < fuel)%nat →
  (∀ m' pp', pagepool_rep m' pp' (l1 ++ p :: l2) →
    same_outside (l1 ++ p :: l2) m m' → same_bounds pp pp' → Q (Ok (), pp') m') →
  wp (pfree pp (mkPage p)) m Q Pn.
Proof.
  intros [Hl HP] Hal Hlo Hhi H1 H2 Hf1 Hf2 HQ. unfold pfree. cbn [pg_addr]. apply wp_bind.
  apply wp_is_multiple. rewrite bool_decide_true by done. cbn [negb].
  apply wp_bind, wp_lock; [lia | done |]. unfold deref. cbn [inner].
  apply wp_bind. change 1 with (Z.of_nat 0 + 1).
  eapply wp_mono; [eapply (wp_free_pages (n := 0) HP) | | done];
    [done | done | lia | done | | lia | done |].
  - intros q Hq. apply H2 in Hq. lia.
  - intros P' m' (HP' & Hs & ? & ?). apply wp_ret, HQ; [by apply pagepool_unlock | done | done].
Qed.

Lemma palloc_none m pp :
  pagepool_rep m pp [] → (0 < fuel)%nat → palloc pp m = Done ((Err OutOfPages, pp), m).
Proof.
  intros [Hl HP] Hf. apply wp_exact. unfold palloc.
  apply wp_bind, wp_lock; [lia | done |]. unfold deref. cbn [inner].
  rewrite (pr_free _ _ _ HP). simpl. apply wp_ret. split; [|done].
  destruct pp as [[ls P]]. simpl in *. by subst ls.
Qed.

End helpers.

(** ** Allocation *)

Section theorems.
Context {cfg : Config}.

(** C19: with a free page, [palloc] returns the lowest one, zeroed and no longer in
    the free list, the rest of the list intact and the lock released; only that
    page and the previous link of the next free page, its first word, are written. *)
Theorem palloc_takes_head m pp p l :
  pagepool_rep m pp (p :: l) → (2 < fuel)%nat →
  ∃ m' pp', palloc pp m = Done ((Ok (mkPage p), pp'), m') ∧
    pagepool_rep m' pp' l ∧ page_zero m' p ∧ p ∉ l ∧
    written [p] (take 1 l) m m'.
Proof.
  intros HP Hf. destruct (proj1 (wp_done (palloc pp) m
    (λ r m', r.1 = Ok (mkPage p) ∧ allocated m p 1 l r.2 m'))) as ([r pp'] & m' & E & Hr & Ha).
  { eapply wp_palloc; [done | done |]. by intros m' pp' H _. }
  simpl in Hr. subst r. destruct Ha as (Hrep & Hz & _ & _ & Hw).
  exists m', pp'. split_and!; [done | exact Hrep | apply Hz; simpl; set_solver | | exact Hw].
  destruct HP as [_ HP]. by pose proof (sorted_NoDup _ (pr_sorted _ _ _ HP)) as [? _]%NoDup_cons.
Qed.

(** An empty pool answers [OutOfPages] and changes nothing. *)
Theorem palloc_empty m pp :
  pagepool_rep m pp [] → (0 < fuel)%nat → palloc pp m = Done ((Err OutOfPages, pp), m).
Proof. apply palloc_none. Qed.

(** C16: [palloc_plural] of [n >= 2] pages succeeds when the [n] lowest free pages
    and the one after them are contiguous: it returns the lowest, and takes
    exactly these [n] pages, zeroed, out of the list. *)
Theorem palloc_plural_contiguous m pp p n l :
  pagepool_rep m pp (run p n ++ (p + PAGE_SIZE * Z.of_nat n) :: l) →
  (2 ≤ n)%nat → (n + 1 < fuel)%nat →
  ∃ m' pp', palloc_plural pp (Z.of_nat n) m = Done ((Ok p, pp'), m') ∧
    pagepool_rep m' pp' ((p + PAGE_SIZE * Z.of_nat n) :: l) ∧
    (∀ q, q ∈ run p n → page_zero m' q) ∧
    same_outside (run p (S n)) m m'.
Proof.
  intros HP Hn Hf. destruct n as [|n]; [lia|]. set (l' := _ :: l) in HP.
  destruct (proj1 (wp_done (palloc_plural pp (Z.of_nat n + 1)) m
    (λ r m', r.1 = Ok p ∧ allocated m p (S n) l' r.2 m'))) as ([r pp'] & m' & E & Hr & Ha).
  { eapply wp_palloc_plural; [done | right | lia |].
    - unfold l'. simpl. do 2 f_equal. lia.
    - by intros m' pp' H _. }
  simpl in Hr. subst r. destruct Ha as (Hrep & Hz & Hs & _). exists m', pp'.
  replace (Z.of_nat (S n)) with (Z.of_nat n + 1) by lia.
  split_and!; [done | | done |].
  - unfold l' in Hrep. by replace (Z.of_nat (S n)) with (Z.of_nat n + 1) in Hrep by lia.
  - rewrite run_snoc. exact Hs.
Qed.

(** ** What [palloc_plural] does when the head of the list cannot serve it *)

Lemma plural_unlocked m pp n p l :
  pagepool_rep m pp (p :: l) → n ≠ 0 → (0 < fuel)%nat →
  palloc_plural pp n m = ('(r, P) ← alloc_pages (inner (pool pp)) (mkPage p) n;
    mret (match r with Err _ => Err OutOfPages | Ok ptr => Ok (pg_addr ptr) end,
          mkPagePool (guard_drop (deref_mut P (mkMutex 1 (inner (pool pp))))))) m.
Proof.
  intros [Hl HP] Hn Hf. unfold palloc_plural. rewrite (proj2 (Z.eqb_neq n 0)) by done. cbn [negb].
  rewrite (bind_done _ _ m () m) by done.
  rewrite (bind_done _ _ m (mkMutex 1 (inner (pool pp))) m) by (apply wp_exact, wp_lock; done).
  unfold deref. cbn [inner]. by rewrite (pr_free _ _ _ HP).
Qed.

Lemma pool_eta pp : lock_state (pool pp) = 0 → mkPagePool (mkMutex 0 (inner (pool pp))) = pp.
Proof. destruct pp as [[ls P]]. simpl. by intros ->. Qed.

Lemma plural_run_end m pp p k n :
  pagepool_rep m pp (run p k) → (2 ≤ k)%nat → Z.of_nat k ≤ n → is_u64 n → (k < fuel)%nat →
  palloc_plural pp n m = Done ((Err OutOfPages, pp), m).
Proof.
  intros HP Hk Hn Hu Hf. destruct k as [|[|k]]; [lia | lia |].
  rewrite (plural_unlocked m pp n p (run (p + PAGE_SIZE) (S k))) by (done || lia).
  apply wp_exact, wp_bind. eapply wp_alloc_pages_nogap; [apply HP | lia | done | lia |].
  apply wp_ret. split; [|done]. f_equal. apply pool_eta, HP.
Qed.

Lemma plural_gap_dev m pp p k q l n :
  overflow_checks = true →
  pagepool_rep m pp (run p k ++ q :: l) → q ≠ p + PAGE_SIZE * Z.of_nat k →
  (1 ≤ k)%nat → Z.of_nat k ≤ n → 2 ≤ n → is_u64 n → (k < fuel)%nat → palloc_plural pp n m = Panic.
Proof.
  intros Hc HP Hq Hk Hkn Hn Hu Hf. destruct k as [|k]; [lia|].
  rewrite (plural_unlocked m pp n p (run (p + PAGE_SIZE) k ++ q :: l)) by (done || lia).
  apply wp_panics, wp_bind.
  eapply (wp_alloc_pages_gap_dev m _ p k); [done | apply HP | lia | lia | done | done | lia | done].
Qed.

Lemma plural_gap_release m pp p k q l n :
  overflow_checks = false →
  pagepool_rep m pp (run p k ++ q :: l) → q ≠ p + PAGE_SIZE * Z.of_nat k →
  (1 ≤ k)%nat → Z.of_nat k ≤ n → 2 ≤ n ≤ 2 ^ 51 →
  top (inner (pool pp)) ≤ 2 ^ 63 → (k + 1 < fuel)%nat →
  palloc_plural pp n m = Done ((Ok q, pp), m).
Proof.
  intros Hc HP Hq Hk Hkn Hn Ht Hf. destruct k as [|k]; [lia|].
  rewrite (plural_unlocked m pp n p (run (p + PAGE_SIZE) k ++ q :: l)) by (done || lia).
  apply wp_exact, wp_bind.
  eapply (wp_alloc_pages_gap_release m _ p k); [done | apply HP | lia | lia | lia | done | lia |].
  apply wp_ret. split; [|done]. f_equal. apply pool_eta, HP.
Qed.

Lemma plural_single m pp p n :
  pagepool_rep m pp [p] → 2 ≤ n → is_u64 n → (1 < fuel)%nat → m !! null = None →
  palloc_plural pp n m = if p / 0x1000 <? n - 1 then Diverge else Fault.
Proof.
  intros HP Hn Hu Hf Hnull. rewrite (plural_unlocked m pp n p []) by (done || lia).
  unfold mbind, M_bind. rewrite (alloc_pages_single m _ p n) by (done || apply HP). by destruct (_ <? _).
Qed.

(** A free list starts with a longest contiguous run. *)
Lemma head_run p l :
  ∃ k l', p :: l = run p (S k) ++ l' ∧ head l' ≠ Some (p + PAGE_SIZE * (Z.of_nat k + 1)).
Proof.
  revert p. induction l as [|q l IH]; intros p; [by exists 0%nat, []|].
  destruct (decide (q = p + PAGE_SIZE)) as [->|Hne].
  - destruct (IH (p + PAGE_SIZE)) as (k & l' & E & Hh). exists (S k), l'. split.
    + change (run p (S (S k))) with (p :: run (p + PAGE_SIZE) (S k)). by rewrite E.
    + intros Hh'. apply Hh. rewrite Hh'. f_equal. lia.
  - exists 0%nat, (q :: l). split; [done|]. simpl. intros [= ->]. apply Hne. lia.
Qed.

Lemma plural_served m pp p n l :
  pagepool_rep m pp (run p (S n) ++ l) → n = 0%nat ∨ head l = Some (p + PAGE_SIZE * (Z.of_nat n + 1)) →
  (n + 2 < fuel)%nat → palloc_plural pp (Z.of_nat n + 1) m ≠ Diverge.
Proof.
  intros HP Hn Hf E. assert (wp (palloc_plural pp (Z.of_nat n + 1)) m (λ _ _, True) False) as Hw
    by by eapply wp_palloc_plural.
  apply wp_done in Hw as (r & m' & E' & _). congruence.
Qed.

(** C17: [palloc_plural] terminates: on every well formed pool, whatever the shape of
    its free list, a request of at least one page and of at most as many bytes as there
    are below the pool ends with pages, an error, a panic or a fault; none of its loops
    goes round more often than there are free pages, plus two. *)
Theorem palloc_plural_terminates m pp l n :
  pagepool_rep m pp l → 1 ≤ n → PAGE_SIZE * n ≤ bottom (inner (pool pp)) →
  top (inner (pool pp)) ≤ 2 ^ 63 → m !! null = None → (length l + 2 < fuel)%nat →
  palloc_plural pp n m ≠ Diverge.
Proof.
  intros HP Hn Hbot Htop Hnull Hf. pose proof HP as [_ HP']. destruct (pr_top _ _ _ HP') as [_ Htu].
  assert (n = 1 ∨ 2 ≤ n) as Hn' by lia. destruct l as [|p l].
  { assert (wp (palloc_plural pp n) m (λ _ _, True) False) as (r & m' & -> & _)%wp_done; [|done].
    unfold palloc_plural. wp_steps. apply wp_lock; [lia | apply HP |]. unfold deref. cbn [inner].
    rewrite (pr_free _ _ _ HP'). simpl. by apply wp_ret. }
  destruct (pr_pages _ _ _ HP' p) as [_ Hp]; [left|].
  destruct (head_run p l) as (k & l' & E & Hh). rewrite E in HP, Hf. rewrite length_app, length_run in Hf.
  change (2 ^ 63) with 9223372036854775808 in Htop. unfold PAGE_SIZE in Hbot.
  assert (is_u64 n) as Hu by u64_range. destruct (Z.le_gt_cases n (Z.of_nat k)) as [Hle|Hgt].
  - replace n with (Z.of_nat (Z.to_nat (n - 1)) + 1) by lia. set (j := Z.to_nat (n - 1)).
    replace (S k) with (S j + S (k - S j))%nat in HP by (unfold j; lia). rewrite run_app, <- app_assoc in HP.
    eapply plural_served; [exact HP | right; simpl; do 2 f_equal; lia | unfold j; lia].
  - destruct Hn' as [->|Hn2].
    { change (run p (S k)) with (run p 1 ++ run (p + PAGE_SIZE) k) in HP. rewrite <- app_assoc in HP.
      apply (plural_served m pp p 0 _ HP); [by left | lia]. }
    destruct l' as [|q l'].
    + rewrite app_nil_r in HP. destruct k as [|k]; [|by erewrite (plural_run_end m pp p (S (S k)) n) by (done || lia)].
      rewrite (plural_single m pp p n) by (done || lia). rewrite (proj2 (Z.ltb_ge _ _)); [done | zdm].
    + assert (q ≠ p + PAGE_SIZE * Z.of_nat (S k)) as Hq.
      { intros ->. apply Hh. simpl. do 2 f_equal. lia. }
      destruct overflow_checks eqn:Ec.
      * by rewrite (plural_gap_dev m pp p (S k) q l' n) by (done || lia).
      * rewrite (plural_gap_release m pp p (S k) q l' n); try done; change (2 ^ 51) with 2251799813685248;
          change (2 ^ 63) with 9223372036854775808; simpl in Hf; lia.
Qed.

(** C37: with exactly one free page, a request of two or more takes the null link of that
    page for the next region: it reads the links of the page at address 0 and faults,
    or, when it asks for at least two pages more than there are below the free page,
    loops for ever. *)
Theorem palloc_plural_single_page m pp p n :
  pagepool_rep m pp [p] → 2 ≤ n → is_u64 n → (1 < fuel)%nat → m !! null = None →
  palloc_plural pp n m = if p / 0x1000 <? n - 1 then Diverge else Fault.
Proof. apply plural_single. Qed.

(** A free list that is one contiguous run of [k >= 2] pages cannot serve a
    request for [n >= k] pages: the answer is [OutOfPages] and nothing changes;
    this includes [n = k], where the pages asked for are all free. *)
Theorem palloc_plural_last_run m pp p k n :
  pagepool_rep m pp (run p k) → (2 ≤ k)%nat → Z.of_nat k ≤ n → is_u64 n → (k < fuel)%nat →
  palloc_plural pp n m = Done ((Err OutOfPages, pp), m).
Proof. apply plural_run_end. Qed.

(** C35: under the dev profile, when the run at the head of the free list has at
    most [n] pages, [n >= 2], and a gap follows, [palloc_plural n] panics: the search starts
    over behind the gap with a region that ends before it begins, and the
    subtraction of its bounds overflows, whatever free run lies further on. *)
Theorem palloc_plural_gap_panics m pp p k q l n :
  overflow_checks = true →
  pagepool_rep m pp (run p k ++ q :: l) → q ≠ p + PAGE_SIZE * Z.of_nat k →
  (1 ≤ k)%nat → Z.of_nat k ≤ n → 2 ≤ n → is_u64 n → (k < fuel)%nat →
  palloc_plural pp n m = Panic.
Proof. apply plural_gap_dev. Qed.

(** C36: under the release profile the same request of [n >= 2] pages, at most [2^51],
    from a pool below [2^63] returns the page behind the gap as if it were the region:
    neither the free list nor the memory changes, so that page stays free while its
    caller owns it. *)
Theorem palloc_plural_gap_double_use m pp p k q l n :
  overflow_checks = false →
  pagepool_rep m pp (run p k ++ q :: l) → q ≠ p + PAGE_SIZE * Z.of_nat k →
  (1 ≤ k)%nat → Z.of_nat k ≤ n → 2 ≤ n ≤ 2 ^ 51 →
  top (inner (pool pp)) ≤ 2 ^ 63 → (k + 1 < fuel)%nat →
  palloc_plural pp n m = Done ((Ok q, pp), m).
Proof. apply plural_gap_release. Qed.

(** ** Deallocation *)

(** C18: freeing [n] contiguous pages of the pool that are not free puts them back in
    their place of the sorted list, linked both ways, and releases the lock. *)
Theorem pfree_plural_inserts m pp p n l1 l2 :
  pagepool_rep m pp (l1 ++ l2) → (1 ≤ n)%nat → page_aligned p →
  bottom (inner (pool pp)) ≤ p →
  p + PAGE_SIZE * Z.of_nat n ≤ top (inner (pool pp)) →
  (∀ q, q ∈ l1 → q < p) → (∀ q, q ∈ l2 → p + PAGE_SIZE * (Z.of_nat n - 1) < q) →
  (n < fuel)%nat → (length l1 < fuel)%nat →
  ∃ m' pp', pfree_plural pp p (Z.of_nat n) m = Done ((Ok (), pp'), m') ∧
    pagepool_rep m' pp' (l1 ++ run p n ++ l2) ∧
    same_outside (l1 ++ run p n ++ l2) m m'.
Proof.
  intros HP Hn Hal Hlo Hhi H1 H2 Hf1 Hf2. destruct n as [|n]; [lia|].
  replace (Z.of_nat (S n)) with (Z.of_nat n + 1) in * by lia.
  destruct (proj1 (wp_done (pfree_plural pp p (Z.of_nat n + 1)) m
    (λ r m', r.1 = Ok () ∧ pagepool_rep m' r.2 (l1 ++ run p (S n) ++ l2) ∧
      same_outside (l1 ++ run p (S n) ++ l2) m m'))) as ([r pp'] & m' & E & Hr & Ha & Hs).
  { eapply wp_pfree_plural; [done | done | done | done | done | | lia | done |].
    - intros q Hq. apply H2 in Hq. lia.
    - by intros m' pp' ?? _. }
  simpl in Hr. subst r. by exists m', pp'.
Qed.

(** C22: when the [n + 1] lowest free pages are contiguous, [n >= 2], allocating [n] pages
    and freeing them again restores the free list, and leaves every word outside the
    free pages as it was. *)
Theorem palloc_pfree_roundtrip m pp p n l :
  pagepool_rep m pp (run p n ++ (p + PAGE_SIZE * Z.of_nat n) :: l) →
  (2 ≤ n)%nat → (n + 1 < fuel)%nat →
  ∃ m' pp',
    ('(r, pp1) ← palloc_plural pp (Z.of_nat n);
     a ← expect r;
     pfree_plural pp1 a (Z.of_nat n)) m = Done ((Ok (), pp'), m') ∧
    pagepool_rep m' pp' (run p n ++ (p + PAGE_SIZE * Z.of_nat n) :: l) ∧
    same_outside (run p n ++ (p + PAGE_SIZE * Z.of_nat n) :: l) m m'.
Proof.
  intros HP Hn Hf. destruct n as [|n]; [lia|].
  replace (Z.of_nat (S n)) with (Z.of_nat n + 1) in * by lia. set (l' := _ :: l) in *.
  enough (wp ('(r, pp1) ← palloc_plural pp (Z.of_nat n + 1);
     a ← expect r; pfree_plural pp1 a (Z.of_nat n + 1)) m
     (λ r m', r.1 = Ok () ∧ pagepool_rep m' r.2 (run p (S n) ++ l') ∧
       same_outside (run p (S n) ++ l') m m') False) as H.
  { apply wp_done in H as ([r pp'] & m' & E & Hr & H). simpl in Hr. subst r. by exists m', pp'. }
  apply wp_bind. eapply wp_palloc_plural; [done | right; done | lia |].
  intros m1 pp1 (Hrep & _ & Hs1 & _) [Eb Et]. cbn beta iota. apply wp_bind, wp_ret.
  destruct HP as [_ HP]. destruct (run_head_bounds _ _ _ _ _ HP) as (Hal & _ & _).
  assert (p + PAGE_SIZE * Z.of_nat n ∈ run p (S n) ++ l') as Hlast by (rewrite run_snoc; set_solver).
  pose proof (pr_page_top HP _ Hlast).
  apply (wp_pfree_plural m1 pp1 p n [] l'); [done | done | | | | | lia | simpl; lia |].
  - rewrite Eb. apply (pr_pages _ _ _ HP). simpl. set_solver.
  - rewrite Et. unfold PAGE_SIZE in *. lia.
  - by intros q ?%not_elem_of_nil.
  - intros q Hq. pose proof (pr_sorted _ _ _ HP) as Hs. apply sorted_app in Hs as (_ & _ & Hs).
    apply Hs; [rewrite run_snoc; set_solver | done].
  - intros m2 pp2 Hrep2 Hs2 _. split_and!; [done | done |]. simpl in Hs2.
    eapply same_outside_trans; [|exact Hs2]. eapply same_outside_mono; [|done]. set_solver.
Qed.

(** [pfree] and [pfree_plural] panic on an address that is not page aligned, and
    the plural operations on zero pages; the pool is not touched. *)
Theorem page_arguments_checked m pp a n :
  ¬ page_aligned a →
  pfree pp (mkPage a) m = Panic ∧ pfree_plural pp a n m = Panic ∧
  palloc_plural pp 0 m = Panic ∧ pfree_plural pp a 0 m = Panic.
Proof.
  intros Ha. split_and!; apply wp_panics.
  - unfold pfree. apply wp_bind, wp_is_multiple. cbn [pg_addr].
    rewrite bool_decide_false by done. by apply wp_panic.
  - unfold pfree_plural. apply wp_bind. apply wp_assert; [|done]. intros _.
    apply wp_bind, wp_is_multiple. rewrite bool_decide_false by done. by apply wp_panic.
  - by apply wp_bind, wp_assert.
  - by apply wp_bind, wp_assert.
Qed.

(** An operation on a pool whose lock is already held never returns. *)
Theorem page_pool_self_deadlock m pp a n :
  lock_state (pool pp) = 1 → page_aligned a → n ≠ 0 →
  palloc pp m = Diverge ∧ pfree pp (mkPage a) m = Diverge ∧
  palloc_plural pp n m = Diverge ∧ pfree_plural pp a n m = Diverge.
Proof.
  intros Hl Ha Hn. pose proof (lock_held (S := mem) (pool pp) m Hl) as H.
  assert (is_multiple a PAGE_SIZE m = Done (true, m)) as E.
  { apply wp_exact, wp_is_multiple. by rewrite bool_decide_true. }
  assert (assert (S := mem) (negb (n =? 0)) m = Done ((), m)) as E'.
  { apply wp_exact, wp_assert_true; [lia | done]. }
  split_and!.
  - unfold palloc, mbind, M_bind. by rewrite H.
  - unfold pfree, mbind, M_bind. cbn [pg_addr]. rewrite E. cbn [negb]. by rewrite H.
  - unfold palloc_plural, mbind, M_bind. rewrite E'. by rewrite H.
  - unfold pfree_plural, mbind, M_bind. rewrite E', E. cbn [negb]. by rewrite H.
Qed.

End theorems.

(** ** Creating a pool *)

Lemma wp_PagePool_new {cfg : Config} m b n (Q : _ → mem → Prop) P :
  page_aligned b → 0 < b → b + PAGE_SIZE * Z.of_nat n < u64_size → (2 ≤ n < fuel)%nat →
  (∀ a, b ≤ a < b + PAGE_SIZE * Z.of_nat n → a mod 8 = 0 → is_Some (m !! a)) →
  (∀ m' pp, pagepool_rep m' pp (run b n) → same_outside (run b n) m m' → Q pp m') →
  wp (PagePool_new b (b + PAGE_SIZE * Z.of_nat n)) m Q P.
Proof.
  intros Hal Hb Hu Hn Hram HQ.
  unfold PagePool_new. apply wp_bind, wp_is_multiple. rewrite bool_decide_true by done.
  wp_steps. apply wp_is_multiple. rewrite bool_decide_true by by apply page_aligned_add.
  wp_steps. eapply wp_Pool_new; [done | done | done | done | lia | done | lia |].
  intros m' Hrep Hs. by apply wp_ret, HQ.
Qed.

(** on RAM that covers it, [PagePool::new] links all the pages between two page
    aligned bounds, lowest first; the pool it returns is unlocked, and nothing outside
    of these pages is written. *)
Theorem pagepool_new_links_all {cfg : Config} m b n :
  page_aligned b → 0 < b → b + PAGE_SIZE * Z.of_nat n < u64_size → (2 ≤ n < fuel)%nat →
  (∀ a, b ≤ a < b + PAGE_SIZE * Z.of_nat n → a mod 8 = 0 → is_Some (m !! a)) →
  ∃ m' pp, PagePool_new b (b + PAGE_SIZE * Z.of_nat n) m = Done (pp, m') ∧
    pagepool_rep m' pp (run b n) ∧ same_outside (run b n) m m'.
Proof.
  intros Hal Hb Hu Hn Hram.
  enough (wp (PagePool_new b (b + PAGE_SIZE * Z.of_nat n)) m
    (λ pp m', pagepool_rep m' pp (run b n) ∧ same_outside (run b n) m m') False) as H.
  { apply wp_done in H as (pp & m' & E & H). by exists m', pp. }
  apply wp_PagePool_new; auto.
Qed.

(** ** The interface

    What the clients of the page allocator rely on, whatever represents its free
    pages: they are distinct whole pages of RAM, nobody else's writes disturb
    them, a page is handed out zeroed and leaves the set, and goes back into it
    when it is freed. *)
Class PageAllocSpec {cfg : Config} (rep : mem → PagePool → list Z → Prop) : Prop := {
  pas_page m pp l q : rep m pp l → q ∈ l →
    in_pool pp q ∧ 0 < q ∧ q + PAGE_SIZE < u64_size ∧ page_mapped m q;
  pas_bounds m pp l : rep m pp l →
    0 < bottom (inner (pool pp)) ∧ top (inner (pool pp)) < u64_size;
  pas_nodup m pp l : rep m pp l → NoDup l;
  pas_frame m m' pp l : rep m pp l →
    (∀ a, page_of a ∈ l → m' !! a = m !! a) → keeps m m' → rep m' pp l;
  pas_palloc m pp p l : rep m pp (p :: l) → (2 < fuel)%nat →
    wp (palloc pp) m (λ r m', r.1 = Ok (mkPage p) ∧ rep m' r.2 l ∧ same_bounds pp r.2 ∧
      page_zero m' p ∧ same_outside (p :: l) m m' ∧ keeps m m') False;
  pas_palloc_empty m pp : rep m pp [] → (0 < fuel)%nat →
    palloc pp m = Done ((Err OutOfPages, pp), m);
  pas_pfree m pp q l : rep m pp l → in_pool pp q → q ∉ l → (length l + 1 < fuel)%nat →
    wp (pfree pp (mkPage q)) m (λ r m', r.1 = Ok () ∧ same_bounds pp r.2 ∧
      (∃ l', l' ≡ₚ q :: l ∧ rep m' r.2 l') ∧ same_outside (q :: l) m m') False
}.

Lemma sorted_split l q :
  sorted l → q ∉ l →
  ∃ l1 l2, l = l1 ++ l2 ∧ (∀ a, a ∈ l1 → a < q) ∧ (∀ b, b ∈ l2 → q < b).
Proof.
  intros Hs Hq. induction l as [|p l IH].
  - exists [], []. split_and!; [done | by intros ? ?%not_elem_of_nil..].
  - apply sorted_cons_inv in Hs as [Hs Hp]. apply not_elem_of_cons in Hq as [Hne Hq].
    destruct (decide (p < q)) as [Hlt|Hge].
    + destruct (IH Hs Hq) as (l1 & l2 & -> & H1 & H2). exists (p :: l1), l2.
      split_and!; [done | | done]. intros a [->|Ha]%elem_of_cons; auto.
    + exists [], (p :: l). split_and!; [done | by intros ? ?%not_elem_of_nil |].
      intros b [->|Hb]%elem_of_cons; [lia|]. specialize (Hp b Hb). lia.
Qed.

(** A pool only depends on its free pages, and on its RAM being there. *)
Lemma pool_rep_agree m m' P l :
  pool_rep m P l → (∀ a, page_of a ∈ l → a mod 8 = 0 → m' !! a = m !! a) → keeps m m' → pool_rep m' P l.
Proof.
  intros HP Hm Hk. split; try apply HP.
  - apply dlseg_frame with m; [|apply HP]. intros p Hp. destruct (pr_pages _ _ _ HP p Hp) as [Hal _].
    pose proof (page_aligned_8 _ Hal).
    split; apply Hm; [by rewrite page_of_id | done | by rewrite page_of_word | zdm].
  - intros a Ha H8. apply Hk; [done|]. by apply (pr_ram _ _ _ HP).
Qed.

#[export] Instance pagepool_spec {cfg : Config} : PageAllocSpec pagepool_rep.
Proof.
  split.
  - intros m pp l q [_ HP] Hq. destruct (pr_pages _ _ _ HP q Hq).
    pose proof (pr_page_top HP q Hq). pose proof (pr_pos HP q Hq).
    destruct (pr_top _ _ _ HP). split; [by split|].
    split_and!; [done | lia | by apply (pr_mapped HP)].
  - intros m pp l [_ HP]. by destruct (pr_bottom _ _ _ HP), (pr_top _ _ _ HP).
  - intros m pp l [_ HP]. apply sorted_NoDup, (pr_sorted _ _ _ HP).
  - intros m m' pp l [Hl HP] Hm Hk. split; [done|]. apply (pool_rep_agree m); auto.
  - intros m pp p l HP Hf. eapply wp_palloc; [done | done |].
    intros m' pp' (Hrep & Hz & Hs & Hk & _) Hb. split_and!; [done | done | exact Hb | | | done].
    + apply Hz. simpl. set_solver.
    + eapply same_outside_mono; [|done]. destruct l; simpl; set_solver.
  - intros m pp HP Hf. by apply palloc_none.
  - intros m pp q l HP Hq Hn Hf. pose proof HP as [_ HP'].
    destruct (sorted_split l q) as (l1 & l2 & -> & H1 & H2); [apply HP' | done |].
    rewrite length_app in Hf. destruct Hq as (Ha & Hlo & Hhi).
    eapply (wp_pfree m pp q l1 l2); [done | done | done | | done | done | lia | lia |].
    { apply page_aligned_lt; [done | apply HP' | done]. }
    intros m' pp' Hrep Hs Hb. split_and!; [done | exact Hb | |].
    + eexists. split; [|done]. by rewrite Permutation_middle.
    + eapply same_outside_mono; [|done]. set_solver.
Qed.
