(* ===== verification/PoolShared.v ===== *)
(** * Harts that share the page pool (src/vm/palloc.rs with src/lock/mutex.rs)

    The page pool behind its lock as several harts use it: the steps of [palloc] and
    [pfree] (the swap that acquires, the reads and the writes of the critical section,
    the drop of the guard) interleave with each other and with the writes of the harts
    to the pages they own. A critical section reads the pool and the memory in one step
    and writes in a later one the words it changes, so without the lock it would work
    on stale links. *)

From S2P Require Import Prelude Machine Param Mutex Palloc FreeList PallocAlloc PallocFree PallocTheorems.

Inductive request : Type := Alloc | Free (p : Z).

Section shared.
Context {cfg : Config}.

(** What [palloc] and [pfree] do between acquiring the lock and dropping the guard: the
    pages the caller gets, and the pool. *)
Definition pool_section (r : request) (P : Pool) : M mem (list Z * Pool) :=
  match r with
  | Alloc =>
      match free P with
      | None => mret ([], P)
      | Some page =>
          '(x, P') ← alloc_pages P page 1;
          mret (match x with Ok ptr => [pg_addr ptr] | Err _ => [] end, P')
      end
  | Free p => P' ← free_pages P (mkPage p) 1; mret ([], P')
  end.

(** [palloc] is the lock, the section and the drop of the guard. *)
Lemma palloc_section pp m :
  palloc pp m = (mu ← lock (pool pp);
    '(ps, P) ← pool_section Alloc (deref mu);
    mret (match ps with p :: _ => Ok (mkPage p) | [] => Err OutOfPages end,
          mkPagePool (guard_drop (deref_mut P mu)))) m.
Proof.
  unfold palloc, mbind, M_bind, pool_section. destruct (lock (pool pp) m) as [[mu m1]| | |]; try done.
  destruct (free (deref mu)) as [page|]; [|by destruct mu].
  unfold mbind, M_bind. destruct (alloc_pages (deref mu) page 1 m1) as [[[r P] m2]| | |]; try done.
  by destruct r as [[p]|].
Qed.

(** So is [pfree] of an aligned page. *)
Lemma pfree_section pp p m :
  page_aligned p →
  pfree pp (mkPage p) m = (mu ← lock (pool pp);
    '(_, P) ← pool_section (Free p) (deref mu);
    mret (Ok (), mkPagePool (guard_drop (deref_mut P mu)))) m.
Proof.
  intros Hp. unfold pfree. unfold mbind at 1, M_bind.
  rewrite (proj1 (wp_exact (is_multiple (pg_addr (mkPage p)) PAGE_SIZE) m true m)).
  - cbn [negb]. unfold mbind, M_bind, pool_section. destruct (lock (pool pp) m) as [[mu m1]| | |]; try done.
    unfold mbind, M_bind. by destruct (free_pages (deref mu) (mkPage p) 1 m1) as [[P m2]| | |].
  - apply wp_is_multiple. cbn [pg_addr]. by rewrite bool_decide_true.
Qed.

(** ** Harts *)

Inductive phase : Type :=
  | Running
  | Waiting (r : request)
  | Locked (r : request)
  | Inside (r : request) (P : Pool) (seen : mem)
  | Leaving.

(** A hart: where it is, and the pages it may use. *)
Record user : Type := mkUser {
  at_phase : phase;
  owned : list Z
}.

Record kernel : Type := mkKernel {
  k_mem : mem;
  k_pool : Mutex Pool;
  users : list user
}.

(** A page that is given up with a call is in the call. *)
Definition in_call (ph : phase) : list Z :=
  match ph with Waiting (Free p) | Locked (Free p) | Inside (Free p) _ _ => [p] | _ => [] end.

Definition held (u : user) : list Z := in_call (at_phase u) ++ owned u.

(** The caller of [pfree] gives up one of its pages. *)
Definition gives_up (r : request) (ps ps' : list Z) : Prop :=
  match r with Alloc => ps' = ps | Free p => ps ≡ₚ p :: ps' end.

(** The words a section changes, written over the memory as it is by then. *)
Definition commit (seen after m : mem) : mem :=
  filter (λ '(a, v), seen !! a ≠ Some v) after ∪ m.

(** A step of hart [i]. A critical section reads the pool and the memory at one moment
    and writes what it changed at a later one, with steps of the other harts in
    between; these have no access to the pool or the free pages meanwhile. *)
Inductive user_step (i : nat) : kernel → kernel → Prop :=
  | us_call k r ps ps' :
      users k !! i = Some (mkUser Running ps) → gives_up r ps ps' →
      user_step i k (mkKernel (k_mem k) (k_pool k) (<[i := mkUser (Waiting r) ps']> (users k)))
  | us_swap k r ps old mu :
      users k !! i = Some (mkUser (Waiting r) ps) → swap1 (k_pool k) = (old, mu) →
      user_step i k (mkKernel (k_mem k) mu
        (<[i := mkUser (if old =? 1 then Waiting r else Locked r) ps]> (users k)))
  | us_read k r ps :
      users k !! i = Some (mkUser (Locked r) ps) →
      user_step i k (mkKernel (k_mem k) (k_pool k)
        (<[i := mkUser (Inside r (deref (k_pool k)) (k_mem k)) ps]> (users k)))
  | us_section k r P seen ps got P' after :
      users k !! i = Some (mkUser (Inside r P seen) ps) →
      pool_section r P seen = Done ((got, P'), after) →
      user_step i k (mkKernel (commit seen after (k_mem k)) (deref_mut P' (k_pool k))
        (<[i := mkUser Leaving (got ++ ps)]> (users k)))
  | us_drop k ps :
      users k !! i = Some (mkUser Leaving ps) →
      user_step i k (mkKernel (k_mem k) (guard_drop (k_pool k)) (<[i := mkUser Running ps]> (users k)))
  | us_write k ph ps a v :
      users k !! i = Some (mkUser ph ps) → page_of a ∈ ps → a mod 8 = 0 →
      user_step i k (mkKernel (<[a := v]> (k_mem k)) (k_pool k) (users k)).

Definition kernel_step (k k' : kernel) : Prop := ∃ i, user_step i k k'.

Definition pool_start (n : nat) (m : mem) (P : Pool) : kernel :=
  mkKernel m (Mutex_new P) (replicate n (mkUser Running [])).

(** ** Critical sections *)

Definition bounds_kept (P P' : Pool) : Prop := bottom P' = bottom P ∧ top P' = top P.

Lemma wp_section_alloc m P p l :
  pool_rep m P (p :: l) → (2 < fuel)%nat →
  wp (pool_section Alloc P) m (λ r m', r.1 = [p] ∧ pool_rep m' r.2 l ∧ bounds_kept P r.2 ∧
    page_zero m' p ∧ same_outside (p :: l) m m') False.
Proof.
  intros HP Hf. unfold pool_section. rewrite (pr_free _ _ _ HP). simpl. apply wp_bind.
  apply (wp_alloc_pages m P p 0 l); [done | by left | lia |].
  intros m' P' HP' Hz Hs _ _ Eb Et. apply wp_ret. cbn. split_and!; [done | done | done | |].
  - apply Hz. left.
  - eapply same_outside_mono; [|done]. destruct l; simpl; set_solver.
Qed.

Lemma wp_section_free m P q l :
  pool_rep m P l → page_aligned q → bottom P ≤ q < top P → q ∉ l → (length l + 1 < fuel)%nat →
  wp (pool_section (Free q) P) m (λ r m', r.1 = [] ∧ (∃ l', l' ≡ₚ q :: l ∧ pool_rep m' r.2 l') ∧
    bounds_kept P r.2 ∧ same_outside (q :: l) m m') False.
Proof.
  intros HP Ha Hq Hn Hf.
  destruct (sorted_split l q) as (l1 & l2 & -> & H1 & H2); [apply HP | done |].
  rewrite length_app in Hf. unfold pool_section. apply wp_bind. change 1 with (Z.of_nat 0 + 1).
  eapply wp_mono; [eapply (wp_free_pages (n := 0) HP) | | done]; [done | lia | | done | | lia | lia |].
  - pose proof (page_aligned_lt q (top P) Ha ltac:(apply HP) ltac:(lia)). lia.
  - intros x Hx. apply H2 in Hx. lia.
  - intros P' m' (HP' & Hs & ? & ?). apply wp_ret. cbn. split_and!; [done | | done |].
    + eexists. split; [|done]. by rewrite Permutation_middle.
    + eapply same_outside_mono; [|done]. set_solver.
Qed.

(** ** The invariant *)

Lemma commit_same seen after m a :
  after !! a = seen !! a → commit seen after m !! a = m !! a.
Proof.
  intros E. apply lookup_union_r, map_lookup_filter_None. right. intros v Hv ?. congruence.
Qed.

(** Where the memory is still as the section saw it, it becomes as the section left it. *)
Lemma commit_seen seen after m a :
  m !! a = seen !! a → (is_Some (seen !! a) → is_Some (after !! a)) →
  commit seen after m !! a = after !! a.
Proof.
  intros Hm Hk. destruct (decide (after !! a = seen !! a)) as [E|Hne].
  { rewrite commit_same by done. congruence. }
  destruct (after !! a) as [v|] eqn:Ha.
  - apply lookup_union_Some_l, map_lookup_filter_Some. split; [done|]. congruence.
  - destruct (seen !! a) eqn:E; [|done]. by destruct Hk.
Qed.

(** The pages of one hart among those of all. *)
Lemma users_split us i u :
  us !! i = Some u →
  ∃ rest, us ≫= held ≡ₚ held u ++ rest ∧
    (∀ u', <[i := u']> us ≫= held ≡ₚ held u' ++ rest) ∧
    (∀ j w, j ≠ i → us !! j = Some w → ∀ q, q ∈ held w → q ∈ rest).
Proof.
  intros Hi. pose proof (lookup_lt_Some _ _ _ Hi). exists ((take i us ++ drop (S i) us) ≫= held).
  rewrite bind_app. split_and!.
  - rewrite <- (take_drop_middle us i u Hi) at 1. rewrite bind_app, bind_cons.
    by rewrite !app_assoc, (Permutation_app_comm _ (held u)).
  - intros u'. rewrite insert_take_drop by done. rewrite bind_app, bind_cons.
    by rewrite !app_assoc, (Permutation_app_comm _ (held u')).
  - intros j w Hne Hj q Hq. rewrite <- bind_app. apply list_elem_of_bind. exists w. split; [done|].
    apply elem_of_app. destruct (decide (j < i)%nat).
    + left. apply list_elem_of_lookup. exists j. by rewrite lookup_take_lt.
    + right. apply list_elem_of_lookup. exists (j - S i)%nat. rewrite lookup_drop.
      by replace (S i + (j - S i))%nat with j by lia.
Qed.

Definition in_section (ph : phase) : Prop :=
  match ph with Running | Waiting _ => False | _ => True end.

(** Every page is free or held by one hart, the free list is well formed, and the hart
    inside its critical section, which is alone there, works on what is there. *)
Record shared_inv (pages : list Z) (k : kernel) : Prop := {
  si_bit : lock_state (k_pool k) = 0 ∨ lock_state (k_pool k) = 1;
  si_unlocked : lock_state (k_pool k) = 0 → ∀ i u, users k !! i = Some u → ¬ in_section (at_phase u);
  si_alone : ∀ i j u w, users k !! i = Some u → users k !! j = Some w →
    in_section (at_phase u) → in_section (at_phase w) → i = j;
  si_bounds : ∀ q, q ∈ pages → page_aligned q ∧ bottom (inner (k_pool k)) ≤ q < top (inner (k_pool k));
  si_pages : ∃ l, pool_rep (k_mem k) (inner (k_pool k)) l ∧ l ++ (users k ≫= held) ≡ₚ pages ∧
    ∀ i r P seen ps, users k !! i = Some (mkUser (Inside r P seen) ps) →
      P = inner (k_pool k) ∧ pool_rep seen P l ∧ keeps seen (k_mem k) ∧
      ∀ a, page_of a ∈ in_call (Inside r P seen) ++ l → k_mem k !! a = seen !! a
}.

Section invariant.
Context (pages : list Z) (Hnd : NoDup pages) (Hfuel : (length pages + 2 < fuel)%nat).

(** A step that only moves a hart and the lock word. *)
Lemma inv_move k i u u' ls :
  shared_inv pages k → users k !! i = Some u → held u' ≡ₚ held u →
  (ls = 0 ∧ ¬ in_section (at_phase u') ∧ (lock_state (k_pool k) = 0 ∨ in_section (at_phase u)) ∨
   ls = 1 ∧ (in_section (at_phase u') → in_section (at_phase u) ∨ lock_state (k_pool k) = 0)) →
  (∀ r P seen, at_phase u' = Inside r P seen → P = inner (k_pool k) ∧ seen = k_mem k) →
  shared_inv pages (mkKernel (k_mem k) (mkMutex ls (inner (k_pool k))) (<[i := u']> (users k))).
Proof using Type.
  intros [Hbit Hun Hal Hb (l & HP & Hp & Hin)] Hi Hheld Hls Hinside.
  assert (∀ j w, <[i := u']> (users k) !! j = Some w → j = i ∧ w = u' ∨ j ≠ i ∧ users k !! j = Some w) as Hcase.
  { intros j w [(-> & -> & _)|[? ?]]%list_lookup_insert_Some; auto. }
  split; simpl; [naive_solver | | | done |].
  - intros -> j w Hj Hw. destruct Hls as [(_ & Hn & H0)|[? _]]; [|done].
    destruct (Hcase j w Hj) as [[-> ->]|[Hne Hj']]; [done|]. destruct H0 as [H0|H0]; [by eapply Hun|].
    apply Hne. by eapply Hal.
  - intros j1 j2 w1 w2 H1 H2 Hw1 Hw2.
    destruct (Hcase _ _ H1) as [[-> ->]|[Hn1 H1']], (Hcase _ _ H2) as [[-> ->]|[Hn2 H2']]; [done | | | by eapply Hal].
    + destruct Hls as [(_ & Hn & _)|[_ Hs]]; [done|]. destruct (Hs Hw1) as [Hu|H0]; [by eapply Hal | by edestruct Hun].
    + destruct Hls as [(_ & Hn & _)|[_ Hs]]; [done|]. destruct (Hs Hw2) as [Hu|H0]; [by eapply Hal | by edestruct Hun].
  - exists l. split_and!; [done | |].
    + destruct (users_split _ _ _ Hi) as (rest & E & E' & _). by rewrite E', Hheld, <- E.
    + intros j r P seen ps Hj. destruct (Hcase _ _ Hj) as [[-> <-]|[_ Hj']]; [|by eapply Hin].
      destruct (Hinside r P seen eq_refl) as [-> ->]. split_and!; [done | done | by intros a | done].
Qed.

(** The pages of a hart are neither free nor in a call, nor another hart's. *)
Lemma owned_apart l us i j u w q :
  NoDup (l ++ (us ≫= held)) → us !! i = Some u → us !! j = Some w → q ∈ owned u →
  q ∉ l ∧ q ∉ in_call (at_phase w) ∧ (j ≠ i → q ∉ held w).
Proof using Type.
  intros (_ & Hd & Hn)%NoDup_app Hi Hj Hq.
  destruct (users_split _ _ _ Hi) as (rest & E & _ & Hr). rewrite E in Hn.
  apply NoDup_app in Hn as (Hu & Hdr & _). unfold held in Hu at 1. apply NoDup_app in Hu as (_ & Hc & _).
  assert (q ∈ held u) as Hh by (apply elem_of_app; by right).
  assert (j ≠ i → q ∉ held w) as Hw by (intros Hne Hqw; by eapply (Hdr q Hh), Hr).
  split_and!; [|destruct (decide (j = i)) as [->|Hne] | done].
  - intros Hl. apply (Hd q Hl). rewrite E. apply elem_of_app. by left.
  - simplify_eq. intros Hqc. by apply (Hc q Hqc).
  - intros Hqc. apply (Hw Hne). apply elem_of_app. by left.
Qed.

Lemma inv_write k i ph ps a v :
  shared_inv pages k → users k !! i = Some (mkUser ph ps) → page_of a ∈ ps →
  shared_inv pages (mkKernel (<[a := v]> (k_mem k)) (k_pool k) (users k)).
Proof using Hnd.
  intros [Hbit Hun Hal Hb (l & HP & Hp & Hin)] Hi Ha. split; simpl; try done. exists l.
  assert (NoDup (l ++ (users k ≫= held))) as Hn by by rewrite Hp.
  assert (∀ x, page_of x ∈ l → <[a := v]> (k_mem k) !! x = k_mem k !! x) as Hl.
  { intros x Hx. apply lookup_insert_ne. intros ->. by destruct (owned_apart _ _ _ _ _ _ _ Hn Hi Hi Ha). }
  split_and!; [apply (pool_rep_agree (k_mem k)); [done | auto | apply keeps_insert] | done |].
  intros j r P seen ps' Hj. destruct (Hin j r P seen ps' Hj) as (-> & HPs & Hk & Hs).
  split_and!; [done | done | eapply keeps_trans; [done | apply keeps_insert] |].
  intros x Hx. rewrite <- (Hs x Hx). apply lookup_insert_ne. intros ->.
  destruct (owned_apart _ _ _ _ _ _ _ Hn Hi Hj Ha) as (Hnl & Hnc & _).
  by apply elem_of_app in Hx as [?|?].
Qed.

(** What a critical section does to the memory it has seen: the free pages [l'] it
    leaves and the pages it hands out are the free pages and the page of the call. *)
Record section_done (r : request) (P : Pool) (seen : mem) (l : list Z)
    (got : list Z) (P' : Pool) (after : mem) (l' : list Z) : Prop := {
  sd_run : pool_section r P seen = Done ((got, P'), after);
  sd_pool : pool_rep after P' l';
  sd_bounds : bounds_kept P P';
  sd_pages : got ++ l' ≡ₚ in_call (Inside r P seen) ++ l;
  sd_frame : same_outside (in_call (Inside r P seen) ++ l) seen after;
  sd_got : match r with
    | Alloc => l = [] ∧ got = [] ∨ ∃ p, got = [p] ∧ page_zero after p
    | Free _ => got = []
    end
}.

Lemma section_runs k i r P seen ps :
  shared_inv pages k → users k !! i = Some (mkUser (Inside r P seen) ps) →
  ∃ l got P' after l', section_done r P seen l got P' after l' ∧
    pool_rep (k_mem k) P l ∧ l ++ (users k ≫= held) ≡ₚ pages ∧ P = inner (k_pool k) ∧
    keeps seen (k_mem k) ∧ (∀ a, page_of a ∈ in_call (Inside r P seen) ++ l → k_mem k !! a = seen !! a).
Proof using Hnd Hfuel.
  intros [Hbit Hun Hal Hb (l & HP & Hp & Hin)] Hi.
  destruct (Hin i r P seen ps Hi) as (-> & HPs & Hk & Hs).
  assert (NoDup (l ++ (users k ≫= held))) as Hn by by rewrite Hp.
  assert (length l ≤ length pages)%nat as Hlen by (rewrite <- Hp, length_app; lia).
  enough (∃ got P' after l', section_done r (inner (k_pool k)) seen l got P' after l') as
    (got & P' & after & l' & Hd) by by exists l, got, P', after, l'.
  destruct r as [|q].
  - destruct l as [|p l].
    + exists [], (inner (k_pool k)), seen, []. split; try done; [|by left].
      unfold pool_section. by rewrite (pr_free _ _ _ HPs).
    + pose proof (wp_section_alloc _ _ _ _ HPs ltac:(lia)) as H.
      apply wp_done in H as ([got P'] & after & E & Hg & HP' & Hbd & Hz & Hso). simpl in Hg. subst got.
      exists [p], P', after, l. split; try done. right. by exists p.
  - destruct (users_split _ _ _ Hi) as (rest & E & _ & _).
    assert (q ∈ l ++ (users k ≫= held)) as Hq by (rewrite E; set_solver).
    pose proof Hq as Hqp. rewrite Hp in Hqp. destruct (Hb q Hqp) as [Hqa Hqb].
    assert (q ∉ l) as Hql.
    { intros Hql. apply NoDup_app in Hn as (_ & Hd & _). apply (Hd q Hql). rewrite E. set_solver. }
    pose proof (wp_section_free _ _ _ _ HPs Hqa Hqb Hql ltac:(lia)) as H.
    apply wp_done in H as ([got P'] & after & E' & Hg & (l' & Hl' & HP') & Hbd & Hso). simpl in Hg. subst got.
    by exists [], P', after, l'.
Qed.

Lemma commit_keeps seen after m : keeps m (commit seen after m).
Proof using Type. intros a _ Ha. apply lookup_union_is_Some. by right. Qed.

Lemma commit_keeps_after seen after m : keeps seen m → keeps after (commit seen after m).
Proof using Type.
  intros Hk a H8 [v Hv]. destruct (decide (after !! a = seen !! a)) as [E|Hne].
  - apply commit_keeps, Hk; [done | done |]. rewrite <- E. by eexists.
  - exists v. apply lookup_union_Some_l, map_lookup_filter_Some. split; [done|]. congruence.
Qed.

(** The free list after the section's writes, in the memory as it is by then. *)
Lemma commit_pool r P seen l got P' after l' m :
  section_done r P seen l got P' after l' → keeps seen m →
  (∀ a, page_of a ∈ in_call (Inside r P seen) ++ l → m !! a = seen !! a) →
  pool_rep (commit seen after m) P' l'.
Proof using Type.
  intros Hd Hk Hs. pose proof (sd_pool _ _ _ _ _ _ _ _ Hd) as HP'.
  apply (pool_rep_agree after); [done | | by apply commit_keeps_after].
  intros a Ha H8. apply commit_seen.
  - apply Hs. rewrite <- (sd_pages _ _ _ _ _ _ _ _ Hd). apply elem_of_app. by right.
  - intros _. apply (pr_mapped HP' _ Ha); [apply page_of_bounds | done].
Qed.

Lemma inv_section k i r P seen ps got P' after :
  shared_inv pages k → users k !! i = Some (mkUser (Inside r P seen) ps) →
  pool_section r P seen = Done ((got, P'), after) →
  shared_inv pages (mkKernel (commit seen after (k_mem k)) (deref_mut P' (k_pool k))
    (<[i := mkUser Leaving (got ++ ps)]> (users k))).
Proof using Hnd Hfuel.
  intros Hinv Hi Hrun.
  destruct (section_runs _ _ _ _ _ _ Hinv Hi) as (l & got' & P'' & after' & l' & Hd & HP & Hp & EP & Hk & Hs).
  pose proof (sd_run _ _ _ _ _ _ _ _ Hd) as E. rewrite Hrun in E. injection E as <- <- <-.
  destruct Hinv as [Hbit Hun Hal Hb _]. destruct (sd_bounds _ _ _ _ _ _ _ _ Hd) as [Eb Et].
  assert (∀ j w, <[i := mkUser Leaving (got ++ ps)]> (users k) !! j = Some w →
    in_section (at_phase w) → j = i) as Honly.
  { intros j w [(-> & _)|[Hne Hj]]%list_lookup_insert_Some Hw; [done|]. by eapply Hal. }
  split; simpl; [done | | | by rewrite Eb, Et, EP |].
  - intros H0. by destruct (Hun H0 _ _ Hi).
  - intros j1 j2 w1 w2 H1 H2 Hw1 Hw2. by rewrite (Honly _ _ H1), (Honly _ _ H2).
  - exists l'. split_and!; [by eapply commit_pool | |].
    + destruct (users_split _ _ _ Hi) as (rest & E1 & E2 & _). rewrite E2, <- Hp, E1. unfold held. simpl.
      pose proof (sd_pages _ _ _ _ _ _ _ _ Hd) as Hpg. simpl in Hpg.
      rewrite !(app_assoc l), (Permutation_app_comm l), <- Hpg, (Permutation_app_comm got l').
      by rewrite !app_assoc.
    + intros j r1 P1 s1 p1 Hj. pose proof (Honly _ _ Hj I) as ->.
      rewrite list_lookup_insert_eq in Hj by by eapply lookup_lt_Some. done.
Qed.

Lemma inv_step k k' : shared_inv pages k → kernel_step k k' → shared_inv pages k'.
Proof using Hnd Hfuel.
  intros Hinv [i Hstep]. destruct Hstep as [k r ps ps' Hi Hg|k r ps old mu Hi Hsw|k r ps Hi|k r P seen ps got P' after Hi Hrun|k ps Hi|k ph ps a v Hi Ha H8].
  - destruct (k_pool k) as [ls P] eqn:E. replace (mkMutex ls P) with (mkMutex ls (inner (k_pool k))) by by rewrite E.
    eapply inv_move; [done | done | | | done].
    + unfold held, gives_up in *. simpl. destruct r; simpl; by rewrite Hg.
    + pose proof (si_bit _ _ Hinv) as Hb. rewrite E in *. simpl in *. destruct Hb as [->| ->]; [left | right]; naive_solver.
  - injection Hsw as <- <-. eapply inv_move; [done | done | | | by destruct (_ =? _)].
    + by destruct (_ =? _).
    + right. split; [done|]. destruct (si_bit _ _ Hinv) as [-> | ->]; simpl; auto.
  - destruct (k_pool k) as [ls P] eqn:E. replace (mkMutex ls P) with (mkMutex ls (inner (k_pool k))) by by rewrite E.
    eapply inv_move; [done | done | by destruct r | | intros ? ? ? [= <- <- <-]; by rewrite E].
    right. destruct (si_bit _ _ Hinv) as [H0|H1]; [by destruct (si_unlocked _ _ Hinv H0 _ _ Hi)|].
    rewrite E in H1. simpl in *. auto.
  - by eapply inv_section.
  - eapply inv_move; [done | done | done | | done]. left. simpl. auto.
  - by eapply inv_write.
Qed.

Lemma inv_reachable k k' : shared_inv pages k → rtc kernel_step k k' → shared_inv pages k'.
Proof using Hnd Hfuel. intros H Hr. induction Hr; eauto using inv_step. Qed.

End invariant.

Lemma no_pages n : replicate n (mkUser Running []) ≫= held = [].
Proof. induction n as [|n IH]; [done | exact IH]. Qed.

Lemma inv_start n m P l : pool_rep m P l → shared_inv l (pool_start n m P).
Proof.
  intros HP. split; simpl; [by left | | | apply HP |].
  - intros _ i u [-> _]%lookup_replicate [].
  - intros i j u w [-> _]%lookup_replicate _ [].
  - exists l. rewrite no_pages, app_nil_r. split_and!; [done | done |].
    by intros i r P' s ps [? _]%lookup_replicate.
Qed.

Section theorems.
Context (n : nat) (m : mem) (P : Pool) (l : list Z) (k : kernel).
Context (HP : pool_rep m P l) (Hf : (length l + 2 < fuel)%nat) (Hk : rtc kernel_step (pool_start n m P) k).

Lemma reachable_inv : NoDup l ∧ shared_inv l k.
Proof using HP Hf Hk.
  assert (NoDup l) as Hnd by apply sorted_NoDup, (pr_sorted _ _ _ HP).
  split; [done|]. eapply inv_reachable; [done | done | by apply inv_start | done].
Qed.

(** C7: whatever the harts do and however their calls of [palloc] and [pfree] and their
    writes interleave, no page is lost, none is duplicated, and the free list stays
    well formed: the free pages together with the pages the harts hold are always the
    pages the pool started with. *)
Theorem pool_pages_conserved :
  ∃ fl, pool_rep (k_mem k) (inner (k_pool k)) fl ∧ fl ++ (users k ≫= held) ≡ₚ l ∧
    NoDup (fl ++ (users k ≫= held)).
Proof using HP Hf Hk.
  destruct reachable_inv as [Hnd Hinv]. destruct (si_pages _ _ Hinv) as (fl & Hfl & Hp & _).
  exists fl. split_and!; [done | done | by rewrite Hp].
Qed.

(** C14: in every interleaving the pages of a hart are its own: no step of another hart,
    be it a write, a call or a critical section of the pool, changes a word of them. *)
Theorem pool_isolated i j u a k' :
  users k !! i = Some u → page_of a ∈ owned u → user_step j k k' → j ≠ i →
  k_mem k' !! a = k_mem k !! a.
Proof using HP Hf Hk.
  intros Hi Ha Hstep Hne. destruct reachable_inv as [Hnd Hinv].
  destruct (si_pages _ _ Hinv) as (fl & Hfl & Hp & _).
  assert (NoDup (fl ++ (users k ≫= held))) as Hn by by rewrite Hp.
  destruct Hstep as [| | |k r P1 seen ps got P' after Hj Hrun| |k ph ps b v Hj Hb H8]; try done; simpl.
  - destruct (section_runs l Hnd Hf _ _ _ _ _ _ Hinv Hj) as (l1 & g & P2 & a2 & l2 & Hd & _ & Hp1 & _).
    pose proof (sd_run _ _ _ _ _ _ _ _ Hd) as E. rewrite Hrun in E. injection E as <- <- <-.
    assert (NoDup (l1 ++ (users k ≫= held))) as Hn1 by by rewrite Hp1.
    destruct (owned_apart _ _ _ _ _ _ _ Hn1 Hi Hj Ha) as (Hnl & Hnc & _).
    apply commit_same, (sd_frame _ _ _ _ _ _ _ _ Hd). by intros [?|?]%elem_of_app.
  - destruct (owned_apart _ _ _ _ _ _ _ Hn Hi Hj Ha) as (_ & _ & Hnh).
    apply lookup_insert_ne. intros ->. apply Hnh; [done|]. apply elem_of_app. by right.
Qed.

(** C15: in every interleaving a hart that is inside the critical section finishes it,
    with no panic, fault or endless loop: [palloc] then hands out a page that is zero
    in the memory as the other harts have left it, or none if none is free. *)
Theorem pool_section_completes i r Q seen ps :
  users k !! i = Some (mkUser (Inside r Q seen) ps) →
  ∃ k' got, user_step i k k' ∧ users k' !! i = Some (mkUser Leaving (got ++ ps)) ∧
    match r with
    | Alloc => got = [] ∧ pool_rep (k_mem k) (inner (k_pool k)) [] ∨
        ∃ p, got = [p] ∧ page_zero (k_mem k') p
    | Free _ => got = []
    end.
Proof using HP Hf Hk.
  intros Hi. destruct reachable_inv as [Hnd Hinv].
  destruct (section_runs l Hnd Hf _ _ _ _ _ _ Hinv Hi) as (l1 & got & P' & after & l2 & Hd & HPm & _ & -> & Hks & Hs).
  eexists _, got. split_and!; [by eapply us_section; [|apply Hd] | |].
  - simpl. by eapply list_lookup_insert_eq, lookup_lt_Some.
  - pose proof (sd_got _ _ _ _ _ _ _ _ Hd) as Hg. destruct r as [|q]; [|done].
    destruct Hg as [[-> ->]|(p & -> & Hz)]; [by left|]. right. exists p. split; [done|].
    intros a Ha H8. simpl. rewrite commit_seen; [by apply Hz | |].
    + pose proof (sd_pages _ _ _ _ _ _ _ _ Hd) as Hpg. apply Hs.
      assert (p ∈ in_call (Inside Alloc (inner (k_pool k)) seen) ++ l1) as Hin by (rewrite <- Hpg; left).
      destruct (pr_pages _ _ _ HPm p Hin) as [Hal _]. by rewrite (page_of_unique p a).
    + intros _. by rewrite Hz.
Qed.

End theorems.

End shared.
