(* ===== verification/VmState.v ===== *)
(** * The statics of the virtual memory module (src/vm.rs)

    The physical memory and the [PAGEPOOL] static, the state in which the kernel
    heap and the page tables run, with the [palloc] and [pfree] wrappers that
    reach the pool through it. *)

From S2P Require Import Prelude Machine Param Mutex Palloc.

Record VmState : Type := mkVm {
  vm_mem : mem;
  PAGEPOOL : option PagePool
}.

Definition set_mem (m : mem) (st : VmState) : VmState := mkVm m (PAGEPOOL st).

(** Code that only touches memory. *)
Definition on_mem {A} (e : M mem A) : M VmState A := zoom vm_mem set_mem e.

(** [PAGEPOOL.get_mut().unwrap()] and a call on it. *)
Definition with_pool {A} (op : PagePool → M mem (A * PagePool)) : M VmState A := λ st,
  match PAGEPOOL st with
  | None => Panic
  | Some pp =>
      match op pp (vm_mem st) with
      | Done ((a, pp'), m') => Done (a, mkVm m' (Some pp'))
      | Panic => Panic
      | Fault => Fault
      | Diverge => Diverge
      end
  end.

Section wrappers.
Context {cfg : Config}.

Definition vm_palloc : M VmState (result Page VmError) := with_pool palloc.

Definition vm_pfree (page : Page) : M VmState (result unit VmError) :=
  with_pool (λ pp, pfree pp page).

End wrappers.

Lemma wp_on_mem {A} (e : M mem A) st Q P :
  wp e (vm_mem st) (λ a m, Q a (set_mem m st)) P → wp (on_mem e) st Q P.
Proof. apply wp_zoom. Qed.

Lemma wp_with_pool {A} (op : PagePool → M mem (A * PagePool)) m pp Q P :
  wp (op pp) m (λ r m', Q r.1 (mkVm m' (Some r.2))) P →
  wp (with_pool op) (mkVm m (Some pp)) Q P.
Proof.
  Transparent wp. unfold wp, with_pool. simpl.
  by destruct (op pp m) as [[[a pp'] m']| | |].
Qed.
#[global] Opaque wp.
