(* ===== verification/Host.v ===== *)
(** * Code of the virtual memory module inside a bigger state

    [kpage_init] works on the memory and the page pool, and logs its progress to a
    device that is not part of them. [Host] is what it needs of the state it runs in:
    the part [VmState], and the [log!] lines. [HostSpec] says that logging returns and
    leaves that part alone; [sim] relates such code to the same code without a log, so
    that what it does to memory is proved once and holds in every host. *)

From S2P Require Import Prelude Machine Param Mutex Palloc VmState.

(** [untouched] relates states that differ in no more than the [VmState] and the log. *)
Class Host (S : Type) : Type := {
  host_vm : S → VmState;
  untouched : S → S → Prop;
  on_host : ∀ {A}, M VmState A → M S A;
  debug : list string → M S unit
}.

(** The code [e] of a host does what [e0] does. *)
Definition sim {S} `{!Host S} {A} (e : M S A) (e0 : M VmState A) : Prop := ∀ s,
  match e0 (host_vm s) with
  | Done (a, v) => ∃ s', e s = Done (a, s') ∧ host_vm s' = v ∧ untouched s s'
  | Panic => e s = Panic
  | Fault => e s = Fault
  | Diverge => e s = Diverge
  end.

Class HostSpec {cfg : Config} (S : Type) `{!Host S} : Prop := {
  untouched_preorder :: PreOrder (untouched (S := S));
  sim_on_host A (e : M VmState A) : sim (on_host e) e;
  sim_debug l : (0 < fuel)%nat → sim (debug l) (mret ())
}.

(** The part itself, with no log. *)
#[export] Instance quiet : Host VmState := {|
  host_vm := λ s, s;
  untouched := λ _ _, True;
  on_host := λ A e, e;
  debug := λ _, mret ()
|}.

#[export] Instance quiet_spec {cfg : Config} : HostSpec VmState.
Proof.
  split; [by split | |].
  - intros A e s. simpl. destruct (e s) as [[a v]| | |]; eauto.
  - intros l _ s. simpl. eauto.
Qed.

Section sim.
Context {cfg : Config} {S : Type} `{!Host S} `{!HostSpec S}.

Lemma sim_bind {A B} (e : M S A) e0 (k : A → M S B) k0 :
  sim e e0 → (∀ a, sim (k a) (k0 a)) → sim (e ≫= k) (e0 ≫= k0).
Proof using HostSpec0.
  intros He Hk s. unfold mbind, M_bind. specialize (He s).
  destruct (e0 (host_vm s)) as [[a v]| | |]; [|by rewrite He..].
  destruct He as (s1 & -> & <- & H1). specialize (Hk a s1).
  destruct (k0 a (host_vm s1)) as [[b v]| | |]; [|done..].
  destruct Hk as (s2 & -> & <- & H2). exists s2. split_and!; [done | done | by etrans].
Qed.

Lemma sim_ret {A} (a : A) : sim (mret a : M S A) (mret a).
Proof using HostSpec0. intros s. by exists s. Qed.

Lemma sim_panic {A} : sim (panic : M S A) panic.
Proof using Type. by intros s. Qed.

Lemma sim_checked x : sim (checked x : M S Z) (checked x).
Proof using HostSpec0.
  unfold checked. destruct (_ && _); [apply sim_ret|]. destruct overflow_checks; [apply sim_panic | apply sim_ret].
Qed.

Lemma sim_u_add a b : sim (u_add a b : M S Z) (u_add a b).
Proof using HostSpec0. apply sim_checked. Qed.

Lemma sim_u_sub a b : sim (u_sub a b : M S Z) (u_sub a b).
Proof using HostSpec0. apply sim_checked. Qed.

Lemma sim_u_mul a b : sim (u_mul a b : M S Z) (u_mul a b).
Proof using HostSpec0. apply sim_checked. Qed.

Lemma sim_expect {A E} (r : result A E) : sim (expect r : M S A) (expect r).
Proof using HostSpec0. destruct r; [apply sim_ret | apply sim_panic]. Qed.

(** What is shown of the code without a log, in any host. *)
Lemma wp_sim {A} (e : M S A) e0 s (Q : A → S → Prop) P :
  sim e e0 →
  wp e0 (host_vm s) (λ a v, ∀ s', host_vm s' = v → untouched s s' → Q a s') P →
  wp e s Q P.
Proof using Type.
  Transparent wp. intros He Hw. specialize (He s). unfold wp in *.
  destruct (e0 (host_vm s)) as [[a v]| | |]; [|by rewrite He..].
  destruct He as (s' & -> & Hv & Hu). by apply Hw.
Qed.
#[global] Opaque wp.

End sim.

Create HintDb sim.
#[export] Hint Resolve sim_on_host sim_debug sim_bind sim_ret sim_panic sim_u_add sim_u_sub sim_u_mul sim_expect : sim.
