(* ===== verification/Vmalloc.v ===== *)
(** * The kernel heap (src/vm/vmalloc.rs)

    The definitions: chunk headers, zones (pages broken up into chunks) and the
    allocator [Kalloc] over a list of zones. Methods on [&mut self] return the
    updated value; memory is written where the code writes it. *)

From S2P Require Import Prelude Machine Param Mutex Palloc VmState.

Definition MAX_CHUNK_SIZE : Z := 4080.
Definition HEADER_SIZE : Z := 8.
Definition ZONE_SIZE : Z := 8.
Definition HEADER_USED : Z := Z.shiftl 1 12.

Record Header : Type := mkHeader { fields : Z }.

Record Zone : Type := mkZone {
  z_base : Z;
  z_next : Z
}.

Record Kalloc : Type := mkKalloc {
  k_head : Z;
  k_end : Z
}.

Inductive KallocError : Type := MaxRefs | MinRefs | NullZone | OOM | Void.

#[export] Instance KallocError_eq_dec : EqDecision KallocError.
Proof. solve_decision. Defined.

(** A [usize] read as an [isize]. *)
Definition as_isize (x : Z) : Z := if x <? 2 ^ 63 then x else x - u64_size.

(** ** Chunk headers *)

Definition chunk_size (h : Header) : Z := Z.land (fields h) 0xFFF.

Definition is_free (h : Header) : bool := Z.land (fields h) HEADER_USED =? 0.

Definition set_used (h : Header) : Header := mkHeader (Z.lor (fields h) HEADER_USED).

Definition set_unused (h : Header) : Header :=
  mkHeader (Z.land (fields h) (unot HEADER_USED)).

Definition set_size (h : Header) (size : Z) : Header :=
  mkHeader (Z.lor (Z.land (fields h) (unot (0x1000 - 1))) size).

Definition write_to (h : Header) (dest : Z) : M mem unit := write dest (fields h).

Definition Header_from (src : Z) : M mem Header :=
  f ← read src; mret (mkHeader f).

Definition Header_new {S} (size : Z) : M S Header :=
  assert (size <=? MAX_CHUNK_SIZE) ;; mret (mkHeader size).

(** ** Zone headers *)

Definition Zone_from (src : Z) : M mem Zone :=
  n ← read src; mret (mkZone src n).

Definition Zone_new (base : Z) : Zone := mkZone base 0x0.

Definition get_refs (z : Zone) : Z := Z.land (z_next z) 4095.

Definition get_next (z : Zone) : result Z KallocError :=
  let next_addr := Z.land (z_next z) (unot (PAGE_SIZE - 1)) in
  if next_addr =? 0x0 then Err NullZone else Ok next_addr.

Definition write_refs (z : Zone) (new_count : Z) : M mem Zone :=
  let next_addr := match get_next z with Ok a => a | Err _ => 0x0 end in
  let z := mkZone (z_base z) (Z.lor next_addr new_count) in
  write (z_base z) (z_next z) ;; mret z.

Definition zone_write_next (z : Zone) (new_next : Z) : M mem unit :=
  write (z_base z) (Z.lor new_next (get_refs z)).

Definition next_zone (z : Zone) : M mem (option Zone) :=
  match get_next z with
  | Ok addr => z' ← Zone_from addr; mret (Some z')
  | Err _ => mret None
  end.

Definition write_zone_header_pair (z : Zone) (h : Header) : M mem unit :=
  write (z_base z) (z_next z) ;; write (ptr_add (z_base z) 1) (fields h).

Section vmalloc.
Context {cfg : Config}.

(** Splits a chunk into one of [new_size] and the remainder. *)
Definition split (h : Header) (new_size cur_addr : Z) : M mem (Header * (Header * Z)) :=
  let old_size := chunk_size h in
  next_size ← u_sub old_size new_size;
  let h := set_size h new_size in
  write_to h cur_addr ;;
  a ← u_add cur_addr HEADER_SIZE;
  next_addr ← u_add a new_size;
  f ← u_sub next_size HEADER_SIZE;
  let next_header := mkHeader f in
  write_to next_header next_addr ;;
  mret (h, (next_header, next_addr)).

Definition merge (h next : Header) (next_addr : Z) : M mem Header :=
  assert (is_free next) ;;
  assert (is_free h) ;;
  s ← u_add (chunk_size h) HEADER_SIZE;
  size ← u_add s (chunk_size next);
  write next_addr 0 ;;
  mret (set_size h size).

Definition increment_refs (z : Zone) : M mem (result unit KallocError * Zone) :=
  new_count ← u_add (get_refs z) 1;
  if 510 <? new_count then mret (Err MaxRefs, z)
  else z ← write_refs z new_count; mret (Ok (), z).

Definition decrement_refs (z : Zone) : M mem (result Z KallocError * Zone) :=
  new_count ← u_sub (get_refs z) 1;
  if as_isize new_count <? 0 then mret (Err MinRefs, z)
  else z ← write_refs z new_count; mret (Ok new_count, z).

Definition alloc_chunk (size ptr : Z) (z : Zone) (h : Header) : M mem (Zone * Header) :=
  '(r, z) ← increment_refs z;
  expect r ;;
  let h := set_used h in
  write_to h ptr ;;
  if negb (size =? chunk_size h) then
    '(h, _) ← split h size ptr;
    mret (z, h)
  else mret (z, h).

(** One turn of the first-fit loop of [Zone::scan]. *)
Definition scan_turn (z : Zone) (size end_ : Z) (st : Header * Z) :
    M mem ((Header * Z) + (option Z * Zone)) :=
  let '(head, curr) := st in
  if curr <? end_ then
    let chunk_size_ := chunk_size head in
    if (chunk_size_ <? size) || negb (is_free head) then
      let '(prev, trail) := (head, curr) in
      a ← u_add curr HEADER_SIZE;
      curr ← u_add a chunk_size_;
      head ← Header_from curr;
      if is_free prev && is_free head then
        prev ← merge prev head curr;
        write_to prev trail ;;
        mret (inl (prev, trail))
      else mret (inl (head, curr))
    else
      '(z, _) ← alloc_chunk size curr z head;
      p ← u_add curr HEADER_SIZE;
      mret (inr (Some p, z))
  else mret (inr (None, z)).

Definition scan (z : Zone) (size : Z) : M mem (option Z * Zone) :=
  let curr := ptr_add (z_base z) 1 in
  let end_ := ptr_add (z_base z) (PAGE_SIZE / 8) in
  head ← Header_from curr;
  loop fuel (scan_turn z size end_) (head, curr).

(** Unlinks the zone from the one before it and frees its page. *)
Definition free_self (z prev_zone : Zone) : M VmState unit :=
  assert (get_refs z =? 0) ;;
  n ← on_mem (next_zone z);
  on_mem (zone_write_next prev_zone
    (match n with Some next_zone => z_base next_zone | None => null end)) ;;
  _ ← vm_pfree (mkPage (z_base z));
  mret ().

(** ** The allocator *)

Definition Kalloc_new (start : Page) : M mem Kalloc :=
  assert (Z.land (pg_addr start) (PAGE_SIZE - 1) =? 0) ;;
  let zone := Zone_new (pg_addr start) in
  head ← Header_new MAX_CHUNK_SIZE;
  write_zone_header_pair zone head ;;
  e ← u_add (pg_addr start) 0x1000;
  mret (mkKalloc (pg_addr start) e).

Definition grow_pool (tail : Zone) : M VmState (result (Zone * Header) VmError) :=
  r ← vm_palloc;
  match r with
  | Err e => mret (Err e)
  | Ok page =>
      on_mem (zone_write_next tail (pg_addr page)) ;;
      let zone := Zone_new (pg_addr page) in
      head ← Header_new MAX_CHUNK_SIZE;
      on_mem (write_zone_header_pair zone head) ;;
      mret (Ok (zone, head))
  end.

Definition shrink_pool (self : Kalloc) (drop_zone : Zone) : M VmState unit :=
  if negb (z_base drop_zone =? k_head self) then
    found ← loop fuel (λ curr_ptr,
      curr_zone ← on_mem (Zone_from curr_ptr);
      n ← on_mem (next_zone curr_zone);
      match n with
      | Some next_zone =>
          if z_base drop_zone =? z_base next_zone then
            free_self drop_zone curr_zone ;; mret (inr true)
          else mret (inl (z_base next_zone))
      | None => mret (inr false)
      end) (k_head self);
    if found : bool then mret () else panic
  else mret ().

(** One turn of the zone loop of [Kalloc::alloc]; [trail] is the first zone. *)
Definition alloc_turn (trail : Zone) (size end_ : Z) (zone : Zone) :
    M VmState (Zone + result Z KallocError) :=
  if z_base zone <=? end_ then
    '(r, zone) ← on_mem (scan zone size);
    match r with
    | Some ptr => mret (inr (Ok ptr))
    | None =>
        n ← on_mem (next_zone zone);
        match n with
        | Some zone => mret (inl zone)
        | None =>
            g ← grow_pool trail;
            match g with
            | Ok (zone, head) =>
                head_ptr ← u_add (z_base zone) ZONE_SIZE;
                _ ← on_mem (alloc_chunk size head_ptr zone head);
                p ← u_add head_ptr HEADER_SIZE;
                mret (inr (Ok p))
            | Err _ => mret (inr (Err OOM))
            end
        end
    end
  else mret (inr (Err OOM)).

(** Rounds a request up to 8 bytes. *)
Definition round_size {S} (size : Z) : M S Z :=
  if negb (size mod 8 =? 0) then
    s ← u_add size 7; mret (Z.land s (unot 7))
  else mret size.

Definition Kalloc_alloc (self : Kalloc) (size : Z) : M VmState (result Z KallocError) :=
  if size =? 0 then mret (Err Void)
  else
    size ← round_size size;
    let curr := k_head self in
    end_ ← u_sub (k_end self) 0x1000;
    zone ← on_mem (Zone_from curr);
    let trail := zone in
    loop fuel (alloc_turn trail size end_) zone.

Definition Kalloc_free (self : Kalloc) (ptr : Z) : M VmState unit :=
  zone ← on_mem (Zone_from (Z.land ptr (unot (PAGE_SIZE - 1))));
  head_ptr ← u_sub ptr HEADER_SIZE;
  head ← on_mem (Header_from head_ptr);
  assert (negb (is_free head)) ;;
  let head := set_unused head in
  '(r, zone) ← on_mem (decrement_refs zone);
  chunk_merge_flag ←
    match r with
    | Ok count =>
        if count =? 0 then shrink_pool self zone ;; mret false
        else mret true
    | Err _ => panic
    end;
  head ←
    (if chunk_merge_flag : bool then
       next_ptr ← u_add ptr (chunk_size head);
       next ← on_mem (Header_from next_ptr);
       if is_free next then
         lim ← u_add (z_base zone) 0x1000;
         if next_ptr <? lim then on_mem (merge head next next_ptr)
         else mret head
       else mret head
     else mret head);
  on_mem (write_to head head_ptr).

End vmalloc.
