(* ===== verification/Zone.v ===== *)
(** * Zones as lists of chunks

    The encodings of the two kinds of headers of src/vm/vmalloc.rs, and the
    abstraction of a zone: a list of chunks, each with a size and a use bit, that
    tile the page behind the zone header ([zone_rep]). *)

From S2P Require Import Prelude Machine Param Mutex Palloc FreeList VmState Vmalloc.

(** ** Chunk headers *)

(** The word of a chunk header. *)
Definition hdr (s : Z) (u : bool) : Z := s + (if u then HEADER_USED else 0).

Lemma HEADER_USED_eq : HEADER_USED = 4096.
Proof. reflexivity. Qed.

(** The low bits of a word through a mask that keeps them. *)
Lemma land_keep_low s c k :
  0 ≤ k → 0 ≤ s < 2 ^ k → Z.land (Z.ones k) c = Z.ones k → Z.land s c = s.
Proof.
  intros Hk Hs Hc. rewrite <- (Z.mod_small s (2 ^ k)) at 1 by done.
  rewrite <- land_low, <- Z.land_assoc, Hc, land_low by done. by apply Z.mod_small.
Qed.

Section header.
Context {s : Z} (Hs : 0 ≤ s < 4096).

Lemma chunk_size_hdr u : chunk_size (mkHeader (hdr s u)) = s.
Proof.
  unfold chunk_size, hdr. cbn [fields]. change 0xFFF with (Z.ones 12).
  rewrite land_low by lia. change (2 ^ 12) with 4096. rewrite HEADER_USED_eq.
  destruct u; zdm.
Qed.

Lemma is_free_hdr u : is_free (mkHeader (hdr s u)) = negb u.
Proof.
  unfold is_free, hdr. cbn [fields]. rewrite HEADER_USED_eq.
  change 4096 with (2 ^ 12) at 2. rewrite land_bit by lia. f_equal.
  destruct u.
  - rewrite Z.testbit_true by lia. change (2 ^ 12) with 4096. zdm.
  - apply (testbit_high _ 12); [lia|]. change (2 ^ 12) with 4096. lia.
Qed.

Lemma set_used_hdr : set_used (mkHeader (hdr s false)) = mkHeader (hdr s true).
Proof.
  unfold set_used, hdr. cbn [fields]. rewrite Z.add_0_r, Z.lor_comm, HEADER_USED_eq.
  rewrite (lor_add _ _ 12); [f_equal; lia | lia | done | done].
Qed.

Lemma set_unused_hdr : set_unused (mkHeader (hdr s true)) = mkHeader (hdr s false).
Proof.
  unfold set_unused, hdr. cbn [fields]. rewrite HEADER_USED_eq, Z.add_comm, Z.add_0_r.
  rewrite <- (lor_add _ _ 12) by done. rewrite Z.land_lor_distr_l.
  change (Z.land 4096 (unot 4096)) with 0. rewrite Z.lor_0_l. f_equal.
  by apply (land_keep_low _ _ 12).
Qed.

Lemma set_size_hdr s' u :
  0 ≤ s' < 4096 → set_size (mkHeader (hdr s u)) s' = mkHeader (hdr s' u).
Proof.
  intros Hs'. unfold set_size. cbn [fields]. change (0x1000 - 1) with (Z.ones 12).
  assert (is_u64 (hdr s u)) by (unfold hdr; rewrite HEADER_USED_eq; destruct u; u64_range).
  rewrite land_high by (done || lia).
  replace (hdr s u - hdr s u mod 2 ^ 12) with (if u then HEADER_USED else 0).
  - rewrite (lor_add _ _ 12); [|lia|by destruct u|done]. f_equal. unfold hdr. lia.
  - unfold hdr. rewrite HEADER_USED_eq. change (2 ^ 12) with 4096. destruct u; zdm.
Qed.

End header.

(** ** Zone headers *)

Section zone_header.
Context {nx r : Z} (Hnx : page_aligned nx) (Hu : 0 ≤ nx < u64_size) (Hr : 0 ≤ r < 4096).

Lemma get_refs_word b : get_refs (mkZone b (nx + r)) = r.
Proof.
  unfold get_refs. cbn [z_next]. change 4095 with (Z.ones 12). rewrite land_low by lia.
  change (2 ^ 12) with 4096. unfold page_aligned, PAGE_SIZE in *. zdm.
Qed.

Lemma get_next_word b :
  get_next (mkZone b (nx + r)) = if nx =? 0 then Err NullZone else Ok nx.
Proof.
  unfold get_next. cbn [z_next]. change (PAGE_SIZE - 1) with (Z.ones 12).
  assert (nx + r < u64_size).
  { unfold page_aligned, PAGE_SIZE in Hnx. rewrite u64_size_eq in *. zdm. }
  rewrite land_high by (unfold is_u64; lia).
  replace (nx + r - (nx + r) mod 2 ^ 12) with nx; [done|].
  change (2 ^ 12) with 4096. unfold page_aligned, PAGE_SIZE in *. zdm.
Qed.

(** The next address as the code recovers it, with null for none. *)
Lemma get_next_or b :
  match get_next (mkZone b (nx + r)) with Ok a => a | Err _ => 0x0 end = nx.
Proof. rewrite get_next_word. destruct (Z.eqb_spec nx 0); done. Qed.

Lemma lor_next k : 0 ≤ k < 4096 → Z.lor nx k = nx + k.
Proof. intros. by apply (lor_add _ _ 12). Qed.

End zone_header.

(** ** Chunks *)

(** Size of the data, and whether it is in use. *)
Abbreviation chunk := (Z * bool)%type.

(** The chunks [cs] tile memory from [a] to [e], each a header then its data; a
    chunk in use is not empty. *)
Fixpoint chunks_at (m : mem) (a : Z) (cs : list chunk) (e : Z) : Prop :=
  match cs with
  | [] => a = e
  | (s, u) :: cs' =>
      m !! a = Some (hdr s u) ∧ 0 ≤ s ∧ s mod 8 = 0 ∧ (u = true → 0 < s) ∧
      chunks_at m (a + HEADER_SIZE + s) cs' e
  end.

(** Bytes taken by a list of chunks, headers included. *)
Fixpoint span (cs : list chunk) : Z :=
  match cs with
  | [] => 0
  | (s, _) :: cs' => HEADER_SIZE + s + span cs'
  end.

(** Chunks in use. *)
Fixpoint nused (cs : list chunk) : Z :=
  match cs with
  | [] => 0
  | (_, u) :: cs' => (if u then 1 else 0) + nused cs'
  end.

(** A zone: header word with the next zone and the count of used chunks, and the
    chunks, over a page of RAM. *)
Record zone_rep (m : mem) (b nx : Z) (cs : list chunk) : Prop := {
  zr_base : page_aligned b ∧ 0 < b ∧ b + PAGE_SIZE < u64_size;
  zr_next : page_aligned nx ∧ 0 ≤ nx < u64_size;
  zr_word : m !! b = Some (nx + nused cs);
  zr_chunks : chunks_at m (b + ZONE_SIZE) cs (b + PAGE_SIZE);
  zr_ram : page_mapped m b
}.

Lemma span_app c1 c2 : span (c1 ++ c2) = span c1 + span c2.
Proof. induction c1 as [|[s u] c1 IH]; simpl; lia. Qed.

Lemma nused_app c1 c2 : nused (c1 ++ c2) = nused c1 + nused c2.
Proof. induction c1 as [|[s u] c1 IH]; simpl; lia. Qed.

Lemma nused_nonneg cs : 0 ≤ nused cs.
Proof. induction cs as [|[s []] cs IH]; simpl; lia. Qed.

Lemma chunks_at_app m a c1 c2 e :
  chunks_at m a (c1 ++ c2) e ↔ chunks_at m a c1 (a + span c1) ∧ chunks_at m (a + span c1) c2 e.
Proof.
  revert a. induction c1 as [|[s u] c1 IH]; intros a; simpl.
  - rewrite Z.add_0_r. tauto.
  - rewrite IH. replace (a + HEADER_SIZE + s + span c1) with (a + (HEADER_SIZE + s + span c1)) by lia.
    tauto.
Qed.

Lemma chunks_at_span m a cs e : chunks_at m a cs e → e = a + span cs ∧ 0 ≤ span cs.
Proof.
  revert a. induction cs as [|[s u] cs IH]; intros a; simpl; [lia|].
  intros (_ & Hs & _ & _ & [-> H]%IH). unfold HEADER_SIZE in *. lia.
Qed.

Lemma chunks_at_mod m a cs e : chunks_at m a cs e → span cs mod 8 = 0.
Proof.
  revert a. induction cs as [|[s u] cs IH]; intros a; simpl; [done|].
  intros (_ & _ & H8 & _ & H%IH). unfold HEADER_SIZE. zdm.
Qed.

Lemma chunks_at_length m a cs e : chunks_at m a cs e → 8 * Z.of_nat (length cs) ≤ span cs.
Proof.
  revert a. induction cs as [|[s u] cs IH]; intros a; simpl; [lia|].
  intros (_ & Hs & _ & _ & H%IH). unfold HEADER_SIZE. lia.
Qed.

Lemma chunks_at_count m a cs e : chunks_at m a cs e → 16 * nused cs ≤ span cs.
Proof.
  revert a. induction cs as [|[s u] cs IH]; intros a; simpl; [lia|].
  intros (_ & Hs & H8 & Hu & H%IH). unfold HEADER_SIZE. destruct u; [|lia].
  specialize (Hu eq_refl). assert (8 ≤ s) by zdm. lia.
Qed.

Lemma chunks_at_frame m m' a cs e :
  a mod 8 = 0 → (∀ x, a ≤ x < e → x mod 8 = 0 → m' !! x = m !! x) →
  chunks_at m a cs e → chunks_at m' a cs e.
Proof.
  revert a. induction cs as [|[s u] cs IH]; intros a H8 Hm; simpl; [done|].
  intros (Hh & Hs & Hs8 & Hu & Hc). pose proof (chunks_at_span _ _ _ _ Hc) as [-> ?].
  unfold HEADER_SIZE in *. rewrite Hm by (done || lia). split_and!; [done | done | done | done |].
  apply IH; [zdm | | done]. intros x Hx. apply Hm. lia.
Qed.

(** The chunks of a zone fill its page: at most 255 of them are in use. *)
Lemma zone_span m b nx cs : zone_rep m b nx cs → span cs = 4088.
Proof.
  intros H. pose proof (chunks_at_span _ _ _ _ (zr_chunks _ _ _ _ H)) as [E _].
  unfold PAGE_SIZE, ZONE_SIZE in E. lia.
Qed.

Lemma zone_length m b nx cs : zone_rep m b nx cs → (length cs ≤ 511)%nat.
Proof.
  intros H. pose proof (zone_span _ _ _ _ H) as Hs.
  pose proof (chunks_at_length _ _ _ _ (zr_chunks _ _ _ _ H)). lia.
Qed.

Lemma zone_refs_bound m b nx cs : zone_rep m b nx cs → 0 ≤ nused cs ≤ 255.
Proof.
  intros H. pose proof (zone_span _ _ _ _ H).
  pose proof (chunks_at_count _ _ _ _ (zr_chunks _ _ _ _ H)).
  pose proof (nused_nonneg cs). lia.
Qed.

(** A chunk of a zone: its header, its bounds, and what follows it. *)
Lemma zone_chunk m b nx c1 s u c2 :
  zone_rep m b nx (c1 ++ (s, u) :: c2) →
  let a := b + ZONE_SIZE + span c1 in
  m !! a = Some (hdr s u) ∧ 0 ≤ s ≤ MAX_CHUNK_SIZE ∧ s mod 8 = 0 ∧ (u = true → 0 < s) ∧
  a mod 8 = 0 ∧ b + ZONE_SIZE ≤ a ∧ a + HEADER_SIZE + s + span c2 = b + PAGE_SIZE ∧
  0 ≤ span c1 ∧ 0 ≤ span c2.
Proof.
  intros H a. pose proof (zone_span _ _ _ _ H) as E. rewrite span_app in E. simpl in E.
  pose proof (zr_chunks _ _ _ _ H) as [H1 H2]%chunks_at_app. fold a in H1, H2.
  destruct H2 as (Hh & Hs & H8 & Hu & Hc).
  apply chunks_at_span in Hc as [_ ?]. pose proof (chunks_at_span _ _ _ _ H1) as [_ ?].
  apply chunks_at_mod in H1. destruct (zr_base _ _ _ _ H) as [?%page_aligned_8 _].
  unfold a, HEADER_SIZE, ZONE_SIZE, PAGE_SIZE, MAX_CHUNK_SIZE in *.
  split_and!; try done; try lia. zdm.
Qed.

(** Replacing some chunks of a zone by others that fill the same space. *)
Lemma zone_rep_replace m m' b nx c1 mid mid' c2 :
  zone_rep m b nx (c1 ++ mid ++ c2) →
  (∀ x, x ≠ b → ¬ (b + ZONE_SIZE + span c1 ≤ x < b + ZONE_SIZE + span c1 + span mid) →
    m' !! x = m !! x) →
  m' !! b = Some (nx + nused (c1 ++ mid' ++ c2)) →
  chunks_at m' (b + ZONE_SIZE + span c1) mid' (b + ZONE_SIZE + span c1 + span mid) →
  keeps m m' →
  zone_rep m' b nx (c1 ++ mid' ++ c2).
Proof.
  intros H Hm Hb Hmid Hk. pose proof H as [Hbase Hnext _ Hc Hram].
  apply chunks_at_app in Hc as [H1 H2]. apply chunks_at_app in H2 as [H2 H3].
  pose proof (chunks_at_span _ _ _ _ H1) as [_ ?].
  pose proof (chunks_at_span _ _ _ _ H2) as [_ ?].
  pose proof (chunks_at_span _ _ _ _ H3) as [? ?].
  pose proof (chunks_at_span _ _ _ _ Hmid) as [Es _].
  assert ((b + ZONE_SIZE) mod 8 = 0) as Hb8.
  { destruct Hbase as [?%page_aligned_8 _]. unfold ZONE_SIZE. zdm. }
  pose proof (chunks_at_mod _ _ _ _ H1). pose proof (chunks_at_mod _ _ _ _ H2).
  assert ((b + ZONE_SIZE + span c1 + span mid) mod 8 = 0) as Hc8 by zdm.
  unfold ZONE_SIZE in *. split; [done | done | done | |]; unfold ZONE_SIZE.
  - apply chunks_at_app. split; [|apply chunks_at_app; split].
    + eapply chunks_at_frame; [done | | done]. intros x Hx _. unfold ZONE_SIZE in Hx. apply Hm; lia.
    + unfold ZONE_SIZE. by rewrite <- Es.
    + unfold ZONE_SIZE. rewrite <- Es.
      eapply chunks_at_frame; [done | | done]. intros x Hx _. unfold ZONE_SIZE in Hx. apply Hm; lia.
  - intros x Hx Hx8. apply Hk; [done|]. by apply Hram.
Qed.

(** A zone only depends on its page. *)
Lemma zone_rep_frame m m' b nx cs :
  (∀ x, page_of x = b → m' !! x = m !! x) → zone_rep m b nx cs → zone_rep m' b nx cs.
Proof.
  intros Hm H. pose proof H as [(Hal & Hb) Hnext Hw Hc Hram].
  assert (∀ x, b ≤ x < b + PAGE_SIZE → m' !! x = m !! x) as Hm'.
  { intros x Hx. apply Hm. by apply page_of_unique. }
  split; [done | done | by rewrite Hm by by apply page_of_id | |].
  - eapply chunks_at_frame; [| |done].
    + apply page_aligned_8 in Hal. unfold ZONE_SIZE. zdm.
    + intros x Hx _. apply Hm'. unfold ZONE_SIZE in Hx. lia.
  - intros x Hx H8. rewrite Hm' by done. by apply Hram.
Qed.

(** Pointing a zone to another next zone. *)
Lemma zone_rep_next m b nx nx' cs :
  page_aligned nx' → 0 ≤ nx' < u64_size → zone_rep m b nx cs →
  zone_rep (<[b := nx' + nused cs]> m) b nx' cs.
Proof.
  intros Hal Hu [Hb _ _ Hc Hram]. split; [done | done | by rewrite lookup_insert_eq | |].
  - eapply chunks_at_frame; [| |done].
    + destruct Hb as [?%page_aligned_8 _]. unfold ZONE_SIZE. zdm.
    + intros x Hx _. apply lookup_insert_ne. unfold ZONE_SIZE in Hx. lia.
  - intros x Hx H8. apply is_Some_insert. by apply Hram.
Qed.

(** A zone made out of a page. *)
Lemma zone_rep_fresh m p :
  page_aligned p → 0 < p → p + PAGE_SIZE < u64_size → page_mapped m p →
  zone_rep (<[p + ZONE_SIZE := MAX_CHUNK_SIZE]> (<[p := 0]> m)) p 0 [(MAX_CHUNK_SIZE, false)].
Proof.
  unfold ZONE_SIZE, MAX_CHUNK_SIZE. intros Hal H0 Hu Hm.
  split; [done | by rewrite u64_size_eq | | |].
  - by rewrite lookup_insert_ne, lookup_insert_eq by lia.
  - simpl. unfold ZONE_SIZE, HEADER_SIZE, PAGE_SIZE. rewrite lookup_insert_eq.
    split_and!; (done || lia).
  - intros x Hx H8. do 2 apply is_Some_insert. by apply Hm.
Qed.
