(* ===== verification/ZoneScan.v ===== *)
(** * First fit in a zone

    [first_fit] is what [Zone::scan] of src/vm/vmalloc.rs does to the list of
    chunks of a zone: the first free chunk that is big enough is split and used,
    and free neighbours passed on the way are merged. [wp_scan] shows that the
    code, which reads and writes headers in memory, implements it. *)

From S2P Require Import Prelude Machine Param Mutex Palloc FreeList VmState Vmalloc Zone.

(** ** The abstract routine *)

(** A free chunk of [s] bytes after [size] of them are taken. *)
Definition take_chunk (size s : Z) : list chunk :=
  if size =? s then [(s, true)] else [(size, true); (s - size - HEADER_SIZE, false)].

(** The offset of the header of the chunk taken, and the new list. *)
Fixpoint first_fit (size : Z) (c : chunk) (rest : list chunk) : option Z * list chunk :=
  let '(s, u) := c in
  if (s <? size) || u then
    match rest with
    | [] => (None, [c])
    | (s2, u2) :: rest' =>
        if negb u && negb u2 then first_fit size (s + HEADER_SIZE + s2, false) rest'
        else
          let '(r, l) := first_fit size (s2, u2) rest' in
          ((λ o, HEADER_SIZE + s + o) <$> r, c :: l)
    end
  else (Some 0, take_chunk size s ++ rest).

(** The words of the free chunks of a list that starts at [a]. *)
Fixpoint in_free (a : Z) (cs : list chunk) (x : Z) : Prop :=
  match cs with
  | [] => False
  | (s, u) :: cs' =>
      (u = false ∧ a ≤ x < a + HEADER_SIZE + s) ∨ in_free (a + HEADER_SIZE + s) cs' x
  end.

Lemma in_free_app a c1 c2 x :
  in_free a (c1 ++ c2) x ↔ in_free a c1 x ∨ in_free (a + span c1) c2 x.
Proof.
  revert a. induction c1 as [|[s u] c1 IH]; intros a; simpl.
  - rewrite Z.add_0_r. tauto.
  - rewrite IH. replace (a + HEADER_SIZE + s + span c1) with (a + (HEADER_SIZE + s + span c1)) by lia.
    tauto.
Qed.

(** [m'] differs from [m] at most in the zone header and in the free chunks. *)
Definition zone_frame (b : Z) (cs : list chunk) (m m' : mem) : Prop :=
  ∀ x, x ≠ b → ¬ in_free (b + ZONE_SIZE) cs x → m' !! x = m !! x.

(** ** Small steps *)

Ltac look := repeat first [ rewrite lookup_insert_eq | rewrite lookup_insert_ne by lia ].

Section steps.
Context {cfg : Config}.

Lemma wp_Header_from a w m (Q : Header → mem → Prop) P :
  a mod 8 = 0 → m !! a = Some w → Q (mkHeader w) m → wp (Header_from a) m Q P.
Proof. intros H8 Hm HQ. unfold Header_from. eapply wp_bind, wp_read; [done | done |]. by apply wp_ret. Qed.

(** Merging with whatever looks like a free chunk. *)
Lemma wp_merge_word s1 h s2 a m (Q : Header → mem → Prop) P :
  is_free h = true → chunk_size h = s2 →
  0 ≤ s1 → 0 ≤ s2 → s1 + HEADER_SIZE + s2 < 4096 → a mod 8 = 0 → is_Some (m !! a) →
  Q (mkHeader (hdr (s1 + HEADER_SIZE + s2) false)) (<[a := 0]> m) →
  wp (merge (mkHeader (hdr s1 false)) h a) m Q P.
Proof.
  unfold HEADER_SIZE. intros Hf Hc H1 H2 Hs H8 Hm HQ. unfold merge, HEADER_SIZE.
  rewrite Hf, Hc, is_free_hdr, chunk_size_hdr by lia. wp_steps.
  apply wp_write; [done | done |]. wp_steps. by rewrite set_size_hdr by lia.
Qed.

Lemma wp_merge s1 s2 a m (Q : Header → mem → Prop) P :
  0 ≤ s1 → 0 ≤ s2 → s1 + HEADER_SIZE + s2 < 4096 → a mod 8 = 0 → is_Some (m !! a) →
  Q (mkHeader (hdr (s1 + HEADER_SIZE + s2) false)) (<[a := 0]> m) →
  wp (merge (mkHeader (hdr s1 false)) (mkHeader (hdr s2 false)) a) m Q P.
Proof.
  intros H1 H2 Hs. unfold HEADER_SIZE in Hs. apply wp_merge_word; try done.
  - by rewrite is_free_hdr by lia.
  - apply chunk_size_hdr. lia.
Qed.

Lemma wp_increment_refs b nx r m (Q : _ → mem → Prop) P :
  page_aligned nx → 0 ≤ nx < u64_size → 0 ≤ r < 510 → b mod 8 = 0 → is_Some (m !! b) →
  Q (Ok (), mkZone b (nx + (r + 1))) (<[b := nx + (r + 1)]> m) →
  wp (increment_refs (mkZone b (nx + r))) m Q P.
Proof.
  intros Hnx Hu Hr H8 Hb HQ. unfold increment_refs. rewrite get_refs_word by (done || lia).
  wp_steps. settle_bool. unfold write_refs. cbn [z_base z_next].
  rewrite get_next_or by (done || lia). rewrite lor_next by (done || lia).
  apply wp_bind, wp_bind, wp_write; [done | done |]. by wp_steps.
Qed.

(** Using a free chunk of [s] bytes: the memory afterwards. *)
Definition taken (m : mem) (b a nx r size s : Z) : mem :=
  let m := <[b := nx + (r + 1)]> m in
  let m := <[a := hdr s true]> m in
  if size =? s then m
  else <[a + HEADER_SIZE + size := hdr (s - size - HEADER_SIZE) false]>
         (<[a := hdr size true]> m).

Lemma wp_alloc_chunk b nx r a size s m (Q : _ → mem → Prop) P :
  page_aligned nx → 0 ≤ nx < u64_size → 0 ≤ r < 510 →
  b mod 8 = 0 → is_Some (m !! b) → a mod 8 = 0 → is_Some (m !! a) →
  0 < size ≤ s → s ≤ MAX_CHUNK_SIZE → size mod 8 = 0 → s mod 8 = 0 →
  0 ≤ a → a + HEADER_SIZE + s < u64_size →
  (size ≠ s → is_Some (m !! (a + HEADER_SIZE + size))) →
  (∀ h, Q (mkZone b (nx + (r + 1)), h) (taken m b a nx r size s)) →
  wp (alloc_chunk size a (mkZone b (nx + r)) (mkHeader (hdr s false))) m Q P.
Proof.
  unfold MAX_CHUNK_SIZE, HEADER_SIZE.
  intros Hnx Hu Hr Hb8 Hb Ha8 Ha Hs Hmax Hs8 Hs8' Ha0 Hau Hnext HQ. unfold alloc_chunk.
  apply wp_bind, wp_increment_refs; [done | done | done | done | done |]. cbn beta iota.
  apply wp_bind, wp_ret. rewrite set_used_hdr by lia. unfold write_to. cbn [fields].
  apply wp_bind, wp_write; [done | by apply is_Some_insert |].
  rewrite chunk_size_hdr by lia. unfold taken in HQ. destruct (Z.eqb_spec size s) as [->|Hne].
  { cbn [negb]. wp_steps. apply HQ. }
  cbn [negb]. apply wp_bind. unfold split. rewrite chunk_size_hdr, set_size_hdr by lia.
  assert (8 ≤ s - size) by zdm.
  unfold write_to, HEADER_SIZE. cbn [fields]. wp_steps.
  apply wp_write; [done | by do 2 apply is_Some_insert |].
  wp_steps. apply wp_write; [zdm | by do 3 apply is_Some_insert; auto |].
  wp_steps. rewrite <- (Z.add_0_r (s - size - 8)). apply HQ.
Qed.

End steps.

(** ** What the steps do to a zone *)

Lemma take_chunk_span size s : span (take_chunk size s) = HEADER_SIZE + s.
Proof.
  unfold take_chunk. destruct (Z.eqb_spec size s); simpl; unfold HEADER_SIZE; lia.
Qed.

Lemma take_chunk_nused size s : nused (take_chunk size s) = 1.
Proof. unfold take_chunk. by destruct (size =? s). Qed.

Lemma take_chunk_refs c1 size s rest :
  nused (c1 ++ take_chunk size s ++ rest) = nused (c1 ++ (s, false) :: rest) + 1.
Proof. rewrite !nused_app, take_chunk_nused. simpl. lia. Qed.

(** Merging two free chunks keeps the counts and the free words. *)
Lemma merge_refs c1 s s2 rest :
  nused (c1 ++ (s, false) :: (s2, false) :: rest) =
  nused (c1 ++ (s + HEADER_SIZE + s2, false) :: rest).
Proof. by rewrite !nused_app. Qed.

Lemma merge_free a c1 s s2 rest x :
  in_free a (c1 ++ (s + HEADER_SIZE + s2, false) :: rest) x →
  in_free a (c1 ++ (s, false) :: (s2, false) :: rest) x.
Proof.
  rewrite !in_free_app. simpl. unfold HEADER_SIZE. set (e := a + span c1).
  replace (e + 8 + (s + 8 + s2)) with (e + 8 + s + 8 + s2) by lia.
  destruct (Z.lt_ge_cases x (e + 8 + s)); intuition lia.
Qed.

Section zone_steps.
Context {m : mem} {b nx : Z} {c1 : list chunk}.
Let a : Z := b + ZONE_SIZE + span c1.

Lemma zone_frame_refl cs : zone_frame b cs m m.
Proof. by intros x. Qed.

Lemma zone_frame_step cs cs' m1 m2 :
  (∀ x, in_free (b + ZONE_SIZE) cs' x → in_free (b + ZONE_SIZE) cs x) →
  zone_frame b cs m m1 → zone_frame b cs' m1 m2 → zone_frame b cs m m2.
Proof. intros Hsub H1 H2 x Hb Hx. rewrite H2 by auto. auto. Qed.

Lemma zone_merge s s2 rest :
  zone_rep m b nx (c1 ++ (s, false) :: (s2, false) :: rest) →
  let m' := <[a := hdr (s + HEADER_SIZE + s2) false]> (<[a + HEADER_SIZE + s := 0]> m) in
  zone_rep m' b nx (c1 ++ (s + HEADER_SIZE + s2, false) :: rest) ∧
  zone_frame b (c1 ++ (s, false) :: (s2, false) :: rest) m m' ∧ keeps m m'.
Proof.
  intros H m'. destruct (zone_chunk _ _ _ _ _ _ _ H) as (_ & Hs & Hs8 & _ & Ha8 & Ha & Hend & H1 & H2).
  change (c1 ++ (s, false) :: (s2, false) :: rest)
    with (c1 ++ [(s, false)] ++ (s2, false) :: rest) in H.
  rewrite app_assoc in H.
  destruct (zone_chunk _ _ _ _ _ _ _ H) as (_ & Ht & Ht8 & _ & _ & _ & Hend' & _ & H3).
  rewrite <- app_assoc in H. rewrite span_app in Hend'.
  fold a in Ha8, Ha, Hend. simpl in Hend', H2, Hend. unfold HEADER_SIZE, ZONE_SIZE in *.
  assert (keeps m m') as Hk by (eapply keeps_trans; apply keeps_insert).
  split; [|split; [|done]].
  - apply (zone_rep_replace m m' b nx c1 [(s, false); (s2, false)] [(s + 8 + s2, false)] rest H); simpl;
      unfold HEADER_SIZE, ZONE_SIZE in *; fold a.
    + intros x Hb Hx. unfold m'. rewrite !lookup_insert_ne; [done | lia | lia].
    + unfold m'. rewrite !lookup_insert_ne by lia. rewrite (zr_word _ _ _ _ H).
      by rewrite !nused_app.
    + unfold m'. rewrite lookup_insert_eq. split_and!; [done | lia | zdm | done | lia].
    + done.
  - intros x Hb Hx. rewrite in_free_app in Hx. simpl in Hx. fold a in Hx.
    unfold m', HEADER_SIZE, ZONE_SIZE in *. rewrite !lookup_insert_ne; [done | |]; intros <-;
      apply Hx; right; [right; left | left]; unfold a; lia.
Qed.

Lemma zone_taken size s rest :
  zone_rep m b nx (c1 ++ (s, false) :: rest) → 0 < size ≤ s → size mod 8 = 0 →
  let m' := taken m b a nx (nused (c1 ++ (s, false) :: rest)) size s in
  zone_rep m' b nx (c1 ++ take_chunk size s ++ rest) ∧
  zone_frame b (c1 ++ (s, false) :: rest) m m' ∧ keeps m m'.
Proof.
  intros H Hsize Hsz8 m'.
  destruct (zone_chunk _ _ _ _ _ _ _ H) as (_ & Hs & Hs8 & _ & Ha8 & Ha & Hend & H1 & H2).
  fold a in Ha8, Ha, Hend. unfold HEADER_SIZE, ZONE_SIZE in *.
  assert (size = s ∨ size + 8 ≤ s) as Hcase by zdm.
  assert (keeps m m') as Hk.
  { unfold m', taken. destruct (size =? s);
      repeat (first [apply keeps_insert | eapply keeps_trans]). }
  assert (∀ x, x ≠ b → ¬ (a ≤ x < a + 8 + s) → m' !! x = m !! x) as Hout.
  { intros x Hb Hx. unfold m', taken, HEADER_SIZE.
    destruct (Z.eqb_spec size s); rewrite !lookup_insert_ne; (done || lia). }
  split; [|split; [|done]].
  - apply (zone_rep_replace m m' b nx c1 [(s, false)] _ rest H); simpl;
      unfold HEADER_SIZE, ZONE_SIZE in *; fold a.
    + intros x Hb Hx. apply Hout; lia.
    + rewrite !nused_app, take_chunk_nused in *. cbn [nused]. unfold m', taken, HEADER_SIZE.
      destruct (Z.eqb_spec size s); look; f_equal; rewrite nused_app; simpl; lia.
    + unfold m', taken, take_chunk, HEADER_SIZE. destruct (Z.eqb_spec size s); simpl.
      * look. unfold HEADER_SIZE. split_and!; (done || lia).
      * unfold HEADER_SIZE. look.
        split_and!; try (done || lia || zdm).
    + done.
  - intros x Hb Hx. apply Hout; [done|]. intros Hin. apply Hx. apply in_free_app.
    right. simpl. fold a. left. done.
Qed.

End zone_steps.

(** ** The scan *)

(** What stops a scan that finds nothing at the end of the zone: the last chunk
    is in use, or the word after the zone does not look like a free header. [Zone::scan]
    reads and may merge that word before it checks its bound; what it does when nothing
    stops it is in ZoneEscape.v. *)
Definition end_guard (m : mem) (b : Z) (cs : list chunk) : Prop :=
  ∃ w, m !! (b + PAGE_SIZE) = Some w ∧
    (is_free (mkHeader w) = true → snd <$> last cs = Some true).

Lemma end_guard_frame m m' b cs cs' :
  m' !! (b + PAGE_SIZE) = m !! (b + PAGE_SIZE) →
  (snd <$> last cs = Some true → snd <$> last cs' = Some true) →
  end_guard m b cs → end_guard m' b cs'.
Proof. intros Hm Hl (w & Hw & Hf). exists w. rewrite Hm. auto. Qed.

Lemma in_free_bound m a cs e x : chunks_at m a cs e → in_free a cs x → a ≤ x < e.
Proof.
  revert a. induction cs as [|[s u] cs IH]; intros a; simpl; [done|].
  intros (_ & Hs & _ & _ & Hc) Hx. pose proof (chunks_at_span _ _ _ _ Hc) as [-> ?].
  unfold HEADER_SIZE in *. destruct Hx as [[_ Hx]|Hx]; [lia|].
  specialize (IH _ Hc Hx). lia.
Qed.

(** A step inside the zone does not change the word behind it. *)
Lemma zone_frame_end m m' b nx cs :
  zone_rep m b nx cs → zone_frame b cs m m' →
  m' !! (b + PAGE_SIZE) = m !! (b + PAGE_SIZE).
Proof.
  intros H Hf. apply Hf; [unfold PAGE_SIZE; lia|]. intros Hx.
  pose proof (in_free_bound _ _ _ _ _ (zr_chunks _ _ _ _ H) Hx). lia.
Qed.

Section scan.
Context {cfg : Config} (size : Z) (Hsize : 0 < size) (Hsize8 : size mod 8 = 0).

Section turns.
Context {m : mem} {b nx : Z} {c1 : list chunk} {s : Z} {u : bool} {rest : list chunk}.
Context (H : zone_rep m b nx (c1 ++ (s, u) :: rest)).
Let a : Z := b + ZONE_SIZE + span c1.
Let z : Zone := mkZone b (nx + nused (c1 ++ (s, u) :: rest)).

Lemma scan_here :
  m !! a = Some (hdr s u) ∧ 0 ≤ s ≤ 4080 ∧ s mod 8 = 0 ∧ a mod 8 = 0 ∧
  b < a ∧ a + 8 + s + span rest = b + 4096 ∧ 0 ≤ span rest ∧ a < b + 4096 ∧
  0 < b ∧ b + 4096 < u64_size ∧ b mod 8 = 0.
Proof.
  destruct (zone_chunk _ _ _ _ _ _ _ H) as (Hh & Hs & Hs8 & _ & Ha8 & Ha & Hend & H1 & H2).
  destruct (zr_base _ _ _ _ H) as (Hal%page_aligned_8 & Hb0 & Hbu). fold a in Hh, Ha8, Ha, Hend.
  unfold HEADER_SIZE, ZONE_SIZE, PAGE_SIZE, MAX_CHUNK_SIZE in *. split_and!; (done || lia).
Qed.

(** A chunk that does not fit is passed when it cannot be merged. *)
Lemma wp_turn_pass w (Q : _ → mem → Prop) P :
  (s <? size) || u = true → m !! (a + HEADER_SIZE + s) = Some w →
  negb u && is_free (mkHeader w) = false →
  Q (inl (mkHeader w, a + HEADER_SIZE + s)) m →
  wp (scan_turn z size (b + PAGE_SIZE) (mkHeader (hdr s u), a)) m Q P.
Proof.
  intros Hno Hw Hf HQ. destruct scan_here as (Hh & Hs & Hs8 & Ha8 & Ha & Hend & H2 & Hlt & ? & Hu & Hb8).
  unfold scan_turn, PAGE_SIZE, HEADER_SIZE in *.
  rewrite (proj2 (Z.ltb_lt a (b + 4096))) by lia.
  rewrite chunk_size_hdr, is_free_hdr, negb_involutive, Hno by lia. wp_steps.
  eapply wp_Header_from; [zdm | exact Hw |]. rewrite Hf. by wp_steps.
Qed.

End turns.

Lemma wp_turn_take m b nx c1 s rest (Q : _ → mem → Prop) P :
  let a := b + ZONE_SIZE + span c1 in
  let r := nused (c1 ++ (s, false) :: rest) in
  zone_rep m b nx (c1 ++ (s, false) :: rest) → size ≤ s →
  Q (inr (Some (a + HEADER_SIZE), mkZone b (nx + (r + 1)))) (taken m b a nx r size s) →
  wp (scan_turn (mkZone b (nx + r)) size (b + PAGE_SIZE) (mkHeader (hdr s false), a)) m Q P.
Proof.
  intros a r H Hfit HQ.
  destruct (scan_here H) as (Hh & Hs & Hs8 & Ha8 & Ha & Hend & H2 & Hlt & ? & Hu & Hb8).
  pose proof (zone_refs_bound _ _ _ _ H). destruct (zr_next _ _ _ _ H) as [Hnal Hnu].
  pose proof (zr_ram _ _ _ _ H) as Hram. pose proof (zr_word _ _ _ _ H) as Hw.
  fold a in Hh, Ha8, Ha, Hend, Hlt. unfold scan_turn, PAGE_SIZE, HEADER_SIZE in *.
  rewrite (proj2 (Z.ltb_lt a (b + 4096))) by lia.
  rewrite chunk_size_hdr, is_free_hdr by lia. rewrite (proj2 (Z.ltb_ge s size)) by lia. cbn [orb negb].
  apply wp_bind. apply wp_alloc_chunk;
    unfold MAX_CHUNK_SIZE, HEADER_SIZE; try (done || lia).
  - intros Hne. apply Hram; [unfold PAGE_SIZE; lia | zdm].
  - intros h. wp_steps. done.
Qed.

Lemma wp_turn_merge m b nx c1 s s2 rest (Q : _ → mem → Prop) P :
  let a := b + ZONE_SIZE + span c1 in
  zone_rep m b nx (c1 ++ (s, false) :: (s2, false) :: rest) → s < size →
  Q (inl (mkHeader (hdr (s + HEADER_SIZE + s2) false), a))
    (<[a := hdr (s + HEADER_SIZE + s2) false]> (<[a + HEADER_SIZE + s := 0]> m)) →
  wp (scan_turn (mkZone b (nx + nused (c1 ++ (s, false) :: (s2, false) :: rest))) size
       (b + PAGE_SIZE) (mkHeader (hdr s false), a)) m Q P.
Proof.
  intros a H Hlt HQ. destruct (scan_here H) as (Hh & Hs & Hs8 & Ha8 & Ha & Hend & H2 & Hlt' & ? & Hu & Hb8).
  pose proof H as H'. rewrite cons_middle, app_assoc in H'.
  destruct (scan_here H') as (Hh2 & Hs2 & Hs28 & Ha28 & Ha2 & Hend2 & H22 & Hlt2 & _).
  rewrite span_app in Ha2, Hh2, Ha28, Hend2, Hlt2. simpl in *. fold a in Hh, Ha, Hend, Hlt', Ha8.
  replace (b + ZONE_SIZE + (span c1 + (HEADER_SIZE + s + 0))) with (a + 8 + s) in *
    by (unfold a, HEADER_SIZE; lia).
  unfold scan_turn, PAGE_SIZE, HEADER_SIZE in *.
  rewrite (proj2 (Z.ltb_lt a (b + 4096))) by lia.
  rewrite chunk_size_hdr, is_free_hdr by lia. rewrite (proj2 (Z.ltb_lt s size)) by lia. cbn [orb negb andb].
  wp_steps. eapply wp_Header_from; [done | exact Hh2 |]. rewrite is_free_hdr by lia. cbn [negb].
  apply wp_bind, wp_merge; unfold HEADER_SIZE; try (done || lia). unfold write_to. cbn [fields].
  apply wp_bind, wp_write; [done | by apply is_Some_insert |]. by wp_steps.
Qed.

(** The scan from a chunk on: it takes the chunk first fit takes, or comes to the last
    chunk, which does not fit, and has not read what lies behind the zone. *)
Lemma wp_scan_loop n b nx c1 c rest m (Q : _ → mem → Prop) P :
  zone_rep m b nx (c1 ++ c :: rest) → (length rest < n)%nat →
  (∀ m' o l, first_fit size c rest = (Some o, l) →
    zone_rep m' b nx (c1 ++ l) → zone_frame b (c1 ++ c :: rest) m m' → keeps m m' →
    Q (Some (b + ZONE_SIZE + span c1 + o + HEADER_SIZE), mkZone b (nx + nused (c1 ++ l))) m') →
  (∀ m' n' l s u, first_fit size c rest = (None, l ++ [(s, u)]) → (s <? size) || u = true →
    snd <$> last (c :: rest) = Some u →
    zone_rep m' b nx (c1 ++ l ++ [(s, u)]) → zone_frame b (c1 ++ c :: rest) m m' → keeps m m' →
    (n ≤ n' + length rest)%nat →
    wp (loop n' (scan_turn (mkZone b (nx + nused (c1 ++ l ++ [(s, u)]))) size (b + PAGE_SIZE))
      (mkHeader (hdr s u), b + ZONE_SIZE + span (c1 ++ l))) m' Q P) →
  wp (loop n (scan_turn (mkZone b (nx + nused (c1 ++ c :: rest))) size (b + PAGE_SIZE))
       (mkHeader (hdr c.1 c.2), b + ZONE_SIZE + span c1)) m Q P.
Proof.
  revert n c1 c m Q. induction rest as [|[s2 u2] rest IH]; intros n c1 [s u] m Q H Hn Hsome Hnone; cbn [fst snd].
  all: destruct ((s <? size) || u) eqn:Hno; [|apply orb_false_iff in Hno as [Hfit%Z.ltb_ge ->];
    destruct n as [|n]; [lia|]; apply wp_loop_turn, wp_turn_take; [done | done |];
    destruct (zone_taken size s _ H) as (Hz & Hf & Hk); [done | done |];
    rewrite <- (take_chunk_refs c1 size s), <- (Z.add_0_r (b + ZONE_SIZE + span c1)) at 1;
    apply Hsome; [simpl; by rewrite (proj2 (Z.ltb_ge s size)) by done | done..]].
  - rewrite <- (app_nil_r c1) at 2. apply (Hnone m n [] s u); first [done | simpl; by rewrite Hno | by intros x | lia].
  - simpl in Hn. destruct n as [|n]; [lia|]. apply wp_loop_turn. destruct (negb u && negb u2) eqn:Hm.
    + apply andb_true_iff in Hm as [->%negb_true_iff ->%negb_true_iff].
      assert (first_fit size (s, false) ((s2, false) :: rest) = first_fit size (s + HEADER_SIZE + s2, false) rest) as Eff
        by (simpl; by rewrite Hno).
      rewrite orb_false_r in Hno. apply Z.ltb_lt in Hno. apply wp_turn_merge; [done | done |].
      destruct (zone_merge s s2 rest H) as (Hz & Hf & Hk). rewrite (merge_refs c1 s s2 rest).
      apply (IH n c1 (s + HEADER_SIZE + s2, false)); [done | lia | |].
      * intros m' o l E Hz' Hf' Hk'. apply Hsome; [by rewrite Eff | done | | by eapply keeps_trans].
        eapply zone_frame_step; [|done..]. intros x. apply merge_free.
      * intros m' n' l s' u' E Hs' Hl Hz' Hf' Hk' Hn'.
        apply Hnone; [by rewrite Eff | done | by destruct rest | done | | by eapply keeps_trans | simpl; lia].
        eapply zone_frame_step; [|done..]. intros x. apply merge_free.
    + assert (first_fit size (s, u) ((s2, u2) :: rest) = let '(r, l) := first_fit size (s2, u2) rest in
        ((λ o, HEADER_SIZE + s + o) <$> r, (s, u) :: l)) as Eff by (simpl; by rewrite Hno, Hm).
      pose proof H as H'. rewrite cons_middle, app_assoc in H'.
      destruct (scan_here H') as (Hh2 & Hs2 & _). rewrite span_app in Hh2. simpl in Hh2.
      replace (b + ZONE_SIZE + (span c1 + (HEADER_SIZE + s + 0)))
        with (b + ZONE_SIZE + span c1 + HEADER_SIZE + s) in Hh2 by lia.
      apply (wp_turn_pass H (hdr s2 u2)); [done | done | by rewrite is_free_hdr by lia |].
      replace (b + ZONE_SIZE + span c1 + HEADER_SIZE + s)
        with (b + ZONE_SIZE + span (c1 ++ [(s, u)])) by (rewrite span_app; simpl; lia).
      rewrite cons_middle, app_assoc.
      apply (IH n (c1 ++ [(s, u)]) (s2, u2)); [done | lia | |].
      * intros m' o l E. rewrite <- !(app_assoc c1). simpl. intros Hz Hf Hk.
        rewrite span_app. simpl. replace (b + ZONE_SIZE + (span c1 + (HEADER_SIZE + s + 0)) + o + HEADER_SIZE)
          with (b + ZONE_SIZE + span c1 + (HEADER_SIZE + s + o) + HEADER_SIZE) by lia.
        apply Hsome; [by rewrite Eff, E | done | done | done].
      * intros m' n' l s' u' E Hs' Hl. rewrite <- !(app_assoc c1). simpl. intros Hz Hf Hk Hn'.
        apply (Hnone m' n' ((s, u) :: l)); [by rewrite Eff, E | done | by destruct rest | done | done | done | simpl; lia].
Qed.

(** Behind the last chunk: a word that cannot be merged ends the scan. *)
Lemma wp_scan_stop n b nx c1 s u m (Q : _ → mem → Prop) P :
  zone_rep m b nx (c1 ++ [(s, u)]) → (s <? size) || u = true → end_guard m b [(s, u)] → (1 < n)%nat →
  Q (None, mkZone b (nx + nused (c1 ++ [(s, u)]))) m →
  wp (loop n (scan_turn (mkZone b (nx + nused (c1 ++ [(s, u)]))) size (b + PAGE_SIZE))
       (mkHeader (hdr s u), b + ZONE_SIZE + span c1)) m Q P.
Proof.
  intros H Hno (w & Hw & Hlast) Hn HQ.
  destruct (scan_here H) as (Hh & Hs & Hs8 & Ha8 & Ha & Hend & H2 & Hlt & ? & Hu & Hb8).
  simpl in Hend. rewrite Z.add_0_r in Hend.
  assert (b + ZONE_SIZE + span c1 + HEADER_SIZE + s = b + PAGE_SIZE) as Ee
    by (unfold HEADER_SIZE, PAGE_SIZE; lia).
  destruct n as [|[|n]]; [lia | lia |]. apply wp_loop_turn. apply (wp_turn_pass H w); [done | by rewrite Ee | |].
  { destruct u; [done|]. destruct (is_free _); [|done]. by specialize (Hlast eq_refl). }
  rewrite Ee. apply wp_loop_turn. unfold scan_turn. rewrite Z.ltb_irrefl. by apply wp_ret.
Qed.

(** The scan up to its loop. *)
Lemma wp_scan_enter b nx c rest m (Q : _ → mem → Prop) P :
  zone_rep m b nx (c :: rest) →
  wp (loop fuel (scan_turn (mkZone b (nx + nused (c :: rest))) size (b + PAGE_SIZE))
       (mkHeader (hdr c.1 c.2), b + ZONE_SIZE + span [])) m Q P →
  wp (scan (mkZone b (nx + nused (c :: rest))) size) m Q P.
Proof.
  intros H HQ. destruct c as [s u].
  destruct (@scan_here m b nx [] s u rest H) as (Hh & _ & _ & Ha8 & _ & _ & _ & _ & Hb & Hu & _).
  unfold scan. cbn [z_base]. change (PAGE_SIZE / 8) with 512.
  rewrite !ptr_add_small by (unfold is_u64; lia).
  replace (b + 8 * 1) with (b + ZONE_SIZE + span []) by (simpl; unfold ZONE_SIZE; lia).
  replace (b + 8 * 512) with (b + PAGE_SIZE) by (unfold PAGE_SIZE; lia).
  apply wp_bind. eapply wp_Header_from; [done | exact Hh | exact HQ].
Qed.

(** [Zone::scan] implements [first_fit]. *)
Lemma wp_scan b nx c rest m (Q : _ → mem → Prop) P :
  zone_rep m b nx (c :: rest) →
  ((first_fit size c rest).1 = None → end_guard m b (c :: rest)) →
  (512 ≤ fuel)%nat →
  (∀ m', let '(r, l) := first_fit size c rest in
    zone_rep m' b nx l → zone_frame b (c :: rest) m m' → keeps m m' →
    Q ((λ o, b + ZONE_SIZE + o + HEADER_SIZE) <$> r, mkZone b (nx + nused l)) m') →
  wp (scan (mkZone b (nx + nused (c :: rest))) size) m Q P.
Proof.
  intros H Hg Hfuel HQ. pose proof (zone_length _ _ _ _ H) as Hlen. simpl in Hlen.
  apply wp_scan_enter; [done|]. apply (wp_scan_loop fuel b nx [] c rest m); [done | lia | |].
  - intros m' o l E Hz Hf Hk. specialize (HQ m'). rewrite E in HQ. simpl. rewrite Z.add_0_r. by apply HQ.
  - intros m' n' l s u E Hno Hl Hz Hf Hk Hn. specialize (HQ m'). rewrite E in HQ, Hg. simpl.
    apply wp_scan_stop; [done | done | | lia | by apply HQ].
    eapply end_guard_frame; [exact (zone_frame_end _ _ _ _ _ H Hf) | | by apply Hg].
    rewrite Hl. by intros [= ->].
Qed.

End scan.
