(* ===== verification/Heap.v ===== *)
(** * The live blocks of a zone

    What a client of the kernel heap sees of a zone: the blocks it holds, each an
    address and a size. First fit adds one block and leaves the others alone
    ([first_fit_live]), finds a chunk whenever one is big enough
    ([first_fit_finds]), and gives up only on a zone without adjacent free chunks
    ([first_fit_none]); freeing a chunk removes its block ([free_chunk_live]). *)

From S2P Require Import Prelude Machine Param Mutex Palloc FreeList VmState Vmalloc Zone ZoneScan.

(** The data of the chunks in use of a list that starts at [a]. *)
Fixpoint live (a : Z) (cs : list chunk) : list (Z * Z) :=
  match cs with
  | [] => []
  | (s, u) :: cs' =>
      (if u then [(a + HEADER_SIZE, s)] else []) ++ live (a + HEADER_SIZE + s) cs'
  end.

(** An address inside a block. *)
Definition in_block (bl : Z * Z) (x : Z) : Prop := bl.1 ≤ x < bl.1 + bl.2.

Definition disjoint_blocks (b1 b2 : Z * Z) : Prop :=
  b1.1 + b1.2 ≤ b2.1 ∨ b2.1 + b2.2 ≤ b1.1.

Lemma live_app a c1 c2 : live a (c1 ++ c2) = live a c1 ++ live (a + span c1) c2.
Proof.
  revert a. induction c1 as [|[s u] c1 IH]; intros a; simpl.
  - by rewrite Z.add_0_r.
  - rewrite IH, <- app_assoc. do 3 f_equal. lia.
Qed.

Lemma live_length a cs : Z.of_nat (length (live a cs)) = nused cs.
Proof.
  revert a. induction cs as [|[s u] cs IH]; intros a; simpl; [done|].
  rewrite length_app, Nat2Z.inj_add, IH. by destruct u.
Qed.

(** ** First fit *)

Section first_fit.
Context (size : Z).

Lemma take_chunk_live a s :
  size ≤ s → live a (take_chunk size s) = [(a + HEADER_SIZE, size)].
Proof. intros H. unfold take_chunk. destruct (Z.eqb_spec size s) as [->|]; done. Qed.

Lemma first_fit_live a c rest :
  match first_fit size c rest with
  | (Some o, l) => live a l ≡ₚ (a + o + HEADER_SIZE, size) :: live a (c :: rest)
  | (None, l) => live a l = live a (c :: rest)
  end.
Proof.
  revert a c. induction rest as [|[s2 u2] rest IH]; intros a [s u]; simpl.
  - destruct ((s <? size) || u) eqn:E; [done|].
    apply orb_false_iff in E as [?%Z.ltb_ge ->].
    rewrite app_nil_r, take_chunk_live, Z.add_0_r by done. done.
  - destruct ((s <? size) || u) eqn:E.
    + destruct (negb u && negb u2) eqn:Em.
      * apply andb_true_iff in Em as [->%negb_true_iff ->%negb_true_iff].
        specialize (IH a (s + HEADER_SIZE + s2, false)). simpl in IH |- *.
        replace (a + HEADER_SIZE + s + HEADER_SIZE + s2)
          with (a + HEADER_SIZE + (s + HEADER_SIZE + s2)) by lia. exact IH.
      * specialize (IH (a + HEADER_SIZE + s) (s2, u2)). simpl in IH.
        destruct (first_fit size (s2, u2) rest) as [[o|] l]; simpl; rewrite IH; [|done].
        replace (a + HEADER_SIZE + s + o + HEADER_SIZE)
          with (a + (HEADER_SIZE + s + o) + HEADER_SIZE) by lia. by destruct u; [constructor|].
    + apply orb_false_iff in E as [?%Z.ltb_ge ->].
      rewrite live_app, take_chunk_live, take_chunk_span by done. simpl.
      rewrite !Z.add_0_r, Z.add_assoc. done.
Qed.

Lemma first_fit_finds c rest s :
  Forall (λ d : chunk, 0 ≤ d.1) (c :: rest) →
  (s, false) ∈ c :: rest → size ≤ s → is_Some (first_fit size c rest).1.
Proof.
  intros Hpos Hin Hs. revert c s Hs Hpos Hin.
  induction rest as [|[s2 u2] rest IH]; intros [s1 u1] s Hs Hpos Hin; simpl;
    (destruct ((s1 <? size) || u1) eqn:E; [|done]);
    (apply elem_of_cons in Hin as [[= <- <-]|Hin];
      [rewrite (proj2 (Z.ltb_ge s size)) in E by done; try done|]).
  { by apply not_elem_of_nil in Hin. }
  apply Forall_cons in Hpos as [Hp1 Hpos]. pose proof Hpos as [Hp2 Hpos']%Forall_cons.
  simpl in Hp1, Hp2. destruct (negb u1 && negb u2) eqn:Em.
  - apply elem_of_cons in Hin as [[= <- <-]|Hin].
    + apply (IH _ (s1 + HEADER_SIZE + s)); [unfold HEADER_SIZE; lia | | by left].
      constructor; [unfold HEADER_SIZE; simpl; lia | done].
    + apply (IH _ s); [done | | by right].
      constructor; [unfold HEADER_SIZE; simpl; lia | done].
  - specialize (IH (s2, u2) s Hs Hpos Hin).
    destruct (first_fit size (s2, u2) rest) as [[o|] l]; [done | by destruct IH].
Qed.

(** No two neighbours are free. *)
Fixpoint coalesced (cs : list chunk) : Prop :=
  match cs with
  | (_, u) :: ((_, u2) :: _) as cs' => u || u2 = true ∧ coalesced cs'
  | _ => True
  end.

(** A failed search has merged every pair of free neighbours, and no chunk fits. *)
Lemma first_fit_none c rest l :
  first_fit size c rest = (None, l) →
  coalesced l ∧ Forall (λ d : chunk, d.2 = true ∨ d.1 < size) l ∧
  ∃ d l', l = d :: l' ∧ d.2 = c.2.
Proof.
  revert c l. induction rest as [|[s2 u2] rest IH]; intros [s u] l; simpl;
    destruct ((s <? size) || u) eqn:E; intros H; try done.
  - injection H as <-. split_and!; [done | | by eexists _, _].
    constructor; [|done]. apply orb_true_iff in E as [?%Z.ltb_lt| ->]; auto.
  - destruct (negb u && negb u2) eqn:Em.
    + destruct (IH _ _ H) as (? & ? & d & l' & -> & Hd). split_and!; [done | done |].
      apply andb_true_iff in Em as [->%negb_true_iff _]. by exists d, l'.
    + destruct (first_fit size (s2, u2) rest) as [[o|] l1] eqn:E1; [done|].
      injection H as <-. destruct (IH _ _ E1) as (Hc & Hf & [ds du] & l' & -> & Hd).
      simpl in Hd. subst du. split_and!; [|constructor; [|done]|by eexists _, _].
      * split; [|done]. by destruct u, u2.
      * apply orb_true_iff in E as [?%Z.ltb_lt| ->]; auto.
Qed.

End first_fit.

(** ** Freeing *)

(** A chunk of [s] bytes freed in front of [rest]. *)
Definition free_chunk (s : Z) (rest : list chunk) : list chunk :=
  match rest with
  | (s2, false) :: rest' => (s + HEADER_SIZE + s2, false) :: rest'
  | _ => (s, false) :: rest
  end.

Lemma free_chunk_live a s rest :
  live a (free_chunk s rest) = live (a + HEADER_SIZE + s) rest.
Proof.
  unfold free_chunk. destruct rest as [|[s2 []] rest]; simpl; [done | done |].
  f_equal. lia.
Qed.

(** ** Blocks *)

Section blocks.
Context {m : mem}.

Lemma live_bounds a cs e p n :
  chunks_at m a cs e → a mod 8 = 0 → (p, n) ∈ live a cs →
  a + HEADER_SIZE ≤ p ∧ p + n ≤ e ∧ 0 < n ∧ p mod 8 = 0 ∧ n mod 8 = 0.
Proof.
  revert a. induction cs as [|[s u] cs IH]; intros a; simpl.
  { by intros _ _ ?%not_elem_of_nil. }
  intros (_ & Hs & Hs8 & Hu & Hc) Ha [Hin|Hin]%elem_of_app.
  - destruct u; [|by apply not_elem_of_nil in Hin].
    apply list_elem_of_singleton in Hin as [= -> ->]. apply chunks_at_span in Hc as [-> ?].
    specialize (Hu eq_refl). unfold HEADER_SIZE in *. split_and!; try lia; zdm.
  - destruct (IH _ Hc) as (? & ? & ? & ? & ?); [unfold HEADER_SIZE; zdm | done |].
    unfold HEADER_SIZE in *. split_and!; (done || lia).
Qed.

(** A live block does not meet the free words. *)
Lemma live_not_free a cs e bl x :
  chunks_at m a cs e → a mod 8 = 0 → bl ∈ live a cs → in_block bl x → ¬ in_free a cs x.
Proof.
  revert a. induction cs as [|[s u] cs IH]; intros a; simpl; [tauto|].
  intros (_ & Hs & Hs8 & Hu & Hc) Ha Hin Hx.
  assert ((a + HEADER_SIZE + s) mod 8 = 0) as Ha' by (unfold HEADER_SIZE; zdm).
  destruct bl as [p n]. unfold in_block in *. simpl in Hx.
  apply elem_of_app in Hin as [Hin|Hin].
  - destruct u; [|by apply not_elem_of_nil in Hin].
    apply list_elem_of_singleton in Hin as [= -> ->]. intros [[? _]|Hf]; [done|].
    pose proof (in_free_bound _ _ _ _ _ Hc Hf). lia.
  - destruct (live_bounds _ _ _ _ _ Hc Ha' Hin) as (? & _). unfold HEADER_SIZE in *.
    intros [[_ ?]|Hf]; [lia|]. by eapply (IH _ Hc Ha' Hin).
Qed.

Lemma live_disjoint a cs e : chunks_at m a cs e → a mod 8 = 0 →
  StronglySorted (λ b1 b2, b1.1 + b1.2 ≤ b2.1) (live a cs).
Proof.
  revert a. induction cs as [|[s u] cs IH]; intros a; simpl; [constructor|].
  intros (_ & Hs & Hs8 & Hu & Hc) Ha.
  assert ((a + HEADER_SIZE + s) mod 8 = 0) as Ha' by (unfold HEADER_SIZE; zdm).
  destruct u; simpl; [|by apply IH]. constructor; [by apply IH|].
  apply Forall_forall. intros [p n] Hin. simpl.
  pose proof (live_bounds _ _ _ _ _ Hc Ha' Hin). unfold HEADER_SIZE in *. lia.
Qed.

End blocks.
