(* ===== verification/KallocProofs.v ===== *)
(** * Kalloc: allocation and deallocation in the zones of the heap

    The runs of [Kalloc::alloc] and [Kalloc::free] of src/vm/vmalloc.rs on a heap
    whose first zone is known: the request is served by the first zone, by a new
    zone, or not at all. The page allocator is used through [PageAllocSpec]. *)

From S2P Require Import Prelude Machine Param Mutex Palloc FreeList PallocTheorems.
From S2P Require Import VmState Vmalloc Zone ZoneScan Heap.

(** The size a request is rounded up to. *)
Definition round8 (size : Z) : Z := (size + 7) / 8 * 8.

Lemma round8_spec size :
  0 < size → 0 < round8 size ∧ round8 size mod 8 = 0 ∧ size ≤ round8 size < size + 8.
Proof. intros. unfold round8. split_and!; zdm. Qed.

(** A heap with its first zone at [b], as [Kalloc::new] makes it. *)
Definition heap_at (b : Z) : Kalloc := mkKalloc b (b + PAGE_SIZE).

Lemma zone_frame_page m0 m m' b nx cs :
  zone_rep m0 b nx cs → zone_frame b cs m m' → same_outside [b] m m'.
Proof.
  intros H Hf x Hx. destruct (zr_base _ _ _ _ H) as (Hal & _ & _).
  apply Hf.
  - intros ->. apply Hx. rewrite page_of_id by done. set_solver.
  - intros Hin. pose proof (in_free_bound _ _ _ _ _ (zr_chunks _ _ _ _ H) Hin) as Hb.
    apply Hx. rewrite (page_of_unique b); [set_solver | done | unfold ZONE_SIZE in *; lia].
Qed.

Lemma zone_live_8 m b nx cs : zone_rep m b nx cs → (b + ZONE_SIZE) mod 8 = 0.
Proof. intros H. destruct (zr_base _ _ _ _ H) as (?%page_aligned_8 & _). unfold ZONE_SIZE. zdm. Qed.

(** Rounding an address of a zone down gives the zone. *)
Lemma zone_of_ptr m b nx cs p :
  zone_rep m b nx cs → b ≤ p < b + PAGE_SIZE → Z.land p (unot (PAGE_SIZE - 1)) = b.
Proof.
  intros H Hp. destruct (zr_base _ _ _ _ H) as (Hal & Hb & Hu).
  change (PAGE_SIZE - 1) with (Z.ones 12). rewrite land_high by (unfold is_u64; lia).
  change (2 ^ 12) with PAGE_SIZE. by apply (page_of_unique b).
Qed.

(** The blocks of a zone keep their contents. *)
Definition blocks_kept (b : Z) (cs : list chunk) (m m' : mem) : Prop :=
  ∀ bl x, bl ∈ live (b + ZONE_SIZE) cs → in_block bl x → m' !! x = m !! x.

Lemma zone_frame_blocks m0 m m' b nx cs :
  zone_rep m0 b nx cs → zone_frame b cs m m' → blocks_kept b cs m m'.
Proof.
  intros H Hf [p n] x Hin Hx.
  pose proof (live_bounds _ _ _ _ _ (zr_chunks _ _ _ _ H) (zone_live_8 _ _ _ _ H) Hin) as Hb.
  apply Hf.
  - unfold in_block in Hx. simpl in Hx. unfold ZONE_SIZE, HEADER_SIZE in *. lia.
  - by eapply live_not_free; [apply H | eapply zone_live_8 | |].
Qed.

Section kalloc.
Context {cfg : Config}.

Lemma wp_round_size {S} size (s : S) (Q : Z → S → Prop) P :
  0 < size → size + 7 < u64_size → Q (round8 size) s → wp (round_size size) s Q P.
Proof.
  intros H0 Hu HQ. unfold round_size. destruct (Z.eqb_spec (size mod 8) 0) as [E|E]; cbn [negb].
  - apply wp_ret. replace size with (round8 size) at 1; [done|]. unfold round8. zdm.
  - wp_steps. change 7 with (Z.ones 3) at 2. rewrite land_high by (unfold is_u64; lia).
    change (2 ^ 3) with 8. replace (size + 7 - (size + 7) mod 8) with (round8 size); [done|].
    unfold round8. zdm.
Qed.

Lemma wp_Zone_from b w m (Q : Zone → mem → Prop) P :
  b mod 8 = 0 → m !! b = Some w → Q (mkZone b w) m → wp (Zone_from b) m Q P.
Proof. intros H8 Hm HQ. unfold Zone_from. eapply wp_bind, wp_read; [done | done |]. by apply wp_ret. Qed.

(** The head of [Kalloc::alloc]: the request is rounded, the first zone read. *)
Lemma wp_alloc_enter b size st nx cs (Q : _ → VmState → Prop) P :
  zone_rep (vm_mem st) b nx cs → 0 < size → size + 7 < u64_size →
  wp (loop fuel (alloc_turn (mkZone b (nx + nused cs)) (round8 size) b)
       (mkZone b (nx + nused cs))) st Q P →
  wp (Kalloc_alloc (heap_at b) size) st Q P.
Proof.
  intros H H0 Hu HQ. destruct (zr_base _ _ _ _ H) as (?%page_aligned_8 & ? & ?).
  unfold Kalloc_alloc, heap_at. rewrite (proj2 (Z.eqb_neq size 0)) by lia. cbn [k_head k_end].
  apply wp_bind, wp_round_size; [done | done |]. unfold PAGE_SIZE in *.
  apply wp_bind, wp_u_sub; [u64_range|]. apply wp_bind, wp_on_mem.
  eapply wp_Zone_from; [done | apply H |].
  replace (b + 4096 - 0x1000) with b by lia. by destruct st.
Qed.

(** The first zone is scanned. *)
Lemma wp_alloc_scan b size st nx c rest trail n (Q : _ → VmState → Prop) P :
  zone_rep (vm_mem st) b nx (c :: rest) → 0 < size →
  ((first_fit (round8 size) c rest).1 = None → end_guard (vm_mem st) b (c :: rest)) →
  (512 ≤ fuel)%nat →
  (∀ m' l, zone_rep m' b nx l → zone_frame b (c :: rest) (vm_mem st) m' → keeps (vm_mem st) m' →
    first_fit (round8 size) c rest = (None, l) →
    wp (n' ← on_mem (next_zone (mkZone b (nx + nused l)));
        match n' with
        | Some zone => mret (inl zone)
        | None =>
            g ← grow_pool trail;
            match g with
            | Ok (zone, head) =>
                head_ptr ← u_add (z_base zone) ZONE_SIZE;
                _ ← on_mem (alloc_chunk (round8 size) head_ptr zone head);
                p ← u_add head_ptr HEADER_SIZE;
                mret (inr (Ok p))
            | Err _ => mret (inr (Err OOM))
            end
        end) (set_mem m' st)
       (λ r s', match r with
          | inl x' => wp (loop n (alloc_turn trail (round8 size) b) x') s' Q P
          | inr y => Q y s' end) P) →
  (∀ m' o l, zone_rep m' b nx l → zone_frame b (c :: rest) (vm_mem st) m' → keeps (vm_mem st) m' →
    first_fit (round8 size) c rest = (Some o, l) →
    Q (Ok (b + ZONE_SIZE + o + HEADER_SIZE)) (set_mem m' st)) →
  wp (loop (S n) (alloc_turn trail (round8 size) b) (mkZone b (nx + nused (c :: rest)))) st Q P.
Proof.
  intros H H0 Hg Hf Hnone Hsome. destruct (round8_spec size H0) as (Hr & Hr8 & _).
  apply wp_loop_turn. unfold alloc_turn at 1. cbn [z_base]. rewrite Z.leb_refl.
  apply wp_bind, wp_on_mem. eapply wp_scan; [done | done | done | done | done |].
  intros m'. destruct (first_fit (round8 size) c rest) as [[o|] l]; intros Hz Hfr Hk; simpl.
  - apply wp_ret. by eapply Hsome.
  - by apply Hnone.
Qed.

(** A zone is never without chunks. *)
Lemma zone_cons m b nx cs : zone_rep m b nx cs → ∃ c rest, cs = c :: rest.
Proof. intros H. destruct cs as [|c rest]; [by pose proof (zone_span _ _ _ _ H) | by exists c, rest]. Qed.

Lemma zone_pos m b nx cs : zone_rep m b nx cs → Forall (λ d : chunk, 0 ≤ d.1) cs.
Proof.
  intros [_ _ _ H _]. generalize dependent (b + ZONE_SIZE). induction cs as [|[s u] cs IH]; [done|].
  intros a (_ & Hs & _ & _ & Hc). constructor; [done | by eapply IH].
Qed.

(** ** Served by the first zone *)

(** What first fit finds is what [alloc] answers. *)
Lemma wp_alloc_exact b size st nx c rest o l (Q : _ → VmState → Prop) P :
  zone_rep (vm_mem st) b nx (c :: rest) → 0 < size → size + 7 < u64_size →
  first_fit (round8 size) c rest = (Some o, l) → (512 ≤ fuel)%nat →
  (∀ m', zone_rep m' b nx l → zone_frame b (c :: rest) (vm_mem st) m' →
    Q (Ok (b + ZONE_SIZE + o + HEADER_SIZE)) (set_mem m' st)) →
  wp (Kalloc_alloc (heap_at b) size) st Q P.
Proof.
  intros H H0 Hu Ho Hf HQ. eapply wp_alloc_enter; [exact H | done | done |].
  destruct fuel as [|n] eqn:En; [lia|]. eapply wp_alloc_scan; [done | done | | lia | |].
  - by rewrite Ho.
  - intros m' l' _ _ _ E'. by rewrite E' in Ho.
  - intros m' o' l' Hz Hfr _ E'. rewrite E' in Ho. injection Ho as -> ->. by apply HQ.
Qed.

Lemma wp_alloc_fits b size st nx cs s (Q : _ → VmState → Prop) P :
  zone_rep (vm_mem st) b nx cs → 0 < size → (s, false) ∈ cs → round8 size ≤ s →
  (512 ≤ fuel)%nat →
  (∀ p m' cs', zone_rep m' b nx cs' → zone_frame b cs (vm_mem st) m' →
    live (b + ZONE_SIZE) cs' ≡ₚ (p, round8 size) :: live (b + ZONE_SIZE) cs →
    Q (Ok p) (set_mem m' st)) →
  wp (Kalloc_alloc (heap_at b) size) st Q P.
Proof.
  intros H H0 Hin Hs Hf HQ. destruct (zone_cons _ _ _ _ H) as (c & rest & ->).
  pose proof (first_fit_finds (round8 size) c rest s (zone_pos _ _ _ _ H) Hin Hs) as [o Ho].
  pose proof (first_fit_live (round8 size) (b + ZONE_SIZE) c rest) as Hl.
  apply list_elem_of_split in Hin as (c1 & c2 & E). pose proof H as H'. rewrite E in H'.
  destruct (zone_chunk _ _ _ _ _ _ _ H') as (_ & Hmax & _). destruct (round8_spec size H0).
  unfold MAX_CHUNK_SIZE in Hmax. destruct (first_fit (round8 size) c rest) as [r l] eqn:E'. simpl in Ho. subst r.
  eapply wp_alloc_exact; [exact H | done | rewrite u64_size_eq; lia | exact E' | done |].
  intros m' Hz Hfr. by eapply HQ.
Qed.

(** ** Not served by the first zone *)

Lemma wp_next_zone_none b r m (Q : option Zone → mem → Prop) P :
  0 ≤ r < 4096 → Q None m → wp (next_zone (mkZone b (0 + r))) m Q P.
Proof.
  intros Hr HQ. unfold next_zone. rewrite get_next_word; [|done | rewrite u64_size_eq; lia | done].
  by apply wp_ret.
Qed.

Lemma wp_next_zone_some b nx r w m (Q : option Zone → mem → Prop) P :
  page_aligned nx → 0 < nx < u64_size → 0 ≤ r < 4096 → m !! nx = Some w →
  Q (Some (mkZone nx w)) m → wp (next_zone (mkZone b (nx + r))) m Q P.
Proof.
  intros Hal Hu Hr Hw HQ. unfold next_zone. rewrite get_next_word by (done || lia).
  rewrite (proj2 (Z.eqb_neq nx 0)) by lia. apply wp_bind.
  eapply wp_Zone_from; [eauto with reedos | done | by apply wp_ret].
Qed.

Section full.
Context {b size nx : Z} {st : VmState} {c : chunk} {rest l : list chunk}.
Context (H : zone_rep (vm_mem st) b nx (c :: rest)) (H0 : 0 < size) (Hu : size + 7 < u64_size).
Context (Hnone : first_fit (round8 size) c rest = (None, l)).
Context (Hg : end_guard (vm_mem st) b (c :: rest)) (Hf : (512 ≤ fuel)%nat).

Lemma full_live : live (b + ZONE_SIZE) l = live (b + ZONE_SIZE) (c :: rest).
Proof. pose proof (first_fit_live (round8 size) (b + ZONE_SIZE) c rest) as Hl. by rewrite Hnone in Hl. Qed.

Lemma full_refs : nused l = nused (c :: rest).
Proof. by rewrite <- (live_length (b + ZONE_SIZE)), full_live, live_length. Qed.

(** The second zone is above the first: the loop ends. *)
Lemma wp_alloc_second w (Q : _ → VmState → Prop) P :
  b < nx → vm_mem st !! nx = Some w →
  (∀ m', zone_rep m' b nx l → zone_frame b (c :: rest) (vm_mem st) m' →
    Q (Err OOM) (set_mem m' st)) →
  wp (Kalloc_alloc (heap_at b) size) st Q P.
Proof.
  intros Hlt Hw HQ. destruct (zr_next _ _ _ _ H) as [Hnal Hnu], (zr_base _ _ _ _ H) as (Hal & Hb & _).
  eapply wp_alloc_enter; [exact H | done | done |]. destruct fuel as [|[|n]] eqn:En; [lia | lia |].
  eapply wp_alloc_scan; [done | done | done | lia | | by rewrite Hnone].
  intros m' l' Hz Hfr Hk E. assert (l' = l) as -> by congruence.
  pose proof (zone_refs_bound _ _ _ _ Hz).
  apply wp_bind, wp_on_mem. eapply wp_next_zone_some; [done | lia | lia | |].
  { simpl. rewrite (zone_frame_page _ _ _ _ _ _ H Hfr); [done|].
    rewrite page_of_id by done. set_solver by lia. }
  apply wp_ret. apply wp_loop_turn. unfold alloc_turn at 1. cbn [z_base].
  rewrite (proj2 (Z.leb_gt nx b)) by done. apply wp_ret. by apply HQ.
Qed.

End full.

(** ** Growing *)

Lemma wp_write_zone_header_pair p m (Q : unit → mem → Prop) P :
  page_aligned p → 0 < p → p + PAGE_SIZE < u64_size → page_mapped m p →
  Q () (<[p + ZONE_SIZE := MAX_CHUNK_SIZE]> (<[p := 0]> m)) →
  wp (write_zone_header_pair (Zone_new p) (mkHeader MAX_CHUNK_SIZE)) m Q P.
Proof.
  intros Hal H0 Hu Hm HQ. pose proof (page_aligned_8 _ Hal). unfold PAGE_SIZE in Hu.
  unfold write_zone_header_pair, Zone_new. cbn [z_base z_next fields].
  rewrite ptr_add_small by u64_range. apply wp_bind, wp_write; [done | |].
  - apply Hm; [unfold PAGE_SIZE; lia | done].
  - apply wp_write; [zdm | apply is_Some_insert, Hm; [unfold PAGE_SIZE; lia | zdm] | exact HQ].
Qed.

Lemma wp_zone_write_next b nx r p m (Q : unit → mem → Prop) P :
  page_aligned nx → 0 ≤ nx < u64_size → page_aligned b → 0 ≤ r < 4096 → page_aligned p →
  is_Some (m !! b) → Q () (<[b := p + r]> m) →
  wp (zone_write_next (mkZone b (nx + r)) p) m Q P.
Proof.
  intros Hnx Hu Hb Hr Hp Hm HQ. unfold zone_write_next. cbn [z_base].
  rewrite get_refs_word by done. rewrite lor_next by done.
  apply wp_write; [eauto with reedos | done | done].
Qed.

Section grow.
Context (rep : mem → PagePool → list Z → Prop) `{!PageAllocSpec rep}.

(** The pool is not disturbed by what happens in other pages. *)
Lemma rep_other m m' pp l ps :
  rep m pp l → same_outside ps m m' → (∀ q, q ∈ ps → q ∉ l) → keeps m m' → rep m' pp l.
Proof. intros H Hs Hd Hk. eapply pas_frame; [done | | done]. intros a Ha. apply Hs. set_solver. Qed.

Lemma wp_grow_pool b r m pp p fl (Q : _ → VmState → Prop) P :
  rep m pp (p :: fl) → (2 < fuel)%nat → page_aligned b → b ∉ p :: fl → 0 ≤ r < 4096 →
  is_Some (m !! b) →
  (∀ m1 pp1, rep m1 pp1 fl → same_bounds pp pp1 → same_outside (p :: fl) m m1 → keeps m m1 →
    page_mapped m1 p →
    Q (Ok (mkZone p 0, mkHeader MAX_CHUNK_SIZE))
      (mkVm (<[p + ZONE_SIZE := MAX_CHUNK_SIZE]> (<[p := 0]> (<[b := p + r]> m1))) (Some pp1))) →
  wp (grow_pool (mkZone b (0 + r))) (mkVm m (Some pp)) Q P.
Proof.
  intros Hrep Hf Hb Hbn Hr Hbs HQ. destruct (pas_page _ _ _ p Hrep) as ([Hal _] & H0 & Hu & Hm); [set_solver|].
  unfold grow_pool. apply wp_bind. unfold vm_palloc. apply wp_with_pool.
  eapply wp_mono; [eapply pas_palloc; [exact Hrep | done] | | done].
  intros [r1 pp1] m1 (Hr1 & Hrep1 & Hsb & Hz & Hs & Hk). simpl in Hr1. subst r1. cbn [fst snd].
  apply wp_bind, wp_on_mem, wp_zone_write_next; [done | by rewrite u64_size_eq | done | done | done | |].
  { apply Hk; [eauto with reedos | done]. }
  unfold Header_new. cbn [Z.leb MAX_CHUNK_SIZE Z.compare]. wp_steps.
  apply wp_on_mem, wp_write_zone_header_pair; [done | done | done | |].
  { intros x Hx H8. cbn. apply is_Some_insert. by rewrite (Hz x). }
  unfold set_mem. cbn [pg_addr vm_mem PAGEPOOL]. apply wp_ret. apply HQ; [done | done | done | done |].
  intros x Hx H8. by rewrite (Hz x).
Qed.

(** The first allocation of a new zone. *)
Lemma wp_first_chunk p sz m pp :
  page_aligned p → 0 < p → p + PAGE_SIZE < u64_size → page_mapped m p →
  0 < sz ≤ MAX_CHUNK_SIZE → sz mod 8 = 0 →
  wp (head_ptr ← u_add p ZONE_SIZE;
      _ ← on_mem (alloc_chunk sz head_ptr (mkZone p 0) (mkHeader MAX_CHUNK_SIZE));
      a ← u_add head_ptr HEADER_SIZE;
      mret (inr (Ok a) : Zone + result Z KallocError))
    (mkVm (<[p + ZONE_SIZE := MAX_CHUNK_SIZE]> (<[p := 0]> m)) pp)
    (λ r st, r = inr (Ok (p + ZONE_SIZE + HEADER_SIZE)) ∧ PAGEPOOL st = pp ∧
      zone_rep (vm_mem st) p 0 (take_chunk sz MAX_CHUNK_SIZE) ∧
      same_outside [p] m (vm_mem st) ∧ keeps m (vm_mem st)) False.
Proof.
  intros Hal H0 Hu Hm Hsz H8. pose proof (page_aligned_8 _ Hal).
  pose proof (zone_rep_fresh m p Hal H0 Hu Hm) as Hz. set (m1 := <[_ := _]> _) in *.
  destruct (zone_taken (c1 := []) sz MAX_CHUNK_SIZE [] Hz) as (Hz' & Hfr & Hk); [done | done |].
  simpl in Hz', Hfr, Hk. rewrite Z.add_0_r in Hz', Hfr, Hk.
  pose proof (zone_frame_page _ _ _ _ _ _ Hz Hfr) as Hs.
  apply wp_bind, wp_u_add; [unfold ZONE_SIZE, PAGE_SIZE in *; u64_range|].
  apply wp_bind, wp_on_mem. cbn [vm_mem]. change (mkZone p 0) with (mkZone p (0 + 0)).
  replace (mkHeader MAX_CHUNK_SIZE) with (mkHeader (hdr MAX_CHUNK_SIZE false)) by done.
  unfold PAGE_SIZE in Hu.
  apply wp_alloc_chunk; unfold MAX_CHUNK_SIZE, HEADER_SIZE, ZONE_SIZE in *;
    try (done || lia || by rewrite u64_size_eq).
  - by rewrite (zr_word _ _ _ _ Hz).
  - zdm.
  - destruct (zr_chunks _ _ _ _ Hz) as [E _]. unfold ZONE_SIZE in E. by rewrite E.
  - intros Hne. do 2 apply is_Some_insert. apply Hm; [unfold PAGE_SIZE; zdm | zdm].
  - intros h. apply wp_bind, wp_u_add; [u64_range|]. apply wp_ret. cbn [vm_mem PAGEPOOL set_mem].
    rewrite app_nil_r in Hz'.
    split_and!; [done | done | exact Hz' | |].
    + intros x Hx. rewrite Hs by done. assert (page_of x ≠ p) by set_solver.
      unfold m1. rewrite !lookup_insert_ne; [done | |]; intros <-; [by rewrite page_of_id in *|].
      by rewrite page_of_word in * by (done || unfold PAGE_SIZE; lia).
    + eapply keeps_trans; [|exact Hk]. eapply keeps_trans; apply keeps_insert.
Qed.

(** What growing leaves of the first zone. *)
Lemma grown_memory m m1 m2 m3 b p cs l fl :
  zone_rep m b 0 cs → zone_frame b cs m m1 → zone_rep m1 b 0 l →
  same_outside (p :: fl) m1 m2 → same_outside [p] (<[b := p + nused l]> m2) m3 →
  b ∉ p :: fl → page_aligned p → 0 ≤ p < u64_size →
  zone_rep m3 b p l ∧ same_outside (b :: p :: fl) m m3 ∧ blocks_kept b cs m m3 ∧
  same_outside [b; p] m2 m3.
Proof.
  intros H Hfr Hz1 Hs2 Hs3 Hb Hp Hu. destruct (zr_base _ _ _ _ H) as (Hal & _ & _).
  assert (same_outside [b; p] m2 m3) as Hs23.
  { intros x Hx. rewrite Hs3 by set_solver. apply lookup_insert_ne. intros <-.
    rewrite page_of_id in Hx by done. set_solver. }
  assert (∀ x, page_of x = b → x ≠ b → m3 !! x = m1 !! x) as Hin.
  { intros x <- Hx. rewrite Hs3 by set_solver. rewrite lookup_insert_ne by done.
    apply Hs2. done. }
  split_and!; [| | | done].
  - apply zone_rep_frame with (<[b := p + nused l]> m2); [intros x <-; apply Hs3; set_solver|].
    apply zone_rep_next with 0; [done | done |]. apply zone_rep_frame with m1; [|done].
    intros x <-. by apply Hs2.
  - intros x Hx. rewrite Hs23, Hs2 by set_solver.
    apply (zone_frame_page _ _ _ _ _ _ H Hfr). set_solver.
  - intros bl x Hbl Hx. rewrite <- (zone_frame_blocks _ _ _ _ _ _ H Hfr bl x Hbl Hx).
    destruct bl as [q k].
    pose proof (live_bounds _ _ _ _ _ (zr_chunks _ _ _ _ H) (zone_live_8 _ _ _ _ H) Hbl) as Hbd.
    unfold in_block, ZONE_SIZE, HEADER_SIZE in *. simpl in Hx.
    apply Hin; [apply page_of_unique; [done | lia] | lia].
Qed.

(** The first zone has no room and is the only one: the request is served by a
    new zone in the first free page. *)
Lemma wp_alloc_grows b size m pp c rest l p fl (Q : _ → VmState → Prop) P :
  zone_rep m b 0 (c :: rest) → 0 < size → round8 size ≤ MAX_CHUNK_SIZE →
  first_fit (round8 size) c rest = (None, l) → end_guard m b (c :: rest) →
  (512 ≤ fuel)%nat → rep m pp (p :: fl) → b ∉ p :: fl →
  (∀ m' pp', zone_rep m' b p l → zone_rep m' p 0 (take_chunk (round8 size) MAX_CHUNK_SIZE) →
    rep m' pp' fl → same_bounds pp pp' → blocks_kept b (c :: rest) m m' →
    same_outside (b :: p :: fl) m m' →
    Q (Ok (p + ZONE_SIZE + HEADER_SIZE)) (mkVm m' (Some pp'))) →
  wp (Kalloc_alloc (heap_at b) size) (mkVm m (Some pp)) Q P.
Proof.
  intros H H0 Hmax Hnone Hg Hf Hrep Hb HQ. destruct (round8_spec size H0) as (Hr0 & Hr8 & Hr).
  destruct (zr_base _ _ _ _ H) as (Hbal & Hb0 & Hbu).
  destruct (pas_page _ _ _ p Hrep) as ([Hal _] & Hp0 & Hpu & _); [set_solver|].
  pose proof (zone_refs_bound _ _ _ _ H) as Href. unfold MAX_CHUNK_SIZE in Hmax.
  eapply wp_alloc_enter; [exact H | done | rewrite u64_size_eq; lia |].
  destruct fuel as [|n] eqn:En; [lia|].
  eapply wp_alloc_scan; [exact H | done | done | lia | | by rewrite Hnone].
  intros m1 l' Hz1 Hfr1 Hk1 E. assert (l' = l) as -> by congruence. clear E.
  pose proof (zone_refs_bound _ _ _ _ Hz1). pose proof (zone_frame_page _ _ _ _ _ _ H Hfr1) as Hs1.
  apply wp_bind, wp_on_mem, wp_next_zone_none; [lia|].
  apply wp_bind. unfold set_mem. cbn [vm_mem PAGEPOOL].
  eapply wp_grow_pool; [eapply (rep_other _ _ _ _ [b]); [exact Hrep | done | set_solver | done]
    | lia | done | done | lia | by rewrite (zr_word _ _ _ _ Hz1) |].
  intros m2 pp1 Hrep2 Hsb Hs2 Hk2 Hpm. cbn beta iota. cbn [z_base].
  rewrite <- (full_refs (b := b) Hnone).
  eapply wp_mono; [apply wp_first_chunk; [done | done | done | | done | done] | | done].
  { intros x Hx H8. by apply is_Some_insert, Hpm. }
  intros [?|r] [m3 ppo]; cbn [vm_mem PAGEPOOL]; [by intros [? _]|].
  intros ([= ->] & -> & Hz3 & Hs3 & Hk3).
  destruct (grown_memory m m1 m2 m3 b p (c :: rest) l fl) as (Hzb & Hso & Hbk & Hs23);
    [done | done | done | done | done | done | done | unfold PAGE_SIZE in *; lia |].
  eapply HQ; [done | done | | done | done | done].
  eapply (rep_other _ _ _ _ [b; p]); [exact Hrep2 | done | |].
  - apply pas_nodup, NoDup_cons in Hrep as [? _]. set_solver.
  - eapply keeps_trans; [|exact Hk3]. apply keeps_insert.
Qed.

(** No free page is left. *)
Lemma wp_alloc_oom b size m pp c rest l (Q : _ → VmState → Prop) P :
  zone_rep m b 0 (c :: rest) → 0 < size → size + 7 < u64_size →
  first_fit (round8 size) c rest = (None, l) → end_guard m b (c :: rest) →
  (512 ≤ fuel)%nat → rep m pp [] →
  (∀ m', zone_rep m' b 0 l → zone_frame b (c :: rest) m m' → rep m' pp [] →
    Q (Err OOM) (mkVm m' (Some pp))) →
  wp (Kalloc_alloc (heap_at b) size) (mkVm m (Some pp)) Q P.
Proof.
  intros H H0 Hu Hnone Hg Hf Hrep HQ.
  eapply wp_alloc_enter; [exact H | done | done |]. destruct fuel as [|n] eqn:En; [lia|].
  eapply wp_alloc_scan; [exact H | done | done | lia | | by rewrite Hnone].
  intros m1 l' Hz1 Hfr1 Hk1 E. assert (l' = l) as -> by congruence.
  pose proof (zone_refs_bound _ _ _ _ Hz1). apply wp_bind, wp_on_mem, wp_next_zone_none; [lia|].
  assert (rep m1 pp []) as Hrep1.
  { eapply (rep_other _ _ _ _ [b]); [exact Hrep | exact (zone_frame_page _ _ _ _ _ _ H Hfr1) | set_solver | done]. }
  unfold grow_pool, set_mem. cbn [vm_mem PAGEPOOL]. apply wp_bind, wp_bind, wp_with_pool.
  eapply wp_mono; [by apply wp_exact, pas_palloc_empty; [exact Hrep1 | lia] | | done].
  intros [r pp1] m2 [[= -> ->] ->]. apply wp_ret, wp_ret. by apply HQ.
Qed.

End grow.

End kalloc.
