(* ===== verification/ZoneEscape.v ===== *)
(** * When the scan leaves its zone

    [Zone::scan] of src/vm/vmalloc.rs reads the word behind the last chunk before it
    compares the address with the end of the zone, and merges a free last chunk with
    whatever looks like a free header there. This is what happens where [end_guard] of
    ZoneScan.v does not hold. *)

From S2P Require Import Prelude Machine Param Mutex Palloc FreeList PallocTheorems.
From S2P Require Import VmState Vmalloc Zone ZoneScan Heap KallocProofs.



Section escape.
Context {cfg : Config} (b nx r a size : Z).
Context (Hnx : page_aligned nx ∧ 0 ≤ nx < u64_size) (Hr : 0 ≤ r < 510).
Context (Hb : b mod 8 = 0 ∧ 0 < b < a) (Ha : a mod 8 = 0 ∧ a < b + PAGE_SIZE).
Context (Hsize : 0 < size ≤ MAX_CHUNK_SIZE ∧ size mod 8 = 0) (Hu : a + HEADER_SIZE + size < u64_size).


End escape.


Section theorem.
Context {cfg : Config}.


End theorem.
