(* ===== verification/KallocFree.v ===== *)
(** * Kalloc: giving blocks back

    The runs of [Kalloc::free] of src/vm/vmalloc.rs: a zone that keeps other
    blocks, the first zone losing its last one, and a further zone losing its
    last one, whose page goes back to the page pool. *)

From S2P Require Import Prelude Machine Param Mutex Palloc FreeList PallocTheorems.
From S2P Require Import VmState Vmalloc Zone ZoneScan Heap KallocProofs.

Section free.
Context {cfg : Config}.

Lemma as_isize_small x : 0 ≤ x < 2 ^ 63 → as_isize x = x.
Proof. intros H. unfold as_isize. by rewrite (proj2 (Z.ltb_lt _ _)) by lia. Qed.

Lemma wp_decrement_refs b nx r m (Q : _ → mem → Prop) P :
  page_aligned nx → 0 ≤ nx < u64_size → 1 ≤ r < 4096 → b mod 8 = 0 → is_Some (m !! b) →
  Q (Ok (r - 1), mkZone b (nx + (r - 1))) (<[b := nx + (r - 1)]> m) →
  wp (decrement_refs (mkZone b (nx + r))) m Q P.
Proof.
  intros Hnx Hu Hr H8 Hb HQ. unfold decrement_refs. rewrite get_refs_word by (done || lia).
  apply wp_bind, wp_u_sub; [u64_range|]. rewrite as_isize_small by lia.
  rewrite (proj2 (Z.ltb_ge (r - 1) 0)) by lia. unfold write_refs. cbn [z_base z_next].
  rewrite get_next_or by (done || lia). rewrite lor_next by (done || lia).
  apply wp_bind, wp_bind, wp_write; [done | done |]. by wp_steps.
Qed.

(** A chunk in use at [a] of the zone at [b]. *)
Section chunk.
Context {b nx s : Z} {c1 c2 : list chunk} {st : VmState}.
Context (H : zone_rep (vm_mem st) b nx (c1 ++ (s, true) :: c2)).
Let a : Z := b + ZONE_SIZE + span c1.
Let r : Z := nused (c1 ++ (s, true) :: c2).

Lemma used_refs : r = nused c1 + 1 + nused c2 ∧ 1 ≤ r ≤ 255.
Proof.
  unfold r. pose proof (zone_refs_bound _ _ _ _ H). rewrite nused_app in *. simpl in *.
  pose proof (nused_nonneg c1). pose proof (nused_nonneg c2). lia.
Qed.

(** [Kalloc::free] up to the reference count of the zone. *)
Lemma wp_free_enter (self : Kalloc) (Q : _ → VmState → Prop) P :
  let zone := mkZone b (nx + (r - 1)) in
  wp (chunk_merge_flag ←
        (if r - 1 =? 0 then shrink_pool self zone ;; mret false else mret true);
      head ←
        (if chunk_merge_flag : bool then
           next_ptr ← u_add (a + HEADER_SIZE) s;
           next ← on_mem (Header_from next_ptr);
           if is_free next then
             lim ← u_add b 0x1000;
             if next_ptr <? lim then on_mem (merge (mkHeader (hdr s false)) next next_ptr)
             else mret (mkHeader (hdr s false))
           else mret (mkHeader (hdr s false))
         else mret (mkHeader (hdr s false)));
      on_mem (write_to head a)) (set_mem (<[b := nx + (r - 1)]> (vm_mem st)) st) Q P →
  wp (Kalloc_free self (a + HEADER_SIZE)) st Q P.
Proof.
  intros zone HQ.
  destruct (zone_chunk _ _ _ _ _ _ _ H) as (Hh & Hs & Hs8 & Hpos & Ha8 & Ha & Hend & H1 & H2).
  destruct (zr_base _ _ _ _ H) as (Hal & Hb0 & Hbu), (zr_next _ _ _ _ H) as [Hnal Hnu].
  pose proof (page_aligned_8 _ Hal). destruct used_refs as [_ Hr]. specialize (Hpos eq_refl).
  fold a in Hh, Ha8, Ha, Hend. unfold MAX_CHUNK_SIZE, ZONE_SIZE, HEADER_SIZE, PAGE_SIZE in *.
  unfold Kalloc_free. apply wp_bind, wp_on_mem.
  rewrite (zone_of_ptr _ _ _ _ _ H) by (unfold PAGE_SIZE; lia).
  eapply wp_Zone_from; [done | apply H |]. fold r. unfold HEADER_SIZE.
  apply wp_bind, wp_u_sub; [u64_range|]. replace (a + 8 - 8) with a by lia.
  apply wp_bind, wp_on_mem. eapply wp_Header_from; [done | exact Hh |].
  rewrite is_free_hdr by lia. cbn [negb]. wp_steps. rewrite set_unused_hdr by lia.
  apply wp_on_mem, wp_decrement_refs; [done | done | lia | done | |].
  { cbn. by rewrite (zr_word _ _ _ _ H). }
  cbn beta iota. rewrite chunk_size_hdr by lia. cbn [z_base].
  unfold set_mem in *. cbn [vm_mem PAGEPOOL] in *. destruct (r - 1 =? 0); exact HQ.
Qed.

(** The chunk marked unused. *)
Lemma zone_unuse :
  zone_rep (<[a := hdr s false]> (<[b := nx + (r - 1)]> (vm_mem st))) b nx (c1 ++ (s, false) :: c2).
Proof.
  destruct (zone_chunk _ _ _ _ _ _ _ H) as (Hh & Hs & Hs8 & Hpos & Ha8 & Ha & Hend & H1 & H2).
  fold a in Hh, Ha8, Ha, Hend. destruct used_refs as [Er _].
  change (c1 ++ (s, false) :: c2) with (c1 ++ [(s, false)] ++ c2).
  apply (zone_rep_replace (vm_mem st) _ b nx c1 [(s, true)] [(s, false)] c2 H); simpl;
    unfold HEADER_SIZE, ZONE_SIZE in *; fold a.
  - intros x Hb Hx. rewrite !lookup_insert_ne; [done | done | lia].
  - rewrite lookup_insert_ne, lookup_insert_eq by lia. do 2 f_equal. rewrite !nused_app. simpl. lia.
  - rewrite lookup_insert_eq. split_and!; (done || lia).
  - eapply keeps_trans; apply keeps_insert.
Qed.

Lemma unuse_frame m' :
  (∀ x, x ≠ b → x ≠ a → ¬ in_free (a + HEADER_SIZE + s) c2 x → m' !! x = vm_mem st !! x) →
  zone_frame b (c1 ++ (s, false) :: c2) (vm_mem st) m'.
Proof.
  intros Hm x Hb Hx. destruct (zone_chunk _ _ _ _ _ _ _ H) as (_ & Hs & _).
  rewrite in_free_app in Hx. simpl in Hx. fold a in Hx. apply Hm; [done | |].
  - intros ->. apply Hx. right. left. unfold HEADER_SIZE. lia.
  - intros Hin. apply Hx. by do 2 right.
Qed.

(** Other blocks remain: the chunk is merged with a free one behind it. *)
Lemma wp_free_shared (self : Kalloc) (Q : _ → VmState → Prop) P :
  2 ≤ r → (c2 = [] → is_Some (vm_mem st !! (b + PAGE_SIZE))) →
  (∀ m', zone_rep m' b nx (c1 ++ free_chunk s c2) →
    zone_frame b (c1 ++ (s, false) :: c2) (vm_mem st) m' → Q () (set_mem m' st)) →
  wp (Kalloc_free self (a + HEADER_SIZE)) st Q P.
Proof.
  intros Hr Hend' HQ. apply wp_free_enter. rewrite (proj2 (Z.eqb_neq (r - 1) 0)) by lia.
  destruct (zone_chunk _ _ _ _ _ _ _ H) as (Hh & Hs & Hs8 & Hpos & Ha8 & Ha & Hend & H1 & H2).
  destruct (zr_base _ _ _ _ H) as (Hal & Hb0 & Hbu). fold a in Hh, Ha8, Ha, Hend.
  pose proof zone_unuse as Hz. unfold MAX_CHUNK_SIZE, ZONE_SIZE, HEADER_SIZE, PAGE_SIZE in *.
  wp_steps. apply wp_on_mem. cbn [set_mem vm_mem].
  assert (free_chunk s c2 = (s, false) :: c2 →
    wp (mret (mkHeader (hdr s false))) (set_mem (<[b := nx + (r - 1)]> (vm_mem st)) st)
      (λ h s', wp (on_mem (write_to h a)) s' Q P) P) as Hplain.
  { intros E. apply wp_ret, wp_on_mem, wp_write; [done | cbn; apply is_Some_insert; by rewrite Hh |].
    unfold set_mem in *. cbn [vm_mem PAGEPOOL fields]. apply HQ; [by rewrite E|]. apply unuse_frame. intros x ?? _. by rewrite !lookup_insert_ne. }
  assert (b < a ∧ b mod 8 = 0 ∧ b + 4096 < u64_size) as (Hba & Hb8 & _)
    by (split_and!; [lia | eauto with reedos | done]).
  pose proof unuse_frame as Hframe. destruct (list_cases c2) as [E|([s2 u2] & c2' & E)].
  - rewrite E in Hend, Hplain. simpl in Hend.
    destruct (Hend' E) as [w Hw]. replace (a + 8 + s) with (b + 4096) by lia.
    eapply wp_Header_from; [zdm | rewrite lookup_insert_ne by lia; exact Hw |].
    specialize (Hplain eq_refl).
    destruct (is_free _); [|exact Hplain]. wp_steps. rewrite Z.ltb_irrefl. exact Hplain.
  - rewrite E in Hz, Hend, Hplain, Hframe, HQ. simpl in Hend.
    pose proof Hz as Hz'. rewrite cons_middle, app_assoc in Hz'.
    destruct (zone_chunk _ _ _ _ _ _ _ Hz') as (Hh2 & Hs2 & Hs28 & _ & Ha28 & _ & Hend2 & _ & H22).
    rewrite span_app in Hh2, Ha28, Hend2. simpl in Hh2, Ha28, Hend2.
    unfold ZONE_SIZE, HEADER_SIZE, MAX_CHUNK_SIZE in *.
    replace (b + 8 + (span c1 + (8 + s + 0))) with (a + 8 + s) in * by (unfold a; lia).
    rewrite lookup_insert_ne in Hh2 by lia.
    eapply wp_Header_from; [done | exact Hh2 |]. rewrite is_free_hdr by lia.
    destruct u2; [by apply Hplain|]. cbn [negb]. wp_steps.
    rewrite (proj2 (Z.ltb_lt (a + 8 + s) (b + 0x1000))) by lia.
    apply wp_on_mem, wp_merge; unfold HEADER_SIZE; try (done || lia).
    apply wp_on_mem, wp_write; [done | cbn; do 2 apply is_Some_insert; by rewrite Hh |].
    cbn [set_mem vm_mem PAGEPOOL fields]. apply HQ.
    + destruct (zone_merge _ _ _ Hz) as (Hm & _ & _). eapply zone_rep_frame; [|exact Hm].
      intros x _. unfold ZONE_SIZE, HEADER_SIZE. fold a.
      destruct (decide (x = a)) as [->|]; [by rewrite !lookup_insert_eq|].
      rewrite !(lookup_insert_ne _ a) by done.
      destruct (decide (x = a + 8 + s)) as [->|]; [by rewrite !lookup_insert_eq|].
      by rewrite !(lookup_insert_ne _ (a + 8 + s)), !(lookup_insert_ne _ a) by done.
    + apply Hframe. intros x Hxb Hxa Hx. simpl in Hx. rewrite !lookup_insert_ne; try done.
      intros <-. apply Hx. left. unfold HEADER_SIZE. lia.
Qed.

(** The last block of the first zone: the zone stays, nothing is merged. *)
Lemma wp_free_last_head (self : Kalloc) (Q : _ → VmState → Prop) P :
  r = 1 → k_head self = b →
  (∀ m', zone_rep m' b nx (c1 ++ (s, false) :: c2) →
    zone_frame b (c1 ++ (s, false) :: c2) (vm_mem st) m' → Q () (set_mem m' st)) →
  wp (Kalloc_free self (a + HEADER_SIZE)) st Q P.
Proof.
  intros Hr Hhead HQ. apply wp_free_enter. pose proof zone_unuse as Hz.
  destruct (zone_chunk _ _ _ _ _ _ _ H) as (Hh & _ & _ & _ & Ha8 & _). fold a in Hh, Ha8.
  rewrite Hr in *. change (1 - 1 =? 0) with true. cbn iota. unfold shrink_pool. cbn [z_base].
  rewrite Hhead, (Z.eqb_refl b). cbn [negb]. wp_steps.
  apply wp_on_mem, wp_write; [done | cbn; apply is_Some_insert; by rewrite Hh |].
  unfold set_mem in *. cbn [vm_mem PAGEPOOL fields]. apply HQ; [exact Hz|].
  apply unuse_frame. intros x ?? _. by rewrite !lookup_insert_ne.
Qed.

End chunk.

(** [Zone::free_self] of an empty zone behind the zone at [h]. *)
Lemma wp_free_self rep `{!PageAllocSpec rep} b nx h r m pp fl (Q : _ → VmState → Prop) P :
  rep m pp fl → in_pool pp b → b ∉ fl → h ∉ fl → h ≠ b → (length fl + 1 < fuel)%nat →
  page_aligned nx → 0 ≤ nx < u64_size → (nx ≠ 0 → is_Some (m !! nx)) →
  page_aligned h → 0 ≤ r < 4096 → is_Some (m !! h) →
  (∀ m1 pp1 fl1, rep m1 pp1 fl1 → fl1 ≡ₚ b :: fl → same_bounds pp pp1 →
    same_outside (b :: fl) (<[h := nx + r]> m) m1 → Q () (mkVm m1 (Some pp1))) →
  wp (free_self (mkZone b (nx + 0)) (mkZone h (b + r))) (mkVm m (Some pp)) Q P.
Proof.
  intros Hrep Hin Hb Hh Hne Hf Hnx Hnu Hnm Hhal Hr Hhm HQ. pose proof Hin as [Hbal _].
  unfold free_self. rewrite get_refs_word by (done || lia). wp_steps.
  assert (∀ n, match n with Some next_zone => z_base next_zone | None => null end = nx →
    wp (on_mem (zone_write_next (mkZone h (b + r))
          (match n with Some next_zone => z_base next_zone | None => null end)) ;;
        _ ← vm_pfree (mkPage b); mret ()) (mkVm m (Some pp)) Q P) as Hrest.
  { intros n ->. apply wp_bind, wp_on_mem, wp_zone_write_next; try done.
    { destruct (pas_bounds _ _ _ Hrep) as [? ?]. destruct Hin as (_ & ? & ?). lia. }
    unfold set_mem. cbn [vm_mem PAGEPOOL]. apply wp_bind. unfold vm_pfree. apply wp_with_pool.
    assert (rep (<[h := nx + r]> m) pp fl) as Hrep'.
    { eapply (rep_other _ _ _ _ _ [h]); [exact Hrep | | set_solver | apply keeps_insert].
      apply same_outside_insert. rewrite page_of_id by done. set_solver. }
    eapply wp_mono; [eapply pas_pfree; [exact Hrep' | done | done | done] | | done].
    intros [r1 pp1] m1 (_ & Hsb & (fl1 & Hp & Hrep1) & Hs). apply wp_ret. by eapply HQ. }
  apply wp_on_mem. cbn [vm_mem]. destruct (decide (nx = 0)) as [->|Hnz].
  - apply wp_next_zone_none; [lia|]. by apply (Hrest None).
  - destruct (Hnm Hnz) as [w Hw].
    eapply wp_next_zone_some; [done | lia | lia | exact Hw | by apply (Hrest (Some (mkZone nx w)))].
Qed.

(** The last block of the second zone: the zone leaves the heap and its page goes
    back to the pool, and then the header of the chunk is written into that page. *)
Lemma wp_free_last_second rep `{!PageAllocSpec rep} h b nx s c1 c2 ch m pp fl e
    (Q : _ → VmState → Prop) P :
  let a := b + ZONE_SIZE + span c1 in
  zone_rep m b nx (c1 ++ (s, true) :: c2) → nused (c1 ++ (s, true) :: c2) = 1 →
  zone_rep m h b ch → h ≠ b → rep m pp fl → in_pool pp b → b ∉ fl → h ∉ fl →
  (nx ≠ 0 → is_Some (m !! nx)) → (length fl + 1 < fuel)%nat →
  (∀ m1 pp1 fl1, rep m1 pp1 fl1 → fl1 ≡ₚ b :: fl → same_bounds pp pp1 → zone_rep m1 h nx ch →
    is_Some (m1 !! a) → Q () (mkVm (<[a := s]> m1) (Some pp1))) →
  wp (Kalloc_free (mkKalloc h e) (a + HEADER_SIZE)) (mkVm m (Some pp)) Q P.
Proof.
  intros a H Hr Hzh Hne Hrep Hin Hb Hhn Hnx Hf HQ.
  apply (wp_free_enter (st := mkVm m (Some pp)) H). rewrite Hr. change (1 - 1 =? 0) with true.
  cbn iota. unfold set_mem. cbn [vm_mem PAGEPOOL]. change (1 - 1) with 0.
  destruct (zr_base _ _ _ _ Hzh) as (Hhal & Hh0 & Hhu), (zr_next _ _ _ _ H) as [Hnal Hnu].
  destruct (zr_next _ _ _ _ Hzh) as [Hbal Hbu], (zr_base _ _ _ _ H) as (_ & Hb0 & _).
  pose proof (zone_refs_bound _ _ _ _ Hzh).
  destruct (zone_chunk _ _ _ _ _ _ _ H) as (Hh & Hs & _ & _ & Ha8 & Ha & Hend & _ & ?).
  fold a in Hh, Ha8, Ha, Hend.
  apply wp_bind, wp_bind. unfold shrink_pool. cbn [z_base k_head].
  rewrite (proj2 (Z.eqb_neq b h)) by done. cbn [negb]. apply wp_bind.
  destruct fuel as [|n] eqn:En; [lia|]. apply wp_loop_turn. apply wp_bind, wp_on_mem. cbn [vm_mem].
  eapply wp_Zone_from; [eauto with reedos | rewrite lookup_insert_ne by done; apply Hzh |].
  apply wp_bind, wp_on_mem. cbn [vm_mem set_mem].
  eapply wp_next_zone_some; [done | lia | lia | apply lookup_insert_eq |]. cbn beta iota. cbn [z_base].
  rewrite (Z.eqb_refl b). apply wp_bind. unfold set_mem. cbn [vm_mem PAGEPOOL].
  assert (same_outside [b] m (<[b := nx + 0]> m)) as Hsb.
  { apply same_outside_insert. rewrite page_of_id by done. set_solver. }
  eapply (wp_free_self rep); [eapply (rep_other _ _ _ _ _ [b]); [exact Hrep | done | set_solver | apply keeps_insert]
    | done | done | done | done | lia | done | done | | done | lia | |].
  { intros ?. by apply is_Some_insert, Hnx. }
  { apply is_Some_insert. by rewrite (zr_word _ _ _ _ Hzh). }
  intros m1 pp1 fl1 Hrep1 Hp Hsb1 Hs1. do 3 apply wp_ret. apply wp_bind, wp_ret.
  assert (is_Some (m1 !! a)) as Hm1a.
  { destruct (pas_page _ _ _ b Hrep1) as (_ & _ & _ & Hm); [rewrite Hp; set_solver|].
    apply Hm; [unfold HEADER_SIZE, ZONE_SIZE in *; lia | done]. }
  apply wp_on_mem, wp_write; [done | done |]. unfold set_mem. cbn [vm_mem PAGEPOOL fields].
  unfold hdr. rewrite Z.add_0_r. eapply HQ; [exact Hrep1 | done | done | | done].
  apply zone_rep_frame with (<[h := nx + nused ch]> (<[b := nx + 0]> m));
    [|apply zone_rep_next with b; [done | done |]].
  - intros x Hx. apply Hs1. rewrite Hx. set_solver.
  - eapply zone_rep_frame; [|exact Hzh]. intros x Hx. apply Hsb. rewrite Hx. set_solver.
Qed.

End free.
