(* ===== verification/KallocTheorems.v ===== *)
(** * The kernel heap: what its operations promise

    [Kalloc] of src/vm/vmalloc.rs as its clients see it: [alloc] adds a block that
    is disjoint from the live ones and keeps their contents, [free] removes one;
    and where the code falls short of that. The pool of pages is used through
    [PageAllocSpec]. *)

From S2P Require Import Prelude Machine Param Mutex Palloc FreeList PallocAlloc PallocFree.
From S2P Require Import PallocTheorems VmState Vmalloc Zone ZoneScan Heap KallocProofs KallocFree.

(** The blocks of the zone at [b]. *)
Definition blocks (b : Z) (cs : list chunk) : list (Z * Z) := live (b + ZONE_SIZE) cs.

(** A pairwise property that is symmetric does not depend on the order. *)
Lemma pairwise_perm {A} (R : A → A → Prop) `{!Symmetric R} l l' :
  l ≡ₚ l' → StronglySorted R l → StronglySorted R l'.
Proof.
  induction 1 as [|x l l' Hp IH|x y l|l l' l'' _ IH1 _ IH2]; intros H; [done | | | by auto].
  - apply StronglySorted_inv in H as [H1 H2]. constructor; [by apply IH|]. by rewrite <- Hp.
  - apply StronglySorted_inv in H as [H1 H2]. apply StronglySorted_inv in H1 as [H1 H3].
    apply Forall_cons in H2 as [Hxy H2]. constructor; [by constructor|]. by constructor.
Qed.

#[export] Instance disjoint_blocks_sym : Symmetric disjoint_blocks.
Proof. intros x y. unfold disjoint_blocks. tauto. Qed.

(** Blocks that appear together in a zone do not overlap. *)
Lemma blocks_disjoint m b nx cs bl l :
  zone_rep m b nx cs → blocks b cs ≡ₚ bl :: l → Forall (disjoint_blocks bl) l.
Proof.
  intros H Hp.
  pose proof (live_disjoint _ _ _ (zr_chunks _ _ _ _ H) (zone_live_8 _ _ _ _ H)) as Hs.
  fold (blocks b cs) in Hs. assert (StronglySorted disjoint_blocks (blocks b cs)) as Hd.
  { clear Hp. induction Hs as [|x k Hk IH Hx]; [constructor|]. constructor; [done|].
    eapply Forall_impl; [exact Hx|]. intros y Hy. by left. }
  by apply (pairwise_perm _ _ _ Hp) in Hd as [_ ?]%StronglySorted_inv.
Qed.

Lemma blocks_bounds m b nx cs p n :
  zone_rep m b nx cs → (p, n) ∈ blocks b cs →
  b + 16 ≤ p ∧ p + n ≤ b + PAGE_SIZE ∧ 0 < n ∧ p mod 8 = 0.
Proof.
  intros H Hin.
  destruct (live_bounds _ _ _ _ _ (zr_chunks _ _ _ _ H) (zone_live_8 _ _ _ _ H) Hin) as (? & ? & ? & ? & _).
  unfold ZONE_SIZE, HEADER_SIZE in *. split_and!; (done || lia).
Qed.

(** A live block is the data of a chunk in use. *)
Lemma blocks_chunk b cs p n :
  (p, n) ∈ blocks b cs →
  ∃ c1 c2, cs = c1 ++ (n, true) :: c2 ∧ p = b + ZONE_SIZE + span c1 + HEADER_SIZE.
Proof.
  unfold blocks. generalize (b + ZONE_SIZE). induction cs as [|[s u] cs IH]; intros a; simpl.
  { by intros ?%not_elem_of_nil. }
  intros [Hin|Hin]%elem_of_app.
  - destruct u; [|by apply not_elem_of_nil in Hin]. apply list_elem_of_singleton in Hin as [= -> ->].
    exists [], cs. split; [done|]. simpl. lia.
  - destruct (IH _ Hin) as (c1 & c2 & -> & ->). exists ((s, u) :: c1), c2. split; [done|]. simpl. lia.
Qed.

Lemma blocks_middle b c1 s u c2 :
  blocks b (c1 ++ (s, u) :: c2) ≡ₚ
  (if u then [(b + ZONE_SIZE + span c1 + HEADER_SIZE, s)] else []) ++ blocks b (c1 ++ (s, false) :: c2).
Proof.
  unfold blocks. rewrite !live_app. simpl. destruct u; simpl; [|done].
  symmetry. apply Permutation_middle.
Qed.

Lemma blocks_free_chunk b c1 s c2 :
  blocks b (c1 ++ free_chunk s c2) = blocks b (c1 ++ (s, false) :: c2).
Proof. unfold blocks. rewrite !live_app, free_chunk_live. done. Qed.

(** A free list whose page [b] links to an address that is no page is broken. *)
Lemma dlseg_reaches m m' pv pv' l1 b l2 l nx :
  dlseg m pv (l1 ++ b :: l2) nx → (∀ q, q ∈ l1 → m' !! (q + 8) = m !! (q + 8)) →
  (∀ q, q ∈ l1 ++ [b] → q ≠ null) →
  hd_or null l = hd_or nx (l1 ++ b :: l2) → dlseg m' pv' l null → b ∈ l.
Proof.
  revert pv pv' l. induction l1 as [|q l1 IH]; intros pv pv' l H Hm Hnz Hhd Hl.
  - destruct l as [|x l]; [|cbn in Hhd; subst; left]. cbn in Hhd. by destruct (Hnz b); [set_solver|].
  - destruct l as [|x l]; cbn in Hhd; [by destruct (Hnz q); [set_solver|]|]. subst x.
    right. destruct H as (_ & H2 & H3), Hl as (_ & Hl2 & Hl3).
    rewrite Hm, H2 in Hl2 by set_solver. injection Hl2 as Hl2.
    apply (IH q q); [done | set_solver | set_solver | done | done].
Qed.

Lemma pool_link_broken m m' pp l b s l' :
  pagepool_rep m pp l → b ∈ l → 0 < s < PAGE_SIZE →
  (∀ x, x ≠ b + 8 → m' !! x = m !! x) → m' !! (b + 8) = Some s →
  ¬ pagepool_rep m' pp l'.
Proof.
  intros [_ HP] Hb Hs Hm Hbs [_ HP']. apply list_elem_of_split in Hb as (l1 & l2 & ->).
  assert (b ∈ l') as Hin.
  { eapply (dlseg_reaches m m' null null l1 b l2); [apply HP | | | | apply HP'].
    - intros q Hq. apply Hm. intros E. assert (q = b) as -> by lia.
      pose proof (sorted_NoDup _ (pr_sorted _ _ _ HP)) as Hnd.
      apply NoDup_app in Hnd as (_ & Hnd & _). apply (Hnd b Hq). set_solver.
    - intros q Hq. assert (q ∈ l1 ++ b :: l2) as Hq' by set_solver.
      pose proof (pr_pos HP q Hq'). unfold null. lia.
    - pose proof (pr_free _ _ _ HP) as E1. pose proof (pr_free _ _ _ HP') as E2. rewrite E1 in E2.
      unfold hd_or. destruct (head l'), (head (l1 ++ b :: l2)); naive_solver. }
  apply list_elem_of_split in Hin as (k1 & k2 & ->).
  pose proof (pr_links _ _ _ HP') as [_ H2]%dlseg_lookup. rewrite Hbs in H2. injection H2 as H2.
  destruct k2 as [|q k2]; cbn in H2; [unfold null in *; lia|]. subst q.
  destruct (pr_pages _ _ _ HP' s) as [Hal _]; [set_solver|]. unfold page_aligned, PAGE_SIZE in *. zdm.
Qed.

(** ** Header words bit by bit *)

Lemma is_free_testbit h : is_free h = negb (Z.testbit (fields h) 12).
Proof. unfold is_free. change HEADER_USED with (2 ^ 12). by apply land_bit. Qed.

Lemma unot_testbit x i : 0 ≤ i < 64 → Z.testbit (unot x) i = negb (Z.testbit x i).
Proof.
  intros Hi. unfold unot. rewrite Z.lxor_spec, Z.testbit_ones_nonneg by lia.
  rewrite (proj2 (Z.ltb_lt i 64)) by lia. apply xorb_true_r.
Qed.

(** Two headers with the same low bits have the same size. *)
Lemma chunk_size_bits w v :
  (∀ i, 0 ≤ i < 12 → Z.testbit w i = Z.testbit v i) →
  chunk_size (mkHeader w) = chunk_size (mkHeader v).
Proof.
  intros H. unfold chunk_size. cbn [fields]. apply Z.bits_inj'. intros i Hi. rewrite !Z.land_spec.
  change 0xFFF with (Z.ones 12). rewrite Z.testbit_ones_nonneg by lia.
  destruct (Z.ltb_spec i 12); [by rewrite H | by rewrite !andb_false_r].
Qed.

Section theorems.
Context {cfg : Config}.

(** In any 64-bit header word the size (bits 0 to 11) and the use flag (bit 12)
    are independent: setting one reads back as set and leaves the other. *)
Theorem header_fields_independent w s :
  is_u64 w → 0 ≤ s < 4096 →
  chunk_size (set_size (mkHeader w) s) = s ∧
  is_free (set_size (mkHeader w) s) = is_free (mkHeader w) ∧
  chunk_size (set_used (mkHeader w)) = chunk_size (mkHeader w) ∧
  is_free (set_used (mkHeader w)) = false ∧
  chunk_size (set_unused (mkHeader w)) = chunk_size (mkHeader w) ∧
  is_free (set_unused (mkHeader w)) = true.
Proof.
  intros Hw Hs.
  assert (∀ i, 0 ≤ i < 64 → Z.testbit HEADER_USED i = (i =? 12)) as Hu.
  { intros i Hi. change HEADER_USED with (2 ^ 12). rewrite Z.pow2_bits_eqb by lia. apply Z.eqb_sym. }
  assert (∀ i, 0 ≤ i < 64 → Z.testbit (Z.lor (Z.land w (unot (0x1000 - 1))) s) i =
    if i <? 12 then Z.testbit s i else Z.testbit w i || Z.testbit s i) as Hsz.
  { intros i Hi. rewrite Z.lor_spec, Z.land_spec, unot_testbit by done.
    change (0x1000 - 1) with (Z.ones 12). rewrite Z.testbit_ones_nonneg by lia.
    destruct (i <? 12); simpl; by rewrite ?andb_false_r, ?andb_true_r. }
  split_and!.
  - transitivity (chunk_size (mkHeader (hdr s false))); [|by apply chunk_size_hdr].
    apply chunk_size_bits. intros i Hi. rewrite Hsz by lia. unfold hdr. rewrite Z.add_0_r.
    by rewrite (proj2 (Z.ltb_lt i 12)) by lia.
  - rewrite !is_free_testbit. unfold set_size. cbn [fields]. rewrite Hsz by lia. f_equal.
    rewrite (testbit_high s 12) by (lia || done). apply orb_false_r.
  - apply chunk_size_bits. intros i Hi. rewrite Z.lor_spec, Hu by lia.
    rewrite (proj2 (Z.eqb_neq i 12)) by lia. apply orb_false_r.
  - rewrite is_free_testbit. cbn [set_used fields]. rewrite Z.lor_spec, Hu by lia. apply negb_false_iff, orb_true_r.
  - apply chunk_size_bits. intros i Hi. cbn [fields]. rewrite Z.land_spec, unot_testbit, Hu by lia.
    rewrite (proj2 (Z.eqb_neq i 12)) by lia. apply andb_true_r.
  - rewrite is_free_testbit. cbn [set_unused fields]. rewrite Z.land_spec, unot_testbit, Hu by lia.
    apply negb_true_iff, andb_false_r.
Qed.

(** Taking a reference from a zone that has none panics under the dev profile; only
    under the release profile is it caught as [MinRefs], the zone unchanged. *)
Theorem decrement_refs_underflow b nx m :
  page_aligned nx → 0 ≤ nx < u64_size →
  decrement_refs (mkZone b nx) m =
    if overflow_checks then Panic else Done ((Err MinRefs, mkZone b nx), m).
Proof.
  intros Hal Hu. assert (get_refs (mkZone b nx) = 0) as E.
  { rewrite <- (Z.add_0_r nx). by apply get_refs_word. }
  unfold decrement_refs. rewrite E. destruct overflow_checks eqn:Hc.
  - apply wp_panics, wp_bind. apply wp_checked_panic; [done | unfold is_u64; lia | done].
  - apply wp_exact, wp_bind. apply wp_checked_wrap; [done|].
    change (as_isize (wrap (0 - 1)) <? 0) with true. by apply wp_ret.
Qed.

Lemma wp_Kalloc_new m p (Q : _ → mem → Prop) P :
  page_aligned p → 0 < p → p + PAGE_SIZE < u64_size → page_mapped m p →
  (∀ m', zone_rep m' p 0 [(MAX_CHUNK_SIZE, false)] → keeps m m' →
    (∀ x, x ≠ p → x ≠ p + 8 → m' !! x = m !! x) → Q (heap_at p) m') →
  wp (Kalloc_new (mkPage p)) m Q P.
Proof.
  intros Hal H0 Hu Hm HQ. unfold Kalloc_new. cbn [pg_addr]. change (PAGE_SIZE - 1) with (Z.ones 12).
  rewrite land_low by lia. change (2 ^ 12) with PAGE_SIZE. rewrite Hal. wp_steps.
  unfold Header_new. wp_steps. apply wp_write_zone_header_pair; [done | done | done | done |].
  unfold PAGE_SIZE in *. wp_steps. apply HQ; [by apply zone_rep_fresh | |].
  - eapply keeps_trans; apply keeps_insert.
  - intros x H1 H2. by rewrite !lookup_insert_ne by (unfold ZONE_SIZE; lia).
Qed.

(** [Kalloc::new] on a page of RAM makes a heap of one empty zone: two words of
    the page are written, nothing else. *)
Theorem kalloc_new_empty_zone m p :
  page_aligned p → 0 < p → p + PAGE_SIZE < u64_size → page_mapped m p →
  ∃ m', Kalloc_new (mkPage p) m = Done (heap_at p, m') ∧
    zone_rep m' p 0 [(MAX_CHUNK_SIZE, false)] ∧ blocks p [(MAX_CHUNK_SIZE, false)] = [] ∧
    (∀ x, x ≠ p → x ≠ p + 8 → m' !! x = m !! x).
Proof.
  intros Hal H0 Hu Hm. enough (wp (Kalloc_new (mkPage p)) m (λ k m', k = heap_at p ∧
    zone_rep m' p 0 [(MAX_CHUNK_SIZE, false)] ∧ (∀ x, x ≠ p → x ≠ p + 8 → m' !! x = m !! x)) False) as Hw.
  { apply wp_done in Hw as (k & m' & E & -> & Hz & Hx). by exists m'. }
  apply wp_Kalloc_new; [done | done | done | done |]. auto.
Qed.

(** C6: a request that some free chunk of the first zone can hold is served from that
    zone: the answer is a new 8-byte aligned block of the rounded size, disjoint
    from every live block; the blocks that were live stay, with their contents,
    and nothing outside the zone is written. *)
Theorem kalloc_alloc_fits b size st nx cs s :
  zone_rep (vm_mem st) b nx cs → 0 < size → (s, false) ∈ cs → round8 size ≤ s →
  (512 ≤ fuel)%nat →
  ∃ p m' cs', Kalloc_alloc (heap_at b) size st = Done (Ok p, set_mem m' st) ∧
    zone_rep m' b nx cs' ∧ blocks b cs' ≡ₚ (p, round8 size) :: blocks b cs ∧
    p mod 8 = 0 ∧ Forall (disjoint_blocks (p, round8 size)) (blocks b cs) ∧
    blocks_kept b cs (vm_mem st) m' ∧ same_outside [b] (vm_mem st) m'.
Proof.
  intros H H0 Hin Hs Hf.
  enough (wp (Kalloc_alloc (heap_at b) size) st (λ r st', ∃ p m' cs', r = Ok p ∧ st' = set_mem m' st ∧
    zone_rep m' b nx cs' ∧ zone_frame b cs (vm_mem st) m' ∧
    blocks b cs' ≡ₚ (p, round8 size) :: blocks b cs) False) as Hw.
  { apply wp_done in Hw as (r & st' & E & p & m' & cs' & -> & -> & Hz & Hfr & Hp).
    exists p, m', cs'. split_and!; [done | done | done | | by eapply blocks_disjoint
      | by eapply zone_frame_blocks; [exact H|] | by eapply zone_frame_page; [exact H|]].
    apply (blocks_bounds _ _ _ _ p (round8 size) Hz). rewrite Hp. left. }
  eapply wp_alloc_fits; [done | done | done | done | done |]. intros p m' cs' Hz Hfr Hp.
  by exists p, m', cs'.
Qed.

(** C9: [Zone::scan], which walks and rewrites chunk headers in memory, computes the
    reference [first_fit] on the list of chunks: it takes the first chunk that is free
    and big enough, merging free neighbours on its way, answers with its address or
    with nothing, and leaves in memory exactly the list that the reference returns.
    When nothing fits this needs [end_guard]: the word behind the zone is RAM, and it
    does not look like a free header or the last chunk is in use. *)
Theorem scan_is_first_fit b nx c rest size m r l :
  zone_rep m b nx (c :: rest) → 0 < size → size mod 8 = 0 → first_fit size c rest = (r, l) →
  (r = None → end_guard m b (c :: rest)) → (512 ≤ fuel)%nat →
  ∃ m', scan (mkZone b (nx + nused (c :: rest))) size m =
      Done (((λ o, b + ZONE_SIZE + o + HEADER_SIZE) <$> r, mkZone b (nx + nused l)), m') ∧
    zone_rep m' b nx l ∧ zone_frame b (c :: rest) m m'.
Proof.
  intros H H0 H8 E Hg Hf. enough (wp (scan (mkZone b (nx + nused (c :: rest))) size) m (λ x m',
    x = ((λ o, b + ZONE_SIZE + o + HEADER_SIZE) <$> r, mkZone b (nx + nused l)) ∧
    zone_rep m' b nx l ∧ zone_frame b (c :: rest) m m') False) as Hw.
  { apply wp_done in Hw as (x & m' & E' & -> & Hz & Hfr). by exists m'. }
  eapply wp_scan; [done | done | exact H | by rewrite E | done |].
  intros m'. rewrite E. by intros Hz Hfr _.
Qed.

(** C24: when the only zone has no room even after merging its free neighbours, the
    request is served by a new zone in the lowest free page, linked behind the
    first one; the live blocks and their contents stay, and the page leaves the
    pool. The scan has to stop at the end of the zone ([end_guard]): the word behind
    it is RAM, and does not look like a free header or the last chunk is in use. *)
Theorem kalloc_alloc_grows rep `{!PageAllocSpec rep} b size m pp c rest l p fl :
  zone_rep m b 0 (c :: rest) → 0 < size → round8 size ≤ MAX_CHUNK_SIZE →
  first_fit (round8 size) c rest = (None, l) → end_guard m b (c :: rest) →
  (512 ≤ fuel)%nat → rep m pp (p :: fl) → b ∉ p :: fl →
  ∃ m' pp', Kalloc_alloc (heap_at b) size (mkVm m (Some pp)) =
      Done (Ok (p + 16), mkVm m' (Some pp')) ∧
    zone_rep m' b p l ∧ blocks b l = blocks b (c :: rest) ∧
    zone_rep m' p 0 (take_chunk (round8 size) MAX_CHUNK_SIZE) ∧
    blocks p (take_chunk (round8 size) MAX_CHUNK_SIZE) = [(p + 16, round8 size)] ∧
    rep m' pp' fl ∧ blocks_kept b (c :: rest) m m' ∧ same_outside (b :: p :: fl) m m'.
Proof.
  intros H H0 Hmax Hnone Hg Hf Hrep Hb.
  enough (wp (Kalloc_alloc (heap_at b) size) (mkVm m (Some pp)) (λ r st', ∃ m' pp',
    r = Ok (p + 16) ∧ st' = mkVm m' (Some pp') ∧ zone_rep m' b p l ∧
    zone_rep m' p 0 (take_chunk (round8 size) MAX_CHUNK_SIZE) ∧ rep m' pp' fl ∧
    blocks_kept b (c :: rest) m m' ∧ same_outside (b :: p :: fl) m m') False) as Hw.
  { apply wp_done in Hw as (r & st' & E & m' & pp' & -> & -> & Hz & Hz' & Hrep' & Hk & Hs).
    exists m', pp'. split_and!; [done | done | by eapply full_live | done | | done | done | done].
    unfold blocks. rewrite take_chunk_live by done. do 2 f_equal. unfold ZONE_SIZE, HEADER_SIZE. lia. }
  eapply (wp_alloc_grows rep); [done | done | done | done | done | done | exact Hrep | done |].
  intros m' pp' Hz Hz' Hrep' _ Hk Hs. exists m', pp'.
  split_and!; [unfold ZONE_SIZE, HEADER_SIZE; f_equal; lia | done | done | done | done | done | done].
Qed.

(** C25: the same request, under the same condition on the end of the zone, with no free
    page left fails with [OOM]; the live blocks, the pool and everything outside the
    zone are as before. *)
Theorem kalloc_alloc_oom rep `{!PageAllocSpec rep} b size m pp c rest l :
  zone_rep m b 0 (c :: rest) → 0 < size → size + 7 < u64_size →
  first_fit (round8 size) c rest = (None, l) → end_guard m b (c :: rest) →
  (512 ≤ fuel)%nat → rep m pp [] →
  ∃ m', Kalloc_alloc (heap_at b) size (mkVm m (Some pp)) = Done (Err OOM, mkVm m' (Some pp)) ∧
    zone_rep m' b 0 l ∧ blocks b l = blocks b (c :: rest) ∧ rep m' pp [] ∧
    blocks_kept b (c :: rest) m m' ∧ same_outside [b] m m'.
Proof.
  intros H H0 Hu Hnone Hg Hf Hrep.
  enough (wp (Kalloc_alloc (heap_at b) size) (mkVm m (Some pp)) (λ r st', ∃ m',
    r = Err OOM ∧ st' = mkVm m' (Some pp) ∧ zone_rep m' b 0 l ∧ rep m' pp [] ∧
    zone_frame b (c :: rest) m m') False) as Hw.
  { apply wp_done in Hw as (r & st' & E & m' & -> & -> & Hz & Hrep' & Hfr). exists m'.
    split_and!; [done | done | by eapply full_live | done | by eapply zone_frame_blocks; [exact H|]
      | by eapply zone_frame_page; [exact H|]]. }
  eapply (wp_alloc_oom rep); [done | done | done | done | done | done | done |].
  intros m' Hz Hfr Hrep'. by exists m'.
Qed.

(** C32: once the heap has a second zone at a higher address, which is where the page
    pool puts it, a request the first zone cannot hold fails with [OOM] whatever
    the second zone has room for and however many pages are free: the bound the
    zone loop compares with is never moved when the heap grows. As above, the scan
    has to stop at the end of the first zone ([end_guard]). *)
Theorem kalloc_second_zone_unreachable b size st nx c rest l w :
  zone_rep (vm_mem st) b nx (c :: rest) → 0 < size → size + 7 < u64_size →
  first_fit (round8 size) c rest = (None, l) → end_guard (vm_mem st) b (c :: rest) →
  (512 ≤ fuel)%nat → b < nx → vm_mem st !! nx = Some w →
  ∃ m', Kalloc_alloc (heap_at b) size st = Done (Err OOM, set_mem m' st).
Proof.
  intros H H0 Hu Hnone Hg Hf Hlt Hw.
  enough (wp (Kalloc_alloc (heap_at b) size) st
    (λ r st', r = Err OOM ∧ ∃ m', st' = set_mem m' st) False) as Hwp.
  { apply wp_done in Hwp as (r & st' & E & -> & m' & ->). by exists m'. }
  eapply wp_alloc_second; try done. intros m' _ _. split; [done|]. by exists m'.
Qed.

(** What freeing the block [p] of [s] bytes gives. *)
Definition freed_block (b nx p s : Z) (cs : list chunk) (st st' : VmState) : Prop :=
  ∃ m' cs', st' = set_mem m' st ∧ zone_rep m' b nx cs' ∧
    blocks b cs ≡ₚ (p, s) :: blocks b cs' ∧ blocks_kept b cs' (vm_mem st) m' ∧
    same_outside [b] (vm_mem st) m' ∧
    ∃ w, m' !! (p - HEADER_SIZE) = Some w ∧ is_free (mkHeader w) = true.

Lemma wp_free_block self b nx cs p s st (Q : _ → VmState → Prop) P :
  zone_rep (vm_mem st) b nx cs → (p, s) ∈ blocks b cs →
  2 ≤ nused cs ∨ k_head self = b → is_Some (vm_mem st !! (b + PAGE_SIZE)) →
  (∀ st', freed_block b nx p s cs st st' → Q () st') →
  wp (Kalloc_free self p) st Q P.
Proof.
  intros H Hin Hcase Hend HQ. destruct (blocks_chunk _ _ _ _ Hin) as (c1 & c2 & -> & ->).
  assert (∀ m' cs', zone_rep m' b nx (c1 ++ cs') →
    (∃ s' c', cs' = (s', false) :: c') → blocks b (c1 ++ cs') = blocks b (c1 ++ (s, false) :: c2) →
    zone_frame b (c1 ++ (s, false) :: c2) (vm_mem st) m' → Q () (set_mem m' st)) as Hdone.
  { intros m' cs' Hz (s' & c' & ->) Hb Hfr. apply HQ. exists m', (c1 ++ (s', false) :: c').
    split_and!; [done | done | rewrite Hb; apply (blocks_middle b c1 s true) | | |].
    - unfold blocks_kept. fold (blocks b (c1 ++ (s', false) :: c')). rewrite Hb.
      by eapply zone_frame_blocks; [exact (zone_unuse H)|].
    - eapply zone_frame_page; [exact (zone_unuse H) | done].
    - destruct (zone_chunk _ _ _ _ _ _ _ Hz) as (Hh & ? & _).
      exists (hdr s' false). rewrite Z.add_simpl_r. split; [done|].
      apply is_free_hdr. unfold MAX_CHUNK_SIZE in *. lia. }
  destruct (decide (nused (c1 ++ (s, true) :: c2) = 1)) as [E1|E1].
  - destruct Hcase as [?|Hhead]; [lia|]. apply (wp_free_last_head H); [done | done |].
    intros m' Hz Hfr. by eapply Hdone; eauto.
  - destruct (used_refs H) as [_ Hr]. apply (wp_free_shared H); [lia | done |].
    intros m' Hz Hfr. eapply Hdone; [exact Hz | | apply blocks_free_chunk | done].
    unfold free_chunk. destruct c2 as [|[s2 []] c2]; eauto.
Qed.

(** C8: [free] of a live block, in the first zone or in a zone that keeps other blocks,
    removes that block and no other: the zone stays well formed, the other blocks
    keep their contents, and nothing outside the zone is written. The word behind the
    zone has to be RAM: it is read before the bound of the zone is checked. *)
Theorem kalloc_free_removes_block self b nx cs p s st :
  zone_rep (vm_mem st) b nx cs → (p, s) ∈ blocks b cs →
  2 ≤ nused cs ∨ k_head self = b → is_Some (vm_mem st !! (b + PAGE_SIZE)) →
  ∃ m' cs', Kalloc_free self p st = Done ((), set_mem m' st) ∧
    zone_rep m' b nx cs' ∧ blocks b cs ≡ₚ (p, s) :: blocks b cs' ∧
    blocks_kept b cs' (vm_mem st) m' ∧ same_outside [b] (vm_mem st) m'.
Proof.
  intros H Hin Hcase Hend.
  enough (wp (Kalloc_free self p) st (λ _ st', freed_block b nx p s cs st st') False) as Hw.
  { apply wp_done in Hw as ([] & st' & E & m' & cs' & -> & Hz & Hb & Hk & Hs & _). by exists m', cs'. }
  by eapply wp_free_block.
Qed.

(** Freeing the block that was just allocated from the first zone. *)
Lemma wp_free_after_alloc b nx cs cs1 p n m1 st :
  zone_rep (vm_mem st) b nx cs → is_Some (vm_mem st !! (b + PAGE_SIZE)) →
  zone_rep m1 b nx cs1 → zone_frame b cs (vm_mem st) m1 →
  blocks b cs1 ≡ₚ (p, n) :: blocks b cs →
  wp (Kalloc_free (heap_at b) p) (set_mem m1 st) (λ _ st', ∃ m' cs', st' = set_mem m' st ∧
    zone_rep m' b nx cs' ∧ blocks b cs' ≡ₚ blocks b cs ∧
    blocks_kept b cs (vm_mem st) m' ∧ same_outside [b] (vm_mem st) m') False.
Proof.
  intros H [w Hend] Hz1 Hfr1 Hp1. destruct (zr_base _ _ _ _ H) as (Hal & _ & _).
  pose proof (zone_frame_blocks _ _ _ _ _ _ H Hfr1) as Hk1.
  pose proof (zone_frame_page _ _ _ _ _ _ H Hfr1) as Hs1.
  eapply (wp_free_block _ b nx cs1 p n); cbn [vm_mem set_mem]; [done | | by right | |].
  - rewrite Hp1. left.
  - rewrite Hs1; [by rewrite Hend|]. replace (b + PAGE_SIZE) with (b + PAGE_SIZE * 1) by lia.
    rewrite page_of_id by by apply page_aligned_add. unfold PAGE_SIZE. set_solver by lia.
  - intros st' (m' & cs' & -> & Hz & Hb & Hk & Hs' & _). exists m', cs'.
    assert (blocks b cs' ≡ₚ blocks b cs) as Hperm.
    { rewrite Hp1 in Hb. by apply Permutation_cons_inv in Hb. }
    split_and!; [done | done | done | | by eapply same_outside_trans].
    intros bl x Hbl Hx. rewrite <- (Hk1 bl x Hbl Hx). apply (Hk bl); [|done].
    fold (blocks b cs'). by rewrite Hperm.
Qed.

(** C23: allocating a block in the first zone and freeing it again gives the live blocks
    back, with their contents. *)
Theorem kalloc_alloc_free_roundtrip b size st nx cs s :
  zone_rep (vm_mem st) b nx cs → 0 < size → (s, false) ∈ cs → round8 size ≤ s →
  is_Some (vm_mem st !! (b + PAGE_SIZE)) → (512 ≤ fuel)%nat →
  ∃ m' cs',
    (r ← Kalloc_alloc (heap_at b) size; p ← expect r; Kalloc_free (heap_at b) p) st =
      Done ((), set_mem m' st) ∧
    zone_rep m' b nx cs' ∧ blocks b cs' ≡ₚ blocks b cs ∧
    blocks_kept b cs (vm_mem st) m' ∧ same_outside [b] (vm_mem st) m'.
Proof.
  intros H H0 Hin Hs Hend Hf.
  enough (wp (r ← Kalloc_alloc (heap_at b) size; p ← expect r; Kalloc_free (heap_at b) p) st
    (λ _ st', ∃ m' cs', st' = set_mem m' st ∧ zone_rep m' b nx cs' ∧ blocks b cs' ≡ₚ blocks b cs ∧
      blocks_kept b cs (vm_mem st) m' ∧ same_outside [b] (vm_mem st) m') False) as Hw.
  { apply wp_done in Hw as ([] & st' & E & m' & cs' & -> & Hw). by exists m', cs'. }
  apply wp_bind. eapply wp_alloc_fits; [done | done | done | done | done |].
  intros p m1 cs1 Hz1 Hfr1 Hp1. apply wp_bind, wp_ret. by eapply wp_free_after_alloc.
Qed.

(** freeing a block twice in a row panics at the second call. *)
Theorem kalloc_double_free_panics self b nx cs p s st :
  zone_rep (vm_mem st) b nx cs → (p, s) ∈ blocks b cs →
  2 ≤ nused cs ∨ k_head self = b → is_Some (vm_mem st !! (b + PAGE_SIZE)) →
  (Kalloc_free self p ;; Kalloc_free self p) st = Panic.
Proof.
  intros H Hin Hcase Hend. apply wp_panics, wp_bind.
  eapply wp_free_block; [done | done | done | done |].
  intros st' (m' & cs' & -> & Hz & _ & _ & _ & w & Hw & Hfree).
  destruct (blocks_bounds _ _ _ _ _ _ H Hin) as (Hlo & Hhi & Hs & H8).
  destruct (zr_base _ _ _ _ H) as (Hal & Hb0 & Hbu). pose proof (page_aligned_8 _ Hal).
  unfold PAGE_SIZE in *. unfold Kalloc_free at 1. apply wp_bind, wp_on_mem.
  rewrite (zone_of_ptr _ _ _ _ _ H) by (unfold PAGE_SIZE; lia).
  eapply wp_Zone_from; [done | apply Hz |]. unfold HEADER_SIZE in *.
  apply wp_bind, wp_u_sub; [u64_range|]. apply wp_bind, wp_on_mem.
  eapply wp_Header_from; [zdm | exact Hw |]. rewrite Hfree. cbn [negb].
  apply wp_bind. by apply wp_assert.
Qed.

(** C33: [free] of the last block of the second zone, when it is the first chunk of
    that zone, gives the zone's page back to the pool and then writes the chunk
    header over the page's link to the next free page: after it no list of pages
    is the free list of the pool. *)
Theorem kalloc_free_breaks_pool h b s c2 ch e m pp fl :
  zone_rep m b 0 ((s, true) :: c2) → nused c2 = 0 → zone_rep m h b ch → h ≠ b →
  pagepool_rep m pp fl → in_pool pp b → b ∉ fl → h ∉ fl → (length fl + 1 < fuel)%nat →
  ∃ m' pp', Kalloc_free (mkKalloc h e) (b + 16) (mkVm m (Some pp)) =
      Done ((), mkVm m' (Some pp')) ∧
    m' !! (b + 8) = Some s ∧ ∀ l, ¬ pagepool_rep m' pp' l.
Proof.
  intros Hb Hn Hh Hne Hrep Hin Hbn Hhn Hf.
  destruct (zone_chunk _ _ _ [] _ _ _ Hb) as (_ & Hs & _ & Hpos & _). specialize (Hpos eq_refl).
  enough (wp (Kalloc_free (mkKalloc h e) (b + 16)) (mkVm m (Some pp)) (λ _ st', ∃ m1 pp1 fl1,
    st' = mkVm (<[b + 8 := s]> m1) (Some pp1) ∧ pagepool_rep m1 pp1 fl1 ∧ b ∈ fl1) False) as Hw.
  { apply wp_done in Hw as ([] & st' & E & m1 & pp1 & fl1 & -> & Hrep1 & Hin1).
    eexists _, _. split_and!; [exact E | apply lookup_insert_eq |]. intros l Hl.
    apply (pool_link_broken m1 (<[b + 8 := s]> m1) pp1 fl1 b s l); try done.
    - unfold MAX_CHUNK_SIZE, PAGE_SIZE in *. lia.
    - intros x Hx. by apply lookup_insert_ne.
    - apply lookup_insert_eq. }
  replace (b + 16) with (b + ZONE_SIZE + span [] + HEADER_SIZE)
    by (unfold ZONE_SIZE, HEADER_SIZE; simpl; lia).
  eapply (wp_free_last_second pagepool_rep h b 0 s [] c2);
    [exact Hb | simpl; lia | exact Hh | done | exact Hrep | done | done | done | done | done |].
  intros m1 pp1 fl1 Hrep1 Hp _ _ _. exists m1, pp1, fl1. simpl. rewrite Z.add_0_r.
  split_and!; [done | done | rewrite Hp; left].
Qed.

End theorems.
