(* ===== verification/Checks.v ===== *)
(** * Executable checks of the representations

    Boolean versions of [zone_rep] and [pagepool_rep], sound for them, so that a
    concrete memory can be shown well formed by evaluation; and the concrete boot
    state the examples start from. *)

From S2P Require Import Prelude Machine Param Mutex Palloc FreeList PallocTheorems.
From S2P Require Import VmState Vmalloc Zone ZoneScan KallocProofs.

(** ** RAM *)

(** The [n] words from [a] on are RAM. *)
Fixpoint mappedb (m : mem) (a : Z) (n : nat) : bool :=
  match n with
  | O => true
  | S n' => (if m !! a then true else false) && mappedb m (a + 8) n'
  end.

Lemma mappedb_sound m a n x :
  mappedb m a n = true → a mod 8 = 0 → a ≤ x < a + 8 * Z.of_nat n → x mod 8 = 0 → is_Some (m !! x).
Proof.
  revert a. induction n as [|n IH]; intros a; simpl; [lia|].
  intros [Ha Hn]%andb_true_iff H8 Hx Hx8. destruct (decide (x = a)) as [->|Hne].
  - by destruct (m !! a).
  - apply (IH (a + 8)); [done | zdm | zdm | done].
Qed.

(** ** Zones *)

Fixpoint chunks_atb (m : mem) (a : Z) (cs : list chunk) (e : Z) : bool :=
  match cs with
  | [] => a =? e
  | (s, u) :: cs' =>
      (if m !! a is Some w then w =? hdr s u else false) && (0 <=? s) && (s mod 8 =? 0) &&
      (negb u || (0 <? s)) && chunks_atb m (a + HEADER_SIZE + s) cs' e
  end.

Lemma chunks_atb_sound m a cs e : chunks_atb m a cs e = true → chunks_at m a cs e.
Proof.
  revert a. induction cs as [|[s u] cs IH]; intros a; simpl; [lia|].
  intros [[[[Hh Hs]%andb_true_iff H8]%andb_true_iff Hu]%andb_true_iff Hc]%andb_true_iff.
  split_and!; [|lia | lia | | by apply IH].
  - destruct (m !! a); [|done]. f_equal. lia.
  - intros ->. simpl in Hu. lia.
Qed.

Definition zone_repb (m : mem) (b nx : Z) (cs : list chunk) : bool :=
  (b mod PAGE_SIZE =? 0) && (0 <? b) && (b + PAGE_SIZE <? u64_size) &&
  (nx mod PAGE_SIZE =? 0) && (0 <=? nx) && (nx <? u64_size) &&
  (if m !! b is Some w then w =? nx + nused cs else false) &&
  chunks_atb m (b + ZONE_SIZE) cs (b + PAGE_SIZE) && mappedb m b 512.

Lemma zone_repb_sound m b nx cs : zone_repb m b nx cs = true → zone_rep m b nx cs.
Proof.
  intros H. unfold zone_repb in H. repeat (apply andb_true_iff in H as [H ?]).
  assert (page_aligned b) as Hal by (unfold page_aligned; lia).
  split; [split_and!; (done || lia) | split_and!; [unfold page_aligned; lia | lia | lia] | | |].
  - destruct (m !! b); [|done]. f_equal. lia.
  - by apply chunks_atb_sound.
  - intros x Hx H8. apply (mappedb_sound m b 512); [done | eauto with reedos | | done].
    unfold PAGE_SIZE in Hx. lia.
Qed.

(** ** Pools *)

Fixpoint dlsegb (m : mem) (prev : Z) (l : list Z) (next : Z) : bool :=
  match l with
  | [] => true
  | p :: l' =>
      bool_decide (m !! p = Some prev) && bool_decide (m !! (p + 8) = Some (hd_or next l')) &&
      dlsegb m p l' next
  end.

Lemma dlsegb_sound m pv l nx : dlsegb m pv l nx = true → dlseg m pv l nx.
Proof.
  revert pv. induction l as [|p l IH]; intros pv; simpl; [done|].
  intros [[H1%bool_decide_eq_true H2%bool_decide_eq_true]%andb_true_iff H3]%andb_true_iff. auto.
Qed.

Fixpoint sortedb (l : list Z) : bool :=
  match l with
  | [] => true
  | p :: l' => forallb (λ q, p <? q) l' && sortedb l'
  end.

Lemma sortedb_sound l : sortedb l = true → sorted l.
Proof.
  induction l as [|p l IH]; simpl; [constructor|]. intros [Hp Hl]%andb_true_iff.
  constructor; [by apply IH|]. apply Forall_forall. intros q Hq.
  rewrite forallb_forall in Hp. specialize (Hp q). rewrite <- list_elem_of_In in Hp. specialize (Hp Hq). lia.
Qed.

Definition pagepool_repb (m : mem) (pp : PagePool) (l : list Z) : bool :=
  let P := inner (pool pp) in
  (lock_state (pool pp) =? 0) && (bottom P mod PAGE_SIZE =? 0) && (0 <? bottom P) &&
  (top P mod PAGE_SIZE =? 0) && (top P <? u64_size) &&
  bool_decide (pg_addr <$> free P = head l) && sortedb l &&
  forallb (λ p, (p mod PAGE_SIZE =? 0) && (bottom P <=? p) && (p <? top P)) l &&
  dlsegb m null l null && mappedb m (bottom P) (Z.to_nat ((top P - bottom P) / 8)).

Lemma pagepool_repb_sound m pp l : pagepool_repb m pp l = true → pagepool_rep m pp l.
Proof.
  intros H. unfold pagepool_repb in H. set (P := inner (pool pp)) in *.
  repeat (apply andb_true_iff in H as [H ?]).
  assert (page_aligned (bottom P)) as Hb by (unfold page_aligned; lia).
  assert (page_aligned (top P)) as Ht by (unfold page_aligned; lia).
  split; [lia|]. fold P. split.
  - split; [done | lia].
  - split; [done | lia].
  - match goal with E : bool_decide _ = true |- _ => apply bool_decide_eq_true in E; rewrite <- E end.
    by destruct (free P) as [[q]|].
  - by apply sortedb_sound.
  - intros p Hp. match goal with E : forallb _ l = true |- _ => rewrite forallb_forall in E;
      specialize (E p); rewrite <- list_elem_of_In in E; specialize (E Hp) end.
    unfold page_aligned. lia.
  - by apply dlsegb_sound.
  - intros x Hx Hx8. eapply mappedb_sound; [done | eauto with reedos | | done].
    apply page_aligned_8 in Hb, Ht. rewrite Z2Nat.id; zdm.
Qed.

(** ** A concrete boot *)

Section boot.
Context {cfg : Config}.

(** A pool of [n] pages from [b] on, its first page turned into the first zone of
    the heap, as [vm::init] does. *)
Definition boot_heap (b : Z) (n : nat) : M mem (PagePool * Kalloc) :=
  pp ← PagePool_new b (b + PAGE_SIZE * Z.of_nat n);
  '(r, pp) ← palloc pp;
  page ← expect r;
  k ← Kalloc_new page;
  mret (pp, k).

(** The state after it, on zeroed RAM that goes one page further. *)
Definition booted (b : Z) (n : nat) : VmState :=
  match boot_heap b n (ram b (512 * (n + 1))) with
  | Done ((pp, _), m) => mkVm m (Some pp)
  | _ => mkVm ∅ None
  end.

(** The state after a run, and its pool. *)
Definition after {A} (e : M VmState A) (st : VmState) : VmState :=
  match e st with Done (_, st') => st' | _ => mkVm ∅ None end.

Definition result_of {A} (e : M VmState A) (st : VmState) : option A :=
  match e st with Done (a, _) => Some a | _ => None end.

Lemma run_after {A} (e : M VmState A) st a :
  result_of e st = Some a → e st = Done (a, after e st).
Proof. unfold result_of, after. destruct (e st) as [[? ?]| | |]; naive_solver. Qed.

Definition the_pool (st : VmState) : PagePool :=
  default (mkPagePool (Mutex_new (mkPool None 0 0))) (PAGEPOOL st).

End boot.

(** The base of the examples, as the linker would place it. *)
Definition B : Z := 0x80010000.
