(* ===== verification/PallocWitness.v ===== *)
(** * The page pool on a concrete memory

    The theorems of PallocTheorems.v at a pool of a few pages: every hypothesis is
    checked by evaluating the code and [pagepool_repb]. *)

From S2P Require Import Prelude Machine Param Mutex Palloc FreeList PallocAlloc PallocFree.
From S2P Require Import PallocTheorems VmState Vmalloc Zone ZoneScan KallocProofs Checks.

#[local] Instance ex_cfg : Config := dev 600.

Ltac by_eval := solve [vm_compute; reflexivity | vm_compute; lia].
Ltac rep_eval := apply pagepool_repb_sound; vm_compute; reflexivity.

(** Five free pages from the second page on. *)
Definition five : VmState := booted B 6.

(** No free page. *)
Definition none : VmState := after vm_palloc (booted B 2).

(** Two pages taken, the first given back: a gap in the free list. *)
Definition gapped : VmState :=
  after (_ ← vm_palloc; _ ← vm_palloc; vm_pfree (mkPage (B + 4096))) five.

(** The two lowest pages taken. *)
Definition two_taken : VmState := after (_ ← vm_palloc; vm_palloc) five.

Lemma palloc_takes_head_witness :
  ∃ m' pp', palloc (the_pool five) (vm_mem five) = Done ((Ok (mkPage (B + 4096)), pp'), m') ∧
    pagepool_rep m' pp' (run (B + 8192) 4) ∧ page_zero m' (B + 4096) ∧
    B + 4096 ∉ run (B + 8192) 4 ∧ written [B + 4096] [B + 8192] (vm_mem five) m'.
Proof. apply (palloc_takes_head (vm_mem five) (the_pool five) (B + 4096)); [rep_eval | simpl; lia]. Defined.

Lemma palloc_empty_witness :
  palloc (the_pool none) (vm_mem none) = Done ((Err OutOfPages, the_pool none), vm_mem none).
Proof. apply palloc_empty; [rep_eval | simpl; lia]. Defined.

Lemma palloc_plural_contiguous_witness :
  ∃ m' pp', palloc_plural (the_pool five) 2 (vm_mem five) = Done ((Ok (B + 4096), pp'), m') ∧
    pagepool_rep m' pp' [B + 4096 + 8192; B + 16384; B + 20480] ∧
    (∀ q, q ∈ run (B + 4096) 2 → page_zero m' q) ∧ same_outside (run (B + 4096) 3) (vm_mem five) m'.
Proof.
  apply (palloc_plural_contiguous (vm_mem five) (the_pool five) (B + 4096) 2 [B + 16384; B + 20480]);
    [rep_eval | lia | simpl; lia].
Defined.

Lemma palloc_plural_last_run_witness :
  palloc_plural (the_pool five) 5 (vm_mem five) = Done ((Err OutOfPages, the_pool five), vm_mem five).
Proof.
  apply (palloc_plural_last_run (vm_mem five) (the_pool five) (B + 4096) 5);
    [rep_eval | lia | lia | vm_compute; split; [discriminate | reflexivity] | simpl; lia].
Defined.

Lemma palloc_plural_terminates_witness : palloc_plural (the_pool gapped) 3 (vm_mem gapped) ≠ Diverge.
Proof.
  apply (palloc_plural_terminates (vm_mem gapped) (the_pool gapped) (B + 4096 :: run (B + 12288) 3) 3);
    [rep_eval | lia | vm_compute; discriminate | vm_compute; discriminate | vm_compute; reflexivity | simpl; lia].
Defined.

(** One free page. *)
Definition single : VmState := booted B 2.

Lemma palloc_plural_single_page_witness : palloc_plural (the_pool single) 2 (vm_mem single) = Fault.
Proof.
  apply (palloc_plural_single_page (vm_mem single) (the_pool single) (B + 4096) 2);
    [rep_eval | lia | vm_compute; split; [discriminate | reflexivity] | simpl; lia | vm_compute; reflexivity].
Defined.

Lemma palloc_plural_gap_panics_witness :
  palloc_plural (the_pool gapped) 2 (vm_mem gapped) = Panic.
Proof.
  apply (palloc_plural_gap_panics (vm_mem gapped) (the_pool gapped) (B + 4096) 1 (B + 12288)
    [B + 16384; B + 20480]);
    [done | rep_eval | done | lia | lia | lia | vm_compute; split; [discriminate | reflexivity] | simpl; lia].
Defined.

Lemma palloc_plural_gap_double_use_witness :
  @palloc_plural (release 600) (the_pool gapped) 2 (vm_mem gapped) =
    Done ((Ok (B + 12288), the_pool gapped), vm_mem gapped).
Proof.
  apply (@palloc_plural_gap_double_use (release 600) (vm_mem gapped) (the_pool gapped) (B + 4096) 1
    (B + 12288) [B + 16384; B + 20480]);
    [done | rep_eval | done | lia | lia | lia | vm_compute; discriminate | simpl; lia].
Defined.

Lemma pfree_plural_inserts_witness :
  ∃ m' pp', pfree_plural (the_pool two_taken) (B + 4096) 2 (vm_mem two_taken) = Done ((Ok (), pp'), m') ∧
    pagepool_rep m' pp' ([] ++ run (B + 4096) 2 ++ run (B + 12288) 3) ∧
    same_outside ([] ++ run (B + 4096) 2 ++ run (B + 12288) 3) (vm_mem two_taken) m'.
Proof.
  apply (pfree_plural_inserts (vm_mem two_taken) (the_pool two_taken) (B + 4096) 2 [] (run (B + 12288) 3));
    [rep_eval | lia | reflexivity | vm_compute; discriminate | vm_compute; discriminate | | | simpl; lia | simpl; lia].
  - by intros q ?%not_elem_of_nil.
  - intros q Hq. unfold PAGE_SIZE. simpl in Hq. unfold PAGE_SIZE in Hq. set_unfold. lia.
Defined.

Lemma palloc_pfree_roundtrip_witness :
  ∃ m' pp',
    ('(r, pp1) ← palloc_plural (the_pool five) 2;
     a ← expect r;
     pfree_plural pp1 a 2) (vm_mem five) = Done ((Ok (), pp'), m') ∧
    pagepool_rep m' pp' (run (B + 4096) 2 ++ [B + 4096 + 8192; B + 16384; B + 20480]) ∧
    same_outside (run (B + 4096) 2 ++ [B + 4096 + 8192; B + 16384; B + 20480]) (vm_mem five) m'.
Proof.
  apply (palloc_pfree_roundtrip (vm_mem five) (the_pool five) (B + 4096) 2 [B + 16384; B + 20480]);
    [rep_eval | lia | simpl; lia].
Defined.

Lemma page_arguments_checked_witness :
  pfree (the_pool five) (mkPage (B + 8)) (vm_mem five) = Panic ∧
  pfree_plural (the_pool five) (B + 8) 3 (vm_mem five) = Panic ∧
  palloc_plural (the_pool five) 0 (vm_mem five) = Panic ∧
  pfree_plural (the_pool five) (B + 8) 0 (vm_mem five) = Panic.
Proof. apply page_arguments_checked. vm_compute. discriminate. Defined.

Lemma page_pool_self_deadlock_witness :
  let held := mkPagePool (mkMutex 1 (inner (pool (the_pool five)))) in
  palloc held (vm_mem five) = Diverge ∧ pfree held (mkPage B) (vm_mem five) = Diverge ∧
  palloc_plural held 2 (vm_mem five) = Diverge ∧ pfree_plural held B 2 (vm_mem five) = Diverge.
Proof. apply page_pool_self_deadlock; [done | reflexivity | done]. Defined.

Lemma pagepool_new_links_all_witness :
  ∃ m' pp, PagePool_new B (B + PAGE_SIZE * 3) (ram B 1536) = Done (pp, m') ∧
    pagepool_rep m' pp (run B 3) ∧ same_outside (run B 3) (ram B 1536) m'.
Proof.
  apply (pagepool_new_links_all (ram B 1536) B 3);
    [reflexivity | reflexivity | reflexivity | simpl; lia |].
  intros a Ha H8. apply (mappedb_sound _ B 1536); [vm_compute; reflexivity | reflexivity | | done].
  unfold PAGE_SIZE in Ha. lia.
Defined.
