(* ===== verification/SharedWitness.v ===== *)
(** * Two harts on a concrete pool

    The theorems of PoolShared.v where hart 0 has taken a page and written to it, and
    hart 1 is inside [palloc]. *)

From S2P Require Import Prelude Machine Param Mutex Palloc FreeList PallocTheorems PoolShared.
From S2P Require Import VmState Vmalloc Checks PallocWitness.

#[local] Instance shared_cfg : Config := dev 600.

(** Hart 0 owns [p], where it has written; hart 1 has read the pool. *)
Definition two_harts (p : Z) (P : Pool) (m : mem) : kernel :=
  mkKernel m (mkMutex 1 P) [mkUser Running [p]; mkUser (Inside Alloc P m) []].

(** The next step is one of hart [i]. *)
Ltac by_hart i t :=
  eapply rtc_l; [exists i; t|]; cbn [k_mem k_pool users insert list_insert].

Lemma two_harts_reachable m P p v P' m' :
  pool_section Alloc P m = Done (([p], P'), m') → page_aligned p →
  rtc kernel_step (pool_start 2 m P) (two_harts p P' (<[p := v]> (commit m m' m))).
Proof.
  intros Hs Hp.
  by_hart 0%nat ltac:(by apply (us_call _ _ Alloc [] [])).
  by_hart 0%nat ltac:(by eapply us_swap).
  by_hart 1%nat ltac:(by apply (us_call _ _ Alloc [] [])).
  by_hart 1%nat ltac:(by eapply us_swap).
  by_hart 0%nat ltac:(by eapply us_read).
  by_hart 0%nat ltac:(eapply us_section; [done | exact Hs]).
  by_hart 0%nat ltac:(by eapply us_drop).
  by_hart 1%nat ltac:(by eapply us_swap).
  by_hart 0%nat ltac:(eapply (us_write _ _ _ _ p v); [done | rewrite page_of_id by done; left | by apply page_aligned_8]).
  by_hart 1%nat ltac:(by eapply us_read). apply rtc_refl.
Qed.

(** The result of a section. *)
Definition section_of (P : Pool) (m : mem) : list Z * Pool * mem :=
  match pool_section Alloc P m with Done (r, m') => (r, m') | _ => ([], P, ∅) end.

Lemma section_of_runs P m ps :
  match pool_section Alloc P m with Done ((ps', _), _) => bool_decide (ps' = ps) | _ => false end = true →
  pool_section Alloc P m = Done ((ps, (section_of P m).1.2), (section_of P m).2).
Proof.
  unfold section_of. destruct (pool_section Alloc P m) as [[[g P'] m']| | |]; try done. simpl.
  by intros ->%bool_decide_eq_true.
Qed.

Definition m0 : mem := vm_mem five.
Definition P0 : Pool := inner (pool (the_pool five)).
Definition P1 : Pool := (section_of P0 m0).1.2.
Definition m1 : mem := <[B + 4096 := 7]> (commit m0 (section_of P0 m0).2 m0).

Lemma first_section : pool_section Alloc P0 m0 = Done (([B + 4096], P1), (section_of P0 m0).2).
Proof. apply section_of_runs. vm_compute. reflexivity. Qed.

Lemma second_section :
  pool_section Alloc P1 m1 = Done (([B + 8192], (section_of P1 m1).1.2), (section_of P1 m1).2).
Proof. apply section_of_runs. vm_compute. reflexivity. Qed.

Lemma pool_rep_five : pool_rep m0 P0 (run (B + 4096) 5).
Proof. apply (pagepool_repb_sound (vm_mem five) (the_pool five)). vm_compute. reflexivity. Qed.

Lemma m1_word : m1 !! (B + 4096) = Some 7.
Proof. apply lookup_insert_eq. Qed.

Lemma in_run_five : page_of (B + 4096) ∈ [B + 4096].
Proof. rewrite page_of_id by reflexivity. left. Qed.

#[local] Opaque m0 P0 m1 P1 section_of.

Lemma five_reachable : rtc kernel_step (pool_start 2 m0 P0) (two_harts (B + 4096) P1 m1).
Proof. Transparent m1. apply two_harts_reachable; [exact first_section | reflexivity]. Qed.
#[local] Opaque m1.

Lemma five_fuel : (length (run (B + 4096) 5) + 2 < fuel)%nat.
Proof. simpl. lia. Qed.

Lemma pool_pages_conserved_witness :
  ∃ fl, pool_rep m1 P1 fl ∧ fl ++ [B + 4096] ≡ₚ run (B + 4096) 5 ∧ NoDup (fl ++ [B + 4096]).
Proof.
  exact (pool_pages_conserved 2 m0 P0 _ (two_harts (B + 4096) P1 m1) pool_rep_five five_fuel five_reachable).
Defined.

Lemma pool_isolated_witness :
  ∃ k', user_step 1 (two_harts (B + 4096) P1 m1) k' ∧ k_mem k' !! (B + 4096) = Some 7.
Proof.
  eexists. assert (user_step 1 (two_harts (B + 4096) P1 m1) _) as Hs
    by (eapply (us_section 1 (two_harts (B + 4096) P1 m1)); [reflexivity | exact second_section]).
  split; [exact Hs|].
  rewrite (pool_isolated 2 m0 P0 _ _ pool_rep_five five_fuel five_reachable
    0 1 (mkUser Running [B + 4096]) (B + 4096) _ eq_refl in_run_five Hs);
    [exact m1_word | discriminate].
Defined.

Lemma pool_section_completes_witness :
  ∃ k' got, user_step 1 (two_harts (B + 4096) P1 m1) k' ∧
    users k' !! 1%nat = Some (mkUser Leaving (got ++ [])) ∧
    (got = [] ∧ pool_rep m1 P1 [] ∨ ∃ p, got = [p] ∧ page_zero (k_mem k') p).
Proof.
  exact (pool_section_completes 2 m0 P0 _ _ pool_rep_five five_fuel five_reachable 1 Alloc P1 m1 [] eq_refl).
Defined.
