(* ===== verification/KallocWitness.v ===== *)
(** * The kernel heap on a concrete memory

    The theorems of KallocTheorems.v at the heap [vm::init] makes in a small RAM, and
    the run in which a block is handed out that reaches into a free page. *)

From S2P Require Import Prelude Machine Param Mutex Palloc FreeList PallocAlloc PallocFree.
From S2P Require Import PallocTheorems VmState Vmalloc Zone ZoneScan Heap KallocProofs ZoneEscape KallocFree.
From S2P Require Import KallocTheorems Checks.

#[local] Instance heap_cfg : Config := dev 1200.

Ltac zone_eval := apply zone_repb_sound; vm_compute; reflexivity.
Ltac pool_eval := apply pagepool_repb_sound; vm_compute; reflexivity.
Ltac some_eval := vm_compute; eexists; reflexivity.

(** An empty first zone, one filled by one block, and a second zone behind it. *)
Definition heap0 : VmState := booted B 6.
Definition heap_full : VmState := after (Kalloc_alloc (heap_at B) 4080) heap0.
Definition heap_two : VmState := after (Kalloc_alloc (heap_at B) 100) heap_full.

(** A first zone with two blocks. *)
Definition heap_pair : VmState :=
  after (_ ← Kalloc_alloc (heap_at B) 24; Kalloc_alloc (heap_at B) 100) heap0.

(** A full zone and no free page. *)
Definition heap_out : VmState :=
  after (_ ← vm_palloc; Kalloc_alloc (heap_at B) 4080) (booted B 2).



Lemma kalloc_new_empty_zone_witness :
  ∃ m', Kalloc_new (mkPage B) (ram B 512) = Done (heap_at B, m') ∧
    zone_rep m' B 0 [(MAX_CHUNK_SIZE, false)] ∧ blocks B [(MAX_CHUNK_SIZE, false)] = [] ∧
    (∀ x, x ≠ B → x ≠ B + 8 → m' !! x = ram B 512 !! x).
Proof.
  apply kalloc_new_empty_zone; [reflexivity | reflexivity | reflexivity |].
  intros x Hx H8. apply (mappedb_sound _ B 512); [vm_compute; reflexivity | reflexivity | | done].
  unfold PAGE_SIZE in Hx. lia.
Defined.

Lemma header_fields_independent_witness :
  chunk_size (set_size (mkHeader 0x1064) 8) = 8 ∧
  is_free (set_size (mkHeader 0x1064) 8) = is_free (mkHeader 0x1064) ∧
  chunk_size (set_used (mkHeader 0x1064)) = chunk_size (mkHeader 0x1064) ∧
  is_free (set_used (mkHeader 0x1064)) = false ∧
  chunk_size (set_unused (mkHeader 0x1064)) = chunk_size (mkHeader 0x1064) ∧
  is_free (set_unused (mkHeader 0x1064)) = true.
Proof.
  apply header_fields_independent; [vm_compute; split; [discriminate | reflexivity] | lia].
Defined.

Lemma decrement_refs_underflow_witness :
  decrement_refs (mkZone B 0) ∅ = Panic ∧
  @decrement_refs (release 600) (mkZone B 0) ∅ = Done ((Err MinRefs, mkZone B 0), ∅).
Proof.
  split.
  - exact (decrement_refs_underflow B 0 ∅ eq_refl (conj (Z.le_refl 0) eq_refl)).
  - exact (@decrement_refs_underflow (release 600) B 0 ∅ eq_refl (conj (Z.le_refl 0) eq_refl)).
Defined.

Lemma kalloc_alloc_fits_witness :
  ∃ p m' cs', Kalloc_alloc (heap_at B) 100 heap0 = Done (Ok p, set_mem m' heap0) ∧
    zone_rep m' B 0 cs' ∧ blocks B cs' ≡ₚ (p, round8 100) :: blocks B [(4080, false)] ∧
    p mod 8 = 0 ∧ Forall (disjoint_blocks (p, round8 100)) (blocks B [(4080, false)]) ∧
    blocks_kept B [(4080, false)] (vm_mem heap0) m' ∧ same_outside [B] (vm_mem heap0) m'.
Proof.
  apply (kalloc_alloc_fits B 100 heap0 0 [(4080, false)] 4080);
    [zone_eval | lia | left | vm_compute; discriminate | simpl; lia].
Defined.

(** Two neighbours, both free, that the scan merges to serve a block of both sizes. *)
Definition heap_frag : VmState :=
  after (_ ← Kalloc_alloc (heap_at B) 24; _ ← Kalloc_alloc (heap_at B) 24;
    _ ← Kalloc_alloc (heap_at B) 100;
    Kalloc_free (heap_at B) (B + 16) ;; Kalloc_free (heap_at B) (B + 48)) heap0.

Lemma scan_is_first_fit_witness :
  ∃ m', scan (mkZone B (0 + 1)) 56 (vm_mem heap_frag) = Done ((Some (B + 16), mkZone B (0 + 2)), m') ∧
    zone_rep m' B 0 [(56, true); (104, true); (3904, false)] ∧
    zone_frame B [(24, false); (24, false); (104, true); (3904, false)] (vm_mem heap_frag) m'.
Proof.
  apply (scan_is_first_fit B 0 (24, false) [(24, false); (104, true); (3904, false)] 56
    (vm_mem heap_frag) (Some 0) [(56, true); (104, true); (3904, false)]);
    [zone_eval | lia | reflexivity | reflexivity | discriminate | simpl; lia].
Defined.

Lemma kalloc_alloc_grows_witness :
  ∃ m' pp', Kalloc_alloc (heap_at B) 100 (mkVm (vm_mem heap_full) (Some (the_pool heap_full))) =
      Done (Ok (B + 4096 + 16), mkVm m' (Some pp')) ∧
    zone_rep m' B (B + 4096) [(4080, true)] ∧ blocks B [(4080, true)] = blocks B [(4080, true)] ∧
    zone_rep m' (B + 4096) 0 (take_chunk (round8 100) MAX_CHUNK_SIZE) ∧
    blocks (B + 4096) (take_chunk (round8 100) MAX_CHUNK_SIZE) = [(B + 4096 + 16, round8 100)] ∧
    pagepool_rep m' pp' (run (B + 8192) 4) ∧
    blocks_kept B [(4080, true)] (vm_mem heap_full) m' ∧
    same_outside (B :: (B + 4096) :: run (B + 8192) 4) (vm_mem heap_full) m'.
Proof.
  apply (kalloc_alloc_grows pagepool_rep B 100 (vm_mem heap_full) (the_pool heap_full) (4080, true) []
    [(4080, true)] (B + 4096) (run (B + 8192) 4));
    [zone_eval | lia | vm_compute; discriminate | vm_compute; reflexivity | | simpl; lia | pool_eval |].
  - exists 0. split; [vm_compute; reflexivity | reflexivity].
  - apply (bool_decide_unpack _). vm_compute. exact I.
Defined.

Lemma kalloc_alloc_oom_witness :
  ∃ m', Kalloc_alloc (heap_at B) 100 (mkVm (vm_mem heap_out) (Some (the_pool heap_out))) =
      Done (Err OOM, mkVm m' (Some (the_pool heap_out))) ∧
    zone_rep m' B 0 [(4080, true)] ∧ blocks B [(4080, true)] = blocks B [(4080, true)] ∧
    pagepool_rep m' (the_pool heap_out) [] ∧
    blocks_kept B [(4080, true)] (vm_mem heap_out) m' ∧ same_outside [B] (vm_mem heap_out) m'.
Proof.
  apply (kalloc_alloc_oom pagepool_rep B 100 (vm_mem heap_out) (the_pool heap_out) (4080, true) []);
    [zone_eval | lia | reflexivity | vm_compute; reflexivity | | simpl; lia | pool_eval].
  exists 0. split; [vm_compute; reflexivity | reflexivity].
Defined.

Lemma kalloc_second_zone_unreachable_witness :
  ∃ m', Kalloc_alloc (heap_at B) 100 heap_two = Done (Err OOM, set_mem m' heap_two).
Proof.
  apply (kalloc_second_zone_unreachable B 100 heap_two (B + 4096) (4080, true) [] [(4080, true)] 1);
    [zone_eval | lia | reflexivity | vm_compute; reflexivity | | simpl; lia | lia | vm_compute; reflexivity].
  exists 1. split; [vm_compute; reflexivity | reflexivity].
Defined.

Lemma kalloc_free_removes_block_witness :
  ∃ m' cs', Kalloc_free (heap_at B) (B + 16) heap_pair = Done ((), set_mem m' heap_pair) ∧
    zone_rep m' B 0 cs' ∧
    blocks B [(24, true); (104, true); (3936, false)] ≡ₚ (B + 16, 24) :: blocks B cs' ∧
    blocks_kept B cs' (vm_mem heap_pair) m' ∧ same_outside [B] (vm_mem heap_pair) m'.
Proof.
  apply (kalloc_free_removes_block (heap_at B) B 0 [(24, true); (104, true); (3936, false)]);
    [zone_eval | left | by left | some_eval].
Defined.

Lemma kalloc_alloc_free_roundtrip_witness :
  ∃ m' cs',
    (r ← Kalloc_alloc (heap_at B) 100; p ← expect r; Kalloc_free (heap_at B) p) heap0 =
      Done ((), set_mem m' heap0) ∧
    zone_rep m' B 0 cs' ∧ blocks B cs' ≡ₚ blocks B [(4080, false)] ∧
    blocks_kept B [(4080, false)] (vm_mem heap0) m' ∧ same_outside [B] (vm_mem heap0) m'.
Proof.
  apply (kalloc_alloc_free_roundtrip B 100 heap0 0 [(4080, false)] 4080);
    [zone_eval | lia | left | vm_compute; discriminate | some_eval | simpl; lia].
Defined.

Lemma kalloc_double_free_panics_witness :
  (Kalloc_free (heap_at B) (B + 16) ;; Kalloc_free (heap_at B) (B + 16)) heap_pair = Panic.
Proof.
  apply (kalloc_double_free_panics (heap_at B) B 0 [(24, true); (104, true); (3936, false)] (B + 16) 24);
    [zone_eval | left | by left | some_eval].
Defined.

Lemma kalloc_free_breaks_pool_witness :
  ∃ m' pp', Kalloc_free (heap_at B) (B + 4096 + 16)
      (mkVm (vm_mem heap_two) (Some (the_pool heap_two))) = Done ((), mkVm m' (Some pp')) ∧
    m' !! (B + 4096 + 8) = Some 104 ∧ ∀ l, ¬ pagepool_rep m' pp' l.
Proof.
  apply (kalloc_free_breaks_pool B (B + 4096) 104 [(3968, false)] [(4080, true)] (B + PAGE_SIZE)
    (vm_mem heap_two) (the_pool heap_two) (run (B + 8192) 4));
    [zone_eval | reflexivity | zone_eval | discriminate | pool_eval | | | | simpl; lia].
  - split_and!; [reflexivity | vm_compute; discriminate | vm_compute; reflexivity].
  - apply (bool_decide_unpack _). vm_compute. exact I.
  - apply (bool_decide_unpack _). vm_compute. exact I.
Defined.
