(* ===== verification/Ptable.v ===== *)
(** * The kernel page table (src/vm/ptable.rs)

    The definitions: the Sv39 address and entry formats, the walk that allocates
    missing tables, [page_map] and the kernel's own map [kpage_init], which logs its
    progress to the [Host] it runs in. *)

From stdpp Require Import pretty.
From S2P Require Import Prelude Machine Param Mutex Palloc VmState Host.

Definition VA_TOP : Z := Z.shiftl 1 (27 + 12).
Definition PTE_TOP : Z := 512.
Definition PTE_VALID : Z := Z.shiftl 1 0.
Definition PTE_READ : Z := Z.shiftl 1 1.
Definition PTE_WRITE : Z := Z.shiftl 1 2.
Definition PTE_EXEC : Z := Z.shiftl 1 3.
Definition PTE_USER : Z := Z.shiftl 1 4.
Definition PTE_GLOBAL : Z := Z.shiftl 1 5.
Definition PTE_ACCESSED : Z := Z.shiftl 1 6.
Definition PTE_DIRTY : Z := Z.shiftl 1 7.

Record PageTable : Type := mkPageTable { pt_base : Z }.

(** [addr >> (12 + 9 * level) & 0x1FF]. *)
Definition vpn (ptr level : Z) : Z := Z.land (Z.shiftr ptr (12 + 9 * level)) 0x1FF.

Definition pte_to_phy (pte : Z) : Z := wrap (Z.shiftl (Z.shiftr pte 10) 12).

Definition phy_to_pte (ptr : Z) : Z := wrap (Z.shiftl (Z.shiftr ptr 12) 10).

Definition PteGetFlag (pte flag : Z) : bool := negb (Z.land pte flag =? 0).

Definition PteSetFlag (pte flag : Z) : Z := Z.lor pte flag.

Definition phy_to_satp (ptr : Z) : Z := Z.lor (Z.shiftl 1 63) (Z.shiftr ptr 12).

Definition PageAlignDown (p : Z) : Z := Z.land p (unot (PAGE_SIZE - 1)).

Definition set_pte (pte contents : Z) : M mem unit := write pte contents.

Definition read_pte (pte : Z) : M mem Z := read pte.

Definition PageTable_from (pte : Z) : PageTable := mkPageTable (pte_to_phy pte).

Section ptable.
Context {cfg : Config}.

Definition get_phy_offset {S} (phy index : Z) : M S Z :=
  off ← u_mul index 8; mret (byte_add phy off).

Definition index_mut {S} (self : PageTable) (idx : Z) : M S Z :=
  assert (idx <? PTE_TOP) ;; get_phy_offset (pt_base self) idx.

(** One level of the walk: the table the entry of [va] points to, allocated when
    it is missing and [alloc_new] asks for it. *)
Definition walk_level (table : PageTable) (va : Z) (alloc_new : bool) (level : Z) :
    M VmState (result PageTable VmError) :=
  let idx := vpn va level in
  next ← index_mut table idx;
  e ← on_mem (read next);
  if PteGetFlag e PTE_VALID then mret (Ok (PageTable_from e))
  else if alloc_new then
    r ← vm_palloc;
    match r with
    | Ok pg =>
        on_mem (write next (PteSetFlag (phy_to_pte (pg_addr pg)) PTE_VALID)) ;;
        mret (Ok (PageTable_from (phy_to_pte (pg_addr pg))))
    | Err e => mret (Err e)
    end
  else mret (Err PallocFail).

(** Levels 2 and 1, then the address of the leaf entry. *)
Definition walk (pt : PageTable) (va : Z) (alloc_new : bool) : M VmState (result Z VmError) :=
  assert (va <? VA_TOP) ;;
  r ← walk_level pt va alloc_new 2;
  match r with
  | Err e => mret (Err e)
  | Ok table =>
      r ← walk_level table va alloc_new 1;
      match r with
      | Err e => mret (Err e)
      | Ok table =>
          let idx := vpn va 0 in
          p ← index_mut table idx;
          mret (Ok p)
      end
  end.

(** One turn of the loop of [page_map]. *)
Definition map_turn (pt : PageTable) (end_ flag : Z) (st : Z * Z) :
    M VmState ((Z * Z) + result unit VmError) :=
  let '(start, phys) := st in
  if start <=? end_ then
    walk_addr ← walk pt start true;
    match walk_addr with
    | Err e => mret (inr (Err e))
    | Ok pte_addr =>
        e ← on_mem (read_pte pte_addr);
        if negb (Z.land e PTE_VALID =? 0) then mret (inr (Err PallocFail))
        else
          on_mem (set_pte pte_addr (PteSetFlag (phy_to_pte phys) (Z.lor flag PTE_VALID))) ;;
          start ← u_add start PAGE_SIZE;
          phys ← u_add phys PAGE_SIZE;
          mret (inl (start, phys))
    end
  else mret (inr (Ok ())).

Definition page_map (pt : PageTable) (va pa size flag : Z) : M VmState (result unit VmError) :=
  let start := PageAlignDown va in
  let phys := pa in
  s ← u_sub size 1;
  e ← u_add va s;
  let end_ := PageAlignDown e in
  loop fuel (map_turn pt end_ flag) (start, phys).

(** The [?] operator. *)
Definition try {S A B E} (r : result A E) (k : A → M S (result B E)) : M S (result B E) :=
  match r with Ok a => k a | Err e => mret (Err e) end.

End ptable.

Section kernel_table.
Context {cfg : Config} {S : Type} `{!Host S}.

(** The stack pages of hart [s]: two pages above a guard page. *)
Fixpoint map_stacks (L : Layout) (pt : PageTable) (n : nat) (s : Z) : M S (result unit VmError) :=
  match n with
  | O => mret (Ok ())
  | Datatypes.S n' =>
      a ← u_mul s 3;
      b ← u_add 1 a;
      off ← u_mul PAGE_SIZE b;
      let stack := byte_add (stacks_start L) off in
      r ← on_host (page_map pt stack stack (PAGE_SIZE * 2) (Z.lor PTE_READ PTE_WRITE));
      try r (λ _,
      debug ["Succesfully mapped kernel stack "; pretty s; " into kernel pgtable..."]%string ;;
      map_stacks L pt n' (s + 1))
  end.

(** The machine and supervisor interrupt stacks of hart [i], a page each. *)
Fixpoint map_intstacks (L : Layout) (pt : PageTable) (n : nat) (i : Z) : M S (result unit VmError) :=
  match n with
  | O => mret (Ok ())
  | Datatypes.S n' =>
      a ← u_mul i 4;
      b ← u_add 1 a;
      off ← u_mul PAGE_SIZE b;
      let m_intstack := byte_add (intstacks_start L) off in
      r ← on_host (page_map pt m_intstack m_intstack PAGE_SIZE (Z.lor PTE_READ PTE_WRITE));
      try r (λ _,
      let s_intstack := byte_add m_intstack (PAGE_SIZE * 2) in
      r ← on_host (page_map pt s_intstack s_intstack PAGE_SIZE (Z.lor PTE_READ PTE_WRITE));
      try r (λ _,
      debug ["Succesfully mapped interrupt stack for hart "; pretty i; " into kernel pgtable..."]%string ;;
      map_intstacks L pt n' (i + 1)))
  end.

Definition kpage_init (L : Layout) : M S (result PageTable VmError) :=
  r ← on_host vm_palloc;
  base ← expect r;
  let kpage_table := mkPageTable (pg_addr base) in
  r ← on_host (page_map kpage_table UART_BASE UART_BASE PAGE_SIZE (Z.lor PTE_READ PTE_WRITE));
  try r (λ _,
  debug ["Successfully mapped UART into kernel pgtable..."%string] ;;
  s ← u_sub (text_end L) DRAM_BASE;
  r ← on_host (page_map kpage_table DRAM_BASE DRAM_BASE s (Z.lor PTE_READ PTE_EXEC));
  try r (λ _,
  debug ["Succesfully mapped kernel text into kernel pgtable..."%string] ;;
  s ← u_sub (rodata_end L) (text_end L);
  r ← on_host (page_map kpage_table (text_end L) (text_end L) s PTE_READ);
  try r (λ _,
  debug ["Succesfully mapped kernel rodata into kernel pgtable..."%string] ;;
  s ← u_sub (data_end L) (rodata_end L);
  r ← on_host (page_map kpage_table (rodata_end L) (rodata_end L) s (Z.lor PTE_READ PTE_WRITE));
  try r (λ _,
  debug ["Succesfully mapped kernel data into kernel pgtable..."%string] ;;
  r ← map_stacks L kpage_table (Z.to_nat NHART) 0;
  try r (λ _,
  r ← map_intstacks L kpage_table (Z.to_nat NHART) 0;
  try r (λ _,
  s ← u_sub (bss_end L) (bss_start L);
  r ← on_host (page_map kpage_table (bss_start L) (bss_start L) s (Z.lor PTE_READ PTE_WRITE));
  try r (λ _,
  debug ["Succesfully mapped kernel bss..."%string] ;;
  s ← u_sub (dram_end L) (bss_end L);
  r ← on_host (page_map kpage_table (bss_end L) (bss_end L) s (Z.lor PTE_READ PTE_WRITE));
  try r (λ _,
  debug ["Succesfully mapped kernel heap..."%string] ;;
  mret (Ok kpage_table))))))))).

End kernel_table.

#[global] Arguments kpage_init : simpl never.
