(* ===== verification/Sv39.v ===== *)
(** * Sv39 translation and the tree of tables

    What the hardware does with a page table ([sv39], after the privileged
    architecture manual), the representation of a table as a tree of distinct
    pages ([pt_rep]), and that the translation only depends on the leaf entries. *)

From S2P Require Import Prelude Machine Param Mutex Palloc FreeList VmState Ptable.

(** ** The hardware *)

(** A leaf entry at [level]: it must not be writable without being readable, and a
    superpage must be aligned. The result is the physical address and the flags. *)
Definition leaf_translate (e va : Z) (level : nat) : option (Z * Z) :=
  let span := 2 ^ (12 + 9 * Z.of_nat level) in
  if Z.testbit e 2 && negb (Z.testbit e 1) then None
  else if negb (pte_to_phy e mod span =? 0) then None
  else Some (pte_to_phy e + va mod span, e mod 1024).

(** An entry is invalid, a leaf (readable or executable), or a pointer. *)
Fixpoint sv39_walk (m : mem) (table va : Z) (level : nat) : option (Z * Z) :=
  match m !! (table + 8 * vpn va (Z.of_nat level)) with
  | None => None
  | Some e =>
      if negb (Z.testbit e 0) then None
      else if Z.testbit e 1 || Z.testbit e 3 then leaf_translate e va level
      else
        match level with
        | O => None
        | S l => if Z.testbit e 2 then None else sv39_walk m (pte_to_phy e) va l
        end
  end.

(** The walk of a machine that keeps the accessed and dirty bits of an entry up to date
    itself, as QEMU's virt machine does: [page_map] leaves them clear, and a machine that
    leaves them to software would fault on its entries. The reserved bits above the page
    number are not looked at. *)
Definition sv39 (m : mem) (root va : Z) : option (Z * Z) := sv39_walk m root va 2.

(** ** Formats *)

Lemma vpn_eq va level : 0 ≤ level → vpn va level = va / 2 ^ (12 + 9 * level) mod 512.
Proof.
  intros Hl. unfold vpn. change 0x1FF with (Z.ones 9). rewrite land_low by lia.
  by rewrite Z.shiftr_div_pow2 by lia.
Qed.

Lemma vpn_bound va level : 0 ≤ level → 0 ≤ vpn va level < 512.
Proof. intros Hl. rewrite vpn_eq by done. apply Z.mod_pos_bound. lia. Qed.

(** The three indices determine the page of an address. *)
Lemma vpn_split va : 0 ≤ va < VA_TOP →
  page_of va = PAGE_SIZE * (vpn va 0 + 512 * vpn va 1 + 262144 * vpn va 2).
Proof.
  change VA_TOP with 549755813888. intros Hva. rewrite !vpn_eq by lia.
  change (2 ^ (12 + 9 * 0)) with 4096. change (2 ^ (12 + 9 * 1)) with 2097152.
  change (2 ^ (12 + 9 * 2)) with 1073741824. unfold page_of, PAGE_SIZE. zdm.
Qed.

Lemma phy_to_pte_eq p : is_u64 p → phy_to_pte p = p / 4096 * 1024.
Proof.
  intros Hp. unfold phy_to_pte. rewrite Z.shiftl_mul_pow2, Z.shiftr_div_pow2 by lia.
  change (2 ^ 12) with 4096. change (2 ^ 10) with 1024. apply wrap_small.
  unfold is_u64 in *. rewrite u64_size_eq in *. zdm.
Qed.

(** The address comes back out of an entry, whatever its flags. *)
Lemma pte_phy p f :
  page_aligned p → is_u64 p → 0 ≤ f < 1024 → pte_to_phy (phy_to_pte p + f) = p.
Proof.
  intros Hal Hp Hf. rewrite phy_to_pte_eq by done. unfold pte_to_phy.
  rewrite Z.shiftl_mul_pow2, Z.shiftr_div_pow2 by lia.
  change (2 ^ 12) with 4096. change (2 ^ 10) with 1024. unfold page_aligned, PAGE_SIZE in Hal.
  replace ((p / 4096 * 1024 + f) / 1024 * 4096) with p by zdm. by apply wrap_small.
Qed.

Lemma pte_to_phy_aligned e : (pte_to_phy e mod PAGE_SIZE =? 0) = true.
Proof.
  unfold pte_to_phy, wrap, PAGE_SIZE. rewrite Z.shiftl_mul_pow2 by lia. change (2 ^ 12) with 4096.
  rewrite u64_size_eq. apply Z.eqb_eq. zdm.
Qed.

Lemma pte_set_flag p f :
  is_u64 p → 0 ≤ f < 1024 → PteSetFlag (phy_to_pte p) f = phy_to_pte p + f.
Proof.
  intros Hp Hf. unfold PteSetFlag. rewrite phy_to_pte_eq by done. apply (lor_add _ _ 10); [lia | | done].
  change (2 ^ 10) with 1024. zdm.
Qed.

(** The flags of an entry are its low ten bits. *)
Lemma pte_flag_bit p f i :
  is_u64 p → 0 ≤ f < 1024 → 0 ≤ i < 10 → Z.testbit (phy_to_pte p + f) i = Z.testbit f i.
Proof.
  intros Hp Hf Hi. rewrite phy_to_pte_eq by done.
  rewrite <- (Z.mod_pow2_bits_low (p / 4096 * 1024 + f) 10 i) by lia.
  change (2 ^ 10) with 1024. replace ((p / 4096 * 1024 + f) mod 1024) with f by zdm. done.
Qed.

Lemma PteGetFlag_valid e : PteGetFlag e PTE_VALID = Z.testbit e 0.
Proof.
  unfold PteGetFlag. change PTE_VALID with (2 ^ 0). rewrite land_bit by lia. apply negb_involutive.
Qed.

(** ** The tree of tables

    [own] says which pages are tables and where they hang: the path of a table is
    the list of indices that leads to it, last first, [[]] for the root. *)

Abbreviation path := (list Z).

(** A leaf entry: not valid, or one the hardware translates. *)
Definition leaf_ok (e : Z) : Prop :=
  Z.testbit e 0 = true →
  (Z.testbit e 1 || Z.testbit e 3 = true) ∧ Z.testbit e 2 && negb (Z.testbit e 1) = false.

Record pt_rep (m : mem) (root : Z) (own : gmap Z path) : Prop := {
  pt_root : own !! root = Some [];
  pt_inj : ∀ p q x, own !! p = Some x → own !! q = Some x → p = q;
  pt_page : ∀ p x, own !! p = Some x →
    page_aligned p ∧ 0 < p ∧ p + PAGE_SIZE < u64_size ∧ page_mapped m p;
  pt_parent : ∀ q i x, own !! q = Some (i :: x) → 0 ≤ i < 512 ∧ ∃ p, own !! p = Some x;
  pt_entry : ∀ p x i, own !! p = Some x → (length x < 2)%nat → 0 ≤ i < 512 →
    ∃ e, m !! (p + 8 * i) = Some e ∧
      ((Z.testbit e 0 = false ∧ ∀ q, own !! q ≠ Some (i :: x)) ∨
       ∃ q, own !! q = Some (i :: x) ∧ e = phy_to_pte q + 1);
  pt_leaf : ∀ p x i, own !! p = Some x → length x = 2%nat → 0 ≤ i < 512 →
    ∃ e, m !! (p + 8 * i) = Some e ∧ leaf_ok e
}.

(** The path of the leaf table of an address. *)
Definition leaf_path (va : Z) : path := [vpn va 1; vpn va 2].

(** What the leaf entry of an address says. *)
Definition leaf_entry (e va : Z) : option (Z * Z) :=
  if Z.testbit e 0 then Some (pte_to_phy e + va mod PAGE_SIZE, e mod 1024) else None.

(** The paths of the tables there are. *)
Definition tables (own : gmap Z path) : gset path := map_img own.

Lemma elem_of_tables own x : x ∈ tables own ↔ ∃ p, own !! p = Some x.
Proof. apply elem_of_map_img. Qed.

Lemma owner_dec (own : gmap Z path) (x : path) : (∃ p, own !! p = Some x) ∨ (∀ p : Z, own !! p ≠ Some x).
Proof.
  destruct (decide (x ∈ tables own)) as [Hx|Hx]; rewrite elem_of_tables in Hx; [by left|].
  right. intros p Hp. apply Hx. by exists p.
Qed.

Section tree.
Context {m : mem} {root : Z} {own : gmap Z path} (H : pt_rep m root own).

Lemma pt_page_u64 p x : own !! p = Some x → is_u64 p.
Proof. intros (_ & ? & ? & _)%(pt_page _ _ _ H). unfold is_u64, PAGE_SIZE in *. lia. Qed.

(** A step of the hardware walk at a table that is not a leaf. *)
Lemma sv39_step p x va l :
  own !! p = Some x → (length x < 2)%nat →
  let i := vpn va (Z.of_nat (S l)) in
  (∃ q, own !! q = Some (i :: x) ∧ sv39_walk m p va (S l) = sv39_walk m q va l) ∨
  ((∀ q, own !! q ≠ Some (i :: x)) ∧ sv39_walk m p va (S l) = None).
Proof.
  intros Hp Hx i. destruct (pt_entry _ _ _ H p x i Hp Hx) as (e & He & Hcase);
    [apply vpn_bound; lia|].
  cbn [sv39_walk]. fold i. rewrite He. destruct Hcase as [[Hv Hn]|(q & Hq & ->)].
  - right. by rewrite Hv.
  - left. exists q. split; [done|]. pose proof (pt_page_u64 _ _ Hq).
    rewrite !pte_flag_bit by (done || lia). cbn [Z.testbit Z.odd negb orb Pos.testbit].
    rewrite pte_phy; [done | by apply (pt_page _ _ _ H q _ Hq) | done | lia].
Qed.

(** The translation of an address, from its leaf table. *)
Lemma sv39_leaf p va : own !! p = Some (leaf_path va) →
  ∃ e, m !! (p + 8 * vpn va 0) = Some e ∧ leaf_ok e ∧ sv39 m root va = leaf_entry e va.
Proof.
  intros Hp. unfold leaf_path in Hp. unfold sv39.
  destruct (pt_parent _ _ _ H p (vpn va 1) [vpn va 2] Hp) as (_ & q & Hq).
  destruct (sv39_step root [] va 1 (pt_root _ _ _ H)) as [(q' & Hq' & ->)|[Hn _]];
    [simpl; lia | | by destruct (Hn q)].
  destruct (sv39_step q' [vpn va 2] va 0 Hq') as [(p' & Hp' & ->)|[Hn _]];
    [simpl; lia | | by destruct (Hn p)].
  assert (p' = p) as -> by by eapply pt_inj.
  destruct (pt_leaf _ _ _ H p _ (vpn va 0) Hp) as (e & He & Hok); [done | apply vpn_bound; lia|].
  exists e. split_and!; [done | done |]. unfold sv39_walk. change (Z.of_nat 0) with 0. rewrite He. unfold leaf_entry.
  destruct (Z.testbit e 0) eqn:Ev; [|done]. cbn [negb]. destruct (Hok Ev) as [-> Hw].
  unfold leaf_translate. rewrite Hw. change (2 ^ (12 + 9 * Z.of_nat 0)) with PAGE_SIZE.
  by rewrite pte_to_phy_aligned.
Qed.

Lemma sv39_no_leaf va : (∀ p, own !! p ≠ Some (leaf_path va)) → sv39 m root va = None.
Proof.
  intros Hn. unfold sv39.
  destruct (sv39_step root [] va 1 (pt_root _ _ _ H)) as [(q & Hq & ->)|[_ ->]];
    [simpl; lia | | done].
  destruct (sv39_step q [vpn va 2] va 0 Hq) as [(p & Hp & _)|[_ ->]];
    [simpl; lia | by destruct (Hn p) | done].
Qed.

(** Tables and their entries do not overlap. *)
Lemma entry_ne p q x y i j :
  own !! p = Some x → own !! q = Some y → 0 ≤ i < 512 → 0 ≤ j < 512 →
  p ≠ q ∨ i ≠ j → p + 8 * i ≠ q + 8 * j.
Proof.
  intros Hp Hq Hi Hj Hne E. destruct (pt_page _ _ _ H p x Hp) as (Ha & _).
  destruct (pt_page _ _ _ H q y Hq) as (Hb & _).
  assert (p = q); [|lia]. rewrite <- (page_of_unique p (p + 8 * i)) by (done || unfold PAGE_SIZE; lia).
  rewrite E. apply page_of_unique; [done | unfold PAGE_SIZE; lia].
Qed.

Lemma entry_valid p x i : own !! p = Some x → 0 ≤ i < 512 →
  (p + 8 * i) mod 8 = 0 ∧ is_Some (m !! (p + 8 * i)) ∧ is_u64 (p + 8 * i) ∧ page_of (p + 8 * i) = p.
Proof.
  intros Hp Hi. destruct (pt_page _ _ _ H p x Hp) as (Ha & Hpos & Hu & Hm).
  pose proof (page_aligned_8 _ Ha). unfold is_u64, PAGE_SIZE in *.
  assert ((p + 8 * i) mod 8 = 0) by zdm. split_and!; [done | | lia | lia |].
  - apply Hm; [unfold PAGE_SIZE; lia | done].
  - apply page_of_unique; [done | unfold PAGE_SIZE; lia].
Qed.

End tree.

Section changes.
Context {m : mem} {root : Z} {own : gmap Z path} (H : pt_rep m root own).

(** ** Changes to the memory *)

(** The tree only depends on the pages of its tables. *)
Lemma pt_rep_frame m' :
  (∀ a, is_Some (own !! page_of a) → m' !! a = m !! a) → pt_rep m' root own.
Proof.
  intros Hm. assert (∀ p x i, own !! p = Some x → 0 ≤ i < 512 → m' !! (p + 8 * i) = m !! (p + 8 * i)) as He.
  { intros p x i Hp Hi. apply Hm. destruct (entry_valid H p x i Hp Hi) as (_ & _ & _ & ->). by rewrite Hp. }
  split; try apply H.
  - intros p x Hp. destruct (pt_page _ _ _ H p x Hp) as (Ha & ? & ? & Hmp). split_and!; [done | done | done |].
    intros a Hin H8. rewrite Hm; [by apply Hmp|]. by rewrite (page_of_unique p), Hp.
  - intros p x i Hp Hx Hi. rewrite (He p x) by done. by apply (pt_entry _ _ _ H).
  - intros p x i Hp Hx Hi. rewrite (He p x) by done. by apply (pt_leaf _ _ _ H p x).
Qed.

Lemma sv39_frame m' y :
  (∀ a, is_Some (own !! page_of a) → m' !! a = m !! a) → sv39 m' root y = sv39 m root y.
Proof.
  intros Hm. pose proof (pt_rep_frame m' Hm) as H'.
  destruct (owner_dec own (leaf_path y)) as [[r Hr]|Hn].
  - destruct (sv39_leaf H r y Hr) as (e & He & _ & ->), (sv39_leaf H' r y Hr) as (e' & He' & _ & ->).
    rewrite Hm in He'; [congruence|].
    destruct (entry_valid H r _ _ Hr (vpn_bound y 0 (Z.le_refl 0))) as (_ & _ & _ & ->). by rewrite Hr.
  - by rewrite (sv39_no_leaf H y Hn), (sv39_no_leaf H' y Hn).
Qed.

(** Writing a leaf entry. *)
Lemma pt_set_leaf p x i e :
  own !! p = Some x → length x = 2%nat → 0 ≤ i < 512 → leaf_ok e →
  pt_rep (<[p + 8 * i := e]> m) root own.
Proof.
  intros Hp Hx Hi Hok. split; try apply H.
  - intros q y Hq. destruct (pt_page _ _ _ H q y Hq) as (? & ? & ? & Hmp). split_and!; [done | done | done |].
    intros a Ha H8. by apply is_Some_insert, Hmp.
  - intros q y j Hq Hy Hj. rewrite lookup_insert_ne; [by apply (pt_entry _ _ _ H)|].
    eapply (entry_ne H); [done | done | done | done |]. left. intros ->. rewrite Hp in Hq.
    injection Hq as ->. lia.
  - intros q y j Hq Hy Hj. destruct (decide (p + 8 * i = q + 8 * j)) as [->|Hne].
    + exists e. by rewrite lookup_insert_eq.
    + rewrite lookup_insert_ne by done. by apply (pt_leaf _ _ _ H q y).
Qed.

(** Only the page of the address is translated differently. *)
Lemma sv39_set_leaf p va e y :
  own !! p = Some (leaf_path va) → leaf_ok e → 0 ≤ va < VA_TOP → 0 ≤ y < VA_TOP →
  sv39 (<[p + 8 * vpn va 0 := e]> m) root y =
    if page_of y =? page_of va then leaf_entry e y else sv39 m root y.
Proof.
  intros Hp Hok Hva Hy. pose proof (vpn_bound va 0 (Z.le_refl 0)) as Hb.
  pose proof (vpn_bound y 0 (Z.le_refl 0)) as Hby.
  pose proof (pt_set_leaf p _ _ e Hp eq_refl Hb Hok) as H'.
  pose proof (vpn_split va Hva) as Eva. pose proof (vpn_split y Hy) as Ey.
  pose proof (vpn_bound va 1). pose proof (vpn_bound y 1).
  destruct (owner_dec own (leaf_path y)) as [[r Hr]|Hn].
  - destruct (sv39_leaf H' r y Hr) as (e' & He' & _ & ->), (sv39_leaf H r y Hr) as (e0 & He0 & _ & ->).
    destruct (decide (p + 8 * vpn va 0 = r + 8 * vpn y 0)) as [E|Hne].
    + rewrite E, lookup_insert_eq in He'. injection He' as <-.
      assert (r = p ∧ vpn y 0 = vpn va 0) as [-> E0].
      { destruct (decide (r = p ∧ vpn y 0 = vpn va 0)) as [?|Hd]; [done|].
        destruct (entry_ne H p r _ _ _ _ Hp Hr Hb Hby); [|done]. destruct (decide (r = p)); naive_solver. }
      rewrite Hp in Hr. injection Hr as E1 E2. rewrite Eva, Ey, E0, E1, E2. by rewrite Z.eqb_refl.
    + rewrite lookup_insert_ne in He' by done. assert (e' = e0) as -> by congruence.
      destruct (Z.eqb_spec (page_of y) (page_of va)) as [E|]; [|done].
      exfalso. apply Hne. unfold PAGE_SIZE in *. assert (vpn y 2 = vpn va 2 ∧ vpn y 1 = vpn va 1 ∧ vpn y 0 = vpn va 0)
        as (E2 & E1 & E0) by lia. unfold leaf_path in *. rewrite E1, E2 in Hr.
      assert (r = p) as -> by by eapply pt_inj. by rewrite E0.
  - rewrite (sv39_no_leaf H' y Hn), (sv39_no_leaf H y Hn).
    destruct (Z.eqb_spec (page_of y) (page_of va)) as [E|]; [|done]. exfalso.
    unfold PAGE_SIZE in *. assert (vpn y 2 = vpn va 2 ∧ vpn y 1 = vpn va 1) as (E2 & E1) by lia.
    apply (Hn p). unfold leaf_path in *. by rewrite E1, E2.
Qed.

(** Hanging a zeroed page into a free entry. *)
Section new_table.
Context (p q i : Z) (x : path).
Context (Hp : own !! p = Some x) (Hx : (length x < 2)%nat) (Hi : 0 ≤ i < 512).
Context (Hfree : ∀ q, own !! q ≠ Some (i :: x)) (Hq : own !! q = None).
Context (Hqa : page_aligned q) (Hq0 : 0 < q) (Hqu : q + PAGE_SIZE < u64_size) (Hz : page_zero m q).
Let m' : mem := <[p + 8 * i := phy_to_pte q + 1]> m.
Let own' : gmap Z path := <[q := i :: x]> own.

Lemma new_own r y : own' !! r = Some y → (r = q ∧ y = i :: x) ∨ (r ≠ q ∧ own !! r = Some y).
Proof.
  unfold own'. destruct (decide (q = r)) as [->|Hne].
  - rewrite lookup_insert_eq. intros [= <-]. by left.
  - rewrite lookup_insert_ne by done. intros ?. right. by split.
Qed.

Lemma own_new r y : own !! r = Some y → own' !! r = Some y.
Proof. intros Hr. unfold own'. rewrite lookup_insert_ne; [done|]. intros ->. by rewrite Hq in Hr. Qed.

Lemma new_entry j : 0 ≤ j < 512 → m' !! (q + 8 * j) = Some 0.
Proof.
  intros Hj. assert (page_of (q + 8 * j) = q) as Eq by (apply page_of_unique; [done | unfold PAGE_SIZE; lia]).
  unfold m'. rewrite lookup_insert_ne.
  - pose proof (page_aligned_8 _ Hqa). apply Hz; [unfold PAGE_SIZE; lia | zdm].
  - intros E. destruct (entry_valid H p x i Hp Hi) as (_ & _ & _ & Ep). rewrite E, Eq in Ep. subst q.
    by rewrite Hq in Hp.
Qed.

Lemma old_entry r y j : own !! r = Some y → 0 ≤ j < 512 → r ≠ p ∨ j ≠ i →
  m' !! (r + 8 * j) = m !! (r + 8 * j).
Proof.
  intros Hr Hj Hne. unfold m'. apply lookup_insert_ne.
  eapply (entry_ne H); [exact Hp | exact Hr | done | done |]. naive_solver.
Qed.

Lemma pt_new_table : pt_rep m' root own'.
Proof.
  assert (∀ r j, own' !! r = Some (j :: i :: x) → False) as Hno.
  { intros r j [[_ E]|[_ Hr]]%new_own; [|by destruct (pt_parent _ _ _ H r j (i :: x) Hr) as (_ & t & Ht); eapply Hfree].
    injection E as -> E. apply (f_equal length) in E. simpl in E. lia. }
  split.
  - apply own_new, H.
  - intros r t y [[-> ->]|[_ Hr]]%new_own [[-> Ht]|[_ Ht]]%new_own; [done | | | by eapply pt_inj].
    + by destruct (Hfree t).
    + subst y. by destruct (Hfree r).
  - intros r y [[-> ->]|[_ Hr]]%new_own.
    + split_and!; [done | done | done |]. intros a Ha H8. apply is_Some_insert. by rewrite Hz.
    + destruct (pt_page _ _ _ H r y Hr) as (? & ? & ? & Hm). split_and!; [done | done | done |].
      intros a Ha H8. by apply is_Some_insert, Hm.
  - intros r j y [[-> [= -> ->]]|[_ Hr]]%new_own.
    + split; [done|]. exists p. by apply own_new.
    + destruct (pt_parent _ _ _ H r j y Hr) as (? & t & Ht). split; [done|]. exists t. by apply own_new.
  - intros r y j [[-> ->]|[Hne Hr]]%new_own Hy Hj.
    + exists 0. split; [by apply new_entry|]. left. split; [done|]. intros t Ht. by eapply Hno.
    + destruct (decide (r = p ∧ j = i)) as [[-> ->]|Hn].
      * assert (y = x) as -> by congruence. exists (phy_to_pte q + 1). unfold m'. rewrite lookup_insert_eq.
        split; [done|]. right. exists q. unfold own'. by rewrite lookup_insert_eq.
      * destruct (pt_entry _ _ _ H r y j Hr Hy Hj) as (e & He & Hcase). exists e.
        split; [rewrite (old_entry r y); [done | done | done | destruct (decide (r = p)); naive_solver]|].
        destruct Hcase as [[Hv Hnone]|(t & Ht & ->)]; [left|right; exists t; by split; [apply own_new|]].
        split; [done|]. intros t [[-> [= -> ->]]|[_ Ht]]%new_own; [|by eapply Hnone].
        apply Hn. split; [|done]. by eapply pt_inj.
  - intros r y j [[-> ->]|[Hne Hr]]%new_own Hy Hj.
    + exists 0. split; [by apply new_entry|]. by intros ?.
    + destruct (pt_leaf _ _ _ H r y j Hr Hy Hj) as (e & He & Hok). exists e. split; [|done].
      rewrite (old_entry r y); [done | done | done |]. left. intros ->. assert (y = x) by congruence. subst. lia.
Qed.

Lemma sv39_new_table va : sv39 m' root va = sv39 m root va.
Proof.
  destruct (owner_dec own (leaf_path va)) as [[r Hr]|Hn].
  - destruct (sv39_leaf H r va Hr) as (e & He & _ & ->).
    destruct (sv39_leaf pt_new_table r va (own_new _ _ Hr)) as (e' & He' & _ & ->).
    rewrite (old_entry r (leaf_path va)) in He'; [congruence | done | apply vpn_bound; lia |].
    left. intros ->. assert (x = leaf_path va) by congruence. subst x. simpl in Hx. lia.
  - rewrite (sv39_no_leaf H va Hn).
    destruct (owner_dec own' (leaf_path va)) as [[r Hr]|Hn'].
    + destruct (sv39_leaf pt_new_table r va Hr) as (e & He & _ & ->).
      destruct (new_own r _ Hr) as [[-> _]|[_ Hr']]; [|by destruct (Hn r)].
      rewrite new_entry in He by (apply vpn_bound; lia). by injection He as <-.
    + by apply (sv39_no_leaf pt_new_table).
Qed.

End new_table.

End changes.
