(* ===== verification/PtProofs.v ===== *)
(** * Walking and mapping

    The runs of [walk] and [page_map] of src/vm/ptable.rs over the tree of tables:
    which tables they add ([evolves]), what they leave alone, and what the hardware
    translates afterwards. Pages come from an allocator that keeps
    [PageAllocSpec]. *)

From S2P Require Import Prelude Machine Param Mutex Palloc FreeList PallocTheorems VmState.
From S2P Require Import Ptable Sv39.

(** ** Counting tables *)

(** How many of the paths [xs] have no table yet. *)
Fixpoint fresh (T : gset path) (xs : list path) : nat :=
  match xs with
  | [] => 0
  | x :: xs' => ((if decide (x ∈ T) then 0 else 1) + fresh ({[x]} ∪ T) xs')%nat
  end.

Lemma fresh_app T xs ys : fresh T (xs ++ ys) = (fresh T xs + fresh (list_to_set xs ∪ T) ys)%nat.
Proof.
  revert T. induction xs as [|x xs IH]; intros T; simpl.
  - f_equal. set_solver.
  - rewrite IH, Nat.add_assoc. do 2 f_equal. set_solver.
Qed.

(** The paths of the tables the [n] pages from [va] on need. *)
Fixpoint range_paths (va : Z) (n : nat) : list path :=
  match n with
  | O => []
  | S n' => [vpn va 2] :: leaf_path va :: range_paths (va + PAGE_SIZE) n'
  end.

(** The tables of [xs] were added, out of the free pages [fl]. *)
Record evolves (xs : list path) (m : mem) (own : gmap Z path) (fl : list Z)
    (m' : mem) (own' : gmap Z path) (fl' : list Z) : Prop := {
  ev_tables : tables own' = list_to_set xs ∪ tables own;
  ev_cost : length fl = (length fl' + fresh (tables own) xs)%nat;
  ev_own : ∀ p, is_Some (own' !! p) → is_Some (own !! p) ∨ p ∈ fl;
  ev_sub : own ⊆ own';
  ev_fl : fl' `suffix_of` fl;
  ev_frame : ∀ a, own !! page_of a = None → page_of a ∉ fl → m' !! a = m !! a
}.

Lemma suffix_subseteq (l1 l2 : list Z) x : l1 `suffix_of` l2 → x ∈ l1 → x ∈ l2.
Proof. intros [k ->] Hx. apply elem_of_app. by right. Qed.

Lemma evolves_refl m own fl : evolves [] m own fl m own fl.
Proof. split; simpl; [set_solver | lia | by left | done | done | done]. Qed.

Lemma evolves_trans xs ys m own fl m1 own1 fl1 m2 own2 fl2 :
  evolves xs m own fl m1 own1 fl1 → evolves ys m1 own1 fl1 m2 own2 fl2 →
  evolves (xs ++ ys) m own fl m2 own2 fl2.
Proof.
  intros [T1 C1 O1 S1 F1 M1] [T2 C2 O2 S2 F2 M2]. split.
  - rewrite T2, T1, list_to_set_app_L. set_solver.
  - rewrite fresh_app, <- T1. lia.
  - intros p [Hp|Hp]%O2; [by apply O1|]. right. by apply (suffix_subseteq _ _ _ F1).
  - by trans own1.
  - by trans fl1.
  - intros a Ha Hfl. rewrite M2; [by apply M1 | | intros Hin; by apply Hfl, (suffix_subseteq _ _ _ F1)].
    destruct (own1 !! page_of a) eqn:E; [|done].
    destruct (O1 (page_of a)) as [Hs|?]; [by rewrite E | | done]. rewrite Ha in Hs. by destruct Hs.
Qed.

Section walk.
Context {cfg : Config} (rep : mem → PagePool → list Z → Prop) `{!PageAllocSpec rep}.

(** A page table beside the pool its tables come from. *)
Record pt_state (m : mem) (pp : PagePool) (root : Z) (own : gmap Z path) (fl : list Z) : Prop := {
  ps_pt : pt_rep m root own;
  ps_pool : rep m pp fl;
  ps_disj : ∀ p, p ∈ fl → own !! p = None
}.

Lemma wp_index_mut {m root own} (H : pt_rep m root own) {S} p x i (s : S) (Q : Z → S → Prop) P :
  own !! p = Some x → 0 ≤ i < 512 → Q (p + 8 * i) s → wp (index_mut (mkPageTable p) i) s Q P.
Proof.
  intros Hp Hi HQ. destruct (entry_valid H p x i Hp Hi) as (_ & _ & Hu & _).
  unfold index_mut, get_phy_offset. change PTE_TOP with 512. wp_steps. cbn [pt_base].
  rewrite byte_add_small by (by rewrite Z.mul_comm). by rewrite (Z.mul_comm i).
Qed.

Section level.
Context {m : mem} {pp : PagePool} {root : Z} {own : gmap Z path} {fl : list Z}.
Context (H : pt_state m pp root own fl).

(** A missing table is hung in. *)
Lemma level_alloc p x i q fl' m1 pp1 :
  fl = q :: fl' → own !! p = Some x → (length x < 2)%nat → 0 ≤ i < 512 →
  (∀ r, own !! r ≠ Some (i :: x)) →
  rep m1 pp1 fl' → page_zero m1 q → same_outside fl m m1 → keeps m m1 →
  let m' := <[p + 8 * i := phy_to_pte q + 1]> m1 in
  let own' := <[q := i :: x]> own in
  pt_state m' pp1 root own' fl' ∧ evolves [i :: x] m own fl m' own' fl' ∧
  ∀ y, sv39 m' root y = sv39 m root y.
Proof.
  intros Efl Hp Hx Hi Hno Hrep1 Hz Hs Hk m' own'.
  assert (∀ a, is_Some (own !! page_of a) → m1 !! a = m !! a) as Hm1.
  { intros a [y Ha]. apply Hs. intros Hin. apply (ps_disj _ _ _ _ _ H) in Hin. congruence. }
  pose proof (pt_rep_frame (ps_pt _ _ _ _ _ H) m1 Hm1) as Hpt1.
  assert (q ∈ fl) as Hqfl by (rewrite Efl; left).
  pose proof (ps_disj _ _ _ _ _ H q Hqfl) as Hq.
  destruct (pas_page _ _ _ q (ps_pool _ _ _ _ _ H) Hqfl) as ([Hqa _] & Hq0 & Hqu & _).
  pose proof (pt_new_table Hpt1 p q i x Hp Hx Hi Hno Hq Hqa Hq0 Hqu Hz) as Hpt'.
  destruct (entry_valid Hpt1 p x i Hp Hi) as (_ & _ & _ & Epg).
  assert (q ∉ fl') as Hqn.
  { pose proof (pas_nodup _ _ _ (ps_pool _ _ _ _ _ H)) as Hnd. rewrite Efl in Hnd.
    by apply NoDup_cons in Hnd as [? _]. }
  assert (p ∉ fl') as Hpn.
  { intros Hin. assert (own !! p = None); [|congruence].
    apply (ps_disj _ _ _ _ _ H). rewrite Efl. by right. }
  split_and!.
  - split; [exact Hpt' | |].
    + eapply pas_frame; [exact Hrep1 | | apply keeps_insert].
      intros a Ha. unfold m'. apply lookup_insert_ne. intros <-. by rewrite Epg in Ha.
    + intros r Hr. unfold own'. rewrite lookup_insert_ne by set_solver.
      apply (ps_disj _ _ _ _ _ H). rewrite Efl. by right.
  - split.
    + apply set_eq. intros y. rewrite elem_of_union, !elem_of_tables. simpl. split.
      * intros [r Hr]. unfold own' in Hr. apply lookup_insert_Some in Hr as [[_ <-]|[_ Hr]]; [set_solver|eauto].
      * intros [Hy|[r Hr]]; [exists q; unfold own'; rewrite lookup_insert_eq; set_solver|].
        exists r. unfold own'. rewrite lookup_insert_ne; [done|]. intros ->. congruence.
    + simpl. rewrite decide_False; [rewrite Efl; simpl; lia|]. rewrite elem_of_tables.
      intros [r Hr]. by eapply Hno.
    + intros r [y Hr]. unfold own' in Hr. apply lookup_insert_Some in Hr as [[<- _]|[_ Hr]]; eauto.
    + by apply insert_subseteq.
    + rewrite Efl. apply suffix_cons_r, reflexivity.
    + intros a Ha Hfl. unfold m'. rewrite lookup_insert_ne; [by apply Hs|].
      intros <-. rewrite Epg in Ha. congruence.
  - intros y. unfold m'. rewrite (sv39_new_table Hpt1 p q i x) by done.
    by apply (sv39_frame (ps_pt _ _ _ _ _ H)).
Qed.

(** One level: the table is there, or is added, or no page is left. *)
Lemma wp_walk_level p x va level (Q : _ → VmState → Prop) P :
  own !! p = Some x → (length x < 2)%nat → 0 ≤ level → (2 < fuel)%nat →
  (∀ m' pp' own' fl' q, pt_state m' pp' root own' fl' → own' !! q = Some (vpn va level :: x) →
    evolves [vpn va level :: x] m own fl m' own' fl' →
    (∀ y, sv39 m' root y = sv39 m root y) → Q (Ok (mkPageTable q)) (mkVm m' (Some pp'))) →
  (fl = [] → vpn va level :: x ∉ tables own → Q (Err OutOfPages) (mkVm m (Some pp))) →
  wp (walk_level (mkPageTable p) va true level) (mkVm m (Some pp)) Q P.
Proof.
  intros Hp Hx Hl Hf Hok Herr. pose proof (vpn_bound va level Hl) as Hi. set (i := vpn va level) in *.
  pose proof (ps_pt _ _ _ _ _ H) as Hpt. destruct (entry_valid Hpt p x i Hp Hi) as (H8 & Hsome & _ & _).
  destruct (pt_entry _ _ _ Hpt p x i Hp Hx Hi) as (e & He & Hcase).
  unfold walk_level. fold i. apply wp_bind. eapply (wp_index_mut Hpt); [exact Hp | done |].
  apply wp_bind, wp_on_mem. eapply wp_read; [done | exact He |]. rewrite PteGetFlag_valid.
  destruct Hcase as [[Hv Hno]|(q & Hq & ->)].
  - rewrite Hv. destruct (list_cases fl) as [E|(q & fl' & E)].
    + apply wp_bind. unfold vm_palloc. apply wp_with_pool.
      eapply wp_mono; [apply wp_exact, pas_palloc_empty; [|lia] | | done].
      { rewrite <- E. apply H. }
      intros [r pp1] m2 [[= -> ->] ->]. apply wp_ret, Herr; [done|].
      rewrite elem_of_tables. intros [r Hr]. by eapply Hno.
    + apply wp_bind. unfold vm_palloc. apply wp_with_pool. cbn [vm_mem set_mem PAGEPOOL].
      eapply wp_mono; [eapply pas_palloc; [rewrite <- E; apply H | done] | | done].
      intros [r pp1] m1 (Hr & Hrep1 & _ & Hz & Hs & Hk). simpl in Hr. subst r. cbn [fst snd].
      rewrite <- E in Hs. destruct (level_alloc p x i q fl' m1 pp1) as (Hst & Hev & Hsv); try done.
      assert (q ∈ fl) as Hqfl by (rewrite E; left).
      destruct (pas_page _ _ _ q (ps_pool _ _ _ _ _ H) Hqfl) as ([Hqa _] & Hq0 & Hqu & _).
      assert (is_u64 q) by (unfold is_u64, PAGE_SIZE in *; lia).
      apply wp_bind, wp_on_mem, wp_write; [done | by apply Hk |]. cbn [pg_addr].
      rewrite pte_set_flag by (done || (change PTE_VALID with 1; lia)).
      unfold set_mem. cbn [vm_mem PAGEPOOL]. apply wp_ret. unfold PageTable_from.
      rewrite <- (Z.add_0_r (phy_to_pte q)) at 1. rewrite pte_phy by (done || lia).
      eapply Hok; [exact Hst | by rewrite lookup_insert_eq | exact Hev | exact Hsv].
  - destruct (pt_page _ _ _ Hpt q _ Hq) as (Hqa & _). pose proof (pt_page_u64 Hpt _ _ Hq).
    rewrite pte_flag_bit by (done || lia). apply wp_ret. unfold PageTable_from.
    rewrite pte_phy by (done || lia). unfold set_mem. cbn [vm_mem PAGEPOOL].
    eapply Hok; [exact H | exact Hq | | done].
    assert (i :: x ∈ tables own) as Hin by (rewrite elem_of_tables; eauto).
    split; simpl; [set_solver | rewrite decide_True by done; lia | by left | done | done | done].
Qed.

End level.

(** The walk reaches the leaf entry of [va], or runs out of pages. *)
Lemma wp_walk m pp root own fl va (Q : _ → VmState → Prop) P :
  pt_state m pp root own fl → 0 ≤ va < VA_TOP → (2 < fuel)%nat →
  (∀ m' pp' own' fl' p, pt_state m' pp' root own' fl' → own' !! p = Some (leaf_path va) →
    evolves (range_paths va 1) m own fl m' own' fl' →
    (∀ y, sv39 m' root y = sv39 m root y) → Q (Ok (p + 8 * vpn va 0)) (mkVm m' (Some pp'))) →
  (∀ m' pp' own' fl', pt_state m' pp' root own' fl' →
    (length fl < fresh (tables own) (range_paths va 1))%nat →
    (∀ y, sv39 m' root y = sv39 m root y) → Q (Err OutOfPages) (mkVm m' (Some pp'))) →
  wp (walk (mkPageTable root) va true) (mkVm m (Some pp)) Q P.
Proof.
  intros H Hva Hf Hok Herr. unfold walk. apply wp_bind, wp_assert_true; [lia|]. apply wp_bind.
  eapply (wp_walk_level H); [apply H | simpl; lia | lia | done | |].
  - intros m1 pp1 own1 fl1 q H1 Hq Hev1 Hsv1. apply wp_bind.
    eapply (wp_walk_level H1); [exact Hq | simpl; lia | lia | done | |].
    + intros m2 pp2 own2 fl2 p H2 Hp Hev2 Hsv2. apply wp_bind.
      eapply (wp_index_mut (ps_pt _ _ _ _ _ H2)); [exact Hp | apply vpn_bound; lia |]. apply wp_ret.
      eapply Hok; [exact H2 | exact Hp | |].
      * exact (evolves_trans _ _ _ _ _ _ _ _ _ _ _ Hev1 Hev2).
      * intros y. by rewrite Hsv2, Hsv1.
    + intros E Hn. apply wp_ret. eapply Herr; [exact H1 | | done].
      destruct Hev1 as [Ht Hc _ _ _ _]. cbn [range_paths].
      change ([vpn va 2] :: ?l) with ([[vpn va 2]] ++ l). rewrite fresh_app.
      simpl in *. rewrite (decide_False (P := leaf_path va ∈ _)); [rewrite E in Hc; simpl in Hc; lia|].
      rewrite Ht in Hn. unfold leaf_path. set_solver.
  - intros E Hn. apply wp_ret. eapply Herr; [exact H | | done].
    rewrite E. simpl. rewrite decide_False by done. lia.
Qed.

(** Flags of a mapping: readable or executable, and not writable only. *)
Definition leaf_flags (f : Z) : bool :=
  (0 <=? f) && (f <? 1024) && (Z.testbit f 1 || Z.testbit f 3) &&
  negb (Z.testbit f 2 && negb (Z.testbit f 1)).

(** The flags a mapping gets. *)
Definition with_valid (f : Z) : Z := Z.lor f PTE_VALID.

Lemma with_valid_bits f i :
  0 ≤ i → Z.testbit (with_valid f) i = if i =? 0 then true else Z.testbit f i.
Proof.
  intros Hi. unfold with_valid. change PTE_VALID with (2 ^ 0). rewrite Z.lor_spec, Z.pow2_bits_eqb by lia.
  destruct (Z.eqb_spec 0 i) as [<-|Hne]; [by rewrite orb_true_r|].
  rewrite (proj2 (Z.eqb_neq i 0)) by lia. apply orb_false_r.
Qed.

Lemma with_valid_bound f : 0 ≤ f < 1024 → 0 ≤ with_valid f < 1024.
Proof.
  intros Hf. assert (0 ≤ with_valid f) by (apply Z.lor_nonneg; change PTE_VALID with 1; lia).
  split; [done|]. change 1024 with (2 ^ 10). apply Z.log2_lt_cancel.
  destruct (decide (with_valid f = 0)) as [->|]; [done|].
  unfold with_valid. rewrite Z.log2_lor by (change PTE_VALID with 1; lia).
  change (Z.log2 (2 ^ 10)) with 10. change (Z.log2 PTE_VALID) with 0.
  assert (Z.log2 f < 10); [|lia]. destruct (decide (f = 0)) as [->|]; [done|].
  apply Z.log2_lt_pow2; [lia|]. change (2 ^ 10) with 1024. lia.
Qed.

(** The entry [page_map] writes, and what the hardware makes of it. *)
Lemma map_entry phys f :
  leaf_flags f = true → page_aligned phys → is_u64 phys →
  let e := PteSetFlag (phy_to_pte phys) (with_valid f) in
  leaf_ok e ∧ ∀ y, leaf_entry e y = Some (phys + y mod PAGE_SIZE, with_valid f).
Proof.
  intros Hf Hal Hu e. unfold leaf_flags in Hf.
  apply andb_true_iff in Hf as [[Hb Hrx]%andb_true_iff Hw].
  assert (0 ≤ f < 1024) as Hfb by lia. pose proof (with_valid_bound f Hfb) as Hvb.
  assert (e = phy_to_pte phys + with_valid f) as Ee by by apply pte_set_flag.
  assert (∀ i, 0 ≤ i < 10 → Z.testbit e i = if i =? 0 then true else Z.testbit f i) as Hbit.
  { intros i Hi. rewrite Ee, pte_flag_bit by done. apply with_valid_bits. lia. }
  split.
  - intros _. rewrite !Hbit by lia. simpl. split; [done|]. by apply negb_true_iff.
  - intros y. unfold leaf_entry. rewrite Hbit by lia. simpl. rewrite Ee, pte_phy by done.
    do 2 f_equal. rewrite phy_to_pte_eq by done. zdm.
Qed.

(** One page. *)
Lemma wp_map_turn m pp root own fl va phys end_ f (Q : _ → VmState → Prop) P :
  pt_state m pp root own fl → page_aligned va → 0 ≤ va < VA_TOP → va ≤ end_ →
  page_aligned phys → 0 ≤ phys → phys + PAGE_SIZE < u64_size → leaf_flags f = true →
  sv39 m root va = None → (fresh (tables own) (range_paths va 1) ≤ length fl)%nat → (2 < fuel)%nat →
  (∀ m' pp' own' fl', pt_state m' pp' root own' fl' →
    evolves (range_paths va 1) m own fl m' own' fl' →
    (∀ y, 0 ≤ y < VA_TOP → sv39 m' root y =
      if page_of y =? va then Some (phys + y mod PAGE_SIZE, with_valid f) else sv39 m root y) →
    Q (inl (va + PAGE_SIZE, phys + PAGE_SIZE)) (mkVm m' (Some pp'))) →
  wp (map_turn (mkPageTable root) end_ f (va, phys)) (mkVm m (Some pp)) Q P.
Proof.
  intros H Hal Hva Hend Hpal Hp0 Hpu Hfl Hnone Hfr Hf HQ. unfold map_turn.
  rewrite (proj2 (Z.leb_le va end_)) by done. apply wp_bind.
  eapply wp_walk; [exact H | done | done | | intros; lia].
  intros m1 pp1 own1 fl1 p H1 Hp Hev Hsv. pose proof (ps_pt _ _ _ _ _ H1) as Hpt.
  pose proof (vpn_bound va 0 (Z.le_refl 0)) as Hb0.
  destruct (entry_valid Hpt p _ _ Hp Hb0) as (H8 & Hsome & _ & Epg).
  destruct (sv39_leaf Hpt p va Hp) as (e & He & Hok & Ee). rewrite Hsv, Hnone in Ee.
  unfold leaf_entry in Ee. destruct (Z.testbit e 0) eqn:Ev; [done|].
  apply wp_bind, wp_on_mem. eapply wp_read; [done | exact He |]. change PTE_VALID with (2 ^ 0) at 1.
  rewrite land_bit, Ev by lia. cbn [negb]. fold (with_valid f).
  assert (is_u64 phys) as Hpu' by (unfold is_u64, PAGE_SIZE in *; lia).
  destruct (map_entry phys f Hfl Hpal Hpu') as [Hok' Hent]. set (e' := PteSetFlag _ _) in *.
  apply wp_bind, wp_on_mem, wp_write; [done | done |]. unfold set_mem. cbn [vm_mem PAGEPOOL].
  change VA_TOP with 549755813888 in *.
  unfold PAGE_SIZE. apply wp_bind, wp_u_add; [u64_range|].
  apply wp_bind, wp_u_add; [unfold PAGE_SIZE in *; u64_range|]. apply wp_ret. eapply HQ.
  - split; [by apply (pt_set_leaf Hpt p (leaf_path va)) | | apply H1].
    eapply pas_frame; [apply H1 | | apply keeps_insert]. intros a Ha.
    apply lookup_insert_ne. intros <-. rewrite Epg in Ha. apply (ps_disj _ _ _ _ _ H1) in Ha. congruence.
  - destruct Hev as [Ht Hc Ho Hs Hl Hm]. split; try done. intros a Ha Hafl.
    rewrite lookup_insert_ne; [by apply Hm|]. intros <-. rewrite Epg in Ha, Hafl.
    destruct (Ho p) as [[? ?]|?]; [by rewrite Hp | congruence | done].
  - intros y Hy. rewrite (sv39_set_leaf Hpt) by done. rewrite (page_of_id va) by done.
    destruct (page_of y =? va); [apply Hent | apply Hsv].
Qed.

(** What a table translates after the [n] pages from [va] are mapped to [pa]. *)
Definition maps_range (f0 : Z → option (Z * Z)) (va pa : Z) (n : nat) (f : Z) (y : Z) : option (Z * Z) :=
  if (va <=? y) && (y <? va + PAGE_SIZE * Z.of_nat n) then Some (pa + (y - va), with_valid f) else f0 y.

Lemma range_paths_cons va n : range_paths va (S n) = range_paths va 1 ++ range_paths (va + PAGE_SIZE) n.
Proof. done. Qed.

(** All the pages of the range. *)
Lemma wp_map_loop n N m pp root own fl va phys f (Q : _ → VmState → Prop) P :
  pt_state m pp root own fl → page_aligned va → 0 ≤ va → va + PAGE_SIZE * Z.of_nat n ≤ VA_TOP →
  page_aligned phys → 0 ≤ phys → phys + PAGE_SIZE * Z.of_nat n < u64_size → leaf_flags f = true →
  (∀ y, va ≤ y < va + PAGE_SIZE * Z.of_nat n → page_aligned y → sv39 m root y = None) →
  (fresh (tables own) (range_paths va n) ≤ length fl)%nat → (2 < fuel)%nat → (n < N)%nat →
  (∀ m' pp' own' fl', pt_state m' pp' root own' fl' →
    evolves (range_paths va n) m own fl m' own' fl' →
    (∀ y, 0 ≤ y < VA_TOP → sv39 m' root y = maps_range (sv39 m root) va phys n f y) →
    Q (Ok ()) (mkVm m' (Some pp'))) →
  wp (loop N (map_turn (mkPageTable root) (va + PAGE_SIZE * (Z.of_nat n - 1)) f) (va, phys))
    (mkVm m (Some pp)) Q P.
Proof.
  intros H Hal Hva Htop Hpal Hp0 Hpu Hfl Hnone Hfr Hf. unfold PAGE_SIZE in *.
  remember (va + 4096 * (Z.of_nat n - 1)) as e eqn:Ee.
  revert N m pp own fl va phys H Hal Hva Htop Hpal Hp0 Hpu Hnone Hfr Ee Q.
  induction n as [|n IH]; intros N m pp own fl va phys H Hal Hva Htop Hpal Hp0 Hpu Hnone Hfr Ee Q HN HQ;
    (destruct N as [|N]; [lia|]); apply wp_loop_turn.
  - unfold map_turn. rewrite (proj2 (Z.leb_gt va e)) by lia. apply wp_ret.
    eapply HQ; [exact H | apply evolves_refl |]. intros y Hy. unfold maps_range, PAGE_SIZE.
    destruct (Z.leb_spec va y), (Z.ltb_spec y (va + 4096 * Z.of_nat 0)); (done || lia).
  - rewrite range_paths_cons, fresh_app in Hfr.
    eapply wp_map_turn; [exact H | done | lia | lia | done | done | unfold PAGE_SIZE; lia | done | | lia | done |].
    { apply Hnone; [lia | done]. }
    intros m1 pp1 own1 fl1 H1 Hev1 Hsv1. unfold PAGE_SIZE in *.
    pose proof (ev_tables _ _ _ _ _ _ _ Hev1) as Ht1. pose proof (ev_cost _ _ _ _ _ _ _ Hev1) as Hc1.
    apply (IH N m1 pp1 own1 fl1 (va + 4096) (phys + 4096)); try done; try lia.
    + apply (page_aligned_add va 1). done.
    + apply (page_aligned_add phys 1). done.
    + intros y Hy Hya. rewrite Hsv1 by lia. rewrite (page_of_id y) by done.
      rewrite (proj2 (Z.eqb_neq y va)) by lia. apply Hnone; [lia | done].
    + rewrite Ht1. unfold PAGE_SIZE in *. lia.
    + intros m2 pp2 own2 fl2 H2 Hev2 Hsv2.
      eapply HQ; [exact H2 | rewrite range_paths_cons; eapply evolves_trans; [exact Hev1 | exact Hev2] |].
      intros y Hy. rewrite Hsv2 by done. unfold maps_range, PAGE_SIZE in *. rewrite Hsv1 by done.
      pose proof (page_of_bounds y) as Hpb. unfold PAGE_SIZE in Hpb.
      destruct (Z.eqb_spec (page_of y) va) as [E|E].
      * assert (y mod 4096 = y - va) as -> by (unfold page_of, PAGE_SIZE in E; lia).
        destruct (Z.leb_spec (va + 4096) y), (Z.leb_spec va y),
          (Z.ltb_spec y (va + 4096 + 4096 * Z.of_nat n)), (Z.ltb_spec y (va + 4096 * Z.of_nat (S n))); (done || lia).
      * assert (y < va ∨ va + 4096 ≤ y) as Hy'.
        { destruct (Z.lt_ge_cases y va); [by left|]. right. destruct (Z.lt_ge_cases y (va + 4096)); [|done].
          exfalso. apply E. apply page_of_unique; [done | unfold PAGE_SIZE; lia]. }
        destruct (Z.leb_spec (va + 4096) y), (Z.leb_spec va y),
          (Z.ltb_spec y (va + 4096 + 4096 * Z.of_nat n)), (Z.ltb_spec y (va + 4096 * Z.of_nat (S n)));
          simpl; try (done || lia). do 2 f_equal. lia.
Qed.

Lemma PageAlignDown_eq a : is_u64 a → PageAlignDown a = page_of a.
Proof.
  intros Ha. unfold PageAlignDown. change (PAGE_SIZE - 1) with (Z.ones 12). by rewrite land_high.
Qed.

(** [page_map] of [n] pages that are not mapped yet. *)
Lemma wp_page_map m pp root own fl va pa n f (Q : _ → VmState → Prop) P :
  pt_state m pp root own fl → page_aligned va → 0 ≤ va → va + PAGE_SIZE * Z.of_nat n ≤ VA_TOP →
  page_aligned pa → 0 ≤ pa → pa + PAGE_SIZE * Z.of_nat n < u64_size → leaf_flags f = true →
  (1 ≤ n)%nat →
  (∀ y, va ≤ y < va + PAGE_SIZE * Z.of_nat n → page_aligned y → sv39 m root y = None) →
  (fresh (tables own) (range_paths va n) ≤ length fl)%nat → (2 < fuel)%nat → (n < fuel)%nat →
  (∀ m' pp' own' fl', pt_state m' pp' root own' fl' →
    evolves (range_paths va n) m own fl m' own' fl' →
    (∀ y, 0 ≤ y < VA_TOP → sv39 m' root y = maps_range (sv39 m root) va pa n f y) →
    Q (Ok ()) (mkVm m' (Some pp'))) →
  wp (page_map (mkPageTable root) va pa (PAGE_SIZE * Z.of_nat n) f) (mkVm m (Some pp)) Q P.
Proof.
  intros H Hal Hva Htop Hpal Hp0 Hpu Hfl Hn Hnone Hfr Hf HN HQ. unfold page_map.
  change VA_TOP with 549755813888 in *. unfold PAGE_SIZE in *.
  assert (is_u64 va) by u64_range. assert (is_u64 (va + (4096 * Z.of_nat n - 1))) by u64_range.
  apply wp_bind, wp_u_sub; [u64_range|]. apply wp_bind, wp_u_add; [done|].
  rewrite !PageAlignDown_eq by done. rewrite (page_of_id va) by done.
  replace (page_of (va + (4096 * Z.of_nat n - 1))) with (va + PAGE_SIZE * (Z.of_nat n - 1)).
  - by eapply wp_map_loop.
  - symmetry. apply page_of_unique; [by apply page_aligned_add | unfold PAGE_SIZE; lia].
Qed.

End walk.
