(* ===== verification/KpageProofs.v ===== *)
(** * Building the kernel's map

    [kpage_init] of src/vm/ptable.rs maps a list of disjoint regions one after the
    other. [kmap] is what a list of regions translates, [kinv] the state between two
    calls of [page_map]; 67 free pages are enough for all the tables. *)

From S2P Require Import Prelude Machine Param Mutex Palloc FreeList PallocTheorems VmState.
From S2P Require Import Host Ptable Sv39 PtProofs.

(** ** A bound on the tables *)

Lemma fresh_size T xs : (fresh T xs + size T)%nat = size (list_to_set xs ∪ T).
Proof.
  revert T. induction xs as [|x xs IH]; intros T; simpl.
  - f_equal. set_solver.
  - specialize (IH ({[x]} ∪ T)). replace ({[x]} ∪ list_to_set xs ∪ T) with (list_to_set xs ∪ ({[x]} ∪ T)) by set_solver.
    rewrite <- IH. destruct (decide (x ∈ T)) as [Hx|Hx].
    + replace ({[x]} ∪ T) with T by set_solver. lia.
    + rewrite (size_union {[x]} T) by set_solver. rewrite size_singleton. lia.
Qed.

Lemma fresh_length T xs : (fresh T xs ≤ length xs)%nat.
Proof.
  revert T. induction xs as [|x xs IH]; intros T; simpl; [lia|].
  specialize (IH ({[x]} ∪ T)). destruct (decide (x ∈ T)); lia.
Qed.

Lemma fresh_bound T xs S : (∀ x, x ∈ xs → x ∈ S) → (fresh T xs ≤ length S)%nat.
Proof.
  intros Hs. pose proof (fresh_size T xs). pose proof (fresh_size T S). pose proof (fresh_length T S).
  assert (size (list_to_set xs ∪ T) ≤ size (list_to_set S ∪ T))%nat; [|lia].
  apply subseteq_size. set_solver.
Qed.

(** ** Regions *)

(** Start, pages, flags of an identity mapped region. *)
Abbreviation region := (Z * nat * Z)%type.

Definition region_end (r : region) : Z := r.1.1 + PAGE_SIZE * Z.of_nat r.1.2.

Definition region_ok (r : region) : Prop :=
  page_aligned r.1.1 ∧ 0 < r.1.1 ∧ region_end r ≤ VA_TOP ∧ leaf_flags r.2 = true.

Definition in_region (r : region) (y : Z) : bool := (r.1.1 <=? y) && (y <? region_end r).

(** What the regions, the latest first, translate. *)
Fixpoint kmap (rs : list region) (y : Z) : option (Z * Z) :=
  match rs with
  | [] => None
  | r :: rs' => if in_region r y then Some (y, with_valid r.2) else kmap rs' y
  end.

Definition region_paths (r : region) : list path := range_paths r.1.1 r.1.2.

(** Nothing is mapped above the end of the last region. *)
Lemma kmap_above rs top y : Forall (λ s, region_end s ≤ top) rs → top ≤ y → kmap rs y = None.
Proof.
  intros H Hy. induction H as [|s rs Hs H IH]; [done|]. simpl. unfold in_region.
  rewrite (proj2 (Z.ltb_ge y (region_end s))) by lia. by rewrite andb_false_r.
Qed.

(** ** The regions of the kernel *)

Definition RW : Z := Z.lor PTE_READ PTE_WRITE.
Definition RX : Z := Z.lor PTE_READ PTE_EXEC.

(** Whole pages from [a] to [b]. *)
Definition pages (a b : Z) : nat := Z.to_nat ((b - a) / PAGE_SIZE).

Definition kernel_regions (L : Layout) : list region :=
  [ (UART_BASE, 1%nat, RW);
    (DRAM_BASE, pages DRAM_BASE (text_end L), RX);
    (text_end L, pages (text_end L) (rodata_end L), PTE_READ);
    (rodata_end L, pages (rodata_end L) (data_end L), RW);
    (stacks_start L + PAGE_SIZE * 1, 2%nat, RW);
    (stacks_start L + PAGE_SIZE * 4, 2%nat, RW);
    (intstacks_start L + PAGE_SIZE * 1, 1%nat, RW);
    (intstacks_start L + PAGE_SIZE * 3, 1%nat, RW);
    (intstacks_start L + PAGE_SIZE * 5, 1%nat, RW);
    (intstacks_start L + PAGE_SIZE * 7, 1%nat, RW);
    (bss_start L, pages (bss_start L) (bss_end L), RW);
    (bss_end L, pages (bss_end L) (dram_end L), RW) ].

(** Every section has something in it. The linker script does not promise it, and
    [page_map] of a length of zero subtracts one from it: this panics under overflow
    checks, and maps nothing without them. *)
Definition sections_full (L : Layout) : Prop :=
  text_end L < rodata_end L ∧ rodata_end L < data_end L ∧
  bss_start L < bss_end L ∧ bss_end L < dram_end L.

Lemma sections_full_pages L :
  layout_ok L → Forall (λ r, r.1.2 ≠ 0%nat) (kernel_regions L) → sections_full L.
Proof.
  intros [] Hf. unfold kernel_regions in Hf. rewrite !Forall_cons in Hf.
  destruct Hf as (_ & _ & H1 & H2 & _ & _ & _ & _ & _ & _ & H3 & H4 & _). cbn [fst snd] in *.
  assert (∀ a b, a ≤ b → pages a b ≠ 0%nat → a < b) as Hlt.
  { intros a b Hab Hn. destruct (Z.eq_dec a b) as [->|]; [|lia]. unfold pages in Hn. by rewrite Z.sub_diag in Hn. }
  split_and!; by apply Hlt.
Qed.

Lemma pages_eq a b : page_aligned a → page_aligned b → a ≤ b → PAGE_SIZE * Z.of_nat (pages a b) = b - a.
Proof. unfold page_aligned, pages, PAGE_SIZE. intros. rewrite Z2Nat.id; zdm. Qed.

(** The tables of the map: one leaf table for the UART, 64 for the 128M of RAM. *)
Definition kernel_paths : list path :=
  [0] :: [128; 0] :: [2] :: ((λ k, [Z.of_nat k; 2]) <$> seq 0 64).

Lemma elem_of_range_paths x va n :
  x ∈ range_paths va n →
  ∃ k, 0 ≤ k < Z.of_nat n ∧ (x = [vpn (va + PAGE_SIZE * k) 2] ∨ x = leaf_path (va + PAGE_SIZE * k)).
Proof.
  revert va. induction n as [|n IH]; intros va; simpl; [by intros ?%not_elem_of_nil|].
  intros [->|[->|Hx]%elem_of_cons]%elem_of_cons.
  - exists 0. rewrite Z.mul_0_r, Z.add_0_r. split; [lia|]. by left.
  - exists 0. rewrite Z.mul_0_r, Z.add_0_r. split; [lia|]. by right.
  - destruct (IH _ Hx) as (k & Hk & Hc). exists (k + 1). split; [lia|].
    replace (va + PAGE_SIZE * (k + 1)) with (va + PAGE_SIZE + PAGE_SIZE * k) by lia. done.
Qed.

Lemma dram_paths y : DRAM_BASE ≤ y < DRAM_BASE + 134217728 → [vpn y 2] ∈ kernel_paths ∧ leaf_path y ∈ kernel_paths.
Proof.
  unfold DRAM_BASE. intros Hy. unfold leaf_path. rewrite !vpn_eq by lia.
  change (2 ^ (12 + 9 * 1)) with 2097152. change (2 ^ (12 + 9 * 2)) with 1073741824.
  replace (y / 1073741824 mod 512) with 2 by zdm. unfold kernel_paths. split; [set_solver|].
  do 3 right. apply list_elem_of_fmap. exists (Z.to_nat (y / 2097152 mod 512)).
  assert (0 ≤ y / 2097152 mod 512 < 64) by zdm. rewrite Z2Nat.id by lia. split; [done|].
  apply elem_of_seq. lia.
Qed.

Section layout.
Context {L : Layout} (HL : layout_ok L).

(** The layout as inequalities. *)
Lemma layout_facts :
  page_aligned (text_end L) ∧ page_aligned (rodata_end L) ∧ page_aligned (data_end L) ∧
  page_aligned (bss_start L) ∧ page_aligned (bss_end L) ∧ page_aligned (dram_end L) ∧
  2147483648 < text_end L ∧ text_end L ≤ rodata_end L ∧ rodata_end L ≤ data_end L ∧
  stacks_start L = data_end L ∧ intstacks_start L = data_end L + 24576 ∧
  bss_start L = data_end L + 61440 ∧ bss_start L ≤ bss_end L ∧ bss_end L ≤ dram_end L ∧
  dram_end L = 2281701376.
Proof.
  destruct HL as []. unfold DRAM_BASE, PAGE_SIZE, NHART in *.
  assert (bss_start L = data_end L + 61440) as Eb by lia.
  assert (dram_end L = 2281701376) as Ed by lia.
  split_and!; try (done || lia).
  - rewrite Eb. unfold page_aligned, PAGE_SIZE in *. zdm.
  - by rewrite Ed.
Qed.

Lemma kernel_regions_ok : Forall region_ok (kernel_regions L).
Proof.
  destruct layout_facts as (Ht & Hr & Hd & Hbs & Hb & Hde & ? & ? & ? & Es & Ei & ? & ? & ? & ?).
  assert (∀ a b f, page_aligned a → page_aligned b → 0 < a ≤ b → b ≤ 2281701376 → leaf_flags f = true →
    region_ok (a, pages a b, f)) as Hpages.
  { intros a b f Ha Hb' Hlt Htop Hf. pose proof (pages_eq a b Ha Hb' ltac:(lia)) as E.
    unfold region_ok, region_end. simpl. rewrite E. change VA_TOP with 549755813888.
    unfold PAGE_SIZE in E. split_and!; (done || lia). }
  assert (∀ a k n f, page_aligned a → 0 < a ≤ 2281701376 → 0 ≤ k ≤ 7 → (1 ≤ n ≤ 2)%nat → leaf_flags f = true →
    region_ok (a + PAGE_SIZE * k, n, f)) as Hfix.
  { intros a k n f Ha Hlt Hk Hn Hf. unfold region_ok, region_end. simpl.
    split_and!; [by apply page_aligned_add | unfold PAGE_SIZE; lia | | done].
    unfold PAGE_SIZE. change VA_TOP with 549755813888. lia. }
  assert (page_aligned (intstacks_start L)).
  { rewrite Ei. change 24576 with (PAGE_SIZE * 6). by apply page_aligned_add. }
  unfold kernel_regions. rewrite Es.
  repeat apply Forall_cons_2; try apply Forall_nil_2; first
    [ apply Hpages; [done | done | lia | lia | reflexivity]
    | rewrite ?Es; apply Hfix; [done | lia | lia | lia | reflexivity]
    | apply Hpages; [reflexivity | done | unfold DRAM_BASE; lia | lia | reflexivity]
    | apply (Hfix UART_BASE 0 1%nat); [reflexivity | unfold UART_BASE; lia | lia | lia | reflexivity] ].
Qed.

Lemma kernel_region_bounds r : r ∈ kernel_regions L →
  r = (UART_BASE, 1%nat, RW) ∨ (DRAM_BASE ≤ r.1.1 ∧ region_end r ≤ DRAM_BASE + 134217728).
Proof.
  destruct layout_facts as (Ht & Hr & Hd & Hbs & Hb & Hde & ? & ? & ? & Es & Ei & ? & ? & ? & ?).
  intros Hin. unfold kernel_regions in Hin.
  repeat (apply elem_of_cons in Hin as [->|Hin]; [try (by left); right; unfold region_end; cbn [fst snd];
    unfold DRAM_BASE; rewrite ?pages_eq by (done || lia || reflexivity); unfold PAGE_SIZE in *; lia|]).
  by apply not_elem_of_nil in Hin.
Qed.

Lemma kernel_paths_enough T : (fresh T (concat (region_paths <$> kernel_regions L)) ≤ 67)%nat.
Proof.
  change 67%nat with (length kernel_paths). apply fresh_bound. intros x Hx.
  rewrite list_elem_of_In, in_concat in Hx. destruct Hx as (xs & Hxs & Hx).
  apply list_elem_of_In in Hx. apply list_elem_of_In in Hxs. apply list_elem_of_fmap in Hxs as (r & -> & Hr).
  apply elem_of_range_paths in Hx as (k & Hk & Hx).
  apply kernel_region_bounds in Hr as [->|[Hlo Hhi]].
  - assert (k = 0) as -> by (simpl in Hk; lia). unfold kernel_paths. destruct Hx as [-> | ->]; set_solver.
  - destruct (dram_paths (r.1.1 + PAGE_SIZE * k)); [|by destruct Hx as [-> | ->]].
    unfold region_end, PAGE_SIZE in *. lia.
Qed.

End layout.

Section kernel.
Context {cfg : Config} (rep : mem → PagePool → list Z → Prop) `{!PageAllocSpec rep}.

(** Pages that the map is to leave free. *)
Context (spare : nat).

(** Between two calls of [page_map]: [rs] is mapped, all of it below [top], [todo]
    is not, and there are pages for its tables beside the [spare] ones; only pages
    of the pool have been written since [m0], and they were taken in order. *)
Definition kinv (m0 : mem) (fl0 : list Z) (root : Z) (rs todo : list region) (top : Z)
    (m : mem) (pp : PagePool) : Prop :=
  Forall (λ s, region_end s ≤ top) rs ∧ ∃ own fl, pt_state rep m pp root own fl ∧
    (∀ y, 0 ≤ y < VA_TOP → sv39 m root y = kmap rs y) ∧
    (fresh (tables own) (concat (region_paths <$> todo)) + spare ≤ length fl)%nat ∧
    (∀ p, is_Some (own !! p) → p ∈ fl0) ∧ fl `suffix_of` fl0 ∧ same_outside fl0 m0 m.

(** [page_map] of nothing. *)
Lemma wp_page_map_empty pt va pa flag st (Q : _ → VmState → Prop) (P : Prop) :
  page_aligned va → 0 < va < u64_size → (0 < fuel)%nat → (overflow_checks = true → P) →
  (overflow_checks = false → Q (Ok ()) st) → wp (page_map pt va pa 0 flag) st Q P.
Proof using Type.
  intros Hal Hva Hf HP HQ. unfold page_map, u_sub, u_add, checked. apply wp_bind.
  change (0 - 1) with (-1). change (0 <=? -1) with false. cbn [andb].
  destruct overflow_checks; [by apply wp_panic, HP|]. apply wp_ret, wp_bind.
  assert (PAGE_SIZE ≤ va) by (unfold page_aligned, PAGE_SIZE in *; zdm).
  change (wrap (-1)) with (u64_size - 1). rewrite (proj2 (Z.ltb_ge (va + (u64_size - 1)) u64_size)) by lia.
  rewrite andb_false_r. apply wp_ret.
  replace (wrap (va + (u64_size - 1))) with (va - 1).
  2: { unfold wrap. rewrite u64_size_eq in *. zdm. }
  rewrite !PageAlignDown_eq by (unfold is_u64, PAGE_SIZE in *; lia). rewrite (page_of_id va) by done.
  pose proof (page_of_bounds (va - 1)). destruct fuel as [|n]; [lia|]. apply wp_loop_turn. unfold map_turn.
  rewrite (proj2 (Z.leb_gt va _)) by lia. apply wp_ret. by apply HQ.
Qed.

Lemma wp_kstep m0 fl0 root rs r todo top m pp va size flag (Q : _ → VmState → Prop) P :
  kinv m0 fl0 root rs (r :: todo) top m pp → region_ok r → top ≤ r.1.1 →
  va = r.1.1 → size = PAGE_SIZE * Z.of_nat r.1.2 → flag = r.2 → (2 < fuel)%nat → (r.1.2 < fuel)%nat →
  (r.1.2 = 0%nat → overflow_checks = true → P) →
  (∀ m' pp', (overflow_checks = true → r.1.2 ≠ 0%nat) → kinv m0 fl0 root (r :: rs) todo (region_end r) m' pp' → Q (Ok ()) (mkVm m' (Some pp'))) →
  wp (page_map (mkPageTable root) va va size flag) (mkVm m (Some pp)) Q P.
Proof.
  intros (Hrs & own & fl & H & Hsv & Hc & Hown & Hfl & Hm) (Hal & H0 & Htop & Hflag) Hap -> -> -> Hf Hf' HP HQ.
  unfold region_end in Htop. rewrite fmap_cons in Hc. cbn [concat] in Hc.
  destruct (decide (r.1.2 = 0%nat)) as [En|Hn].
  { rewrite En, Z.mul_0_r in *. change VA_TOP with 549755813888 in Htop.
    apply wp_page_map_empty; [done | rewrite u64_size_eq; lia | lia | by apply HP |]. intros Hoc.
    apply HQ; [by rewrite Hoc|]. unfold region_paths in Hc. rewrite En in Hc.
    assert (region_end r = r.1.1) as Er by (unfold region_end; rewrite En; lia). split.
    - rewrite Er. constructor; [lia|]. eapply Forall_impl; [exact Hrs|]. simpl. intros s Hs'. lia.
    - exists own, fl. split_and!; try done. intros y Hy. simpl. unfold in_region. rewrite Er.
      rewrite (proj2 (andb_false_iff _ _)); [by apply Hsv|].
      destruct (Z.leb_spec r.1.1 y), (Z.ltb_spec y r.1.1); auto; lia. }
  rewrite fresh_app in Hc.
  change (region_paths r) with (range_paths r.1.1 r.1.2) in Hc.
  change VA_TOP with 549755813888 in Htop.
  eapply (wp_page_map rep); [exact H | done | lia | done | done | lia | rewrite u64_size_eq; lia
    | done | lia | | lia | done | done |].
  { intros y Hy Hya. rewrite Hsv by (change VA_TOP with 549755813888; lia). apply (kmap_above _ top); [done | lia]. }
  intros m' pp' own' fl' H' [Ht Hco Ho Hs Hl Hfr] Hsv'. apply HQ; [done|]. split.
  { assert (r.1.1 ≤ region_end r) by (unfold region_end, PAGE_SIZE; lia).
    constructor; [done|]. eapply Forall_impl; [exact Hrs|]. simpl. intros s Hs'. lia. }
  exists own', fl'. split_and!.
  - exact H'.
  - intros y Hy. rewrite Hsv' by done. unfold maps_range. simpl. unfold in_region, region_end.
    destruct (_ && _); [do 2 f_equal; lia | by apply Hsv].
  - rewrite Ht. lia.
  - intros p [Hp|Hp]%Ho; [auto | by eapply suffix_subseteq].
  - by trans fl.
  - intros a Ha. rewrite Hfr; [by apply Hm | | intros Hin; by apply Ha, (suffix_subseteq _ _ _ Hfl)].
    destruct (own !! page_of a) eqn:E; [|done]. destruct Ha. apply Hown. by rewrite E.
Qed.

(** A zeroed page is an empty root table. *)
Lemma pt_state_root m1 pp1 root fl :
  rep m1 pp1 fl → root ∉ fl → page_aligned root → 0 < root → root + PAGE_SIZE < u64_size →
  page_zero m1 root → pt_state rep m1 pp1 root {[root := []]} fl.
Proof.
  intros Hrep Hn Hal H0 Hu Hz.
  assert (∀ p x, ({[root := []]} : gmap Z path) !! p = Some x → p = root ∧ x = []) as Hone.
  { intros p x Hp. apply lookup_singleton_Some in Hp as [<- <-]. done. }
  pose proof (page_aligned_8 _ Hal). split; [split | done |].
  - apply lookup_singleton_eq.
  - intros p q x [-> _]%Hone [-> _]%Hone. done.
  - intros p x [-> ->]%Hone. split_and!; [done | done | done |]. intros a Ha H8. by rewrite Hz.
  - intros q i x [_ ?]%Hone. done.
  - intros p x i [-> ->]%Hone _ Hi. exists 0. split; [apply Hz; [unfold PAGE_SIZE; lia | zdm]|].
    left. split; [done|]. intros q [_ ?]%Hone. done.
  - intros p x i [-> ->]%Hone ? _. done.
  - intros p Hp. apply lookup_singleton_ne. set_solver.
Qed.

Lemma root_empty m root y : pt_rep m root {[root := []]} → sv39 m root y = None.
Proof. intros H. apply (sv39_no_leaf H). intros p [_ ?]%lookup_singleton_Some. done. Qed.

Lemma kinv_start m m1 pp1 root fl todo :
  rep m1 pp1 fl → root ∉ fl → page_aligned root → 0 < root → root + PAGE_SIZE < u64_size →
  page_zero m1 root → same_outside (root :: fl) m m1 →
  (fresh {[ [] ]} (concat (region_paths <$> todo)) + spare ≤ length fl)%nat →
  kinv m (root :: fl) root [] todo 0 m1 pp1.
Proof.
  intros Hrep Hn Hal H0 Hu Hz Hs Hc. split; [constructor|]. exists {[root := []]}, fl.
  pose proof (pt_state_root m1 pp1 root fl Hrep Hn Hal H0 Hu Hz) as H. split_and!.
  - exact H.
  - intros y _. by apply root_empty, H.
  - unfold tables. by rewrite map_img_singleton_L.
  - intros p [x [<- _]%lookup_singleton_Some]. left.
  - apply suffix_cons_r, reflexivity.
  - done.
Qed.

(** One region: its start and length as the code writes them, against the list. *)
Ltac kside := unfold region_end; cbn [fst snd]; unfold UART_BASE, PAGE_SIZE; lia.

(** An empty region is an empty section: the panic is foreseen. *)
Ltac kempty :=
  first [ done
        | match goal with HP : overflow_checks = true → ¬ sections_full _ → ?P |- _ =>
            let Hn := fresh in let Hoc := fresh in intros Hn Hoc; apply HP; [exact Hoc|];
            cbn [fst snd] in Hn; unfold sections_full; lia end ].

Ltac kstep Hinv :=
  eapply wp_kstep; [exact Hinv | done | kside | try (done || kside) | kside | reflexivity | lia | kside | kempty |];
  clear Hinv; let m := fresh "m" in let pp := fresh "pp" in
  let Hfull := fresh "Hfull" in intros m pp Hfull Hinv; cbn [try].

(** A line of the log, where there is none. *)
Ltac klog := apply wp_bind, wp_ret.

(** The offset of a stack page. *)
Lemma wp_stack_offset {A} s c (k : Z → M VmState A) st (Q : A → VmState → Prop) P :
  0 ≤ s ≤ 2 → 0 ≤ c ≤ 4 → wp (k (PAGE_SIZE * (1 + s * c))) st Q P →
  wp (a ← u_mul s c; b ← u_add 1 a; off ← u_mul PAGE_SIZE b; k off) st Q P.
Proof.
  intros Hs Hc HQ. apply wp_bind, wp_u_mul; [unfold is_u64; rewrite u64_size_eq; nia|].
  apply wp_bind, wp_u_add; [unfold is_u64; rewrite u64_size_eq; nia|].
  apply wp_bind, wp_u_mul; [unfold is_u64, PAGE_SIZE; rewrite u64_size_eq; nia|]. done.
Qed.

Lemma stack_addr base k : 0 ≤ base ≤ 2300000000 → 0 ≤ k ≤ 9 → byte_add base (PAGE_SIZE * k) = base + PAGE_SIZE * k.
Proof. intros Hb Hk. apply byte_add_small. unfold is_u64, PAGE_SIZE. rewrite u64_size_eq. lia. Qed.

Lemma wp_map_stacks L m0 fl0 root rs todo top m pp (Q : _ → VmState → Prop) P :
  let r1 := (stacks_start L + PAGE_SIZE * 1, 2%nat, RW) in
  let r2 := (stacks_start L + PAGE_SIZE * 4, 2%nat, RW) in
  kinv m0 fl0 root rs (r1 :: r2 :: todo) top m pp → region_ok r1 → region_ok r2 →
  top ≤ stacks_start L → 0 ≤ stacks_start L ≤ 2281701376 → (2 < fuel)%nat →
  (∀ m' pp', kinv m0 fl0 root (r2 :: r1 :: rs) todo (region_end r2) m' pp' → Q (Ok ()) (mkVm m' (Some pp'))) →
  wp (map_stacks L (mkPageTable root) 2 0) (mkVm m (Some pp)) Q P.
Proof.
  intros r1 r2 Hinv H1 H2 Htop Hb Hf HQ. unfold map_stacks, r1, r2 in *. clear r1 r2.
  apply wp_stack_offset; [lia | lia |]. rewrite !(stack_addr (_ L)) by lia. apply wp_bind. kstep Hinv. klog.
  apply wp_stack_offset; [lia | lia |]. rewrite !(stack_addr (_ L)) by lia. apply wp_bind. kstep Hinv. klog.
  by apply wp_ret, HQ.
Qed.

Lemma wp_map_intstacks L m0 fl0 root rs todo top m pp (Q : _ → VmState → Prop) P :
  let r k := (intstacks_start L + PAGE_SIZE * k, 1%nat, RW) in
  kinv m0 fl0 root rs (r 1 :: r 3 :: r 5 :: r 7 :: todo) top m pp →
  region_ok (r 1) → region_ok (r 3) → region_ok (r 5) → region_ok (r 7) →
  top ≤ intstacks_start L → 0 ≤ intstacks_start L ≤ 2281701376 → (2 < fuel)%nat →
  (∀ m' pp', kinv m0 fl0 root (r 7 :: r 5 :: r 3 :: r 1 :: rs) todo (region_end (r 7)) m' pp' →
    Q (Ok ()) (mkVm m' (Some pp'))) →
  wp (map_intstacks L (mkPageTable root) 2 0) (mkVm m (Some pp)) Q P.
Proof.
  intros r Hinv H1 H3 H5 H7 Htop Hb Hf HQ. unfold map_intstacks, r in *. clear r.
  apply wp_stack_offset; [lia | lia |]. rewrite !(stack_addr (_ L)) by lia. apply wp_bind. kstep Hinv.
  rewrite stack_addr by (unfold PAGE_SIZE; lia). apply wp_bind. kstep Hinv. klog.
  apply wp_stack_offset; [lia | lia |]. rewrite !(stack_addr (_ L)) by lia. apply wp_bind. kstep Hinv.
  rewrite stack_addr by (unfold PAGE_SIZE; lia). apply wp_bind. kstep Hinv. klog.
  by apply wp_ret, HQ.
Qed.

(** [kpage_init] makes an identity map of the regions of the kernel. *)
Lemma wp_kpage_quiet L m pp root fl (Q : _ → VmState → Prop) (P : Prop) :
  layout_ok L → rep m pp (root :: fl) → (67 + spare ≤ length fl)%nat → 32768 < Z.of_nat fuel →
  (overflow_checks = true → ¬ sections_full L → P) →
  (∀ m' pp' own fl', (overflow_checks = true → sections_full L) → (∀ y, 0 ≤ y < VA_TOP → sv39 m' root y = kmap (reverse (kernel_regions L)) y) →
    same_outside (root :: fl) m m' → pt_state rep m' pp' root own fl' → fl' `suffix_of` (root :: fl) →
    (∀ p, is_Some (own !! p) → p ∈ root :: fl) → (spare ≤ length fl')%nat → Q (Ok (mkPageTable root)) (mkVm m' (Some pp'))) →
  wp (kpage_init L) (mkVm m (Some pp)) Q P.
Proof.
  intros HL Hrep Hlen Hf HP HQ. unfold kpage_init. cbn [on_host quiet]. apply wp_bind. unfold vm_palloc. apply wp_with_pool.
  destruct (pas_page _ _ _ root Hrep) as ([Hal _] & H0 & Hu & _); [left|].
  pose proof (pas_nodup _ _ _ Hrep) as [Hn _]%NoDup_cons.
  eapply wp_mono; [eapply pas_palloc; [exact Hrep | lia] | | done].
  intros [r pp1] m1 (Hr & Hrep1 & _ & Hz & Hs & _). simpl in Hr. subst r. cbn [fst snd].
  apply wp_bind, wp_ret. cbn [pg_addr].
  pose proof (kernel_paths_enough HL {[ [] ]}) as Hcost.
  assert (kinv m (root :: fl) root [] (kernel_regions L) 0 m1 pp1) as Hinv by (apply kinv_start; try done; lia).
  pose proof (kernel_regions_ok HL) as Hok. unfold kernel_regions in Hinv, Hok.
  destruct (layout_facts HL) as (Ht & Hrd & Hd & Hbs & Hb & Hde & ? & ? & ? & Es & Ei & ? & ? & ? & ?).
  repeat (apply Forall_cons in Hok as [? Hok]).
  assert (page_aligned DRAM_BASE) as Hdram by done. unfold DRAM_BASE in *.
  assert (∀ a b, page_aligned a → page_aligned b → a ≤ b → 4096 * Z.of_nat (pages a b) = b - a) as Hpg
    by (intros; by apply pages_eq).
  pose proof (Hpg 2147483648 (text_end L) Hdram Ht ltac:(lia)).
  pose proof (Hpg (text_end L) (rodata_end L) Ht Hrd ltac:(lia)).
  pose proof (Hpg (rodata_end L) (data_end L) Hrd Hd ltac:(lia)).
  pose proof (Hpg (bss_start L) (bss_end L) Hbs Hb ltac:(lia)).
  pose proof (Hpg (bss_end L) (dram_end L) Hb Hde ltac:(lia)).
  apply wp_bind. kstep Hinv. klog.
  do 3 (apply wp_bind, wp_u_sub; [u64_range|]; apply wp_bind; kstep Hinv; klog).
  change (Z.to_nat NHART) with 2%nat. apply wp_bind.
  eapply wp_map_stacks; [exact Hinv | done | done | kside | lia | lia |].
  clear Hinv. intros m5 pp5 Hinv. cbn [try]. apply wp_bind.
  eapply wp_map_intstacks; [exact Hinv | done | done | done | done | kside | lia | lia |].
  clear Hinv. intros m6 pp6 Hinv. cbn [try].
  do 2 (apply wp_bind, wp_u_sub; [u64_range|]; apply wp_bind; kstep Hinv; klog).
  apply wp_ret. destruct Hinv as (_ & own & fl' & Hst & Hsv & Hsp & Hown & Hsuf & Hm).
  eapply HQ; [| exact Hsv | exact Hm | exact Hst | exact Hsuf | exact Hown | lia].
  intros Hoc. apply sections_full_pages; [done|]. unfold kernel_regions. repeat constructor; cbn [fst snd]; auto; lia.
Qed.

(** ** In any host *)

Section host.
Context {S : Type} `{!Host S} `{!HostSpec S} (Hfuel : (0 < fuel)%nat).

Lemma sim_try {A B E} (r : result A E) (k : A → M S (result B E)) k0 :
  (∀ a, sim (k a) (k0 a)) → sim (try r k) (try r k0).
Proof using HostSpec0. intros Hk. destruct r; [apply Hk | apply sim_ret]. Qed.

Lemma sim_log l {A} (e : M S A) e0 : sim e e0 → sim (debug l ;; e) (debug (S := VmState) l ;; e0).
Proof using HostSpec0 Hfuel. intros He. apply sim_bind; [by apply sim_debug | done]. Qed.

Ltac sim_step := first [ apply sim_log | apply sim_bind; [solve [eauto with sim]|intro] | apply sim_try; intro | apply sim_ret ].

Lemma sim_map_stacks L pt n s : sim (map_stacks L pt n s : M S _) (map_stacks L pt n s).
Proof using HostSpec0 Hfuel.
  revert s. induction n as [|n IH]; intros s; simpl; [apply sim_ret|]. repeat sim_step. apply IH.
Qed.

Lemma sim_map_intstacks L pt n s : sim (map_intstacks L pt n s : M S _) (map_intstacks L pt n s).
Proof using HostSpec0 Hfuel.
  revert s. induction n as [|n IH]; intros s; simpl; [apply sim_ret|]. repeat sim_step. apply IH.
Qed.

Lemma sim_kpage_init L : sim (kpage_init L : M S _) (kpage_init L).
Proof using HostSpec0 Hfuel.
  unfold kpage_init. repeat first
    [ sim_step | apply sim_bind; [apply sim_map_stacks|intro] | apply sim_bind; [apply sim_map_intstacks|intro] ].
Qed.

Lemma wp_kpage_init L s m pp root fl (Q : _ → S → Prop) (P : Prop) :
  host_vm s = mkVm m (Some pp) →
  layout_ok L → rep m pp (root :: fl) → (67 + spare ≤ length fl)%nat → 32768 < Z.of_nat fuel →
  (overflow_checks = true → ¬ sections_full L → P) →
  (∀ s' m' pp' own fl', (overflow_checks = true → sections_full L) →
    host_vm s' = mkVm m' (Some pp') → untouched s s' →
    (∀ y, 0 ≤ y < VA_TOP → sv39 m' root y = kmap (reverse (kernel_regions L)) y) →
    same_outside (root :: fl) m m' → pt_state rep m' pp' root own fl' → fl' `suffix_of` (root :: fl) →
    (∀ p, is_Some (own !! p) → p ∈ root :: fl) → (spare ≤ length fl')%nat → Q (Ok (mkPageTable root)) s') →
  wp (kpage_init L) s Q P.
Proof.
  intros Es HL Hrep Hlen Hf HP HQ. eapply wp_sim; [apply sim_kpage_init|]. rewrite Es.
  eapply wp_kpage_quiet; [done | exact Hrep | done | done | done |]. eauto.
Qed.

End host.

End kernel.
