(* ===== verification/PtTheorems.v ===== *)
(** * The page tables: what the code promises

    The theorems on src/vm/ptable.rs, stated against the translation the hardware
    makes ([sv39]): the entry formats, the walk, [page_map] on each of its outcomes,
    and the map [kpage_init] builds for the kernel. *)

From S2P Require Import Prelude Machine Param Mutex Palloc FreeList PallocTheorems VmState.
From S2P Require Import Host Ptable Sv39 PtProofs KpageProofs.

(** ** Formats *)

(** a page address and any ten flag bits packed into a page table entry come back
    out of it unchanged. *)
Theorem pte_roundtrip p f :
  page_aligned p → is_u64 p → 0 ≤ f < 1024 →
  pte_to_phy (PteSetFlag (phy_to_pte p) f) = p ∧
  ∀ i, 0 ≤ i < 10 → Z.testbit (PteSetFlag (phy_to_pte p) f) i = Z.testbit f i.
Proof.
  intros Hal Hp Hf. rewrite pte_set_flag by done. split; [by apply pte_phy|].
  intros i Hi. by apply pte_flag_bit.
Qed.

(** below [VA_TOP], two addresses have the same three table indices exactly when
    they lie in the same page: no two pages share a leaf entry. *)
Theorem vpn_identifies_page a b :
  0 ≤ a < VA_TOP → 0 ≤ b < VA_TOP →
  (vpn a 0 = vpn b 0 ∧ vpn a 1 = vpn b 1 ∧ vpn a 2 = vpn b 2) ↔ page_of a = page_of b.
Proof.
  intros Ha Hb. rewrite (vpn_split a Ha), (vpn_split b Hb). unfold PAGE_SIZE.
  pose proof (vpn_bound a 0). pose proof (vpn_bound a 1). pose proof (vpn_bound b 0).
  pose proof (vpn_bound b 1). split; [intros (-> & -> & ->); done | lia].
Qed.

Lemma satp_bits p :
  0 ≤ p < 2 ^ 56 →
  Z.shiftr (phy_to_satp p) 60 = 8 ∧ phy_to_satp p mod 2 ^ 60 = p / PAGE_SIZE ∧
  is_u64 (phy_to_satp p).
Proof.
  intros Hp. unfold phy_to_satp. change (2 ^ 56) with 72057594037927936 in *.
  rewrite Z.shiftr_div_pow2, (Z.shiftr_div_pow2 p) by lia. change (2 ^ 12) with 4096.
  rewrite (lor_add _ _ 63); [|lia | done | change (2 ^ 63) with 9223372036854775808; zdm].
  change (Z.shiftl 1 63) with 9223372036854775808. change (2 ^ 60) with 1152921504606846976.
  unfold is_u64, PAGE_SIZE. rewrite u64_size_eq. split_and!; zdm.
Qed.

(** The [satp] value of a root table below [2^56] selects Sv39 (mode 8, no address
    space identifier) and holds the page number of the table. *)
Theorem satp_selects_sv39 p :
  page_aligned p → 0 ≤ p < 2 ^ 56 →
  Z.shiftr (phy_to_satp p) 60 = 8 ∧ phy_to_satp p mod 2 ^ 60 = p / PAGE_SIZE ∧
  is_u64 (phy_to_satp p).
Proof.
  intros _ Hp. by apply satp_bits.
Qed.

(** ** Walking and mapping *)

Section theorems.
Context {cfg : Config} (rep : mem → PagePool → list Z → Prop) `{!PageAllocSpec rep}.

(** One level of a walk that must not allocate. *)
Lemma wp_walk_level_found m pp root own p x va level (Q : _ → VmState → Prop) P :
  pt_rep m root own → own !! p = Some x → (length x < 2)%nat → 0 ≤ level →
  (∀ q, own !! q = Some (vpn va level :: x) → Q (Ok (mkPageTable q)) (mkVm m pp)) →
  ((∀ q, own !! q ≠ Some (vpn va level :: x)) → Q (Err PallocFail) (mkVm m pp)) →
  wp (walk_level (mkPageTable p) va false level) (mkVm m pp) Q P.
Proof.
  intros H Hp Hx Hl Hok Herr. pose proof (vpn_bound va level Hl) as Hi.
  destruct (entry_valid H p x _ Hp Hi) as (H8 & _).
  destruct (pt_entry _ _ _ H p x _ Hp Hx Hi) as (e & He & Hcase).
  unfold walk_level. apply wp_bind. eapply (wp_index_mut H); [exact Hp | done |].
  apply wp_bind, wp_on_mem. eapply wp_read; [done | exact He |]. rewrite PteGetFlag_valid.
  destruct Hcase as [[Hv Hno]|(q & Hq & ->)].
  - rewrite Hv. by apply wp_ret, Herr.
  - pose proof (pt_page_u64 H _ _ Hq). rewrite pte_flag_bit by (done || lia). apply wp_ret.
    unfold PageTable_from. rewrite pte_phy; [by apply Hok | by apply (pt_page _ _ _ H q _ Hq) | done | lia].
Qed.

(** a walk that must not allocate finds the leaf entry of an address whose tables
    are there, and otherwise fails with [PallocFail]; it changes nothing. *)
Theorem walk_without_alloc m pp root own va :
  pt_rep m root own → 0 ≤ va < VA_TOP →
  (∃ p, own !! p = Some (leaf_path va) ∧
    walk (mkPageTable root) va false (mkVm m pp) = Done (Ok (p + 8 * vpn va 0), mkVm m pp)) ∨
  ((∀ p, own !! p ≠ Some (leaf_path va)) ∧
    walk (mkPageTable root) va false (mkVm m pp) = Done (Err PallocFail, mkVm m pp)).
Proof.
  intros H Hva.
  enough (wp (walk (mkPageTable root) va false) (mkVm m pp) (λ r st', st' = mkVm m pp ∧
    ((∃ p, own !! p = Some (leaf_path va) ∧ r = Ok (p + 8 * vpn va 0)) ∨
     ((∀ p, own !! p ≠ Some (leaf_path va)) ∧ r = Err PallocFail))) False) as Hw.
  { apply wp_done in Hw as (r & st' & E & -> & [(p & Hp & ->)|[Hn ->]]); eauto. }
  unfold walk. apply wp_bind, wp_assert_true; [lia|]. apply wp_bind.
  eapply wp_walk_level_found; [exact H | apply H | simpl; lia | lia | |].
  - intros q Hq. apply wp_bind. eapply wp_walk_level_found; [exact H | exact Hq | simpl; lia | lia | |].
    + intros p Hp. apply wp_bind. eapply (wp_index_mut H); [exact Hp | apply vpn_bound; lia |].
      apply wp_ret. split; [done|]. left. by exists p.
    + intros Hn. apply wp_ret. split; [done|]. by right.
  - intros Hn. apply wp_ret. split; [done|]. right. split; [|done]. intros p Hp.
    destruct (pt_parent _ _ _ H p (vpn va 1) [vpn va 2] Hp) as (_ & q & Hq). by eapply Hn.
Qed.

(** C5: [page_map] of [n] pages none of which is mapped, with pages for the tables that
    are missing, returns [Ok] and the hardware then translates each address of the
    range to its place in the physical range with the flags asked for; every other
    address translates as before, and nothing but the tables and the free pages is
    written. *)
Theorem page_map_translates m pp root own fl va pa n f :
  pt_state rep m pp root own fl → page_aligned va → 0 ≤ va → va + PAGE_SIZE * Z.of_nat n ≤ VA_TOP →
  page_aligned pa → 0 ≤ pa → pa + PAGE_SIZE * Z.of_nat n < u64_size → leaf_flags f = true →
  (1 ≤ n)%nat →
  (∀ y, va ≤ y < va + PAGE_SIZE * Z.of_nat n → page_aligned y → sv39 m root y = None) →
  (fresh (tables own) (range_paths va n) ≤ length fl)%nat → (n + 2 < fuel)%nat →
  ∃ m' pp' own' fl',
    page_map (mkPageTable root) va pa (PAGE_SIZE * Z.of_nat n) f (mkVm m (Some pp)) =
      Done (Ok (), mkVm m' (Some pp')) ∧
    pt_state rep m' pp' root own' fl' ∧
    (∀ y, va ≤ y < va + PAGE_SIZE * Z.of_nat n →
      sv39 m' root y = Some (pa + (y - va), Z.lor f PTE_VALID)) ∧
    (∀ y, 0 ≤ y < VA_TOP → ¬ (va ≤ y < va + PAGE_SIZE * Z.of_nat n) →
      sv39 m' root y = sv39 m root y) ∧
    (∀ a, own !! page_of a = None → page_of a ∉ fl → m' !! a = m !! a).
Proof.
  intros H Hal H0 Htop Hpal Hp0 Hpu Hfl Hn Hnone Hfr Hf.
  enough (wp (page_map (mkPageTable root) va pa (PAGE_SIZE * Z.of_nat n) f) (mkVm m (Some pp))
    (λ r st', ∃ m' pp' own' fl', r = Ok () ∧ st' = mkVm m' (Some pp') ∧
      pt_state rep m' pp' root own' fl' ∧ evolves (range_paths va n) m own fl m' own' fl' ∧
      (∀ y, 0 ≤ y < VA_TOP → sv39 m' root y = maps_range (sv39 m root) va pa n f y)) False) as Hw.
  { apply wp_done in Hw as (r & st' & E & m' & pp' & own' & fl' & -> & -> & H' & Hev & Hsv).
    exists m', pp', own', fl'. split_and!; [done | done | | | apply Hev].
    - intros y Hy. rewrite Hsv by lia. unfold maps_range. settle_bool. done.
    - intros y Hy Hout. rewrite Hsv by done. unfold maps_range.
      destruct (Z.leb_spec va y), (Z.ltb_spec y (va + PAGE_SIZE * Z.of_nat n)); try done. lia. }
  eapply (wp_page_map rep); try done; [lia | lia |].
  intros m' pp' own' fl' H' Hev Hsv. by exists m', pp', own', fl'.
Qed.

(** The first page of a range decides: the walk, then the check. *)
Lemma page_map_first m pp root va pa size f (Q : _ → VmState → Prop) P :
  page_aligned va → 0 ≤ va < VA_TOP → 1 ≤ size ≤ VA_TOP → (0 < fuel)%nat →
  (∀ end_ : Z, va ≤ end_ →
    wp (map_turn (mkPageTable root) end_ f (va, pa)) (mkVm m (Some pp))
      (λ r st, ∃ y, r = inr y ∧ Q y st) P) →
  wp (page_map (mkPageTable root) va pa size f) (mkVm m (Some pp)) Q P.
Proof.
  intros Hal Hva Hs Hf HQ. change VA_TOP with 549755813888 in *. unfold page_map.
  apply wp_bind, wp_u_sub; [u64_range|]. apply wp_bind, wp_u_add; [u64_range|].
  rewrite !PageAlignDown_eq by u64_range. rewrite (page_of_id va) by done.
  destruct fuel as [|k]; [lia|]. apply wp_loop_turn.
  eapply wp_mono; [apply (HQ (page_of (va + (size - 1)))) | by intros r st (y & -> & Hy) | done].
  unfold page_of, page_aligned, PAGE_SIZE in *. zdm.
Qed.

(** C29: [page_map] refuses to map a range whose first page is mapped already: it answers
    [PallocFail] and no translation changes. *)
Theorem page_map_remap_refused m pp root own fl va pa size f x :
  pt_state rep m pp root own fl → page_aligned va → 0 ≤ va < VA_TOP → 1 ≤ size ≤ VA_TOP →
  sv39 m root va = Some x → (2 < fuel)%nat →
  ∃ m' pp', page_map (mkPageTable root) va pa size f (mkVm m (Some pp)) =
      Done (Err PallocFail, mkVm m' (Some pp')) ∧
    ∀ y, sv39 m' root y = sv39 m root y.
Proof.
  intros H Hal Hva Hs Hx Hf.
  enough (wp (page_map (mkPageTable root) va pa size f) (mkVm m (Some pp)) (λ r st', ∃ m' pp',
    r = Err PallocFail ∧ st' = mkVm m' (Some pp') ∧ ∀ y, sv39 m' root y = sv39 m root y) False) as Hw.
  { apply wp_done in Hw as (r & st' & E & m' & pp' & -> & -> & Hsv). by exists m', pp'. }
  apply page_map_first; [done | done | done | lia |]. intros end_ Hend. unfold map_turn.
  rewrite (proj2 (Z.leb_le va end_)) by done. apply wp_bind.
  destruct (owner_dec own (leaf_path va)) as [[p Hp]|Hn];
    [|by rewrite (sv39_no_leaf (ps_pt _ _ _ _ _ _ H) va Hn) in Hx].
  eapply (wp_walk rep); [exact H | done | done | |].
  - intros m1 pp1 own1 fl1 q H1 Hq _ Hsv. pose proof (ps_pt _ _ _ _ _ _ H1) as Hpt.
    destruct (entry_valid Hpt q _ _ Hq (vpn_bound va 0 (Z.le_refl 0))) as (H8 & _).
    destruct (sv39_leaf Hpt q va Hq) as (e & He & _ & Ee). rewrite Hsv, Hx in Ee.
    unfold leaf_entry in Ee. destruct (Z.testbit e 0) eqn:Ev; [|done].
    apply wp_bind, wp_on_mem. eapply wp_read; [done | exact He |]. change PTE_VALID with (2 ^ 0).
    rewrite land_bit, Ev by lia. cbn [negb]. apply wp_ret. eexists. split; [done|]. by exists m1, pp1.
  - intros m1 pp1 own1 fl1 _ Hlt _. exfalso. simpl in Hlt.
    destruct (pt_parent _ _ _ (ps_pt _ _ _ _ _ _ H) p _ _ Hp) as (_ & q & Hq).
    rewrite decide_True in Hlt by (rewrite elem_of_tables; eauto).
    rewrite decide_True in Hlt; [lia|]. rewrite elem_of_union, elem_of_tables. eauto.
Qed.

(** [page_map] of a page whose tables are missing when no page is free answers
    [OutOfPages], and no translation changes. *)
Theorem page_map_out_of_pages m pp root own va pa size f :
  pt_state rep m pp root own [] → page_aligned va → 0 ≤ va < VA_TOP → 1 ≤ size ≤ VA_TOP →
  leaf_path va ∉ tables own → (2 < fuel)%nat →
  ∃ m' pp', page_map (mkPageTable root) va pa size f (mkVm m (Some pp)) =
      Done (Err OutOfPages, mkVm m' (Some pp')) ∧
    ∀ y, sv39 m' root y = sv39 m root y.
Proof.
  intros H Hal Hva Hs Hx Hf.
  enough (wp (page_map (mkPageTable root) va pa size f) (mkVm m (Some pp)) (λ r st', ∃ m' pp',
    r = Err OutOfPages ∧ st' = mkVm m' (Some pp') ∧ ∀ y, sv39 m' root y = sv39 m root y) False) as Hw.
  { apply wp_done in Hw as (r & st' & E & m' & pp' & -> & -> & Hsv). by exists m', pp'. }
  apply page_map_first; [done | done | done | lia |]. intros end_ Hend. unfold map_turn.
  rewrite (proj2 (Z.leb_le va end_)) by done. apply wp_bind.
  eapply (wp_walk rep); [exact H | done | done | |].
  - intros m1 pp1 own1 fl1 q _ _ Hev _. exfalso. destruct Hev as [_ Hc _ _ _ _]. simpl in Hc.
    rewrite (decide_False (P := leaf_path va ∈ _)) in Hc; [lia|].
    rewrite elem_of_union. intros [E|?]; [|done]. apply elem_of_singleton in E. done.
  - intros m1 pp1 own1 fl1 _ _ Hsv. apply wp_ret. eexists. split; [done|]. by exists m1, pp1.
Qed.

(** ** The kernel's map *)

Section kernel_map.
Context {S : Type} `{!Host S} `{!HostSpec S}.

(** C4: for every layout the linker script allows, under overflow checks one without
    empty sections, and with 68 free pages, [kpage_init] returns the lowest free page as
    the root of a table that translates exactly the regions of the kernel, each to
    itself with its flags, and nothing else; besides the free pages it changes nothing
    but the log. *)
Theorem kpage_init_identity_map L s m pp root fl :
  host_vm (S := S) s = mkVm m (Some pp) →
  layout_ok L → (overflow_checks = true → sections_full L) →
  rep m pp (root :: fl) → (67 ≤ length fl)%nat → 32768 < Z.of_nat fuel →
  ∃ s' m' pp', kpage_init L s = Done (Ok (mkPageTable root), s') ∧
    host_vm s' = mkVm m' (Some pp') ∧ untouched s s' ∧
    (∀ y, 0 ≤ y < VA_TOP → sv39 m' root y = kmap (reverse (kernel_regions L)) y) ∧
    same_outside (root :: fl) m m'.
Proof using PageAllocSpec0 HostSpec0.
  intros Es HL Hfull Hrep Hlen Hf.
  enough (wp (kpage_init L) s (λ r s', ∃ m' pp', r = Ok (mkPageTable root) ∧
    host_vm s' = mkVm m' (Some pp') ∧ untouched s s' ∧
    (∀ y, 0 ≤ y < VA_TOP → sv39 m' root y = kmap (reverse (kernel_regions L)) y) ∧
    same_outside (root :: fl) m m') False) as Hw.
  { apply wp_done in Hw as (r & s' & E & m' & pp' & -> & Ev & Hu & Hsv & Hs). by exists s', m', pp'. }
  eapply (wp_kpage_init rep 0); [lia | exact Es | done | exact Hrep | lia | done | by intros Hoc Hne; destruct (Hne (Hfull Hoc)) |].
  intros s' m' pp' own fl' _ Ev Hu Hsv Hs _ _ _. by exists m', pp'.
Qed.

(** C31: when a section of the kernel is empty, which the linker script allows, or no memory
    is left behind the kernel, [kpage_init] panics under overflow checks: [page_map]
    subtracts one from a length of zero. *)
Theorem kpage_init_empty_section_panics L s m pp root fl :
  host_vm (S := S) s = mkVm m (Some pp) → layout_ok L → overflow_checks = true → ¬ sections_full L →
  rep m pp (root :: fl) → (67 ≤ length fl)%nat → 32768 < Z.of_nat fuel →
  kpage_init L s = Panic.
Proof using PageAllocSpec0 HostSpec0.
  intros Es HL Hoc Hne Hrep Hlen Hf. apply wp_panics.
  eapply (wp_kpage_init rep 0); [lia | exact Es | done | exact Hrep | lia | done | done |].
  intros s' m' pp' own fl' Hfull. by destruct (Hne (Hfull Hoc)).
Qed.

End kernel_map.

Lemma kmap_Some rs y pa f :
  kmap rs y = Some (pa, f) → ∃ r, r ∈ rs ∧ r.1.1 ≤ y < region_end r ∧ pa = y ∧ f = with_valid r.2.
Proof.
  induction rs as [|r rs IH]; simpl; [done|]. destruct (in_region r y) eqn:E.
  - intros [= <- <-]. exists r. split; [left|]. unfold in_region in E. split; [lia | done].
  - intros (r' & Hr' & ?)%IH. exists r'. split; [by right | done].
Qed.

(** The pages around the stacks and before the zeroed data. *)
Definition guard_pages (L : Layout) : list Z :=
  [ stacks_start L; stacks_start L + PAGE_SIZE * 3; intstacks_start L; intstacks_start L + PAGE_SIZE * 2;
    intstacks_start L + PAGE_SIZE * 4; intstacks_start L + PAGE_SIZE * 6; intstacks_end L ].

(** Case analysis on the region an address lies in. *)
Ltac region_cases Hr :=
  unfold kernel_regions in Hr;
  repeat (apply elem_of_cons in Hr as [->|Hr]); [..|by apply not_elem_of_nil in Hr].

Lemma regions_protect L y r :
  layout_ok L → r ∈ kernel_regions L → r.1.1 ≤ y < region_end r →
  (Z.testbit (with_valid r.2) 2 && Z.testbit (with_valid r.2) 3 = false) ∧
  (Z.testbit (with_valid r.2) 3 = true → DRAM_BASE ≤ y < text_end L) ∧
  (Z.testbit (with_valid r.2) 2 = true → y < DRAM_BASE ∨ rodata_end L ≤ y) ∧
  Forall (λ g, ¬ (g ≤ y < g + PAGE_SIZE)) (guard_pages L).
Proof.
  intros HL Hr Hy. destruct (layout_facts HL) as (Ht & Hrd & Hd & Hbs & Hb & Hde & ? & ? & ? & Es & Ei & Eb & ? & ? & ?).
  assert (intstacks_end L = data_end L + 57344) as Eie.
  { destruct HL as []. unfold PAGE_SIZE, NHART in *. lia. }
  assert (∀ a b, page_aligned a → page_aligned b → a ≤ b → PAGE_SIZE * Z.of_nat (pages a b) = b - a) as Hpg
    by apply pages_eq.
  assert (page_aligned DRAM_BASE) as Hdram by done.
  assert (∀ b : bool, b = true ∨ b = false) as Hbool by (intros []; auto).
  unfold region_end in Hy. unfold guard_pages. rewrite Es, Ei, Eie.
  region_cases Hr; cbn [fst snd] in Hy |- *; rewrite ?Hpg in Hy by (done || unfold DRAM_BASE; lia);
    unfold UART_BASE, DRAM_BASE, PAGE_SIZE in *;
    (split_and!; [reflexivity | | | repeat apply Forall_cons_2; try apply Forall_nil_2; lia]);
    (intros Hbit; first [ discriminate Hbit | lia ]).
Qed.

(** The guard pages are in none of the regions. *)
Lemma kmap_guard L g y :
  layout_ok L → g ∈ guard_pages L → g ≤ y < g + PAGE_SIZE → kmap (reverse (kernel_regions L)) y = None.
Proof.
  intros HL Hg Hy. destruct (kmap _ y) as [[pa f]|] eqn:Es; [|done]. exfalso.
  apply kmap_Some in Es as (r & Hr & Hin & _). rewrite elem_of_reverse in Hr.
  destruct (regions_protect L y r HL Hr Hin) as (_ & _ & _ & Hfa).
  rewrite Forall_forall in Hfa. by eapply Hfa.
Qed.

Section protection.
Context {S : Type} `{!Host S} `{!HostSpec S}.

(** C1: after [kpage_init], on a layout of the linker script (under overflow checks one
    without empty sections) and with 68 free pages, no address can be both written and
    executed, only the kernel text can be executed, neither the text nor the read-only
    data can be written, every translation is the identity, and the guard pages of the
    stacks are not mapped. *)
Theorem kpage_init_protects L s m pp root fl :
  host_vm (S := S) s = mkVm m (Some pp) →
  layout_ok L → (overflow_checks = true → sections_full L) →
  rep m pp (root :: fl) → (67 ≤ length fl)%nat → 32768 < Z.of_nat fuel →
  ∃ s' m' pp', kpage_init L s = Done (Ok (mkPageTable root), s') ∧ host_vm s' = mkVm m' (Some pp') ∧
    (∀ y pa f, 0 ≤ y < VA_TOP → sv39 m' root y = Some (pa, f) →
      pa = y ∧ (Z.testbit f 2 && Z.testbit f 3 = false) ∧
      (Z.testbit f 3 = true → DRAM_BASE ≤ y < text_end L) ∧
      (Z.testbit f 2 = true → y < DRAM_BASE ∨ rodata_end L ≤ y)) ∧
    (∀ g y, g ∈ guard_pages L → g ≤ y < g + PAGE_SIZE → sv39 m' root y = None).
Proof using PageAllocSpec0 HostSpec0.
  intros Ev HL Hfull Hrep Hlen Hf.
  enough (wp (kpage_init L) s (λ r s', ∃ m' pp', r = Ok (mkPageTable root) ∧ host_vm s' = mkVm m' (Some pp') ∧
    (∀ y, 0 ≤ y < VA_TOP → sv39 m' root y = kmap (reverse (kernel_regions L)) y)) False) as Hw.
  2: { eapply (wp_kpage_init rep 0); [lia | exact Ev | done | exact Hrep | lia | done | by intros Hoc Hne; destruct (Hne (Hfull Hoc)) |].
       intros s' m' pp' own fl' _ Ev' _ Hsv _ _ _ _. by exists m', pp'. }
  apply wp_done in Hw as (r & s' & E & m' & pp' & -> & Ev' & Hsv). exists s', m', pp'. split_and!; [done | done | |].
  - intros y pa f Hy Hs. rewrite Hsv in Hs by done. apply kmap_Some in Hs as (r & Hr & Hin & -> & ->).
    rewrite elem_of_reverse in Hr. pose proof (regions_protect L y r HL Hr Hin). tauto.
  - intros g y Hg Hy. assert (0 ≤ y < VA_TOP) as Hyt.
    { destruct (layout_facts HL) as (_ & _ & _ & _ & _ & _ & ? & ? & ? & Es & Ei & Eb & ? & ? & ?).
      assert (intstacks_end L = data_end L + 57344).
      { destruct HL as []. unfold PAGE_SIZE, NHART in *. lia. }
      change VA_TOP with 549755813888. unfold guard_pages, PAGE_SIZE in *. set_unfold. lia. }
    rewrite Hsv by done. by apply (kmap_guard L g).
Qed.

End protection.

End theorems.
