(* ===== verification/PtWitness.v ===== *)
(** * Page tables on a concrete memory

    A sound executable check of [pt_rep], and the theorems of PtTheorems.v at a small
    pool: an empty table, a table with one page mapped, and the kernel's own map. *)

From S2P Require Import Prelude Machine Param Mutex Palloc FreeList PallocTheorems VmState.
From S2P Require Import Vmalloc Zone ZoneScan KallocProofs Checks.
From S2P Require Import Host Ptable Sv39 PtProofs KpageProofs PtTheorems.

(** ** Checking a tree *)

(** The owner of a path in a list of tables. *)
Fixpoint owner (l : list (Z * path)) (x : path) : option Z :=
  match l with
  | [] => None
  | (p, y) :: l' => if decide (y = x) then Some p else owner l' x
  end.

Definition leaf_okb (e : Z) : bool :=
  negb (Z.testbit e 0) ||
  ((Z.testbit e 1 || Z.testbit e 3) && negb (Z.testbit e 2 && negb (Z.testbit e 1))).

Definition entryb (m : mem) (l : list (Z * path)) (p : Z) (x : path) (i : Z) : bool :=
  match m !! (p + 8 * i) with
  | None => false
  | Some e =>
      if (length x <? 2)%nat then
        match owner l (i :: x) with
        | Some q => e =? phy_to_pte q + 1
        | None => negb (Z.testbit e 0)
        end
      else leaf_okb e
  end.

Definition tableb (m : mem) (l : list (Z * path)) (t : Z * path) : bool :=
  let '(p, x) := t in
  (p mod PAGE_SIZE =? 0) && (0 <? p) && (p + PAGE_SIZE <? u64_size) && mappedb m p 512 &&
  match x with
  | [] => true
  | i :: x' => (0 <=? i) && (i <? 512) && (if owner l x' then true else false)
  end &&
  forallb (λ k, entryb m l p x (Z.of_nat k)) (seq 0 512).

Definition pt_repb (m : mem) (root : Z) (l : list (Z * path)) : bool :=
  bool_decide (NoDup l.*1) && bool_decide (NoDup l.*2) && bool_decide (owner l [] = Some root) &&
  forallb (tableb m l) l.

Lemma owner_Some l x p : NoDup l.*2 → owner l x = Some p ↔ (p, x) ∈ l.
Proof.
  induction l as [|[q y] l IH]; cbn [owner fmap list_fmap fst snd].
  - intros _. split; [done|]. by intros ?%not_elem_of_nil.
  - intros [Hn Hnd]%NoDup_cons. specialize (IH Hnd). rewrite elem_of_cons. case_decide as E.
    + subst y. split; [intros [= ->]; by left|]. intros [[= ->]|Hin]; [done|].
      destruct Hn. apply list_elem_of_fmap. by exists (p, x).
    + rewrite IH. split; [by right|]. intros [[= -> ->]|?]; done.
Qed.

Lemma pt_repb_sound m root l : pt_repb m root l = true → pt_rep m root (list_to_map l).
Proof.
  intros H. unfold pt_repb in H. repeat (apply andb_true_iff in H as [H ?]).
  apply bool_decide_eq_true in H. repeat match goal with
    | E : bool_decide _ = true |- _ => apply bool_decide_eq_true in E end.
  match goal with E : forallb _ l = true |- _ => rename E into Hall end.
  assert (∀ p x, (list_to_map l : gmap Z path) !! p = Some x ↔ (p, x) ∈ l) as Hl.
  { intros p x. symmetry. by apply elem_of_list_to_map. }
  assert (∀ x p, owner l x = Some p ↔ (p, x) ∈ l) as Ho by (intros; by apply owner_Some).
  assert (∀ p x, (list_to_map l : gmap Z path) !! p = Some x → tableb m l (p, x) = true) as Htab.
  { intros p x Hp. rewrite forallb_forall in Hall. apply Hall, list_elem_of_In. by apply Hl. }
  assert (∀ p x i, (list_to_map l : gmap Z path) !! p = Some x → 0 ≤ i < 512 → entryb m l p x i = true) as Hent.
  { intros p x i Hp Hi. pose proof (Htab p x Hp) as Ht. unfold tableb in Ht.
    apply andb_true_iff in Ht as [_ Ht]. rewrite forallb_forall in Ht.
    specialize (Ht (Z.to_nat i)). rewrite Z2Nat.id in Ht by lia. apply Ht, in_seq. lia. }
  split.
  - by apply Hl, Ho.
  - intros p q x Hp%Hl%Ho Hq%Hl%Ho. congruence.
  - intros p x Hp. pose proof (Htab p x Hp) as Ht. unfold tableb in Ht.
    repeat (apply andb_true_iff in Ht as [Ht ?]). assert (page_aligned p) as Ha by (unfold page_aligned; lia).
    split_and!; [done | lia | lia |]. intros a Ha' H8.
    apply (mappedb_sound m p 512); [done | eauto with reedos | unfold PAGE_SIZE in Ha'; lia | done].
  - intros q i x Hq. pose proof (Htab q _ Hq) as Ht. unfold tableb in Ht.
    apply andb_true_iff in Ht as [[_ Ht]%andb_true_iff _].
    apply andb_true_iff in Ht as [Hi Hown]. split; [lia|]. destruct (owner l x) as [p|] eqn:E; [|done].
    exists p. by apply Hl, Ho.
  - intros p x i Hp Hx Hi. pose proof (Hent p x i Hp Hi) as He. unfold entryb in He.
    destruct (m !! (p + 8 * i)) as [e|]; [|done]. exists e. split; [done|].
    rewrite (proj2 (Nat.ltb_lt _ _) Hx) in He. destruct (owner l (i :: x)) as [q|] eqn:E.
    + right. exists q. split; [by apply Hl, Ho | lia].
    + left. split; [by apply negb_true_iff|]. intros q Hq%Hl%Ho. congruence.
  - intros p x i Hp Hx Hi. pose proof (Hent p x i Hp Hi) as He. unfold entryb in He.
    destruct (m !! (p + 8 * i)) as [e|]; [|done]. exists e. split; [done|].
    rewrite Hx in He. simpl in He. unfold leaf_okb in He. intros Hv. rewrite Hv in He. simpl in He.
    apply andb_true_iff in He as [He1 He2]. split; [done | by apply negb_true_iff].
Qed.

(** ** Examples *)

#[local] Instance pt_cfg : Config := dev 600.

Ltac pool_eval := apply pagepool_repb_sound; vm_compute; reflexivity.

(** An empty root table in the first free page. *)
Definition with_root : VmState := after vm_palloc (booted B 6).
Definition root : Z := B + 4096.

(** The UART page mapped in it, which takes two more pages. *)
Definition one_mapped : VmState :=
  after (page_map (mkPageTable root) UART_BASE UART_BASE PAGE_SIZE RW) with_root.
Definition one_tables : list (Z * path) := [(root, []); (B + 8192, [0]); (B + 12288, [128; 0])].

(** The same with no free page left. *)
Definition no_pages : VmState := after (_ ← vm_palloc; vm_palloc) one_mapped.

Lemma with_root_state :
  pt_state pagepool_rep (vm_mem with_root) (the_pool with_root) root (list_to_map [(root, [])]) (run (B + 8192) 4).
Proof.
  split; [apply pt_repb_sound; vm_compute; reflexivity | pool_eval |].
  intros p Hp. apply not_elem_of_list_to_map_1. unfold root, run, PAGE_SIZE in *. simpl in *. set_unfold. lia.
Qed.

Lemma one_mapped_state :
  pt_state pagepool_rep (vm_mem one_mapped) (the_pool one_mapped) root (list_to_map one_tables) (run (B + 16384) 2).
Proof.
  split; [apply pt_repb_sound; vm_compute; reflexivity | pool_eval |].
  intros p Hp. apply not_elem_of_list_to_map_1. unfold one_tables, root, run, PAGE_SIZE in *. simpl in *. set_unfold. lia.
Qed.

Lemma no_pages_state :
  pt_state pagepool_rep (vm_mem no_pages) (the_pool no_pages) root (list_to_map one_tables) [].
Proof.
  split; [apply pt_repb_sound; vm_compute; reflexivity | pool_eval |].
  by intros p ?%not_elem_of_nil.
Qed.

Lemma pte_roundtrip_witness :
  pte_to_phy (PteSetFlag (phy_to_pte B) 0xF) = B ∧
  ∀ i, 0 ≤ i < 10 → Z.testbit (PteSetFlag (phy_to_pte B) 0xF) i = Z.testbit 0xF i.
Proof. apply pte_roundtrip; [reflexivity | split; [discriminate | reflexivity] | lia]. Defined.

Lemma vpn_identifies_page_witness :
  (vpn (B + 8) 0 = vpn B 0 ∧ vpn (B + 8) 1 = vpn B 1 ∧ vpn (B + 8) 2 = vpn B 2) ↔ page_of (B + 8) = page_of B.
Proof. apply vpn_identifies_page; split; (discriminate || reflexivity). Defined.

Lemma satp_selects_sv39_witness :
  Z.shiftr (phy_to_satp B) 60 = 8 ∧ phy_to_satp B mod 2 ^ 60 = B / PAGE_SIZE ∧ is_u64 (phy_to_satp B).
Proof. apply satp_selects_sv39; [reflexivity | split; [discriminate | reflexivity]]. Defined.

Lemma walk_without_alloc_witness :
  let st := mkVm (vm_mem one_mapped) None in
  (∃ p, (list_to_map one_tables : gmap Z path) !! p = Some (leaf_path UART_BASE) ∧
    walk (mkPageTable root) UART_BASE false st = Done (Ok (p + 8 * vpn UART_BASE 0), st)) ∨
  ((∀ p, (list_to_map one_tables : gmap Z path) !! p ≠ Some (leaf_path UART_BASE)) ∧
    walk (mkPageTable root) UART_BASE false st = Done (Err PallocFail, st)).
Proof.
  apply walk_without_alloc; [apply one_mapped_state | split; [discriminate | reflexivity]].
Defined.

Lemma page_map_translates_witness :
  ∃ m' pp' own' fl',
    page_map (mkPageTable root) UART_BASE UART_BASE (PAGE_SIZE * Z.of_nat 2) RW
        (mkVm (vm_mem with_root) (Some (the_pool with_root))) = Done (Ok (), mkVm m' (Some pp')) ∧
    pt_state pagepool_rep m' pp' root own' fl' ∧
    (∀ y, UART_BASE ≤ y < UART_BASE + PAGE_SIZE * Z.of_nat 2 →
      sv39 m' root y = Some (UART_BASE + (y - UART_BASE), Z.lor RW PTE_VALID)) ∧
    (∀ y, 0 ≤ y < VA_TOP → ¬ (UART_BASE ≤ y < UART_BASE + PAGE_SIZE * Z.of_nat 2) →
      sv39 m' root y = sv39 (vm_mem with_root) root y) ∧
    (∀ a, (list_to_map [(root, [])] : gmap Z path) !! page_of a = None → page_of a ∉ run (B + 8192) 4 →
      m' !! a = vm_mem with_root !! a).
Proof.
  apply (page_map_translates pagepool_rep (vm_mem with_root) (the_pool with_root) root
    (list_to_map [(root, [])]) (run (B + 8192) 4) UART_BASE UART_BASE 2 RW);
    [exact with_root_state | reflexivity | discriminate | discriminate | reflexivity | discriminate
    | reflexivity | reflexivity | lia | | vm_compute; lia | simpl; lia].
  intros y _ _. apply root_empty. apply with_root_state.
Defined.

Lemma page_map_remap_refused_witness :
  ∃ m' pp', page_map (mkPageTable root) UART_BASE UART_BASE PAGE_SIZE RW
      (mkVm (vm_mem one_mapped) (Some (the_pool one_mapped))) = Done (Err PallocFail, mkVm m' (Some pp')) ∧
    ∀ y, sv39 m' root y = sv39 (vm_mem one_mapped) root y.
Proof.
  apply (page_map_remap_refused pagepool_rep _ _ _ _ _ _ _ _ _ (UART_BASE, 7) one_mapped_state);
    [reflexivity | split; [discriminate | reflexivity] | split; discriminate | vm_compute; reflexivity | simpl; lia].
Defined.

Lemma page_map_out_of_pages_witness :
  ∃ m' pp', page_map (mkPageTable root) CLINT_BASE CLINT_BASE PAGE_SIZE RW
      (mkVm (vm_mem no_pages) (Some (the_pool no_pages))) = Done (Err OutOfPages, mkVm m' (Some pp')) ∧
    ∀ y, sv39 m' root y = sv39 (vm_mem no_pages) root y.
Proof.
  apply (page_map_out_of_pages pagepool_rep _ _ _ _ _ _ _ _ no_pages_state);
    [reflexivity | split; [discriminate | reflexivity] | split; discriminate | | simpl; lia].
  apply (bool_decide_unpack _). vm_compute. exact I.
Defined.

(** ** The kernel's map

    Eight pages of text, two of read-only data, one of data and one of zeroed data;
    the pool starts behind them. *)

Definition demo_layout : Layout := {|
  text_end := 0x80008000; rodata_end := 0x8000a000; data_end := 0x8000b000;
  stacks_start := 0x8000b000; stacks_end := 0x80011000;
  intstacks_start := 0x80011000; intstacks_end := 0x80019000;
  bss_start := 0x8001a000; bss_end := 0x8001b000; dram_end := 0x88000000
|}.

Lemma demo_layout_ok : layout_ok demo_layout.
Proof. split; (reflexivity || discriminate). Qed.

Lemma demo_full : sections_full demo_layout.
Proof. repeat split. Qed.

Definition big_cfg : Config := dev (Z.to_nat 40000).

(** Seventy pages from the end of the zeroed data on, one of them the heap's. *)
Definition seventy : VmState := @booted big_cfg 0x8001b000 70.

Lemma seventy_pool :
  pagepool_rep (vm_mem seventy) (the_pool seventy) (0x8001c000 :: run 0x8001d000 68).
Proof. pool_eval. Qed.

(** The same state, with the pool in its place. *)
Definition seventy_set : VmState := mkVm (vm_mem seventy) (Some (the_pool seventy)).

(** A host that keeps the lines of the log. *)
#[local] Instance logged : Host (VmState * list string) := {|
  host_vm := fst;
  untouched := λ s s', s.2 `prefix_of` s'.2;
  on_host := λ A e, zoom fst (λ v s, (v, s.2)) e;
  debug := λ l s, Done ((), (s.1, s.2 ++ l))
|}.

#[local] Instance logged_spec : @HostSpec big_cfg _ logged.
Proof.
  split.
  - split; [intros s; apply (reflexivity (R := prefix)) | intros s1 s2 s3; apply (transitivity (R := prefix))].
  - intros A e s. simpl. unfold zoom. destruct (e s.1) as [[a v]| | |]; [|done..]. by exists (v, s.2).
  - intros l _ s. simpl. eexists. split_and!; [done | done |]. simpl. by apply prefix_app_r.
Qed.

Lemma kpage_init_identity_map_witness :
  ∃ s' m' pp', @kpage_init big_cfg _ logged demo_layout (seventy_set, []) = Done (Ok (mkPageTable 0x8001c000), s') ∧
    s'.1 = mkVm m' (Some pp') ∧ [] `prefix_of` s'.2 ∧
    (∀ y, 0 ≤ y < VA_TOP → sv39 m' 0x8001c000 y = kmap (reverse (kernel_regions demo_layout)) y) ∧
    same_outside (0x8001c000 :: run 0x8001d000 68) (vm_mem seventy) m'.
Proof.
  apply (@kpage_init_identity_map big_cfg pagepool_rep _ _ logged logged_spec demo_layout (seventy_set, [])
    (vm_mem seventy) (the_pool seventy));
    [exact eq_refl | exact demo_layout_ok | intros _; exact demo_full | exact seventy_pool | vm_compute; lia | vm_compute; reflexivity].
Defined.

(** The same kernel with no initialised data. *)
Definition dataless : Layout := mkLayout 0x80004000 0x80008000 0x80008000 0x80008000 0x8000e000
  0x8000e000 0x80016000 0x80017000 0x8001b000 0x88000000.

Lemma kpage_init_empty_section_panics_witness :
  @kpage_init big_cfg _ logged dataless (seventy_set, []) = Panic.
Proof.
  apply (@kpage_init_empty_section_panics big_cfg pagepool_rep _ _ logged logged_spec dataless (seventy_set, [])
    (vm_mem seventy) (the_pool seventy) 0x8001c000 (run 0x8001d000 68));
    [exact eq_refl | split; (reflexivity || discriminate) | reflexivity | intros (_ & H & _); discriminate H
    | exact seventy_pool | vm_compute; lia | vm_compute; reflexivity].
Defined.

Lemma kpage_init_protects_witness :
  ∃ s' m' pp', @kpage_init big_cfg _ logged demo_layout (seventy_set, []) = Done (Ok (mkPageTable 0x8001c000), s') ∧
    s'.1 = mkVm m' (Some pp') ∧
    (∀ y pa f, 0 ≤ y < VA_TOP → sv39 m' 0x8001c000 y = Some (pa, f) →
      pa = y ∧ (Z.testbit f 2 && Z.testbit f 3 = false) ∧
      (Z.testbit f 3 = true → DRAM_BASE ≤ y < text_end demo_layout) ∧
      (Z.testbit f 2 = true → y < DRAM_BASE ∨ rodata_end demo_layout ≤ y)) ∧
    (∀ g y, g ∈ guard_pages demo_layout → g ≤ y < g + PAGE_SIZE → sv39 m' 0x8001c000 y = None).
Proof.
  apply (@kpage_init_protects big_cfg pagepool_rep _ _ logged logged_spec demo_layout (seventy_set, [])
    (vm_mem seventy) (the_pool seventy) 0x8001c000 (run 0x8001d000 68));
    [exact eq_refl | exact demo_layout_ok | intros _; exact demo_full | exact seventy_pool | vm_compute; lia | vm_compute; reflexivity].
Defined.
