(* ===== verification/Global.v ===== *)
(** * The global allocator (src/vm/global.rs)

    [Galloc] serves small requests from the heap and large or strictly aligned ones
    from the page pool, behind the [GlobalAlloc] interface. Its [pool] field points
    to the [PAGEPOOL] static, so it is the pool of the state; its [small_pool] is a
    [Kalloc], whose fields no operation changes. Accesses by bytes go through the
    64-bit words of the memory, little endian. *)

From S2P Require Import Prelude Machine Param Mutex Palloc VmState Vmalloc.

(** [core::alloc::Layout], as far as the code looks at it. *)
Record MemLayout : Type := mkMemLayout {
  lsize : Z;
  align : Z
}.

Record Galloc : Type := mkGalloc { small_pool : Kalloc }.

(** ** Bytes *)

Definition word_of (a : Z) : Z := a - a mod 8.

(** The byte at [a] inside its word. *)
Definition byte_of (w a : Z) : Z := Z.land (Z.shiftr w (8 * (a mod 8))) 0xFF.

Definition with_byte (w a b : Z) : Z :=
  Z.lor (Z.land w (unot (Z.shiftl 0xFF (8 * (a mod 8))))) (Z.shiftl b (8 * (a mod 8))).

Definition read_byte (a : Z) : M mem Z :=
  w ← read (word_of a); mret (byte_of w a).

Definition write_byte (a b : Z) : M mem unit :=
  w ← read (word_of a); write (word_of a) (with_byte w a b).

(** [ptr.write_bytes(b, n)] on [*mut u8]. *)
Fixpoint write_bytes (a b : Z) (n : nat) : M mem unit :=
  match n with
  | O => mret ()
  | S n' => write_byte a b ;; write_bytes (byte_add a 1) b n'
  end.

(** [copy_nonoverlapping(src, dst, n)]. *)
Fixpoint copy_bytes (src dst : Z) (n : nat) : M mem unit :=
  match n with
  | O => mret ()
  | S n' =>
      b ← read_byte src;
      write_byte dst b ;;
      copy_bytes (byte_add src 1) (byte_add dst 1) n'
  end.

#[global] Arguments write_bytes : simpl never.
#[global] Arguments copy_bytes : simpl never.

Section global.
Context {cfg : Config}.

Definition Galloc_new : M VmState Galloc :=
  r ← vm_palloc;
  small_pool_start ← expect r;
  k ← on_mem (Kalloc_new small_pool_start);
  mret (mkGalloc k).

(** [Drop for Galloc]. *)
Definition Galloc_drop (self : Galloc) : M VmState unit := panic.

(** The number of pages to ask the page allocator for, zero for the heap. *)
Definition decide_internal_scheme {S} (layout : MemLayout) : M S Z :=
  let req_size := lsize layout in
  if req_size =? 0 then panic
  else if req_size <=? MAX_CHUNK_SIZE then
    mret (if align layout <=? 8 then 0 else 1)
  else
    a ← u_add req_size PAGE_SIZE;
    b ← u_sub a 1;
    mret (b / PAGE_SIZE).

Definition vm_palloc_plural (n : Z) : M VmState (result Z VmError) :=
  with_pool (λ pp, palloc_plural pp n).

Definition vm_pfree_plural (a n : Z) : M VmState (result unit VmError) :=
  with_pool (λ pp, pfree_plural pp a n).

Definition galloc_alloc (self : Galloc) (layout : MemLayout) : M VmState Z :=
  if PAGE_SIZE <? align layout then panic
  else
    num_pages ← decide_internal_scheme layout;
    if num_pages =? 0 then
      r ← Kalloc_alloc (small_pool self) (lsize layout);
      match r with Ok ptr => mret ptr | Err _ => panic end
    else
      r ← vm_palloc_plural num_pages;
      match r with Ok ptr => mret ptr | Err _ => panic end.

Definition galloc_dealloc (self : Galloc) (ptr : Z) (layout : MemLayout) : M VmState unit :=
  if PAGE_SIZE <? align layout then panic
  else
    num_pages ← decide_internal_scheme layout;
    if num_pages =? 0 then Kalloc_free (small_pool self) ptr
    else
      r ← vm_pfree_plural ptr num_pages;
      match r with Ok _ => mret () | Err _ => panic end.

Definition galloc_alloc_zeroed (self : Galloc) (layout : MemLayout) : M VmState Z :=
  out ← galloc_alloc self layout;
  num_pages ← decide_internal_scheme layout;
  if num_pages =? 0 then
    on_mem (write_bytes out 0 (Z.to_nat (lsize layout))) ;; mret out
  else mret out.

(** [Layout::from_size_align]: the alignment is a power of two and the size, rounded
    up to it, fits an [isize]. *)
Definition from_size_align (size al : Z) : option MemLayout :=
  if (0 <? al) && (Z.land al (al - 1) =? 0) && (size <=? 2 ^ 63 - al)
  then Some (mkMemLayout size al) else None.

Definition galloc_realloc (self : Galloc) (ptr : Z) (layout : MemLayout) (new_size : Z) : M VmState Z :=
  l ← unwrap (from_size_align new_size (align layout));
  out ← galloc_alloc self l;
  on_mem (copy_bytes ptr out (Z.to_nat (lsize layout))) ;;
  galloc_dealloc self ptr layout ;;
  mret out.

End global.
