(* ===== verification/Bytes.v ===== *)
(** * Memory by bytes

    The byte accesses of src/vm/global.rs and of the [alloc] crate, over the words of
    the memory: a byte write changes one byte, [write_bytes] fills a range and
    [copy_bytes] copies one. *)

From S2P Require Import Prelude Machine Param Mutex Palloc FreeList VmState Vmalloc Global.

(** The byte at [a], if [a] is in RAM. *)
Definition get_byte (m : mem) (a : Z) : option Z := (λ w, byte_of w a) <$> m !! word_of a.

Lemma word_of_mod a : word_of a mod 8 = 0.
Proof. unfold word_of. zdm. Qed.

Lemma word_of_spec a x : word_of a = word_of x → a mod 8 = x mod 8 → a = x.
Proof. unfold word_of. lia. Qed.

Lemma word_of_bounds a : word_of a ≤ a < word_of a + 8.
Proof. unfold word_of. zdm. Qed.

(** ** Bytes of a word *)

Lemma byte_of_testbit w a i :
  0 ≤ i → Z.testbit (byte_of w a) i = (i <? 8) && Z.testbit w (i + 8 * (a mod 8)).
Proof.
  intros Hi. unfold byte_of. change 0xFF with (Z.ones 8).
  rewrite Z.land_spec, Z.shiftr_spec, Z.testbit_ones_nonneg by lia. apply andb_comm.
Qed.

Lemma byte_of_range w a : 0 ≤ byte_of w a < 256.
Proof. unfold byte_of. change 0xFF with (Z.ones 8). rewrite land_low by lia. apply Z.mod_pos_bound. lia. Qed.

Lemma with_byte_testbit w a b j i :
  0 ≤ b < 256 → 0 ≤ j < 8 → 0 ≤ i < 8 →
  Z.testbit (with_byte w a b) (i + 8 * j) =
    if j =? a mod 8 then Z.testbit b i else Z.testbit w (i + 8 * j).
Proof.
  intros Hb Hj Hi. set (k := a mod 8). assert (0 ≤ k < 8) as Hk by (apply Z.mod_pos_bound; lia).
  unfold with_byte, unot. fold k. change 0xFF with (Z.ones 8).
  rewrite Z.lor_spec, Z.land_spec, Z.lxor_spec, !Z.shiftl_spec, (Z.testbit_ones_nonneg 64) by lia.
  rewrite (proj2 (Z.ltb_lt (i + 8 * j) 64)) by lia. rewrite xorb_true_r.
  destruct (Z.eqb_spec j k) as [->|Hne].
  - replace (i + 8 * k - 8 * k) with i by lia. rewrite Z.testbit_ones_nonneg by lia.
    rewrite (proj2 (Z.ltb_lt i 8)) by lia. by rewrite andb_false_r.
  - assert (i + 8 * j - 8 * k < 0 ∨ 8 ≤ i + 8 * j - 8 * k) as [Hlt|Hge] by lia.
    + rewrite !(Z.testbit_neg_r _ (_ - _)) by lia. by rewrite andb_true_r, orb_false_r.
    + rewrite Z.testbit_ones_nonneg, (proj2 (Z.ltb_ge _ 8)) by lia.
      rewrite (testbit_high b 8) by (change (2 ^ 8) with 256; lia). by rewrite andb_true_r, orb_false_r.
Qed.

Lemma byte_with_byte w a b x :
  0 ≤ b < 256 → byte_of (with_byte w a b) x = if x mod 8 =? a mod 8 then b else byte_of w x.
Proof.
  intros Hb. apply Z.bits_inj'. intros i Hi.
  rewrite byte_of_testbit by done. assert (0 ≤ x mod 8 < 8) by (apply Z.mod_pos_bound; lia).
  destruct (Z.ltb_spec i 8) as [Hlt|Hge]; simpl.
  - rewrite with_byte_testbit by lia. destruct (_ =? _); [done|].
    rewrite byte_of_testbit, (proj2 (Z.ltb_lt i 8)) by lia. done.
  - destruct (_ =? _); [symmetry; apply (testbit_high b 8); change (2 ^ 8) with 256; lia|].
    rewrite byte_of_testbit, (proj2 (Z.ltb_ge i 8)) by lia. done.
Qed.

(** ** Accesses *)

(** What writing the bytes [f] of the range [[a, a + n)] gives. *)
Definition bytes_written (a n : Z) (f : Z → option Z) (m m' : mem) : Prop :=
  (∀ x, get_byte m' x = if (a <=? x) && (x <? a + n) then f x else get_byte m x) ∧
  (∀ y, (∀ x, a ≤ x < a + n → word_of x ≠ y) → m' !! y = m !! y) ∧ keeps m m'.

Definition range_mapped (m : mem) (a n : Z) : Prop :=
  ∀ x, a ≤ x < a + n → is_Some (m !! word_of x).

Lemma range_mapped_keeps m m' a n : range_mapped m a n → keeps m m' → range_mapped m' a n.
Proof. intros Hr Hk x Hx. apply Hk; [apply word_of_mod | by apply Hr]. Qed.

Lemma get_byte_Some m a : is_Some (m !! word_of a) → is_Some (get_byte m a).
Proof. intros [w Hw]. unfold get_byte. rewrite Hw. by eexists. Qed.

Lemma wp_read_byte a m b (Q : Z → mem → Prop) P :
  get_byte m a = Some b → Q b m → wp (read_byte a) m Q P.
Proof.
  unfold get_byte. intros Hb HQ. destruct (m !! word_of a) as [w|] eqn:E; [|done]. injection Hb as <-.
  unfold read_byte. apply wp_bind. eapply wp_read; [apply word_of_mod | exact E |]. by apply wp_ret.
Qed.

Lemma wp_write_byte a b m (Q : unit → mem → Prop) P :
  is_Some (m !! word_of a) → 0 ≤ b < 256 →
  (∀ m', bytes_written a 1 (λ _, Some b) m m' → Q () m') → wp (write_byte a b) m Q P.
Proof.
  intros [w Hw] Hb HQ. unfold write_byte. apply wp_bind.
  eapply wp_read; [apply word_of_mod | exact Hw |]. apply wp_write; [apply word_of_mod | by eexists |].
  apply HQ. split_and!; [| | apply keeps_insert].
  - intros x. unfold get_byte. pose proof (word_of_bounds a). pose proof (word_of_bounds x).
    destruct (decide (word_of x = word_of a)) as [E|Hne].
    + rewrite E, lookup_insert_eq, Hw. simpl. rewrite byte_with_byte by done.
      destruct (Z.eqb_spec (x mod 8) (a mod 8)) as [E8|Hne].
      * rewrite (word_of_spec x a) by done. by settle_bool.
      * assert (x ≠ a) by congruence.
        destruct (Z.leb_spec a x), (Z.ltb_spec x (a + 1)); simpl; try done; lia.
    + rewrite lookup_insert_ne by done. assert (x ≠ a) by congruence.
      destruct (Z.leb_spec a x), (Z.ltb_spec x (a + 1)); simpl; try done; lia.
  - intros y Hy. apply lookup_insert_ne, Hy. lia.
Qed.

(** Writing a range after its first byte. *)
Lemma bytes_written_cons a n f m1 m2 m3 :
  0 ≤ n → bytes_written a 1 f m1 m2 → bytes_written (a + 1) n f m2 m3 → bytes_written a (n + 1) f m1 m3.
Proof.
  intros Hn (H1 & O1 & K1) (H2 & O2 & K2). split_and!.
  - intros x. rewrite H2, H1.
    destruct (Z.leb_spec (a + 1) x), (Z.ltb_spec x (a + 1 + n)), (Z.leb_spec a x), (Z.ltb_spec x (a + 1)),
      (Z.ltb_spec x (a + (n + 1))); simpl; (done || lia).
  - intros y Hy. rewrite O2, O1; [done | |]; intros x Hx; apply Hy; lia.
  - by eapply keeps_trans.
Qed.

Lemma bytes_written_none a f m : bytes_written a 0 f m m.
Proof.
  split_and!; [|done | by intros x].
  intros x. destruct (Z.leb_spec a x), (Z.ltb_spec x (a + 0)); simpl; (done || lia).
Qed.

(** [write_bytes] fills its range. *)
Lemma wp_write_bytes n a b m (Q : unit → mem → Prop) P :
  0 ≤ a → a + Z.of_nat n < u64_size → 0 ≤ b < 256 → range_mapped m a (Z.of_nat n) →
  (∀ m', bytes_written a (Z.of_nat n) (λ _, Some b) m m' → Q () m') → wp (write_bytes a b n) m Q P.
Proof.
  revert a m. enough (∀ a m, 0 ≤ a → a + Z.of_nat n < u64_size → 0 ≤ b < 256 → range_mapped m a (Z.of_nat n) →
    wp (write_bytes a b n) m (λ _ m', bytes_written a (Z.of_nat n) (λ _, Some b) m m') P) as H.
  { intros a m ? ? ? ? HQ. eapply wp_mono; [by apply H | | done]. by intros [] m' Hm'; apply HQ. }
  induction n as [|n IH]; intros a m H0 Hu Hb Hr; [apply wp_ret, bytes_written_none|].
  change (write_bytes a b (S n)) with (write_byte a b ;; write_bytes (byte_add a 1) b n).
  rewrite byte_add_small by u64_range. apply wp_bind, wp_write_byte; [apply Hr; lia | done |].
  intros m1 Hm1. eapply wp_mono; [apply IH; [lia | lia | done |] | | done].
  - eapply range_mapped_keeps; [|apply Hm1]. intros x Hx. apply Hr. lia.
  - intros ? m2 Hm2. rewrite Nat2Z.inj_succ, <- Z.add_1_r. eapply bytes_written_cons; [lia | done | done].
Qed.

(** [copy_bytes] copies a range to one that does not meet it. *)
Lemma wp_copy_bytes n src dst m (Q : unit → mem → Prop) P :
  0 ≤ src → src + Z.of_nat n < u64_size → 0 ≤ dst → dst + Z.of_nat n < u64_size →
  src + Z.of_nat n ≤ dst ∨ dst + Z.of_nat n ≤ src →
  range_mapped m src (Z.of_nat n) → range_mapped m dst (Z.of_nat n) →
  (∀ m', bytes_written dst (Z.of_nat n) (λ x, get_byte m (src + (x - dst))) m m' → Q () m') →
  wp (copy_bytes src dst n) m Q P.
Proof.
  revert src dst m. enough (∀ src dst m, 0 ≤ src → src + Z.of_nat n < u64_size → 0 ≤ dst →
    dst + Z.of_nat n < u64_size → src + Z.of_nat n ≤ dst ∨ dst + Z.of_nat n ≤ src →
    range_mapped m src (Z.of_nat n) → range_mapped m dst (Z.of_nat n) →
    wp (copy_bytes src dst n) m
      (λ _ m', bytes_written dst (Z.of_nat n) (λ x, get_byte m (src + (x - dst))) m m') P) as H.
  { intros src dst m ? ? ? ? ? ? ? HQ. eapply wp_mono; [by apply H | | done]. by intros [] m' Hm'; apply HQ. }
  induction n as [|n IH]; intros src dst m Hs Hsu Hd Hdu Hdis Hrs Hrd; [apply wp_ret, bytes_written_none|].
  change (copy_bytes src dst (S n)) with (b ← read_byte src;
    write_byte dst b ;; copy_bytes (byte_add src 1) (byte_add dst 1) n).
  rewrite !byte_add_small by u64_range. destruct (get_byte_Some m src) as [b Hb]; [apply Hrs; lia|].
  apply wp_bind. eapply wp_read_byte; [exact Hb|]. assert (0 ≤ b < 256) as Hbr.
  { unfold get_byte in Hb. destruct (m !! _); [|done]. injection Hb as <-. apply byte_of_range. }
  apply wp_bind, wp_write_byte; [apply Hrd; lia | done |]. intros m1 Hm1.
  pose proof Hm1 as (E1 & O1 & K1). eapply wp_mono; [apply IH; try lia | | done].
  - eapply range_mapped_keeps; [|done]. intros x Hx. apply Hrs. lia.
  - eapply range_mapped_keeps; [|done]. intros x Hx. apply Hrd. lia.
  - intros ? m2 (E2 & O2 & K2). rewrite Nat2Z.inj_succ, <- Z.add_1_r. split_and!; [| |by eapply keeps_trans].
    + intros x. rewrite E2. set (y := src + 1 + (x - (dst + 1))).
      assert (y = src + (x - dst)) as Ey by (unfold y; lia). rewrite !E1, Ey.
      destruct (Z.leb_spec (dst + 1) x), (Z.ltb_spec x (dst + 1 + Z.of_nat n)), (Z.leb_spec dst x),
        (Z.ltb_spec x (dst + 1)), (Z.ltb_spec x (dst + (Z.of_nat n + 1))); simpl; try (done || lia).
      * destruct (Z.leb_spec dst (src + (x - dst))), (Z.ltb_spec (src + (x - dst)) (dst + 1)); simpl; (done || lia).
      * assert (x = dst) as -> by lia. by replace (src + (dst - dst)) with src by lia.
    + intros y Hy. rewrite O2, O1; [done | |]; intros x Hx; apply Hy; lia.
Qed.

(** A range inside of an aligned block: words outside of the block stay. *)
Lemma bytes_written_block a k n f m m' y :
  bytes_written a k f m m' → a mod 8 = 0 → k ≤ n → n mod 8 = 0 → ¬ (a ≤ y < a + n) → m' !! y = m !! y.
Proof.
  intros (_ & O & _) Ha Hk Hn Hy. apply O. intros x Hx <-. apply Hy. unfold word_of. zdm.
Qed.
