(* ===== verification/GlobalTheorems.v ===== *)
(** * The global allocator: what it promises

    Which allocator serves a request, that the answer is aligned and big enough, and
    that [dealloc] undoes [alloc] with the same layout (src/vm/global.rs). *)

From S2P Require Import Prelude Machine Param Mutex Palloc FreeList PallocAlloc PallocFree.
From S2P Require Import PallocTheorems VmState Vmalloc Zone ZoneScan Heap KallocProofs KallocFree.
From S2P Require Import KallocTheorems Global Checks.

(** Alignments Rust allows. *)
Definition pow2 (a : Z) : Prop := ∃ k, 0 ≤ k ∧ a = 2 ^ k.

Lemma pow2_divides_8 a : pow2 a → a ≤ 8 → (8 mod a = 0 ∧ 0 < a).
Proof.
  intros (k & Hk & ->) Ha. assert (k ≤ 3) as Hk3.
  { destruct (Z.le_gt_cases k 3); [done|]. assert (2 ^ 4 ≤ 2 ^ k) by (apply Z.pow_le_mono_r; lia).
    change (2 ^ 4) with 16 in *. lia. }
  assert (k = 0 ∨ k = 1 ∨ k = 2 ∨ k = 3) as [-> | [-> | [-> | ->]]] by lia; done.
Qed.

Lemma pow2_divides_page a : pow2 a → a ≤ PAGE_SIZE → (PAGE_SIZE mod a = 0 ∧ 0 < a).
Proof.
  intros (k & Hk & ->) Ha. assert (k ≤ 12) as Hk12.
  { destruct (Z.le_gt_cases k 12); [done|]. assert (2 ^ 13 ≤ 2 ^ k) by (apply Z.pow_le_mono_r; lia).
    change (2 ^ 13) with 8192 in *. unfold PAGE_SIZE in Ha. lia. }
  split; [|by apply Z.pow_pos_nonneg].
  change PAGE_SIZE with (2 ^ 12). replace 12 with (k + (12 - k)) by lia.
  rewrite Z.pow_add_r by lia. rewrite Z.mul_comm. apply Z.mod_mul.
  assert (0 < 2 ^ k) by (by apply Z.pow_pos_nonneg). lia.
Qed.

Lemma mod_trans p n a : 0 < a → n mod a = 0 → 0 < n → p mod n = 0 → p mod a = 0.
Proof.
  intros Ha Hn Hn0 Hp. apply Z.mod_divide in Hn, Hp; try lia. apply Z.mod_divide; [lia|].
  by apply (Z.divide_trans _ n).
Qed.

Section theorems.
Context {cfg : Config}.

(** The pages a layout needs from the page allocator, none for the heap. *)
Definition scheme (l : MemLayout) : Z :=
  if lsize l <=? MAX_CHUNK_SIZE then (if align l <=? 8 then 0 else 1)
  else (lsize l + PAGE_SIZE - 1) / PAGE_SIZE.

Lemma wp_scheme {S} l (s : S) (Q : Z → S → Prop) P :
  0 < lsize l → lsize l + PAGE_SIZE < u64_size → Q (scheme l) s → wp (decide_internal_scheme l) s Q P.
Proof.
  intros H0 Hu HQ. unfold decide_internal_scheme, scheme in *.
  rewrite (proj2 (Z.eqb_neq (lsize l) 0)) by lia. destruct (lsize l <=? MAX_CHUNK_SIZE).
  - by apply wp_ret.
  - unfold PAGE_SIZE in *. apply wp_bind, wp_u_add; [u64_range|].
    apply wp_bind, wp_u_sub; [u64_range|]. by apply wp_ret.
Qed.

(** C30: for a layout with an alignment of at most a page and a size that leaves room for
    rounding, the scheme chooses the heap exactly for sizes up to a chunk with an
    alignment of at most 8, and otherwise the least number of pages that hold the size;
    either way what the chosen allocator hands out, a multiple of 8 or of the page size,
    is aligned as asked. A size of zero panics. *)
Theorem scheme_fits l (st : VmState) :
  0 < lsize l → lsize l + PAGE_SIZE < u64_size → pow2 (align l) → align l ≤ PAGE_SIZE →
  ∃ n, decide_internal_scheme l st = Done (n, st) ∧
    (n = 0 ↔ lsize l ≤ MAX_CHUNK_SIZE ∧ align l ≤ 8) ∧
    (n = 0 → ∀ p, p mod 8 = 0 → p mod align l = 0) ∧
    (n ≠ 0 → (n - 1) * PAGE_SIZE < lsize l ≤ n * PAGE_SIZE ∧ ∀ p, page_aligned p → p mod align l = 0) ∧
    decide_internal_scheme (mkMemLayout 0 (align l)) st = Panic.
Proof.
  intros H0 Hu Hpow Ha. destruct (pow2_divides_page _ Hpow Ha) as [Hdp Hpos].
  assert (scheme l = 0 ↔ lsize l ≤ MAX_CHUNK_SIZE ∧ align l ≤ 8) as Hz.
  { unfold scheme, MAX_CHUNK_SIZE, PAGE_SIZE in *.
    destruct (Z.leb_spec (lsize l) 4080), (Z.leb_spec (align l) 8); split; intros; zdm. }
  exists (scheme l). split_and!; [by apply wp_exact, wp_scheme | done | | | done].
  - intros [_ H8]%Hz p Hp. destruct (pow2_divides_8 _ Hpow H8). by apply (mod_trans _ 8).
  - intros Hn. split; [|intros p Hp; by apply (mod_trans _ PAGE_SIZE)].
    unfold scheme, MAX_CHUNK_SIZE, PAGE_SIZE in *.
    destruct (Z.leb_spec (lsize l) 4080), (Z.leb_spec (align l) 8); zdm.
Qed.

Lemma wp_galloc_small g b l st nx cs s (Q : _ → VmState → Prop) P :
  small_pool g = heap_at b → lsize l ≤ MAX_CHUNK_SIZE → align l ≤ 8 →
  zone_rep (vm_mem st) b nx cs → 0 < lsize l → (s, false) ∈ cs → round8 (lsize l) ≤ s →
  (512 ≤ fuel)%nat →
  (∀ p m' cs', zone_rep m' b nx cs' → zone_frame b cs (vm_mem st) m' →
    blocks b cs' ≡ₚ (p, round8 (lsize l)) :: blocks b cs → Q p (set_mem m' st)) →
  wp (galloc_alloc g l) st Q P.
Proof.
  intros Hg Hmax Ha H H0 Hin Hs Hf HQ. unfold galloc_alloc.
  rewrite (proj2 (Z.ltb_ge PAGE_SIZE (align l))) by (unfold PAGE_SIZE; lia).
  unfold MAX_CHUNK_SIZE in *.
  apply wp_bind, wp_scheme; [done | unfold PAGE_SIZE; rewrite u64_size_eq; lia |].
  unfold scheme, MAX_CHUNK_SIZE. settle_bool. rewrite Hg. apply wp_bind.
  eapply wp_alloc_fits; [done | done | done | done | done |].
  intros p m' cs' Hz Hfr Hp. by eapply wp_ret, HQ.
Qed.

(** a small request with an alignment of at most 8 that the first zone can hold is
    answered with a block of the heap that is big enough, aligned as asked, and
    disjoint from the live blocks, which keep their contents. *)
Theorem galloc_alloc_small g b l st nx cs s :
  small_pool g = heap_at b → lsize l ≤ MAX_CHUNK_SIZE → align l ≤ 8 → pow2 (align l) →
  zone_rep (vm_mem st) b nx cs → 0 < lsize l → (s, false) ∈ cs → round8 (lsize l) ≤ s →
  (512 ≤ fuel)%nat →
  ∃ p n m' cs', galloc_alloc g l st = Done (p, set_mem m' st) ∧
    zone_rep m' b nx cs' ∧ blocks b cs' ≡ₚ (p, n) :: blocks b cs ∧
    lsize l ≤ n ∧ p mod align l = 0 ∧ Forall (disjoint_blocks (p, n)) (blocks b cs) ∧
    blocks_kept b cs (vm_mem st) m'.
Proof.
  intros Hg Hmax Ha Hpow H H0 Hin Hs Hf. destruct (pow2_divides_8 _ Hpow Ha) as [Hdiv Hpos].
  enough (wp (galloc_alloc g l) st (λ p st', ∃ m' cs', st' = set_mem m' st ∧ zone_rep m' b nx cs' ∧
    zone_frame b cs (vm_mem st) m' ∧ blocks b cs' ≡ₚ (p, round8 (lsize l)) :: blocks b cs) False) as Hw.
  { apply wp_done in Hw as (p & st' & E & m' & cs' & -> & Hz & Hfr & Hp).
    exists p, (round8 (lsize l)), m', cs'. destruct (round8_spec _ H0) as (_ & _ & Hr).
    split_and!; [done | done | done | lia | | by eapply blocks_disjoint
      | by eapply zone_frame_blocks; [exact H|]].
    apply (mod_trans _ 8); [done | done | lia |].
    apply (blocks_bounds _ _ _ _ p (round8 (lsize l)) Hz). rewrite Hp. left. }
  eapply wp_galloc_small; [done | done | done | done | done | done | done | done |].
  intros p m' cs' Hz Hfr Hp. by exists m', cs'.
Qed.

(** C26: a request of [n >= 2] pages, when the [n + 1] lowest free pages are contiguous, is
    answered with [n] pages that hold it, aligned as asked and zeroed, and these pages
    are no longer free. *)
Theorem galloc_alloc_pages g l m pp p n fl :
  MAX_CHUNK_SIZE < lsize l → lsize l + PAGE_SIZE < u64_size → pow2 (align l) → align l ≤ PAGE_SIZE →
  scheme l = Z.of_nat n → (2 ≤ n)%nat → (n + 1 < fuel)%nat →
  pagepool_rep m pp (run p n ++ (p + PAGE_SIZE * Z.of_nat n) :: fl) →
  ∃ m' pp', galloc_alloc g l (mkVm m (Some pp)) = Done (p, mkVm m' (Some pp')) ∧
    pagepool_rep m' pp' ((p + PAGE_SIZE * Z.of_nat n) :: fl) ∧
    lsize l ≤ PAGE_SIZE * Z.of_nat n ∧ p mod align l = 0 ∧ (∀ q, q ∈ run p n → page_zero m' q).
Proof.
  intros Hbig Hu Hpow Ha Hn Hn2 Hf Hrep. destruct (pow2_divides_page _ Hpow Ha) as [Hdiv Hpos].
  destruct n as [|n]; [lia|]. unfold MAX_CHUNK_SIZE in Hbig.
  assert (page_aligned p) as Hal by (apply (pr_pages _ _ _ (proj2 Hrep)); simpl; set_solver).
  assert (lsize l ≤ PAGE_SIZE * Z.of_nat (S n)) as Hfit.
  { unfold scheme, MAX_CHUNK_SIZE, PAGE_SIZE in *.
    rewrite (proj2 (Z.leb_gt (lsize l) 4080)) in Hn by lia. zdm. }
  replace (Z.of_nat (S n)) with (Z.of_nat n + 1) in * by lia. set (fl' := _ :: fl) in *.
  enough (wp (galloc_alloc g l) (mkVm m (Some pp)) (λ r st', r = p ∧ ∃ m' pp', st' = mkVm m' (Some pp') ∧
    allocated m p (S n) fl' pp' m') False) as Hw.
  { apply wp_done in Hw as (r & st' & E & -> & m' & pp' & -> & Hrep' & Hz & _). exists m', pp'.
    split_and!; [done | done | done | by apply (mod_trans _ PAGE_SIZE) | done]. }
  unfold galloc_alloc. rewrite (proj2 (Z.ltb_ge PAGE_SIZE (align l))) by lia.
  apply wp_bind, wp_scheme; [lia | done |]. rewrite Hn.
  rewrite (proj2 (Z.eqb_neq (Z.of_nat n + 1) 0)) by lia.
  apply wp_bind, wp_with_pool. eapply wp_palloc_plural; [exact Hrep | by right | lia |].
  intros m' pp' Hall _. apply wp_ret. split; [done|]. by exists m', pp'.
Qed.

(** [alloc] then [dealloc] with the same small layout gives the live blocks of the
    heap back, with their contents. *)
Theorem galloc_roundtrip_small g b l st nx cs s :
  small_pool g = heap_at b → lsize l ≤ MAX_CHUNK_SIZE → align l ≤ 8 →
  zone_rep (vm_mem st) b nx cs → 0 < lsize l → (s, false) ∈ cs → round8 (lsize l) ≤ s →
  is_Some (vm_mem st !! (b + PAGE_SIZE)) → (512 ≤ fuel)%nat →
  ∃ m' cs', (p ← galloc_alloc g l; galloc_dealloc g p l) st = Done ((), set_mem m' st) ∧
    zone_rep m' b nx cs' ∧ blocks b cs' ≡ₚ blocks b cs ∧ blocks_kept b cs (vm_mem st) m'.
Proof.
  intros Hg Hmax Ha H H0 Hin Hs Hend Hf.
  enough (wp (p ← galloc_alloc g l; galloc_dealloc g p l) st (λ _ st', ∃ m' cs', st' = set_mem m' st ∧
    zone_rep m' b nx cs' ∧ blocks b cs' ≡ₚ blocks b cs ∧ blocks_kept b cs (vm_mem st) m') False) as Hw.
  { apply wp_done in Hw as ([] & st' & E & m' & cs' & -> & Hw). by exists m', cs'. }
  apply wp_bind. eapply wp_galloc_small; [done | done | done | done | done | done | done | done |].
  intros p m1 cs1 Hz1 Hfr1 Hp1. unfold galloc_dealloc.
  rewrite (proj2 (Z.ltb_ge PAGE_SIZE (align l))) by (unfold PAGE_SIZE; lia). unfold MAX_CHUNK_SIZE in *.
  apply wp_bind, wp_scheme; [done | unfold PAGE_SIZE; rewrite u64_size_eq; lia |].
  unfold scheme, MAX_CHUNK_SIZE. settle_bool. rewrite Hg.
  eapply wp_mono; [by eapply wp_free_after_alloc | | done].
  intros _ st' (m' & cs' & -> & Hz & Hb & Hk & _). by exists m', cs'.
Qed.

End theorems.
