(* ===== verification/GlobalBytes.v ===== *)
(** * The global allocator and the contents of blocks

    [alloc_zeroed] hands out zeroes, and [realloc] of a block that grows keeps its
    bytes (src/vm/global.rs). *)

From S2P Require Import Prelude Machine Param Mutex Palloc FreeList PallocAlloc PallocFree.
From S2P Require Import PallocTheorems VmState Vmalloc Zone ZoneScan Heap KallocProofs KallocFree.
From S2P Require Import KallocTheorems Global GlobalTheorems Bytes.

(** ** Writing to a block *)

Section block.
Context {m : mem} {b nx : Z} {cs : list chunk} (H : zone_rep m b nx cs).

Lemma blocks_mod p n : (p, n) ∈ blocks b cs → n mod 8 = 0.
Proof using H.
  intros Hin. apply (live_bounds _ _ _ _ _ (zr_chunks _ _ _ _ H) (zone_live_8 _ _ _ _ H) Hin).
Qed.

(** A write inside of a live block leaves the zone as it is... *)
Lemma zone_write_block (m' : mem) p n :
  (p, n) ∈ blocks b cs → (∀ x, ¬ in_block (p, n) x → m' !! x = m !! x) → keeps m m' → zone_rep m' b nx cs.
Proof using H.
  intros Hin Hm Hk. destruct (blocks_bounds _ _ _ _ _ _ H Hin) as (Hlo & Hhi & Hn & _).
  destruct (blocks_chunk _ _ _ _ Hin) as (c1 & c2 & -> & Ep).
  destruct (zone_chunk _ _ _ _ _ _ _ H) as (Hh & Hs & H8 & Hu & Ha & Hb & He & _).
  unfold in_block, ZONE_SIZE, HEADER_SIZE in *. simpl in Hm.
  change (c1 ++ (n, true) :: c2) with (c1 ++ [(n, true)] ++ c2) in *.
  eapply zone_rep_replace; [exact H | | | | done].
  - intros x Hx1 Hx2. apply Hm. simpl in Hx2. unfold ZONE_SIZE, HEADER_SIZE in *. lia.
  - rewrite Hm by lia. apply H.
  - simpl. unfold ZONE_SIZE, HEADER_SIZE. rewrite Hm by lia. split_and!; (done || lia).
Qed.

(** ... and the other blocks. *)
Lemma blocks_kept_write (m' : mem) p n l :
  blocks b cs ≡ₚ (p, n) :: l → (∀ x, ¬ in_block (p, n) x → m' !! x = m !! x) →
  ∀ bl x, bl ∈ l → in_block bl x → m' !! x = m !! x.
Proof using H.
  intros Hp Hm bl x Hbl Hx. apply Hm. intros Hx'. pose proof (blocks_disjoint _ _ _ _ _ _ H Hp) as Hd.
  rewrite Forall_forall in Hd. specialize (Hd bl Hbl). unfold disjoint_blocks, in_block in *. simpl in *. lia.
Qed.

(** The bytes of a block are in RAM. *)
Lemma block_mapped p n k : (p, n) ∈ blocks b cs → k ≤ n → range_mapped m p k.
Proof using H.
  intros Hin Hk x Hx. destruct (blocks_bounds _ _ _ _ _ _ H Hin) as (Hlo & Hhi & Hn & H8).
  pose proof (blocks_mod _ _ Hin). apply (zr_ram _ _ _ _ H); [|apply word_of_mod].
  unfold word_of. zdm.
Qed.

End block.

(** The bytes of an aligned block are those of its words. *)
Lemma get_byte_block (m m' : mem) p n i :
  (∀ x, in_block (p, n) x → m' !! x = m !! x) → p mod 8 = 0 → n mod 8 = 0 → 0 ≤ i < n →
  get_byte m' (p + i) = get_byte m (p + i).
Proof.
  intros Hm H8 Hn Hi. unfold get_byte. rewrite Hm; [done|]. unfold in_block, word_of. simpl. zdm.
Qed.

Lemma from_size_align_small s al :
  pow2 al → al ≤ 8 → 0 ≤ s ≤ MAX_CHUNK_SIZE → from_size_align s al = Some (mkMemLayout s al).
Proof.
  intros (k & Hk & ->) Hal Hs. unfold MAX_CHUNK_SIZE in Hs. assert (k ≤ 3) as Hk3.
  { apply Z.lt_succ_r. apply (Z.pow_lt_mono_r_iff 2); [lia | lia |]. change (2 ^ Z.succ 3) with 16. lia. }
  unfold from_size_align. change (2 ^ 63) with 9223372036854775808.
  assert (k = 0 ∨ k = 1 ∨ k = 2 ∨ k = 3) as [-> | [-> | [-> | ->]]] by lia; simpl; by settle_bool.
Qed.

(** A layout the heap serves. *)
Definition small (l : MemLayout) : Prop := 0 < lsize l ≤ MAX_CHUNK_SIZE ∧ align l ≤ 8.

Lemma scheme_small l : small l → scheme l = 0.
Proof. intros [Hs Ha]. unfold scheme. by settle_bool. Qed.

Lemma wp_scheme_small {S} {cfg : Config} l (s : S) (Q : Z → S → Prop) P :
  small l → Q 0 s → wp (decide_internal_scheme l) s Q P.
Proof.
  intros Hl HQ. pose proof Hl as [Hs _]. unfold MAX_CHUNK_SIZE in Hs.
  apply wp_scheme; [lia | unfold PAGE_SIZE; rewrite u64_size_eq; lia |]. by rewrite scheme_small.
Qed.

Section copy.
Context {b nx : Z}.

Lemma zone_end m0 m m' cs :
  zone_rep m0 b nx cs → same_outside [b] m m' → is_Some (m !! (b + PAGE_SIZE)) → is_Some (m' !! (b + PAGE_SIZE)).
Proof.
  intros H Hs Hend. destruct (zr_base _ _ _ _ H) as (Hal & _). rewrite Hs; [done|].
  replace (b + PAGE_SIZE) with (b + PAGE_SIZE * 1) by lia.
  rewrite page_of_id by by apply page_aligned_add. unfold PAGE_SIZE. set_solver by lia.
Qed.

(** Writes inside of a block stay inside of the zone's page. *)
Lemma block_page m m' cs p n :
  zone_rep m b nx cs → (p, n) ∈ blocks b cs → (∀ x, ¬ in_block (p, n) x → m' !! x = m !! x) →
  same_outside [b] m m'.
Proof.
  intros H Hin Hm x Hx. apply Hm. unfold in_block. simpl. intros Hx'. apply Hx.
  destruct (blocks_bounds _ _ _ _ _ _ H Hin) as (? & ? & _). destruct (zr_base _ _ _ _ H) as (? & _).
  rewrite (page_of_unique b x); [left | done | lia].
Qed.

(** The contents that a growing [realloc] moves from [p] to [q]. *)
Definition moved (p q n : Z) (rest : list (Z * Z)) (m m' : mem) : Prop :=
  (∀ i, 0 ≤ i < n → get_byte m' (q + i) = get_byte m (p + i)) ∧
  (∀ bl x, bl ∈ rest → in_block bl x → m' !! x = m !! x).

(** The copy, after the new block [q] of [k] bytes has been allocated. *)
Lemma wp_realloc_copy l st m1 cs cs1 p q k rest (Q : unit → VmState → Prop) P :
  small l → zone_rep (vm_mem st) b nx cs → blocks b cs ≡ₚ (p, round8 (lsize l)) :: rest →
  zone_rep m1 b nx cs1 → zone_frame b cs (vm_mem st) m1 → blocks b cs1 ≡ₚ (q, k) :: blocks b cs →
  lsize l ≤ k →
  (∀ m2, zone_rep m2 b nx cs1 → same_outside [b] m1 m2 → moved p q (lsize l) rest (vm_mem st) m2 →
    Q () (set_mem m2 st)) →
  wp (on_mem (copy_bytes p q (Z.to_nat (lsize l)))) (set_mem m1 st) Q P.
Proof.
  intros [[H0 Hmax] _] H Hp Hz1 Hfr1 Hp1 Hk HQ. destruct (round8_spec _ H0) as (Hr8 & _ & Hr).
  assert ((q, k) ∈ blocks b cs1) as Hq by (rewrite Hp1; left).
  assert ((p, round8 (lsize l)) ∈ blocks b cs) as Hpin by (rewrite Hp; left).
  assert ((p, round8 (lsize l)) ∈ blocks b cs1) as Hpin1 by (rewrite Hp1; by right).
  destruct (blocks_bounds _ _ _ _ _ _ Hz1 Hq) as (Hqlo & Hqhi & _ & Hq8).
  destruct (blocks_bounds _ _ _ _ _ _ Hz1 Hpin1) as (Hplo & Hphi & _ & Hp8).
  destruct (zr_base _ _ _ _ Hz1) as (_ & Hb0 & Hbu).
  pose proof (blocks_disjoint _ _ _ _ _ _ Hz1 Hp1) as Hd. rewrite Forall_forall in Hd.
  pose proof (Hd _ Hpin) as Hdp. unfold disjoint_blocks in Hdp. simpl in Hdp.
  apply wp_on_mem. cbn [vm_mem set_mem].
  apply wp_copy_bytes; rewrite ?Z2Nat.id by lia; [lia | lia | lia | lia | lia
    | by eapply block_mapped; [|done|lia] | by eapply block_mapped; [|done|lia] |].
  intros m2 Hm2. pose proof Hm2 as (Hby & _ & Hk2).
  assert (∀ x, ¬ in_block (q, k) x → m2 !! x = m1 !! x) as Hout.
  { intros x Hx. eapply bytes_written_block; [exact Hm2 | done | exact Hk | by eapply blocks_mod | exact Hx]. }
  pose proof (zone_frame_blocks _ _ _ _ _ _ H Hfr1) as Hkept.
  apply HQ; [exact (zone_write_block Hz1 m2 q k Hq Hout Hk2) | exact (block_page _ _ _ _ _ Hz1 Hq Hout) | split].
  - intros i Hi. rewrite Hby. settle_bool. simpl. replace (p + (q + i - q)) with (p + i) by lia.
    eapply get_byte_block; [|done | exact (blocks_mod H _ _ Hpin) | lia]. intros x. by apply Hkept.
  - intros bl x Hbl Hx. assert (bl ∈ blocks b cs) as Hin by (rewrite Hp; by right).
    rewrite <- (Hkept bl x Hin Hx). exact (blocks_kept_write Hz1 m2 q k _ Hp1 Hout bl x Hin Hx).
Qed.

End copy.

Section theorems.
Context {cfg : Config} (g : Galloc) (b nx : Z) (Hg : small_pool g = heap_at b) (Hfuel : (512 ≤ fuel)%nat).

Lemma wp_alloc_zeroed l st cs s (Q : _ → VmState → Prop) P :
  small l → zone_rep (vm_mem st) b nx cs → (s, false) ∈ cs → round8 (lsize l) ≤ s →
  (∀ p m' cs', zone_rep m' b nx cs' → blocks b cs' ≡ₚ (p, round8 (lsize l)) :: blocks b cs →
    (∀ i, 0 ≤ i < lsize l → get_byte m' (p + i) = Some 0) → blocks_kept b cs (vm_mem st) m' →
    Q p (set_mem m' st)) →
  wp (galloc_alloc_zeroed g l) st Q P.
Proof using Hg Hfuel.
  intros Hl H Hin Hs HQ. pose proof Hl as [[H0 Hmax] Ha]. unfold galloc_alloc_zeroed. apply wp_bind.
  eapply wp_galloc_small; [done | done | done | done | done | done | done | done |].
  intros p m1 cs1 Hz1 Hfr1 Hp1. apply wp_bind, wp_scheme_small; [done|]. cbn [Z.eqb].
  apply wp_bind, wp_on_mem. cbn [vm_mem set_mem]. destruct (round8_spec _ H0) as (Hr8 & _ & Hr).
  assert ((p, round8 (lsize l)) ∈ blocks b cs1) as Hbl by (rewrite Hp1; left).
  destruct (blocks_bounds _ _ _ _ _ _ Hz1 Hbl) as (Hlo & Hhi & _ & Hp8).
  destruct (zr_base _ _ _ _ Hz1) as (_ & Hb0 & Hbu).
  apply wp_write_bytes; rewrite ?Z2Nat.id by lia; [lia | lia | lia | by eapply block_mapped; [|done|lia] |].
  intros m2 Hm2. pose proof Hm2 as (Hby & _ & Hk2).
  assert (∀ x, ¬ in_block (p, round8 (lsize l)) x → m2 !! x = m1 !! x) as Hout.
  { intros x Hx. eapply bytes_written_block; [exact Hm2 | done | | by eapply blocks_mod | exact Hx]. lia. }
  apply wp_ret. unfold set_mem. cbn [PAGEPOOL]. eapply HQ; [by eapply zone_write_block | exact Hp1 | |].
  - intros i Hi. rewrite Hby. by settle_bool.
  - intros bl x Hb2 Hx. rewrite <- (zone_frame_blocks _ _ _ _ _ _ H Hfr1 bl x Hb2 Hx).
    eapply blocks_kept_write; eauto.
Qed.

(** C27: [alloc_zeroed] of a small layout (at most 4080 bytes, alignment at most 8) that a
    free chunk of the first zone can hold hands out a block whose bytes are all zero,
    whatever the free memory held before; the live blocks keep their contents. *)
Theorem galloc_alloc_zeroed_zeroes l st cs s :
  small l → zone_rep (vm_mem st) b nx cs → (s, false) ∈ cs → round8 (lsize l) ≤ s →
  ∃ p m' cs', galloc_alloc_zeroed g l st = Done (p, set_mem m' st) ∧ zone_rep m' b nx cs' ∧
    blocks b cs' ≡ₚ (p, round8 (lsize l)) :: blocks b cs ∧
    (∀ i, 0 ≤ i < lsize l → get_byte m' (p + i) = Some 0) ∧ blocks_kept b cs (vm_mem st) m'.
Proof using Hg Hfuel.
  intros Hl H Hin Hs. enough (wp (galloc_alloc_zeroed g l) st (λ p st', ∃ m' cs', st' = set_mem m' st ∧
    zone_rep m' b nx cs' ∧ blocks b cs' ≡ₚ (p, round8 (lsize l)) :: blocks b cs ∧
    (∀ i, 0 ≤ i < lsize l → get_byte m' (p + i) = Some 0) ∧ blocks_kept b cs (vm_mem st) m') False) as Hw.
  { apply wp_done in Hw as (p & st' & E & m' & cs' & -> & Hw). by exists p, m', cs'. }
  eapply wp_alloc_zeroed; [done | done | done | done |]. intros p m' cs' ? ? ? ?. by exists m', cs'.
Qed.

(** [dealloc] of a small block is [free]. *)
Lemma wp_dealloc_small l p st cs (Q : _ → VmState → Prop) P :
  small l → zone_rep (vm_mem st) b nx cs → (p, round8 (lsize l)) ∈ blocks b cs →
  is_Some (vm_mem st !! (b + PAGE_SIZE)) →
  (∀ st', freed_block b nx p (round8 (lsize l)) cs st st' → Q () st') →
  wp (galloc_dealloc g p l) st Q P.
Proof using Hg.
  intros Hl H Hin Hend HQ. pose proof Hl as [_ Ha]. unfold galloc_dealloc.
  rewrite (proj2 (Z.ltb_ge PAGE_SIZE (align l))) by (unfold PAGE_SIZE; clear Hfuel; lia).
  apply wp_bind, wp_scheme_small; [done|]. cbn [Z.eqb]. rewrite Hg.
  eapply wp_free_block; [exact H | done | by right | done | done].
Qed.

Lemma wp_realloc_grows l new_size st cs p s rest (Q : _ → VmState → Prop) P :
  small l → pow2 (align l) → lsize l ≤ new_size ≤ MAX_CHUNK_SIZE →
  zone_rep (vm_mem st) b nx cs → blocks b cs ≡ₚ (p, round8 (lsize l)) :: rest →
  (s, false) ∈ cs → round8 new_size ≤ s → is_Some (vm_mem st !! (b + PAGE_SIZE)) →
  (∀ q m' cs', zone_rep m' b nx cs' → blocks b cs' ≡ₚ (q, round8 new_size) :: rest →
    moved p q (lsize l) rest (vm_mem st) m' → Q q (set_mem m' st)) →
  wp (galloc_realloc g p l new_size) st Q P.
Proof using Hg Hfuel.
  intros Hl Hpow Hn H Hp Hin Hs Hend HQ. pose proof Hl as [[H0 _] Ha]. unfold galloc_realloc.
  assert (0 < new_size) as Hn0 by (clear Hfuel; lia).
  destruct (round8_spec _ Hn0) as (_ & Hr8 & Hr). assert (lsize l ≤ round8 new_size) as Hfit by (clear Hfuel; lia).
  apply wp_bind. rewrite from_size_align_small by (done || clear Hfuel; lia). apply wp_ret, wp_bind.
  apply (wp_galloc_small g b (mkMemLayout new_size (align l)) st nx cs s); try done; [apply Hn|].
  intros q m1 cs1 Hz1 Hfr1 Hp1. cbn [lsize] in Hp1. pose proof (zone_frame_page _ _ _ _ _ _ H Hfr1) as Hs1.
  apply wp_bind. apply (wp_realloc_copy (b := b) (nx := nx) l st m1 cs cs1 p q (round8 new_size) rest); [done..|].
  intros m2 Hz2 Hs2 [Hby Hrest]. apply wp_bind.
  assert ((p, round8 (lsize l)) ∈ blocks b cs1) as Hpin by (rewrite Hp1, Hp; right; left).
  apply (wp_dealloc_small l p _ cs1); cbn [vm_mem set_mem]; [done | done | done | |].
  { exact (zone_end _ _ _ _ Hz1 Hs2 (zone_end _ _ _ _ H Hs1 Hend)). }
  intros st' (m' & cs' & -> & Hz & Hb & Hk & _ & _). cbn [vm_mem set_mem] in Hk.
  assert (blocks b cs' ≡ₚ (q, round8 new_size) :: rest) as Hp'.
  { apply (Permutation_cons_inv (a := (p, round8 (lsize l)))). rewrite <- Hb, Hp1, Hp. constructor. }
  assert (∀ bl x, bl ∈ (q, round8 new_size) :: rest → in_block bl x → m' !! x = m2 !! x) as Hk'.
  { intros bl x Hbl Hx. apply (Hk bl); [|done]. fold (blocks b cs'). by rewrite Hp'. }
  assert ((q, round8 new_size) ∈ blocks b cs') as Hq by (rewrite Hp'; left).
  destruct (blocks_bounds _ _ _ _ _ _ Hz Hq) as (_ & _ & _ & Hq8).
  apply wp_ret. apply (HQ q m' cs' Hz Hp'). split.
  - intros i Hi. rewrite <- (Hby i Hi). eapply get_byte_block; [| done | exact Hr8 | clear Hfuel; lia].
    intros x. apply Hk'. left.
  - intros bl x Hbl Hx. rewrite <- (Hrest bl x Hbl Hx). apply (Hk' bl); [by right | done].
Qed.

(** C28: [realloc] of a live block of the first zone with a small layout (alignment at most
    8) to a size that is not smaller and at most 4080, which a free chunk of that zone
    can hold, moves it: the new block replaces the old one among the live blocks, it
    starts with the bytes of the old one, and the other blocks keep theirs. (The word
    behind the zone is RAM.) *)
Theorem galloc_realloc_grows l new_size st cs p s rest :
  small l → pow2 (align l) → lsize l ≤ new_size ≤ MAX_CHUNK_SIZE →
  zone_rep (vm_mem st) b nx cs → blocks b cs ≡ₚ (p, round8 (lsize l)) :: rest →
  (s, false) ∈ cs → round8 new_size ≤ s → is_Some (vm_mem st !! (b + PAGE_SIZE)) →
  ∃ q m' cs', galloc_realloc g p l new_size st = Done (q, set_mem m' st) ∧ zone_rep m' b nx cs' ∧
    blocks b cs' ≡ₚ (q, round8 new_size) :: rest ∧ moved p q (lsize l) rest (vm_mem st) m'.
Proof using Hg Hfuel.
  intros Hl Hpow Hn H Hp Hin Hs Hend.
  enough (wp (galloc_realloc g p l new_size) st (λ q st', ∃ m' cs', st' = set_mem m' st ∧ zone_rep m' b nx cs' ∧
    blocks b cs' ≡ₚ (q, round8 new_size) :: rest ∧ moved p q (lsize l) rest (vm_mem st) m') False) as Hw.
  { apply wp_done in Hw as (q & st' & E & m' & cs' & -> & Hw). by exists q, m', cs'. }
  eapply wp_realloc_grows; try done. intros q m' cs' ? ? ?. by exists m', cs'.
Qed.

End theorems.
