(* ===== verification/ReallocShrink.v ===== *)
(** * A [realloc] that makes a block smaller

    [Galloc::realloc] of src/vm/global.rs copies as many bytes as the old block
    has.  When the new block is smaller the copy runs over its end, into the
    header of the chunk that follows it.  The rest of the call still goes through:
    giving the old block back only reads the header of the zone, the header of
    the block and the one behind it ([wp_free_local]). *)

From S2P Require Import Prelude Machine Param Mutex Palloc FreeList PallocAlloc PallocFree.
From S2P Require Import PallocTheorems VmState Vmalloc Zone ZoneScan Heap KallocProofs KallocFree.
From S2P Require Import KallocTheorems Global GlobalTheorems Bytes GlobalBytes.

(** ** Giving back one block of a zone with others *)

(** The words of the zone at [b] that [Kalloc::free] looks at when it gives back the
    chunk of [s] bytes at [a]: [m] has them as [m1] has them. *)
Definition agree_at (b a s : Z) (m1 m : mem) : Prop :=
  ∀ x, x = b ∨ x = a ∨ x = a + HEADER_SIZE + s → m !! x = m1 !! x.

Section local.
Context {cfg : Config} {b nx s : Z} {c1 c2 : list chunk} {m1 : mem} {st : VmState}.
Let a : Z := b + ZONE_SIZE + span c1.
Let cs : list chunk := c1 ++ (s, true) :: c2.
Context (H : zone_rep m1 b nx cs) (Hag : agree_at b a s m1 (vm_mem st)).

(** The header behind the chunk: the end of the zone, or the next chunk. *)
Lemma header_behind :
  is_Some (m1 !! (b + PAGE_SIZE)) →
  ∃ w, vm_mem st !! (a + HEADER_SIZE + s) = Some w ∧
    (a + HEADER_SIZE + s = b + PAGE_SIZE ∨
     ∃ s2 u2, w = hdr s2 u2 ∧ 0 ≤ s2 ∧ a + HEADER_SIZE + s + HEADER_SIZE + s2 ≤ b + PAGE_SIZE).
Proof using H Hag.
  intros [v Hv]. rewrite Hag by auto. unfold cs in H.
  destruct (zone_chunk _ _ _ _ _ _ _ H) as (_ & _ & _ & _ & _ & _ & Hend & _). fold a in Hend.
  destruct (list_cases c2) as [E|([s2 u2] & c2' & E)].
  - subst. simpl in Hend. exists v. replace (a + HEADER_SIZE + s) with (b + PAGE_SIZE) by lia. auto.
  - subst. pose proof H as H'. rewrite cons_middle, app_assoc in H'.
    destruct (zone_chunk _ _ _ _ _ _ _ H') as (Hh & Hs2 & _ & _ & _ & _ & Hend2 & _ & ?).
    rewrite span_app in Hh, Hend2. simpl in Hh, Hend2.
    replace (b + ZONE_SIZE + (span c1 + (HEADER_SIZE + s + 0))) with (a + HEADER_SIZE + s) in * by (unfold a; lia).
    exists (hdr s2 u2). split; [done|]. right. exists s2, u2. split_and!; [done | lia | lia].
Qed.

Lemma wp_free_local (self : Kalloc) (Q : _ → VmState → Prop) P :
  2 ≤ nused cs → is_Some (m1 !! (b + PAGE_SIZE)) →
  (∀ m', (∀ x, x ≠ b → x ≠ a → x ≠ a + HEADER_SIZE + s → m' !! x = vm_mem st !! x) → Q () (set_mem m' st)) →
  wp (Kalloc_free self (a + HEADER_SIZE)) st Q P.
Proof using H Hag.
  intros Hr Hend' HQ. destruct (header_behind Hend') as (w & Hw & Hcase). pose proof H as Hz. unfold cs in Hz.
  destruct (zone_chunk _ _ _ _ _ _ _ Hz) as (Hh & Hs & Hs8 & Hpos & Ha8 & Ha & Hend & H1 & H2).
  destruct (zr_base _ _ _ _ H) as (Hal & Hb0 & Hbu), (zr_next _ _ _ _ H) as [Hnal Hnu].
  pose proof (page_aligned_8 _ Hal). pose proof (zone_refs_bound _ _ _ _ H). specialize (Hpos eq_refl).
  fold a in Hh, Ha8, Ha, Hend. rewrite <- (Hag a) in Hh by auto.
  assert (vm_mem st !! b = Some (nx + nused cs)) as Hbw by (rewrite Hag by auto; apply H).
  unfold MAX_CHUNK_SIZE, ZONE_SIZE, HEADER_SIZE, PAGE_SIZE in *.
  unfold Kalloc_free. apply wp_bind, wp_on_mem.
  rewrite (zone_of_ptr _ _ _ _ _ H) by (unfold PAGE_SIZE; lia).
  eapply wp_Zone_from; [done | exact Hbw |].
  apply wp_bind, wp_u_sub; [unfold HEADER_SIZE; u64_range|]. unfold HEADER_SIZE.
  replace (a + 8 - 8) with a by lia.
  apply wp_bind, wp_on_mem. eapply wp_Header_from; [done | exact Hh |].
  rewrite is_free_hdr by lia. cbn [negb]. wp_steps. rewrite set_unused_hdr by lia.
  apply wp_on_mem, wp_decrement_refs; [done | done | lia | done | |].
  { cbn. by rewrite Hbw. }
  cbn beta iota. rewrite chunk_size_hdr by lia. cbn [z_base].
  rewrite (proj2 (Z.eqb_neq (nused cs - 1) 0)) by lia. wp_steps.
  unfold set_mem in *. cbn [vm_mem PAGEPOOL] in *. apply wp_on_mem. cbn [vm_mem].
  assert (∀ h m', (∀ x, x ≠ b → x ≠ a → x ≠ a + 8 + s → m' !! x = vm_mem st !! x) → is_Some (m' !! a) →
    wp (on_mem (write_to h a)) (mkVm m' (PAGEPOOL st)) Q P) as Hwrite.
  { intros h m' Hm' Hma. apply wp_on_mem, wp_write; [done | done |]. apply HQ. cbn [vm_mem].
    intros x ? ? ?. by rewrite lookup_insert_ne, Hm'. }
  eapply wp_Header_from; [zdm | rewrite lookup_insert_ne by lia; exact Hw |].
  assert (∀ h, wp (on_mem (write_to h a)) (mkVm (<[b:=nx + (nused cs - 1)]> (vm_mem st)) (PAGEPOOL st)) Q P) as Hplain.
  { intros h. apply Hwrite; [|apply is_Some_insert; by rewrite Hh]. intros x ? ? ?. by rewrite lookup_insert_ne. }
  destruct (is_free _) eqn:Ef; [|by wp_steps]. wp_steps.
  destruct (Z.ltb_spec (a + 8 + s) (b + 0x1000)) as [Hlt|_]; [|by wp_steps].
  destruct Hcase as [?|(s2 & u2 & -> & Hs2 & Hfit)]; [lia|]. rewrite is_free_hdr in Ef by lia.
  destruct u2; [done|].
  apply wp_on_mem, wp_merge; unfold HEADER_SIZE; [lia | lia | lia | zdm | cbn; apply is_Some_insert; by rewrite Hw |].
  apply Hwrite; [|do 2 apply is_Some_insert; by rewrite Hh]. intros x ? ? ?. unfold set_mem. cbn [vm_mem].
  by rewrite !lookup_insert_ne.
Qed.

End local.

(** ** The copy *)

(** A range that ends before an aligned address also does so rounded up. *)
Lemma round8_le x n y : 0 < n → x mod 8 = 0 → y mod 8 = 0 → x + n ≤ y → x + round8 n ≤ y.
Proof. intros Hn Hx Hy Hle. destruct (round8_spec _ Hn) as (_ & H8 & ? & ?). zdm. Qed.

(** Copying [n] bytes from the block [p] to [q], two ranges of the page of a zone. *)
Lemma wp_copy_zone {cfg : Config} m b nx cs p q n k (Q : unit → mem → Prop) P :
  zone_rep m b nx cs → (p, k) ∈ blocks b cs → 0 ≤ n ≤ k → b ≤ q → q + n ≤ b + PAGE_SIZE →
  q + n ≤ p ∨ p + n ≤ q →
  (∀ m', bytes_written q n (λ x, get_byte m (p + (x - q))) m m' → Q () m') →
  wp (copy_bytes p q (Z.to_nat n)) m Q P.
Proof.
  intros H Hp Hn Hq Hqe Hd HQ. destruct (blocks_bounds _ _ _ _ _ _ H Hp) as (Hlo & Hhi & _ & _).
  destruct (zr_base _ _ _ _ H) as (Hal & Hb0 & Hbu). apply page_aligned_8 in Hal.
  apply wp_copy_bytes; rewrite ?Z2Nat.id by lia; [lia | lia | lia | lia | lia | | | exact HQ].
  - by eapply block_mapped; [|done|lia].
  - intros x Hx. apply (zr_ram _ _ _ _ H); [|apply word_of_mod]. unfold word_of, PAGE_SIZE in *. zdm.
Qed.

(** The chunk that follows a block that does not end with the page. *)
Lemma block_followed m b nx cs q k :
  zone_rep m b nx cs → (q, k) ∈ blocks b cs → q + k < b + PAGE_SIZE →
  ∃ x s u y, cs = x ++ (k, true) :: (s, u) :: y ∧ q = b + ZONE_SIZE + span x + HEADER_SIZE.
Proof.
  intros H Hin Hlt. destruct (blocks_chunk _ _ _ _ Hin) as (x & c2 & -> & Eq).
  destruct (zone_chunk _ _ _ _ _ _ _ H) as (_ & _ & _ & _ & _ & _ & Hend & _).
  destruct c2 as [|[s u] y]; [simpl in Hend; lia | by exists x, s, u, y].
Qed.

Section shrink.
Context {cfg : Config} (g : Galloc) (b nx : Z) (Hg : small_pool g = heap_at b) (Hfuel : (512 ≤ fuel)%nat).

(** [alloc] of a small layout, with the place of the new block. *)
Lemma wp_galloc_exact l st c rest o cs1 (Q : _ → VmState → Prop) P :
  small l → zone_rep (vm_mem st) b nx (c :: rest) → first_fit (round8 (lsize l)) c rest = (Some o, cs1) →
  (∀ m1, zone_rep m1 b nx cs1 → zone_frame b (c :: rest) (vm_mem st) m1 →
    Q (b + ZONE_SIZE + o + HEADER_SIZE) (set_mem m1 st)) →
  wp (galloc_alloc g l) st Q P.
Proof using Hg Hfuel.
  intros Hl H Hff HQ. pose proof Hl as [[H0 Hmax] Ha]. unfold MAX_CHUNK_SIZE in Hmax. unfold galloc_alloc.
  rewrite (proj2 (Z.ltb_ge PAGE_SIZE (align l))) by (unfold PAGE_SIZE; clear Hfuel; lia).
  apply wp_bind, wp_scheme_small; [done|]. cbn [Z.eqb]. rewrite Hg. apply wp_bind.
  eapply wp_alloc_exact; [exact H | done | rewrite u64_size_eq; clear Hfuel; lia | exact Hff | done |].
  intros m1 Hz1 Hfr1. by apply wp_ret, HQ.
Qed.

(** The old block given back after the copy has left its headers alone. *)
Lemma wp_dealloc_local l p m1 cs1 st (Q : _ → VmState → Prop) P :
  small l → zone_rep m1 b nx cs1 → (p, round8 (lsize l)) ∈ blocks b cs1 → 2 ≤ nused cs1 →
  is_Some (m1 !! (b + PAGE_SIZE)) →
  agree_at b (p - HEADER_SIZE) (round8 (lsize l)) m1 (vm_mem st) →
  (∀ m', (∀ x, x ≠ b → x ≠ p - HEADER_SIZE → x ≠ p + round8 (lsize l) → m' !! x = vm_mem st !! x) →
    Q () (set_mem m' st)) →
  wp (galloc_dealloc g p l) st Q P.
Proof using Hg.
  intros Hl Hz Hp Hr Hend Hag HQ. pose proof Hl as [_ Ha]. unfold galloc_dealloc.
  rewrite (proj2 (Z.ltb_ge PAGE_SIZE (align l))) by (unfold PAGE_SIZE; clear Hfuel; lia).
  apply wp_bind, wp_scheme_small; [done|]. cbn [Z.eqb]. rewrite Hg.
  destruct (blocks_chunk _ _ _ _ Hp) as (c1 & c2 & -> & ->). rewrite Z.add_simpl_r in *.
  eapply (wp_free_local Hz Hag); [done | done |]. intros m' Hm'. by apply HQ.
Qed.

Section call.
Context (l : MemLayout) (new_size : Z) (st : VmState) (c : chunk) (rest : list chunk) (p o : Z) (cs1 : list chunk).
Let q : Z := b + ZONE_SIZE + o + HEADER_SIZE.
Context (Hl : small l) (Hpow : pow2 (align l)) (H0 : 0 < new_size) (Hless : round8 new_size < lsize l).
Context (H : zone_rep (vm_mem st) b nx (c :: rest)) (Hp : (p, round8 (lsize l)) ∈ blocks b (c :: rest)).
Context (Hff : first_fit (round8 new_size) c rest = (Some o, cs1)).
Context (Hpage : q + lsize l ≤ b + PAGE_SIZE).
Context (Hclear : q + lsize l ≤ p - HEADER_SIZE ∨ p + round8 (lsize l) + HEADER_SIZE ≤ q).
Context (Hend : is_Some (vm_mem st !! (b + PAGE_SIZE))).

Lemma shrink_blocks : blocks b cs1 ≡ₚ (q, round8 new_size) :: blocks b (c :: rest).
Proof using Hff.
  pose proof (first_fit_live (round8 new_size) (b + ZONE_SIZE) c rest) as Hb. by rewrite Hff in Hb.
Qed.

Lemma shrink_refs : 2 ≤ nused cs1.
Proof using Hff Hp.
  clear Hfuel. rewrite <- (live_length (b + ZONE_SIZE)). fold (blocks b cs1). rewrite shrink_blocks.
  destruct (blocks b (c :: rest)); [by apply not_elem_of_nil in Hp | simpl; lia].
Qed.

Lemma wp_realloc_shrinks (Q : _ → VmState → Prop) P :
  (∀ m' x s u y, cs1 = x ++ (round8 new_size, true) :: (s, u) :: y → q = b + ZONE_SIZE + span x + HEADER_SIZE →
    (∀ i, 0 ≤ i < lsize l → get_byte m' (q + i) = get_byte (vm_mem st) (p + i)) → Q q (set_mem m' st)) →
  wp (galloc_realloc g p l new_size) st Q P.
Proof.
  intros HQ. pose proof Hl as [[Hs0 Hmax] Ha]. destruct (round8_spec _ H0) as (_ & _ & Hr).
  destruct (round8_spec _ Hs0) as (_ & Hl8 & Hlr). unfold galloc_realloc. apply wp_bind.
  rewrite from_size_align_small by (done || clear Hfuel; lia). apply wp_ret, wp_bind.
  eapply wp_galloc_exact; [split; cbn; [clear Hfuel; lia | done] | exact H | exact Hff |].
  intros m1 Hz1 Hfr1. fold q. pose proof shrink_blocks as Hb.
  assert ((q, round8 new_size) ∈ blocks b cs1) as Hq by (rewrite Hb; left).
  assert ((p, round8 (lsize l)) ∈ blocks b cs1) as Hp1 by (rewrite Hb; by right).
  destruct (blocks_bounds _ _ _ _ _ _ Hz1 Hq) as (Hqlo & _ & _ & Hq8).
  destruct (blocks_bounds _ _ _ _ _ _ Hz1 Hp1) as (Hplo & Hphi & _ & Hp8).
  destruct (zr_base _ _ _ _ H) as (Hal%page_aligned_8 & _).
  assert (is_Some (m1 !! (b + PAGE_SIZE))) as Hend1.
  { exact (zone_end _ _ _ _ H (zone_frame_page _ _ _ _ _ _ H Hfr1) Hend). }
  unfold HEADER_SIZE, PAGE_SIZE in *. apply wp_bind, wp_on_mem. cbn [vm_mem set_mem].
  eapply (wp_copy_zone m1 b nx cs1 p q (lsize l)); [exact Hz1 | exact Hp1 | unfold PAGE_SIZE; clear Hfuel; lia .. |].
  intros m2 Hm2. pose proof Hm2 as (Hby & _).
  assert (∀ x, ¬ (q ≤ x < q + round8 (lsize l)) → m2 !! x = m1 !! x) as Hout.
  { intros x Hx. apply (bytes_written_block q (lsize l) (round8 (lsize l)) _ _ _ _ Hm2); (done || clear Hfuel; lia). }
  assert (q + round8 (lsize l) ≤ b + 4096) as Hpg.
  { apply round8_le; [done | done | clear - Hal; zdm | done]. }
  assert (q + round8 (lsize l) ≤ p - 8 ∨ p + round8 (lsize l) + 8 ≤ q) as Hcl.
  { destruct Hclear; [left | by right]. apply round8_le; [done | done | clear - Hp8; zdm | done]. }
  apply wp_bind. eapply (wp_dealloc_local l p m1 cs1); [done | done | done | exact shrink_refs | done | |].
  { intros x Hx. apply Hout. unfold HEADER_SIZE in Hx. clear Hfuel; lia. }
  intros m' Hm'. cbn [vm_mem set_mem] in Hm'. unfold HEADER_SIZE in Hm'.
  destruct (block_followed m1 b nx cs1 q (round8 new_size)) as (x & s & u & y & E & Eq);
    [done | done | unfold PAGE_SIZE; clear Hfuel; lia |].
  apply wp_ret. eapply (HQ m' x s u y); [done | done |]. intros i Hi.
  rewrite (get_byte_block m2 m' q (round8 (lsize l)) i); [| | done | done | clear Hfuel; lia].
  - rewrite Hby. settle_bool. simpl. replace (p + (q + i - q)) with (p + i) by (clear Hfuel; lia).
    eapply get_byte_block; [| done | exact Hl8 | clear Hfuel; lia].
    intros z Hz. by apply (zone_frame_blocks _ _ _ _ _ _ H Hfr1 (p, round8 (lsize l))).
  - intros z Hz. unfold in_block in Hz. simpl in Hz. apply Hm'; clear Hfuel; lia.
Qed.

(** C38: [realloc] of a live block of the first zone to a size that is at least a word
    smaller returns the new block [q] of [round8 new_size] bytes, and all the
    [lsize l] bytes of the old block are found from [q] on: beyond the end of the new
    block they have replaced the header of the chunk that follows it in the zone, and
    what is behind that.  ([q] is where first fit puts the block; the bytes copied to
    it end in the zone's page and do not meet the old block or the headers around
    it; the word behind the zone is RAM.) *)
Theorem realloc_shrink_overruns :
  ∃ m' x s u y, galloc_realloc g p l new_size st = Done (q, set_mem m' st) ∧
    cs1 = x ++ (round8 new_size, true) :: (s, u) :: y ∧ q = b + ZONE_SIZE + span x + HEADER_SIZE ∧
    q + round8 new_size < q + lsize l ∧
    ∀ i, 0 ≤ i < lsize l → get_byte m' (q + i) = get_byte (vm_mem st) (p + i).
Proof using All.
  enough (wp (galloc_realloc g p l new_size) st (λ r st', ∃ m' x s u y, r = q ∧ st' = set_mem m' st ∧
    cs1 = x ++ (round8 new_size, true) :: (s, u) :: y ∧ q = b + ZONE_SIZE + span x + HEADER_SIZE ∧
    ∀ i, 0 ≤ i < lsize l → get_byte m' (q + i) = get_byte (vm_mem st) (p + i)) False) as Hw.
  { apply wp_done in Hw as (r & st' & E & m' & x & s & u & y & -> & -> & Ec & Eq & Hi).
    exists m', x, s, u, y. split_and!; [done | done | done | clear Hfuel; lia | done]. }
  apply wp_realloc_shrinks. intros m' x s u y Ec Eq Hi. by exists m', x, s, u, y.
Qed.

End call.
End shrink.
