(* ===== verification/GlobalWitness.v ===== *)
(** * The global allocator on a concrete heap

    The theorems of GlobalTheorems.v, GlobalBytes.v and ReallocShrink.v at the heap of
    a small RAM. *)

From S2P Require Import Prelude Machine Param Mutex Palloc FreeList PallocAlloc PallocFree.
From S2P Require Import PallocTheorems VmState Vmalloc Zone ZoneScan Heap KallocProofs KallocFree.
From S2P Require Import KallocTheorems Global GlobalTheorems Bytes GlobalBytes ReallocShrink Checks.

#[local] Instance galloc_cfg : Config := dev 600.

Ltac zone_eval := apply zone_repb_sound; vm_compute; reflexivity.

Definition demo_galloc : Galloc := mkGalloc (heap_at B).
Definition demo_heap : VmState := booted B 6.

(** A block of 64 bytes filled with [0x41]. *)
Definition filled : VmState :=
  after (p ← galloc_alloc demo_galloc (mkMemLayout 64 8); on_mem (fill p 0x4141414141414141 8)) demo_heap.

Lemma scheme_fits_witness :
  ∃ n, decide_internal_scheme (mkMemLayout 5000 16) demo_heap = Done (n, demo_heap) ∧
    (n = 0 ↔ 5000 ≤ MAX_CHUNK_SIZE ∧ 16 ≤ 8) ∧ (n = 0 → ∀ p, p mod 8 = 0 → p mod 16 = 0) ∧
    (n ≠ 0 → (n - 1) * PAGE_SIZE < 5000 ≤ n * PAGE_SIZE ∧ ∀ p, page_aligned p → p mod 16 = 0) ∧
    decide_internal_scheme (mkMemLayout 0 16) demo_heap = Panic.
Proof.
  apply (scheme_fits (mkMemLayout 5000 16) demo_heap); [reflexivity | reflexivity | by exists 4 | discriminate].
Defined.

Lemma galloc_alloc_small_witness :
  ∃ p n m' cs', galloc_alloc demo_galloc (mkMemLayout 100 4) demo_heap = Done (p, set_mem m' demo_heap) ∧
    zone_rep m' B 0 cs' ∧ blocks B cs' ≡ₚ (p, n) :: blocks B [(4080, false)] ∧
    100 ≤ n ∧ p mod 4 = 0 ∧ Forall (disjoint_blocks (p, n)) (blocks B [(4080, false)]) ∧
    blocks_kept B [(4080, false)] (vm_mem demo_heap) m'.
Proof.
  apply (galloc_alloc_small demo_galloc B (mkMemLayout 100 4) demo_heap 0 [(4080, false)] 4080);
    [reflexivity | discriminate | discriminate | by exists 2 | zone_eval | reflexivity | left
    | vm_compute; discriminate | simpl; lia].
Defined.

Lemma galloc_alloc_pages_witness :
  ∃ m' pp', galloc_alloc demo_galloc (mkMemLayout 5000 16) (mkVm (vm_mem demo_heap) (Some (the_pool demo_heap))) =
      Done (B + 4096, mkVm m' (Some pp')) ∧
    pagepool_rep m' pp' [B + 4096 + PAGE_SIZE * Z.of_nat 2; B + 16384; B + 20480] ∧
    5000 ≤ PAGE_SIZE * Z.of_nat 2 ∧ (B + 4096) mod 16 = 0 ∧ (∀ q, q ∈ run (B + 4096) 2 → page_zero m' q).
Proof.
  apply (galloc_alloc_pages demo_galloc (mkMemLayout 5000 16) (vm_mem demo_heap) (the_pool demo_heap) (B + 4096) 2);
    [reflexivity | reflexivity | by exists 4 | discriminate | reflexivity | lia | simpl; lia |].
  apply pagepool_repb_sound. vm_compute. reflexivity.
Defined.

Lemma galloc_roundtrip_small_witness :
  ∃ m' cs', (p ← galloc_alloc demo_galloc (mkMemLayout 100 4);
      galloc_dealloc demo_galloc p (mkMemLayout 100 4)) demo_heap = Done ((), set_mem m' demo_heap) ∧
    zone_rep m' B 0 cs' ∧ blocks B cs' ≡ₚ blocks B [(4080, false)] ∧
    blocks_kept B [(4080, false)] (vm_mem demo_heap) m'.
Proof.
  apply (galloc_roundtrip_small demo_galloc B (mkMemLayout 100 4) demo_heap 0 [(4080, false)] 4080);
    [reflexivity | discriminate | discriminate | zone_eval | reflexivity | left
    | vm_compute; discriminate | vm_compute; eexists; reflexivity | simpl; lia].
Defined.

Lemma galloc_fuel : (512 ≤ fuel)%nat.
Proof. simpl. lia. Qed.

Lemma galloc_alloc_zeroed_zeroes_witness :
  ∃ p m' cs', galloc_alloc_zeroed demo_galloc (mkMemLayout 13 4) filled = Done (p, set_mem m' filled) ∧
    zone_rep m' B 0 cs' ∧ blocks B cs' ≡ₚ (p, 16) :: [(B + 16, 64)] ∧
    (∀ i, 0 ≤ i < 13 → get_byte m' (p + i) = Some 0) ∧
    blocks_kept B [(64, true); (4008, false)] (vm_mem filled) m'.
Proof.
  apply (galloc_alloc_zeroed_zeroes demo_galloc B 0 eq_refl galloc_fuel (mkMemLayout 13 4) filled
    [(64, true); (4008, false)] 4008);
    [split; [split; [reflexivity | discriminate] | discriminate] | zone_eval | right; left | vm_compute; discriminate].
Defined.

Lemma galloc_realloc_grows_witness :
  ∃ q m' cs', galloc_realloc demo_galloc (B + 16) (mkMemLayout 64 8) 100 filled = Done (q, set_mem m' filled) ∧
    zone_rep m' B 0 cs' ∧ blocks B cs' ≡ₚ [(q, 104)] ∧ moved (B + 16) q 64 [] (vm_mem filled) m'.
Proof.
  apply (galloc_realloc_grows demo_galloc B 0 eq_refl galloc_fuel (mkMemLayout 64 8) 100 filled
    [(64, true); (4008, false)] (B + 16) 4008 []);
    [split; [split; [reflexivity | discriminate] | discriminate] | by exists 3 | split; discriminate
    | zone_eval | reflexivity | right; left | vm_compute; discriminate | vm_compute; eauto].
Defined.

Lemma realloc_shrink_overruns_witness :
  ∃ m' x s u y, galloc_realloc demo_galloc (B + 16) (mkMemLayout 64 8) 8 filled = Done (B + 88, set_mem m' filled) ∧
    [(64, true); (8, true); (3992, false)] = x ++ (8, true) :: (s, u) :: y ∧ B + 88 = B + 8 + span x + 8 ∧
    B + 88 + 8 < B + 88 + 64 ∧
    ∀ i, 0 ≤ i < 64 → get_byte m' (B + 88 + i) = get_byte (vm_mem filled) (B + 16 + i).
Proof.
  apply (realloc_shrink_overruns demo_galloc B 0 eq_refl galloc_fuel (mkMemLayout 64 8) 8 filled
    (64, true) [(4008, false)] (B + 16) 72 [(64, true); (8, true); (3992, false)]);
    [split; [split; [reflexivity | discriminate] | discriminate] | by exists 3 | reflexivity | reflexivity
    | zone_eval | left | reflexivity | vm_compute; discriminate | right; vm_compute; discriminate | vm_compute; eauto].
Defined.
