(* ===== verification/Riscv.v ===== *)
(** * Control and status registers (src/hw/riscv.rs)

    The wrappers around single instructions. What the instructions do is hardware:
    [CsrHw] is the interface the privileged architecture documents, as far as this
    kernel relies on it, and every definition below is over any such hardware. *)

From S2P Require Import Prelude Machine.

(** ** Constants *)

Definition MSTATUS_MPP_MASK : Z := Z.shiftl 3 11.
Definition MSTATUS_MPP_M : Z := Z.shiftl 3 11.
Definition MSTATUS_MPP_S : Z := Z.shiftl 1 11.
Definition MSTATUS_MPP_U : Z := Z.shiftl 0 11.
Definition MSTATUS_MIE : Z := Z.shiftl 1 3.
Definition MSTATUS_TIMER : Z := Z.lor (Z.shiftl 1 63) 7.
Definition SSTATUS_SPP : Z := Z.shiftl 1 8.
Definition SSTATUS_SPIE : Z := Z.shiftl 1 5.
Definition SSTATUS_UPIE : Z := Z.shiftl 1 4.
Definition SSTATUS_SIE : Z := Z.shiftl 1 1.
Definition SSTATUS_UIE : Z := Z.shiftl 1 0.
Definition MIE_MEIE : Z := Z.shiftl 1 11.
Definition MIE_MTIE : Z := Z.shiftl 1 7.
Definition MIE_MSIE : Z := Z.shiftl 1 3.
Definition SIE_SEIE : Z := Z.shiftl 1 9.
Definition SIE_STIE : Z := Z.shiftl 1 5.
Definition SIE_SSIE : Z := Z.shiftl 1 1.

(** ** The hardware *)

Inductive csr : Type :=
  | mhartid | mstatus | mcause | scause | mepc | sepc | sstatus | sip | sie | mie | satp
  | medeleg | mideleg | pmpaddr0 | pmpcfg0 | mscratch | sscratch | mtvec | stvec.

#[export] Instance csr_eq_dec : EqDecision csr.
Proof. solve_decision. Defined.

(** Registers that are views of one another, or filter one another: writing the
    first may change what the second reads as. *)
Definition aliased (r r' : csr) : bool :=
  match r, r' with
  | mstatus, sstatus | sstatus, mstatus
  | mie, sie | sie, mie | mideleg, sie | mideleg, sip => true
  | _, _ => bool_decide (r = r')
  end.

(** ** Modes of privilege *)

Inductive mode : Type := Machine | Supervisor | User.

#[export] Instance mode_eq_dec : EqDecision mode.
Proof. solve_decision. Defined.

(** The previous mode, as bits 11 and 12 of [mstatus] encode it. *)
Definition decode_mpp (ms : Z) : mode :=
  if Z.testbit ms 12 then Machine else if Z.testbit ms 11 then Supervisor else User.

(** The supervisor's previous mode, bit 8 of [sstatus]. *)
Definition decode_spp (ss : Z) : mode := if Z.testbit ss 8 then Supervisor else User.

(** Reads and writes of the registers, what they become when a trap is taken to
    machine mode (from a mode, at an address, with a cause), at an [mret] and at an
    [sret]. *)
Class CsrHw (H : Type) : Type := {
  csrr : csr → H → Z;
  csrw : csr → Z → H → H;
  csr_trap : mode → Z → Z → H → H;
  csr_mret : H → H;
  csr_sret : H → H
}.

(** What the kernel relies on. A register that is not aliased is not changed;
    [mepc] holds an instruction address, [mtvec] and [stvec] a 4-byte aligned one,
    the scratch registers any word, [satp] bare mode and Sv39; the previous mode of
    [mstatus] can be supervisor, its interrupt enable and the timer enable of [mie]
    can be set; the machine timer interrupt cannot be delegated. A trap saves mode,
    address, cause and interrupt enable, and [mret] takes the enable back. *)
Class CsrLaws (H : Type) `{!CsrHw H} : Prop := {
  csrr_u64 r h : is_u64 (csrr r h);
  csrw_other r r' v h : aliased r r' = false → csrr r' (csrw r v h) = csrr r' h;
  csrw_mepc v h : v mod 2 = 0 → is_u64 v → csrr mepc (csrw mepc v h) = v;
  csrw_mtvec v h : v mod 4 = 0 → is_u64 v → csrr mtvec (csrw mtvec v h) = v;
  csrw_stvec v h : v mod 4 = 0 → is_u64 v → csrr stvec (csrw stvec v h) = v;
  csrw_mscratch v h : is_u64 v → csrr mscratch (csrw mscratch v h) = v;
  csrw_sscratch v h : is_u64 v → csrr sscratch (csrw sscratch v h) = v;
  csrw_satp v h : is_u64 v → v = 0 ∨ (Z.shiftr v 60 = 8 ∧ v mod 2 ^ 60 < 2 ^ 44) →
    csrr satp (csrw satp v h) = v;
  csrw_mpp v h : Z.testbit v 11 = true → Z.testbit v 12 = false →
    decode_mpp (csrr mstatus (csrw mstatus v h)) = Supervisor;
  csrw_mie_bit v h : is_u64 v → Z.testbit (csrr mstatus (csrw mstatus v h)) 3 = Z.testbit v 3;
  csrw_mtie v h : is_u64 v → Z.testbit (csrr mie (csrw mie v h)) 7 = Z.testbit v 7;
  mti_not_delegated h : Z.testbit (csrr mideleg h) 7 = false;
  trap_mepc m a c h : a mod 2 = 0 → is_u64 a → csrr mepc (csr_trap m a c h) = a;
  trap_mcause m a h : csrr mcause (csr_trap m a MSTATUS_TIMER h) = MSTATUS_TIMER;
  trap_mpp m a c h : decode_mpp (csrr mstatus (csr_trap m a c h)) = m;
  trap_mpie m a c h :
    Z.testbit (csrr mstatus (csr_trap m a c h)) 7 = Z.testbit (csrr mstatus h) 3;
  trap_other m a c h r : r ≠ mepc → r ≠ mcause → r ≠ mstatus →
    csrr r (csr_trap m a c h) = csrr r h;
  mret_mie h : Z.testbit (csrr mstatus (csr_mret h)) 3 = Z.testbit (csrr mstatus h) 7;
  mret_other h r : r ≠ mstatus → csrr r (csr_mret h) = csrr r h
}.

(** ** One hart *)

(** The control registers, the general registers [x1] to [x31], the privilege mode,
    the address control goes to next, and whether the TLB may hold entries of an
    older page table. *)
Record Hart (H : Type) : Type := mkHart {
  csrs : H;
  gprs : gmap nat Z;
  priv : mode;
  pc : Z;
  stale_tlb : bool
}.
Arguments mkHart {H} _ _ _ _ _.
Arguments csrs {H} _.
Arguments gprs {H} _.
Arguments priv {H} _.
Arguments pc {H} _.
Arguments stale_tlb {H} _.

(** Register [x0] reads as zero and ignores writes. *)
Definition xreg {H} (i : nat) (s : Hart H) : Z :=
  match i with O => 0 | _ => default 0 (gprs s !! i) end.

Definition set_xreg {H} (i : nat) (v : Z) (s : Hart H) : Hart H :=
  match i with
  | O => s
  | _ => mkHart (csrs s) (<[i := v]> (gprs s)) (priv s) (pc s) (stale_tlb s)
  end.

#[global] Arguments xreg : simpl never.
#[global] Arguments set_xreg : simpl never.

Definition set_gprs {H} (g : gmap nat Z) (s : Hart H) : Hart H :=
  mkHart (csrs s) g (priv s) (pc s) (stale_tlb s).

Definition set_csrs {H} (h : H) (s : Hart H) : Hart H :=
  mkHart h (gprs s) (priv s) (pc s) (stale_tlb s).

Section wrappers.
Context {H : Type} `{!CsrHw H}.

Definition csr_read (r : csr) : M (Hart H) Z := λ s, Done (csrr r (csrs s), s).
Definition csr_write (r : csr) (v : Z) : M (Hart H) unit := λ s,
  Done ((), set_csrs (csrw r v (csrs s)) s).

Definition read_mhartid : M (Hart H) Z := csr_read mhartid.
Definition read_mstatus : M (Hart H) Z := csr_read mstatus.
Definition write_mstatus (status : Z) : M (Hart H) unit := csr_write mstatus status.
Definition read_mcause : M (Hart H) Z := csr_read mcause.
Definition read_scause : M (Hart H) Z := csr_read scause.
Definition write_mepc (addr : Z) : M (Hart H) unit := csr_write mepc addr.
Definition read_mepc : M (Hart H) Z := csr_read mepc.
Definition read_sstatus : M (Hart H) Z := csr_read sstatus.
Definition write_status (status : Z) : M (Hart H) unit := csr_write sstatus status.
Definition read_sip : M (Hart H) Z := csr_read sip.
Definition write_sip (ire : Z) : M (Hart H) unit := csr_write sip ire.
Definition read_sie : M (Hart H) Z := csr_read sie.
Definition write_sie (ire : Z) : M (Hart H) unit := csr_write sie ire.
Definition read_mie : M (Hart H) Z := csr_read mie.
Definition write_mie (x : Z) : M (Hart H) unit := csr_write mie x.
Definition read_satp : M (Hart H) Z := csr_read satp.

(** A new [satp] leaves the translations of the old table cached. *)
Definition write_satp (pt : Z) : M (Hart H) unit := λ s,
  Done ((), mkHart (csrw satp pt (csrs s)) (gprs s) (priv s) (pc s) true).

Definition read_medeleg : M (Hart H) Z := csr_read medeleg.
Definition write_medeleg (med : Z) : M (Hart H) unit := csr_write medeleg med.
Definition read_mideleg : M (Hart H) Z := csr_read mideleg.
Definition write_mideleg (mid : Z) : M (Hart H) unit := csr_write mideleg mid.
Definition write_pmpaddr0 (addr : Z) : M (Hart H) unit := csr_write pmpaddr0 addr.
Definition read_pmpaddr0 : M (Hart H) Z := csr_read pmpaddr0.
Definition write_pmpcfg0 (addr : Z) : M (Hart H) unit := csr_write pmpcfg0 addr.
Definition read_pmpcfg0 : M (Hart H) Z := csr_read pmpcfg0.

(** The thread pointer is [x4]. *)
Definition write_tp (id : Z) : M (Hart H) unit := λ s, Done ((), set_xreg 4 id s).
Definition read_tp : M (Hart H) Z := λ s, Done (xreg 4 s, s).

(** [mret]: to the previous mode of [mstatus], at [mepc]. *)
Definition call_mret : M (Hart H) unit := λ s,
  Done ((), mkHart (csr_mret (csrs s)) (gprs s) (decode_mpp (csrr mstatus (csrs s)))
    (csrr mepc (csrs s)) (stale_tlb s)).

Definition write_mscratch (scratch : Z) : M (Hart H) unit := csr_write mscratch scratch.
Definition write_mtvec (addr : Z) : M (Hart H) unit := csr_write mtvec addr.
Definition read_mtvec : M (Hart H) Z := csr_read mtvec.
Definition write_stvec (addr : Z) : M (Hart H) unit := csr_write stvec addr.
Definition read_stvec : M (Hart H) Z := csr_read stvec.

(** [sfence.vma zero, zero]. *)
Definition flush_tlb : M (Hart H) unit := λ s,
  Done ((), mkHart (csrs s) (gprs s) (priv s) (pc s) false).

(** ** The machine timer interrupt

    When it is taken, and what the hardware does then ([mtvec] in direct mode). *)
Definition timer_enabled (s : Hart H) : bool :=
  Z.testbit (csrr mie (csrs s)) 7 && negb (Z.testbit (csrr mideleg (csrs s)) 7) &&
  (negb (bool_decide (priv s = Machine)) || Z.testbit (csrr mstatus (csrs s)) 3).

Definition timer_interrupt : M (Hart H) unit := λ s,
  Done ((), mkHart (csr_trap (priv s) (pc s) MSTATUS_TIMER (csrs s)) (gprs s) Machine
    (csrr mtvec (csrs s)) (stale_tlb s)).

End wrappers.

Lemma xreg_set {H} i j v (s : Hart H) :
  xreg j (set_xreg i v s) = if decide (j = i ∧ i ≠ 0%nat) then v else xreg j s.
Proof.
  unfold xreg, set_xreg. destruct (decide _) as [[-> Hi]|Hn]; destruct i as [|i]; try done.
  - simpl. by rewrite lookup_insert_eq.
  - destruct j as [|j]; [done|]. simpl. rewrite lookup_insert_ne; [done|]. intros [= ->]. by apply Hn.
Qed.

Lemma xreg_set_eq {H} i v (s : Hart H) : i ≠ 0%nat → xreg i (set_xreg i v s) = v.
Proof. intros Hi. by rewrite xreg_set, decide_True. Qed.

Lemma xreg_set_ne {H} i j v (s : Hart H) : j ≠ i → xreg j (set_xreg i v s) = xreg j s.
Proof. intros Hj. rewrite xreg_set, decide_False; [done|]. by intros [? _]. Qed.

Lemma csrs_set_xreg {H} i v (s : Hart H) : csrs (set_xreg i v s) = csrs s.
Proof. by destruct i. Qed.

Lemma set_gprs_xreg {H} g i v (s : Hart H) : set_gprs g (set_xreg i v s) = set_gprs g s.
Proof. by destruct i. Qed.

Lemma xreg_csrs {H} j h (s : Hart H) : xreg j (set_csrs h s) = xreg j s.
Proof. done. Qed.
