(* ===== verification/Device.v ===== *)
(** * The whole system, its devices and the log
      (src/device/clint.rs, src/device/uart.rs, src/log.rs)

    [Sys] is what one hart of the kernel runs in: its registers, the memory and
    the statics of the virtual memory module, the words of the CLINT, and the
    UART, a device reached by byte accesses whose behaviour [UartHw] leaves open. *)

From S2P Require Import Prelude Machine Param Mutex Palloc VmState Host Vmalloc Global Riscv.

(** Byte reads, which may change the device, and writes, at an address. *)
Class UartHw (U : Type) : Type := {
  uart_read : Z → U → Z * U;
  uart_write : Z → Z → U → U
}.

(** ** The system *)

Record Sys (H U : Type) : Type := mkSys {
  hart : Hart H;
  vm : VmState;
  GLOBAL : option Galloc;
  clint : mem;
  uart : U
}.
Arguments mkSys {H U} _ _ _ _ _.
Arguments hart {H U} _.
Arguments vm {H U} _.
Arguments GLOBAL {H U} _.
Arguments clint {H U} _.
Arguments uart {H U} _.

Section system.
Context {H U : Type}.

Definition set_hart (h : Hart H) (s : Sys H U) : Sys H U :=
  mkSys h (vm s) (GLOBAL s) (clint s) (uart s).
Definition set_vm (v : VmState) (s : Sys H U) : Sys H U :=
  mkSys (hart s) v (GLOBAL s) (clint s) (uart s).
Definition set_clint (c : mem) (s : Sys H U) : Sys H U :=
  mkSys (hart s) (vm s) (GLOBAL s) c (uart s).
Definition set_uart (u : U) (s : Sys H U) : Sys H U :=
  mkSys (hart s) (vm s) (GLOBAL s) (clint s) u.

Definition on_hart {A} (e : M (Hart H) A) : M (Sys H U) A := zoom hart set_hart e.
Definition on_vm {A} (e : M VmState A) : M (Sys H U) A := zoom vm set_vm e.
Definition on_clint {A} (e : M mem A) : M (Sys H U) A := zoom clint set_clint e.
Definition on_uart {A} (e : M U A) : M (Sys H U) A := zoom uart set_uart e.

End system.

(** ** The CLINT *)

Section clint.
Context {cfg : Config} {H U : Type} `{!CsrHw H}.

Definition read_mtime : M (Sys H U) Z :=
  let base := CLINT_BASE in
  on_clint (read (byte_add base 0xBFF8)).

(** One [mtime] for all harts, one [mtimecmp] per hart. *)
Definition set_mtimecmp (interval : Z) : M (Sys H U) unit :=
  hartid ← on_hart read_mhartid;
  let base := CLINT_BASE in
  mtime ← on_clint (read (byte_add base 0xBFF8));
  o ← u_mul 8 hartid;
  off ← u_add 0x4000 o;
  t ← u_add mtime interval;
  on_clint (write (byte_add base off) t).

End clint.

(** ** The UART *)

Definition IER : Z := 1.
Definition LCR : Z := 3.
Definition FCR : Z := 2.

Record Uart : Type := mkUart { base_address : Z }.

Definition Uart_new : Mutex Uart := Mutex_new (mkUart UART_BASE).

(** The static [WRITER], which nothing uses. *)
Definition WRITER : Mutex Uart := Uart_new.

Section uart.
Context {cfg : Config} {U : Type} `{!UartHw U}.

Definition out (a v : Z) : M U unit := λ u, Done ((), uart_write a v u).
Definition inp (a : Z) : M U Z := λ u, Done (uart_read a u).

Definition Uart_init : M U unit :=
  let ptr := UART_BASE in
  out (byte_add ptr IER) 0x0 ;;
  out (byte_add ptr LCR) (Z.shiftl 1 7) ;;
  out (byte_add ptr 0) 0x03 ;;
  out (byte_add ptr 1) 0x00 ;;
  out (byte_add ptr LCR) 3 ;;
  out (byte_add ptr FCR) (Z.lor (Z.shiftl 1 0) (Z.shiftl 3 1)) ;;
  out (byte_add ptr IER) (Z.lor (Z.shiftl 1 1) (Z.shiftl 1 0)).

Definition put (self : Uart) (c : Z) : M U unit :=
  out (byte_add (base_address self) 0) c.

Definition get (self : Uart) : M U (option Z) :=
  let ptr := base_address self in
  lsr ← inp (byte_add ptr 5);
  if Z.land lsr 1 =? 0 then mret None
  else c ← inp (byte_add ptr 0); mret (Some c).

Fixpoint put_all (self : Uart) (cs : list Z) : M U unit :=
  match cs with
  | [] => mret ()
  | c :: cs' => put self c ;; put_all self cs'
  end.

(** The bytes of a string. *)
Fixpoint bytes (s : string) : list Z :=
  match s with
  | EmptyString => []
  | String c s' => Z.of_N (Ascii.N_of_ascii c) :: bytes s'
  end.

Definition write_str (self : Uart) (s : string) : M U unit := put_all self (bytes s).

Fixpoint write_strs (self : Uart) (ss : list string) : M U unit :=
  match ss with
  | [] => mret ()
  | s :: ss' => write_str self s ;; write_strs self ss'
  end.

(** ** The log *)

(** [print!]: the strings that formatting the arguments gives, under the lock of a
    writer made for this call. *)
Definition print (ss : list string) : M U unit :=
  mu ← lock Uart_new;
  write_strs (deref mu) ss ;;
  let _ := guard_drop mu in mret ().

Definition crlf : string := String (Ascii.ascii_of_N 13) (String (Ascii.ascii_of_N 10) EmptyString).

Definition println (ss : list string) : M U unit := print (ss ++ [crlf]).

Inductive LogSeverity : Type := Debug | Info | Warning | Error.

Definition prefix (sev : LogSeverity) : string :=
  match sev with
  | Debug => "[DEBUG] "
  | Info => "[INFO] "
  | Warning => "[WARN] "
  | Error => "[ERROR] "
  end.

Definition log (sev : LogSeverity) (ss : list string) : M U unit :=
  print (prefix sev :: ss ++ [crlf]).

End uart.

(** The whole system as the [Host] of the virtual memory module. *)
#[export] Instance sys_host {cfg : Config} {H U : Type} `{!UartHw U} : Host (Sys H U) := {|
  host_vm := vm;
  untouched := λ s s', hart s' = hart s ∧ GLOBAL s' = GLOBAL s ∧ clint s' = clint s;
  on_host := λ A e, on_vm e;
  debug := λ l, on_uart (log Debug l)
|}.

(** ** Lemmas *)

Section lemmas.
Context {H U : Type}.
Implicit Type s : Sys H U.

Lemma wp_on_hart {A} (e : M (Hart H) A) s Q P :
  wp e (hart s) (λ a h, Q a (set_hart h s)) P → wp (on_hart e) s Q P.
Proof. apply wp_zoom. Qed.

Lemma wp_on_vm {A} (e : M VmState A) s Q P :
  wp e (vm s) (λ a v, Q a (set_vm v s)) P → wp (on_vm e) s Q P.
Proof. apply wp_zoom. Qed.

Lemma wp_on_clint {A} (e : M mem A) s Q P :
  wp e (clint s) (λ a c, Q a (set_clint c s)) P → wp (on_clint e) s Q P.
Proof. apply wp_zoom. Qed.

(** Code that cannot fail. *)
Lemma wp_total {S A} (e : M S A) a (x : S) x' (Q : A → S → Prop) P :
  e x = Done (a, x') → Q a x' → wp e x Q P.
Proof. Transparent wp. unfold wp. by intros ->. Qed.

(** Regrouping a sequence. *)
Lemma wp_seq_assoc {S A B C} (e1 : M S A) (e2 : M S B) (e3 : M S C) (x : S) Q P :
  wp (e1 ;; e2) x (λ _ x', wp e3 x' Q P) P → wp (e1 ;; e2 ;; e3) x Q P.
Proof.
  unfold wp, mbind, M_bind. destruct (e1 x) as [[a x1]| | |]; try done.
  by destruct (e2 x1) as [[b x2]| | |].
Qed.
#[global] Opaque wp.

End lemmas.

(** The addresses of a hart's registers in the CLINT. *)
Definition MTIME : Z := CLINT_BASE + 0xBFF8.
Definition MTIMECMP (hartid : Z) : Z := CLINT_BASE + 0x4000 + 8 * hartid.

Section clint_lemmas.
Context {cfg : Config} {H U : Type} `{!CsrHw H}.

Lemma wp_set_mtimecmp interval (s : Sys H U) t id Q P :
  csrr mhartid (csrs (hart s)) = id → 0 ≤ id < 4095 → clint s !! MTIME = Some t →
  is_Some (clint s !! MTIMECMP id) → is_u64 (t + interval) →
  Q () (set_clint (<[MTIMECMP id := t + interval]> (clint s)) s) →
  wp (set_mtimecmp interval) s Q P.
Proof.
  intros Hid Hr Ht Hc Hu HQ. unfold set_mtimecmp, MTIME, MTIMECMP, CLINT_BASE in *.
  apply wp_bind, wp_on_hart. eapply wp_total; [reflexivity|]. rewrite Hid.
  rewrite !byte_add_small by u64_range. apply wp_bind, wp_on_clint. eapply wp_read; [done | exact Ht |].
  apply wp_bind, wp_u_mul; [u64_range|]. apply wp_bind, wp_u_add; [u64_range|].
  apply wp_bind, wp_u_add; [done|]. apply wp_on_clint. rewrite byte_add_small by u64_range.
  replace (33554432 + (16384 + 8 * id)) with (33554432 + 16384 + 8 * id) by lia.
  apply wp_write; [zdm | done |]. destruct s as [[] ? ? ? ?]. exact HQ.
Qed.

End clint_lemmas.
