(* ===== verification/DeviceTheorems.v ===== *)
(** * What the devices are sent

    The bytes of a log line, the registers the timer writes, and the harts that
    print at the same time. *)

From S2P Require Import Prelude Machine Param Mutex Palloc VmState Host Vmalloc Global Riscv Device.

(** ** One hart *)

Section one.
Context {cfg : Config} {U : Type} `{!UartHw U}.

(** The device after bytes have been sent to its data register. *)
Definition sent (cs : list Z) (u : U) : U := fold_left (λ u c, uart_write UART_BASE c u) cs u.

Lemma put_all_sent cs u : put_all (mkUart UART_BASE) cs u = Done ((), sent cs u).
Proof.
  revert u. induction cs as [|c cs IH]; intros u; [done|]. cbn [put_all].
  unfold mbind, M_bind, put, out. change (byte_add _ 0) with UART_BASE. apply IH.
Qed.

Lemma write_strs_sent ss u :
  write_strs (mkUart UART_BASE) ss u = Done ((), sent (concat (bytes <$> ss)) u).
Proof.
  revert u. induction ss as [|s ss IH]; intros u; [done|]. cbn [write_strs].
  unfold mbind at 1, M_bind, write_str. rewrite put_all_sent, IH.
  unfold sent. cbn [fmap list_fmap concat]. by rewrite fold_left_app.
Qed.

Lemma print_sent ss u : (0 < fuel)%nat → print ss u = Done ((), sent (concat (bytes <$> ss)) u).
Proof.
  intros Hf. apply wp_exact. unfold print. apply wp_bind, wp_lock; [done | done |].
  apply wp_bind. eapply wp_total; [apply write_strs_sent|]. by apply wp_ret.
Qed.

(** The log of the system leaves the virtual memory module alone. *)
#[export] Instance sys_host_spec {H : Type} : HostSpec (Sys H U).
Proof.
  split.
  - split; [by intros s | intros s1 s2 s3 (? & ? & ?) (? & ? & ?); repeat split; congruence].
  - intros A e s. cbn. unfold on_vm, zoom. destruct (e (vm s)) as [[a v]| | |]; [|done..]. by eexists.
  - intros l Hf s. cbn. unfold on_uart, zoom, log. rewrite print_sent by done. by eexists.
Qed.

(** A log line is its prefix, the formatted text and a carriage return and line
    feed, sent byte by byte and in order to the data register, whatever the device
    does with them; nothing else is accessed. *)
Theorem log_line_sent sev ss u :
  (0 < fuel)%nat →
  log sev ss u = Done ((), sent (bytes (prefix sev) ++ concat (bytes <$> ss) ++ [13; 10]) u).
Proof.
  intros Hf. unfold log. rewrite print_sent by done. do 3 f_equal.
  rewrite fmap_cons, fmap_app. cbn [concat]. f_equal. rewrite concat_app. by f_equal.
Qed.

End one.

(** ** Several harts

    A hart that prints makes its own lock, takes it, and sends byte after byte. *)

Inductive printer : Type :=
  | Idle
  | Locking (mu : Mutex Uart) (cs : list Z)
  | Sending (mu : Mutex Uart) (cs : list Z).

(** The bytes that have reached the line, and the harts. *)
Record console : Type := mkConsole {
  line : list Z;
  printers : list printer
}.

Inductive print_step : console → console → Prop :=
  | print_call c i cs :
      printers c !! i = Some Idle →
      print_step c (mkConsole (line c) (<[i := Locking Uart_new cs]> (printers c)))
  | print_lock c i mu cs old mu' :
      printers c !! i = Some (Locking mu cs) → swap1 mu = (old, mu') →
      print_step c (mkConsole (line c)
        (<[i := if old =? 1 then Locking mu' cs else Sending mu' cs]> (printers c)))
  | print_put c i mu b cs :
      printers c !! i = Some (Sending mu (b :: cs)) →
      print_step c (mkConsole (line c ++ [b]) (<[i := Sending mu cs]> (printers c)))
  | print_drop c i mu :
      printers c !! i = Some (Sending mu []) →
      print_step c (mkConsole (line c) (<[i := Idle]> (printers c))).

Inductive interleaving : list Z → list Z → list Z → Prop :=
  | inter_nil : interleaving [] [] []
  | inter_l x xs ys zs : interleaving xs ys zs → interleaving (x :: xs) ys (x :: zs)
  | inter_r y xs ys zs : interleaving xs ys zs → interleaving xs (y :: ys) (y :: zs).

Lemma sending_interleave mx my xs ys zs l :
  interleaving xs ys zs →
  rtc print_step (mkConsole l [Sending mx xs; Sending my ys]) (mkConsole (l ++ zs) [Idle; Idle]).
Proof.
  intros Hi. revert l. induction Hi as [|x xs ys zs _ IH|y xs ys zs _ IH]; intros l.
  - rewrite app_nil_r. eapply rtc_l; [by eapply (print_drop _ 0)|].
    eapply rtc_l; [by eapply (print_drop _ 1)|]. apply rtc_refl.
  - eapply rtc_l; [by eapply (print_put _ 0)|]. simpl. rewrite (cons_middle _ l zs), app_assoc. apply IH.
  - eapply rtc_l; [by eapply (print_put _ 1)|]. simpl. rewrite (cons_middle _ l zs), app_assoc. apply IH.
Qed.

(** C40: two harts that print at the same time can mix their bytes in any way: every
    interleaving of the two messages is an output, because each call locks a lock
    of its own. *)
Theorem prints_interleave xs ys zs :
  interleaving xs ys zs →
  rtc print_step (mkConsole [] [Idle; Idle]) (mkConsole zs [Idle; Idle]).
Proof.
  intros Hi. eapply rtc_l; [by apply (print_call _ 0 xs)|].
  eapply rtc_l; [by apply (print_call _ 1 ys)|].
  eapply rtc_l; [by eapply (print_lock _ 0)|]. eapply rtc_l; [by eapply (print_lock _ 1)|].
  exact (sending_interleave _ _ xs ys zs [] Hi).
Qed.

(** ** Concrete runs *)

(** A device that records what is written. *)
#[export] Instance trace_uart : UartHw (list (Z * Z)) := {|
  uart_read := λ a u, (0, u);
  uart_write := λ a v u, u ++ [(a, v)]
|}.

Lemma log_line_sent_witness :
  @log (dev 1) _ trace_uart Warning [] [] =
    Done ((), (λ c, (UART_BASE, c)) <$> [91; 87; 65; 82; 78; 93; 32; 13; 10]).
Proof. rewrite (@log_line_sent (dev 1) _ trace_uart); [reflexivity | simpl; lia]. Defined.

Lemma prints_interleave_witness :
  rtc print_step (mkConsole [] [Idle; Idle]) (mkConsole [65; 67; 66; 68] [Idle; Idle]).
Proof.
  apply (prints_interleave [65; 66] [67; 68]).
  apply inter_l, inter_r, inter_l, inter_r, inter_nil.
Defined.
