(* ===== verification/Trap.v ===== *)
(** * Traps (src/trap.rs, src/asm/trap.s)

    The handlers, and the assembly around them: a list of instructions per macro,
    run one after the other. A call of a handler runs its body and then leaves in
    the registers and on the stack what the compiler's code for it leaves there. *)

From S2P Require Import Prelude Machine Param Mutex Palloc VmState Vmalloc Global Riscv Device.

(** ** Instructions *)

Inductive insn : Type :=
  | Sd (rs : nat) (off : Z) (base : nat)
  | Ld (rd : nat) (off : Z) (base : nat)
  | Addi (rd rs : nat) (imm : Z)
  | Li (rd : nat) (v : Z)
  | Mul (rd rs1 rs2 : nat)
  | Sub (rd rs1 rs2 : nat)
  | Csrr (rd : nat) (r : csr)
  | Csrw (r : csr) (rs : nat)
  | Csrrw (rd : nat) (r : csr) (rs : nat).

Section asm.
Context {H U : Type} `{!CsrHw H}.

Definition get_x (i : nat) : M (Sys H U) Z := λ s, Done (xreg i (hart s), s).
Definition set_x (i : nat) (v : Z) : M (Sys H U) unit := λ s,
  Done ((), set_hart (set_xreg i v (hart s)) s).

Definition exec1 (i : insn) : M (Sys H U) unit :=
  match i with
  | Sd rs off base =>
      b ← get_x base; v ← get_x rs; on_vm (on_mem (write (byte_add b off) v))
  | Ld rd off base =>
      b ← get_x base; v ← on_vm (on_mem (read (byte_add b off))); set_x rd v
  | Addi rd rs imm => v ← get_x rs; set_x rd (wrap (v + imm))
  | Li rd v => set_x rd v
  | Mul rd rs1 rs2 => a ← get_x rs1; b ← get_x rs2; set_x rd (wrap (a * b))
  | Sub rd rs1 rs2 => a ← get_x rs1; b ← get_x rs2; set_x rd (wrap (a - b))
  | Csrr rd r => v ← on_hart (csr_read r); set_x rd v
  | Csrw r rs => v ← get_x rs; on_hart (csr_write r v)
  | Csrrw rd r rs =>
      v ← on_hart (csr_read r); w ← get_x rs; on_hart (csr_write r w) ;; set_x rd v
  end.

Fixpoint exec (l : list insn) : M (Sys H U) unit :=
  match l with
  | [] => mret ()
  | i :: l' => exec1 i ;; exec l'
  end.

End asm.

(** ** The macros *)

Definition sp : nat := 2.

Definition save_gp_regs : list insn :=
  [ Addi sp sp (-256);
    Sd 0 0 sp; Sd 1 8 sp; Sd 2 16 sp; Sd 3 24 sp; Sd 4 32 sp; Sd 5 40 sp; Sd 6 48 sp; Sd 7 56 sp;
    Sd 8 64 sp; Sd 9 72 sp; Sd 10 80 sp; Sd 11 88 sp; Sd 12 96 sp; Sd 13 104 sp; Sd 14 112 sp;
    Sd 15 120 sp; Sd 16 128 sp; Sd 17 136 sp; Sd 18 144 sp; Sd 19 152 sp; Sd 20 160 sp;
    Sd 21 168 sp; Sd 22 176 sp; Sd 23 184 sp; Sd 24 192 sp; Sd 25 200 sp; Sd 26 208 sp;
    Sd 27 216 sp; Sd 28 224 sp; Sd 29 232 sp; Sd 30 240 sp ].

Definition load_gp_regs : list insn :=
  [ Ld 0 0 sp; Ld 1 8 sp; Ld 2 16 sp; Ld 3 24 sp; Ld 5 40 sp; Ld 6 48 sp; Ld 7 56 sp;
    Ld 8 64 sp; Ld 9 72 sp; Ld 10 80 sp; Ld 11 88 sp; Ld 12 96 sp; Ld 13 104 sp; Ld 14 112 sp;
    Ld 15 120 sp; Ld 16 128 sp; Ld 17 136 sp; Ld 18 144 sp; Ld 19 152 sp; Ld 20 160 sp;
    Ld 21 168 sp; Ld 22 176 sp; Ld 23 184 sp; Ld 24 192 sp; Ld 25 200 sp; Ld 26 208 sp;
    Ld 27 216 sp; Ld 28 224 sp; Ld 29 232 sp; Ld 30 240 sp;
    Addi sp sp 256 ].

(** ** Calls of compiled code

    The registers and the memory a compiled function leaves, from those it finds.
    The calling convention: it restores the stack pointer, the saved registers
    [s0] to [s11] and the two it does not own, [gp] and [tp], and its frame lies
    below the stack pointer. *)

Abbreviation code := (gmap nat Z → mem → gmap nat Z * mem).

Definition callee_saved : list nat := [2; 3; 4; 8; 9; 18; 19; 20; 21; 22; 23; 24; 25; 26; 27]%nat.

Record abi (f : code) : Prop := {
  abi_saved g m i : i ∈ callee_saved → (f g m).1 !! i = g !! i;
  abi_stack g m a : default 0 (g !! sp) ≤ a → (f g m).2 !! a = m !! a
}.

Section trap.
Context {cfg : Config} {H U : Type} `{!CsrHw H} `{!UartHw U}.

Definition leave (f : code) : M (Sys H U) unit := λ s,
  let '(g, m) := f (gprs (hart s)) (vm_mem (vm s)) in
  Done ((), set_vm (set_mem m (vm s)) (set_hart (set_gprs g (hart s)) s)).

Definition call (f : code) (body : M (Sys H U) unit) : M (Sys H U) unit :=
  body ;; leave f.

(** ** The handlers *)

(** Writes the supervisor trap vector; [strapvec] is the address of [__strapvec]. *)
Definition trap_init (strapvec : Z) : M (Sys H U) unit := on_hart (write_stvec strapvec).

(** The log lines before a panic; [text] is the formatted cause. *)
Definition m_handler (text : Z → string) : M (Sys H U) unit :=
  mcause ← on_hart read_mcause;
  if mcause =? MSTATUS_TIMER then set_mtimecmp 10000000
  else
    on_uart (log Warning [("Uncaught machine mode interupt. mcause: 0x")%string; text mcause]) ;;
    panic.

Definition s_handler (text : Z → string) : M (Sys H U) unit :=
  cause ← on_hart read_scause;
  on_uart (log Warning [("Uncaught supervisor mode interupt. scause: 0x")%string; text cause]) ;;
  panic.

(** ** The trap vectors *)

Definition mtrapvec (text : Z → string) (f : code) : M (Sys H U) unit :=
  exec (Csrrw sp mscratch sp :: save_gp_regs) ;;
  call f (m_handler text) ;;
  exec (load_gp_regs ++ [Csrrw sp mscratch sp]) ;;
  on_hart call_mret.

(** The instruction [sret]: to the previous mode of [sstatus], at [sepc]. *)
Definition sret : M (Hart H) unit := λ s,
  Done ((), mkHart (csr_sret (csrs s)) (gprs s) (decode_spp (csrr sstatus (csrs s)))
    (csrr sepc (csrs s)) (stale_tlb s)).

Definition strapvec (text : Z → string) (f : code) : M (Sys H U) unit :=
  exec (Csrrw sp sscratch sp :: save_gp_regs) ;;
  call f (s_handler text) ;;
  exec (load_gp_regs ++ [Csrrw sp sscratch sp]) ;;
  on_hart sret.

End trap.
