(* ===== verification/TrapTheorems.v ===== *)
(** * A timer interrupt, from the interrupted instruction back to it

    The save and restore macros of trap.s as loops over registers, and what a hart
    sees of a machine timer interrupt. *)

From S2P Require Import Prelude Machine Param Mutex Palloc FreeList VmState Vmalloc Global.
From S2P Require Import Riscv Device DeviceTheorems Trap.

(** The store and the load of every register of a list, each in its slot. *)
Definition stores (rs : list nat) : list insn := (λ i, Sd i (8 * Z.of_nat i) sp) <$> rs.
Definition loads (rs : list nat) : list insn := (λ i, Ld i (8 * Z.of_nat i) sp) <$> rs.

Lemma save_gp_regs_eq : save_gp_regs = Addi sp sp (-256) :: stores (seq 0 31).
Proof. reflexivity. Qed.

Definition restored : list nat := (0 :: 1 :: 2 :: 3 :: seq 5 26)%nat.

Lemma load_gp_regs_eq : load_gp_regs = loads restored ++ [Addi sp sp 256].
Proof. reflexivity. Qed.

#[global] Arguments exec : simpl never.
#[global] Arguments stores : simpl never.
#[global] Arguments loads : simpl never.

Section exec.
Context {H U : Type} `{!CsrHw H}.
Implicit Type s : Sys H U.

Definition mem_of s : mem := vm_mem (vm s).
Definition set_ram (m : mem) s : Sys H U := set_vm (set_mem m (vm s)) s.

Lemma wp_exec_cons i l s Q P :
  wp (exec1 i) s (λ _ s', wp (exec l) s' Q P) P → wp (exec (i :: l)) s Q P.
Proof. apply (wp_bind (exec1 i) (λ _, exec l)). Qed.

Lemma wp_exec_app l1 l2 s Q P :
  wp (exec l1) s (λ _ s', wp (exec l2) s' Q P) P → wp (exec (l1 ++ l2)) s Q P.
Proof.
  revert s. induction l1 as [|i l1 IH]; intros s Hw; simpl.
  - Transparent wp. exact Hw.
  - apply wp_exec_cons. unfold wp in Hw |- *.
    change (exec (i :: l1) s) with ((exec1 i ;; exec l1) s) in Hw. unfold mbind, M_bind in Hw.
    destruct (exec1 i s) as [[[] s']| | |]; try done. apply IH, Hw.
Qed.
#[global] Opaque wp.

Lemma wp_get_x i s Q P : Q (xreg i (hart s)) s → wp (get_x i) s Q P.
Proof. intros HQ. by eapply wp_total. Qed.

Lemma wp_set_x i v s Q P : Q () (set_hart (set_xreg i v (hart s)) s) → wp (set_x i v) s Q P.
Proof. intros HQ. by eapply wp_total. Qed.

(** The frame of a trap at [a]: 32 slots of RAM. *)
Record frame (a : Z) (m : mem) : Prop := {
  fr_aligned : a mod 8 = 0;
  fr_range : 0 ≤ a ∧ a + 256 < u64_size;
  fr_ram : ∀ i : nat, (i < 32)%nat → is_Some (m !! (a + 8 * Z.of_nat i))
}.

Lemma slot_addr a m i : frame a m → (i < 32)%nat →
  byte_add a (8 * Z.of_nat i) = a + 8 * Z.of_nat i ∧ (a + 8 * Z.of_nat i) mod 8 = 0.
Proof.
  intros [Ha Hr _] Hi. split; [apply byte_add_small; u64_range | zdm].
Qed.

Lemma wp_stores a rs s Q P :
  xreg sp (hart s) = a → frame a (mem_of s) → Forall (λ i, i < 32)%nat rs → NoDup rs →
  (∀ m', (∀ i, i ∈ rs → m' !! (a + 8 * Z.of_nat i) = Some (xreg i (hart s))) →
    (∀ b, (∀ i, i ∈ rs → b ≠ a + 8 * Z.of_nat i) → m' !! b = mem_of s !! b) →
    Q () (set_ram m' s)) →
  wp (exec (stores rs)) s Q P.
Proof.
  intros Hsp Hfr Hlt Hnd HQ. revert s Hsp Hfr HQ.
  induction rs as [|i rs IH]; intros s Hsp Hfr HQ.
  - apply wp_ret. destruct s as [h [m p] ? ? ?]. apply (HQ m); [by intros ? ?%not_elem_of_nil | done].
  - apply Forall_cons in Hlt as [Hi Hlt]. apply NoDup_cons in Hnd as [Hn Hnd].
    destruct (slot_addr _ _ i Hfr Hi) as [Ea H8]. change (stores (i :: rs)) with (Sd i (8 * Z.of_nat i) sp :: stores rs).
    apply wp_exec_cons, wp_bind, wp_get_x, wp_bind, wp_get_x, wp_on_vm, wp_on_mem. rewrite Hsp, Ea.
    apply wp_write; [done | by apply (fr_ram _ _ Hfr) |].
    apply (IH Hlt Hnd (set_ram (<[a + 8 * Z.of_nat i := xreg i (hart s)]> (mem_of s)) s)); [done | |].
    { destruct Hfr as [? ? Hram]. split; [done | done |]. intros j Hj. unfold mem_of. simpl.
      apply lookup_insert_is_Some'. right. by apply Hram. }
    intros m' Hm' Hfr'. apply (HQ m').
    + intros j [->|Hj]%elem_of_cons; [|by apply Hm'].
      rewrite Hfr'; [apply lookup_insert_eq|]. intros k Hk E. assert (k = i) as -> by lia. done.
    + intros b Hb. rewrite Hfr'; [|intros k Hk; apply Hb; by right].
      apply lookup_insert_ne. intros <-. by apply (Hb i); [left|].
Qed.

Lemma wp_loads a rs (v : nat → Z) s Q P :
  xreg sp (hart s) = a → frame a (mem_of s) → Forall (λ i, i < 32)%nat rs → v 0%nat = 0 → v sp = a →
  (∀ i, i ∈ rs → mem_of s !! (a + 8 * Z.of_nat i) = Some (v i)) →
  (∀ g, (∀ j, xreg j (set_gprs g (hart s)) = if decide (j ∈ rs) then v j else xreg j (hart s)) →
    Q () (set_hart (set_gprs g (hart s)) s)) →
  wp (exec (loads rs)) s Q P.
Proof.
  intros Hsp Hfr Hlt H0 H2 Hm HQ. revert s Hsp Hfr Hm HQ.
  induction rs as [|i rs IH]; intros s Hsp Hfr Hm HQ.
  - apply wp_ret. destruct s as [[c g ? ? ?] ? ? ? ?]. apply (HQ g). intros j.
    destruct (decide _) as [?%not_elem_of_nil|]; done.
  - apply Forall_cons in Hlt as [Hi Hlt].
    destruct (slot_addr _ _ i Hfr Hi) as [Ea H8]. change (loads (i :: rs)) with (Ld i (8 * Z.of_nat i) sp :: loads rs).
    apply wp_exec_cons, wp_bind, wp_get_x, wp_bind, wp_on_vm, wp_on_mem. rewrite Hsp, Ea.
    eapply wp_read; [done | apply (Hm i); left |].
    apply wp_set_x. apply IH; [done | | | |].
    + simpl. rewrite xreg_set. destruct (decide _) as [[<- _]|]; [done|]. exact Hsp.
    + exact Hfr.
    + intros j Hj. apply Hm. by right.
    + intros g Hg. specialize (HQ g). destruct s as [h [m p] ? ? ?]. cbn in Hg |- *.
      rewrite set_gprs_xreg in Hg |- *.
      apply HQ. intros j. rewrite Hg, xreg_set. destruct (decide (j ∈ rs)) as [Hj|Hj].
      * by rewrite decide_True by (by right).
      * destruct (decide (j ∈ i :: rs)) as [[->|?]%elem_of_cons|Hn]; [|done|].
        -- destruct i; [|by rewrite decide_True by lia]. by rewrite decide_False by lia.
        -- rewrite decide_False; [done|]. intros [-> _]. apply Hn. left.
Qed.

End exec.

(** ** The interrupt *)

Section interrupt.
Context {cfg : Config} {H U : Type} `{!CsrHw H} `{!CsrLaws H} `{!UartHw U}.
Implicit Type s : Sys H U.

(** A hart that can take a timer interrupt: [ksp] is its machine interrupt stack, with
    room for a frame, [t] the time, which leaves room for the next interval. *)
Record interruptible (id t ksp : Z) s : Prop := {
  in_id : csrr mhartid (csrs (hart s)) = id ∧ 0 ≤ id < 4095;
  in_scratch : csrr mscratch (csrs (hart s)) = ksp ∧ is_u64 ksp;
  in_frame : frame (ksp - 256) (mem_of s);
  in_time : clint s !! MTIME = Some t ∧ is_Some (clint s !! MTIMECMP id) ∧ is_u64 (t + 10000000);
  in_pc : pc (hart s) mod 2 = 0 ∧ is_u64 (pc (hart s));
  in_sp : is_u64 (xreg sp (hart s))
}.

Lemma wp_csrrw_sp r s Q P :
  Q () (set_hart (set_xreg sp (csrr r (csrs (hart s)))
    (set_csrs (csrw r (xreg sp (hart s)) (csrs (hart s))) (hart s))) s) →
  wp (exec1 (Csrrw sp r sp)) s Q P.
Proof.
  intros HQ. cbn [exec1]. apply wp_bind, wp_on_hart. eapply wp_total; [reflexivity|].
  apply wp_bind, wp_get_x. apply wp_bind, wp_on_hart. eapply wp_total; [reflexivity|].
  apply wp_set_x. destruct s as [[] ? ? ? ?]. exact HQ.
Qed.

Lemma wp_addi_sp k s Q P :
  is_u64 (xreg sp (hart s) + k) →
  Q () (set_hart (set_xreg sp (xreg sp (hart s) + k) (hart s)) s) →
  wp (exec1 (Addi sp sp k)) s Q P.
Proof.
  intros Hu HQ. cbn [exec1]. apply wp_bind, wp_get_x, wp_set_x. by rewrite wrap_small.
Qed.

Lemma csrw_mscratch_other r v h : r ≠ mscratch → csrr r (csrw mscratch v h) = csrr r h.
Proof. intros Hr. apply csrw_other. simpl. by rewrite bool_decide_false. Qed.

(** The registers of a hart as a trap leaves them: [v] is what the handler's code left
    in the one that is not saved. *)
Record resumed (id t ksp : Z) s s' (v : Z) : Prop := {
  re_pc : pc (hart s') = pc (hart s);
  re_priv : priv (hart s') = priv (hart s);
  re_regs : ∀ i, i ≠ 31%nat → (i < 32)%nat → xreg i (hart s') = xreg i (hart s);
  re_x31 : xreg 31 (hart s') = v;
  re_mie : Z.testbit (csrr mstatus (csrs (hart s'))) 3 = Z.testbit (csrr mstatus (csrs (hart s))) 3;
  re_csrs : ∀ r, r ≠ mepc → r ≠ mcause → r ≠ mstatus →
    csrr r (csrs (hart s')) = csrr r (csrs (hart s));
  re_tlb : stale_tlb (hart s') = stale_tlb (hart s);
  re_clint : clint s' = <[MTIMECMP id := t + 10000000]> (clint s);
  re_mem : ∀ a, ksp ≤ a → mem_of s' !! a = mem_of s !! a;
  re_rest : PAGEPOOL (vm s') = PAGEPOOL (vm s) ∧ GLOBAL s' = GLOBAL s ∧ uart s' = uart s
}.

(** The way into a trap vector with the scratch register [r], which holds the stack
    [ksp]: the frame holds the registers. *)
Lemma wp_save_regs r ksp s Q P :
  csrr r (csrs (hart s)) = ksp → frame (ksp - 256) (mem_of s) →
  (∀ m h, csrs h = csrw r (xreg sp (hart s)) (csrs (hart s)) →
    (∀ j, xreg j h = if decide (j = sp) then ksp - 256 else xreg j (hart s)) →
    stale_tlb h = stale_tlb (hart s) → frame (ksp - 256) m →
    (∀ i, (i < 31)%nat → m !! (ksp - 256 + 8 * Z.of_nat i) = Some (xreg i h)) →
    (∀ a, ksp ≤ a → m !! a = mem_of s !! a) →
    Q () (set_ram m (set_hart h s))) →
  wp (exec (Csrrw sp r sp :: save_gp_regs)) s Q P.
Proof.
  intros Hks Hfr HQ. rewrite save_gp_regs_eq. apply wp_exec_cons, wp_csrrw_sp, wp_exec_cons.
  rewrite Hks. set (h1 := set_xreg _ _ _).
  assert (xreg sp h1 = ksp) as E1 by (unfold h1; by rewrite xreg_set, decide_True by done).
  destruct Hfr as [Ha [Hr0 Hr1] Hram]. apply wp_addi_sp; cbn; rewrite E1; [u64_range|].
  set (h2 := set_xreg sp (ksp + -256) h1).
  assert (xreg sp h2 = ksp - 256) as E2 by (unfold h2; by rewrite xreg_set, decide_True by done).
  eapply (wp_stores _ (seq 0 31)); [exact E2 | by split | apply Forall_forall; intros i Hi%elem_of_seq; lia | apply NoDup_seq |].
  intros m' Hm' Hout. apply (HQ m' h2).
  - done.
  - intros j. unfold h2, h1. rewrite !xreg_set. destruct (decide (j = sp)) as [->|Hj].
    + by rewrite decide_True by done.
    + by rewrite !decide_False by (by intros [? _]).
  - done.
  - split; [done | done |]. intros i Hi. destruct (decide (i = 31%nat)) as [->|].
    + rewrite Hout; [by apply Hram|]. intros j Hj%elem_of_seq. lia.
    + rewrite Hm'; [done|]. apply elem_of_seq. lia.
  - intros i Hi. rewrite Hm'; [done|]. apply elem_of_seq. lia.
  - intros a Hge. apply Hout. intros i Hi%elem_of_seq. lia.
Qed.

Lemma wp_trap_entry id t ksp s Q P :
  interruptible id t ksp s →
  (∀ m h, csrs h = csrw mscratch (xreg sp (hart s))
        (csr_trap (priv (hart s)) (pc (hart s)) MSTATUS_TIMER (csrs (hart s))) →
    (∀ j, xreg j h = if decide (j = sp) then ksp - 256 else xreg j (hart s)) →
    stale_tlb h = stale_tlb (hart s) → frame (ksp - 256) m →
    (∀ i, (i < 31)%nat → m !! (ksp - 256 + 8 * Z.of_nat i) = Some (xreg i h)) →
    (∀ a, ksp ≤ a → m !! a = mem_of s !! a) →
    Q () (set_ram m (set_hart h s))) →
  wp (on_hart timer_interrupt ;; exec (Csrrw sp mscratch sp :: save_gp_regs)) s Q P.
Proof.
  intros [[Hid ?] [Hks Hu] Hfr _ _ _] HQ. apply wp_bind, wp_on_hart. eapply wp_total; [reflexivity|].
  apply (wp_save_regs mscratch ksp).
  - cbn. by rewrite trap_other.
  - done.
  - intros m h. apply (HQ m h).
Qed.

(** The way out: the registers come back from the frame. *)
Lemma wp_trap_exit ksp (v : nat → Z) s Q P :
  frame (ksp - 256) (mem_of s) → xreg sp (hart s) = ksp - 256 →
  v 0%nat = 0 → v sp = ksp - 256 →
  (∀ i, (i < 31)%nat → mem_of s !! (ksp - 256 + 8 * Z.of_nat i) = Some (v i)) →
  (∀ h, csrs h = csrw mscratch ksp (csrs (hart s)) → stale_tlb h = stale_tlb (hart s) →
    xreg sp h = csrr mscratch (csrs (hart s)) → (∀ j, j ∈ restored → j ≠ sp → xreg j h = v j) →
    (∀ j, j ∉ restored → xreg j h = xreg j (hart s)) → Q () (set_hart h s)) →
  wp (exec (load_gp_regs ++ [Csrrw sp mscratch sp])) s Q P.
Proof.
  intros Hfr Hsp H0 H2 Hv HQ. rewrite load_gp_regs_eq, <- app_assoc. apply wp_exec_app.
  eapply (wp_loads _ restored v); [exact Hsp | done | | done | done | |].
  { apply Forall_forall. intros i Hi. unfold restored in Hi. rewrite !elem_of_cons, elem_of_seq in Hi. lia. }
  { intros i Hi. apply Hv. unfold restored in Hi. rewrite !elem_of_cons, elem_of_seq in Hi. lia. }
  intros g Hg. destruct Hfr as [_ Hr _]. cbn [app]. apply wp_exec_cons.
  assert (xreg sp (set_gprs g (hart s)) = ksp - 256) as Es.
  { rewrite Hg. by rewrite decide_True by (unfold restored; set_solver). }
  apply wp_addi_sp; cbn [hart set_hart]; rewrite Es; [u64_range|].
  apply wp_exec_cons, wp_csrrw_sp. apply wp_ret. cbn [hart set_hart].
  rewrite xreg_set, decide_True by done. replace (ksp - 256 + 256) with ksp by lia.
  set (h1 := set_xreg sp ksp _). specialize (HQ (set_xreg sp (csrr mscratch (csrs h1))
    (set_csrs (csrw mscratch ksp (csrs h1)) h1))).
  assert (∀ j, j ≠ sp → xreg j (set_xreg sp (csrr mscratch (csrs h1))
    (set_csrs (csrw mscratch ksp (csrs h1)) h1)) = if decide (j ∈ restored) then v j else xreg j (hart s)) as Hj.
  { intros j Hj. rewrite <- Hg. unfold h1. rewrite !xreg_set, xreg_csrs, xreg_set.
    by rewrite !decide_False by (by intros [? _]). }
  destruct s as [[] ? ? ? ?]. apply HQ; [done | done | | |].
  - by rewrite xreg_set, decide_True by done.
  - intros j Hin Hne. by rewrite Hj, decide_True.
  - intros j Hn. rewrite Hj, decide_False; [done | done |]. intros ->. apply Hn. unfold restored. set_solver.
Qed.

(** The handler of a timer interrupt, called from assembly with its stack at [a]. *)
Lemma wp_call_m_handler (text : Z → string) (f : code) id t a s Q P :
  abi f → csrr mcause (csrs (hart s)) = MSTATUS_TIMER →
  csrr mhartid (csrs (hart s)) = id → 0 ≤ id < 4095 → clint s !! MTIME = Some t →
  is_Some (clint s !! MTIMECMP id) → is_u64 (t + 10000000) → xreg sp (hart s) = a →
  (∀ g m, f (gprs (hart s)) (mem_of s) = (g, m) →
    (∀ i, i ∈ callee_saved → g !! i = gprs (hart s) !! i) →
    (∀ b, a ≤ b → m !! b = mem_of s !! b) →
    Q () (set_ram m (set_hart (set_gprs g (hart s))
      (set_clint (<[MTIMECMP id := t + 10000000]> (clint s)) s)))) →
  wp (call f (m_handler text)) s Q P.
Proof.
  intros Hf Hc Hid Hr Ht Hcmp Hu Hsp HQ. apply wp_bind. unfold m_handler.
  apply wp_bind, wp_on_hart. eapply wp_total; [reflexivity|]. rewrite Hc, Z.eqb_refl.
  apply (wp_set_mtimecmp _ _ t id); try done.
  destruct (f (gprs (hart s)) (mem_of s)) as [g m] eqn:Ef. unfold mem_of in Ef.
  eapply wp_total; [unfold leave; cbn; rewrite Ef; reflexivity|].
  specialize (HQ g m eq_refl). destruct s as [h [m0 p] ? ? ?]. cbn in *. apply HQ.
  - intros i Hi. pose proof (abi_saved f Hf (gprs h) m0 i Hi) as Hst. by rewrite Ef in Hst.
  - intros b Hb. pose proof (abi_stack f Hf (gprs h) m0 b) as Hst. rewrite Ef in Hst. apply Hst.
    change (xreg sp h ≤ b). lia.
Qed.

(** The registers after the way out, those that were not restored included. *)
Lemma resumed_regs (h0 h h' : Hart H) ksp g2 :
  (∀ j, xreg j h = if decide (j = sp) then ksp - 256 else xreg j h0) →
  (∀ i, i ∈ callee_saved → g2 !! i = gprs h !! i) → xreg sp h' = xreg sp h0 →
  (∀ j, j ∈ restored → j ≠ sp → xreg j h' = xreg j h) →
  (∀ j, j ∉ restored → xreg j h' = xreg j (set_gprs g2 h)) →
  (∀ i, i ≠ 31%nat → (i < 32)%nat → xreg i h' = xreg i h0) ∧ xreg 31 h' = default 0 (g2 !! 31%nat).
Proof.
  intros Hx Hg2 Hsp Hin Hout. split.
  - intros i Hi Hlt. destruct (decide (i = sp)) as [->|Hne]; [done|].
    destruct (decide (i ∈ restored)) as [Hr|Hr]; [by rewrite Hin, Hx, decide_False by done|].
    rewrite Hout by done. assert (i = 4)%nat as ->.
    { unfold restored in Hr. rewrite !not_elem_of_cons, elem_of_seq in Hr. lia. }
    change (default 0 (g2 !! 4%nat) = xreg 4 h0).
    rewrite Hg2 by (unfold callee_saved; set_solver). specialize (Hx 4%nat).
    by rewrite decide_False in Hx by done.
  - rewrite Hout; [done|]. unfold restored. rewrite !not_elem_of_cons, elem_of_seq. lia.
Qed.

Lemma wp_timer (text : Z → string) (f : code) id t ksp s :
  abi f → interruptible id t ksp s →
  wp (on_hart timer_interrupt ;; mtrapvec text f) s
    (λ _ s', ∃ g m, resumed id t ksp s s' (default 0 ((f g m).1 !! 31%nat))) False.
Proof.
  intros Hf Hin. unfold mtrapvec. apply wp_seq_assoc.
  eapply wp_trap_entry; [exact Hin|]. intros m h Ec Hx Htlb Hfr Hslot Hmem.
  destruct Hin as [[Hid ?] [Hks Hu] _ (Ht & Hcmp & Htu) [Hpc Hpcu] Hspu].
  assert (xreg sp h = ksp - 256) as Esp by (by rewrite Hx, decide_True by done).
  apply wp_bind. apply (wp_call_m_handler text f id t (ksp - 256)); cbn; try done.
  { by rewrite Ec, csrw_mscratch_other, trap_mcause by done. }
  { by rewrite Ec, csrw_mscratch_other, trap_other by done. }
  intros g2 m2 Ef Hg2 Hm2. assert (frame (ksp - 256) m2) as Hfr2.
  { destruct Hfr as [Ha Hr Hram]. split; [done | done |]. intros i Hi. rewrite Hm2 by lia. by apply Hram. }
  apply wp_bind. eapply (wp_trap_exit ksp (λ j, xreg j h)); cbn; [exact Hfr2 | | done | done | |].
  { change (default 0 (g2 !! sp) = ksp - 256). rewrite Hg2; [done | unfold callee_saved; set_solver]. }
  { intros i Hi. rewrite Hm2 by lia. by apply Hslot. }
  intros h' Ec' Htlb' Hsp' Hg1 Hg2'. cbn in Ec', Htlb', Hsp', Hg2'.
  rewrite Ec, csrw_mscratch in Hsp' by done. rewrite Ec in Ec'.
  destruct (resumed_regs (hart s) h h' ksp g2 Hx Hg2 Hsp' Hg1 Hg2') as [Hregs Hx31].
  apply wp_on_hart. eapply wp_total; [reflexivity|]. exists (gprs h), m. unfold mem_of in Ef. cbn in Ef.
  rewrite Ef. cbn [fst].
  split; cbn [hart set_hart csrs pc priv clint uart GLOBAL vm set_vm set_clint PAGEPOOL stale_tlb];
    rewrite ?Ec'; try done.
  - rewrite !csrw_mscratch_other by done. by apply trap_mepc.
  - rewrite !csrw_mscratch_other by done. apply trap_mpp.
  - rewrite mret_mie, !csrw_mscratch_other by done. apply trap_mpie.
  - intros r ???. rewrite mret_other by done. destruct (decide (r = mscratch)) as [->|].
    + by rewrite csrw_mscratch by done.
    + by rewrite !csrw_mscratch_other, trap_other by done.
  - by rewrite Htlb'.
  - intros a Ha. unfold mem_of. cbn. rewrite Hm2 by lia. by apply Hmem.
Qed.

(** C10: a machine timer interrupt is transparent but for one register: whatever the
    compiled handler does within the calling convention, the hart goes on at the
    interrupted instruction, in the interrupted mode, with every register but [x31],
    its interrupt enable and its control registers ([mepc], [mcause] and the rest of
    [mstatus] excepted, which the trap itself sets) as they were; nothing above the
    interrupt stack is written, and the next interrupt is due ten million ticks
    later. *)
Theorem timer_interrupt_resumes (text : Z → string) (f : code) id t ksp s :
  abi f → interruptible id t ksp s →
  ∃ s' v, (on_hart timer_interrupt ;; mtrapvec text f) s = Done ((), s') ∧
    resumed id t ksp s s' v.
Proof.
  intros Hf Hin. pose proof (wp_timer text f id t ksp s Hf Hin) as Hw.
  apply wp_done in Hw as ([] & s' & E & g & m & Hr). eauto.
Qed.

(** C39: register [x31] is neither saved nor restored around the handler: for every
    value there is compiled code within the calling convention that makes the
    interrupted code find it there. *)
Theorem timer_interrupt_loses_x31 (text : Z → string) id t ksp s v :
  interruptible id t ksp s →
  ∃ f s', abi f ∧ (on_hart timer_interrupt ;; mtrapvec text f) s = Done ((), s') ∧
    xreg 31 (hart s') = v.
Proof.
  intros Hin. set (f := (λ g m, (<[31%nat := v]> g, m)) : code).
  assert (abi f) as Hf.
  { split; [|done]. intros g m i Hi. unfold f. cbn [fst]. apply lookup_insert_ne. intros <-.
    unfold callee_saved in Hi. set_solver. }
  pose proof (wp_timer text f id t ksp s Hf Hin) as Hw.
  apply wp_done in Hw as ([] & s' & E & g & m & Hr). exists f, s'. split_and!; [done | done |].
  rewrite (re_x31 _ _ _ _ _ _ Hr). unfold f. cbn [fst]. by rewrite lookup_insert_eq.
Qed.

Lemma wp_s_handler (text : Z → string) s Q (P : Prop) :
  (0 < fuel)%nat → P → wp (s_handler text) s Q P.
Proof.
  intros Hf HP. apply wp_bind, wp_on_hart. eapply wp_total; [reflexivity|].
  apply wp_bind, wp_zoom. eapply wp_total; [by apply print_sent|]. by apply wp_panic.
Qed.

(** Every trap but the machine timer's ends in a panic: [m_handler] for any other
    cause, and the supervisor's vector always, once it has saved the registers on the
    supervisor's interrupt stack; its restoring code and its [sret] are not reached. *)
Theorem other_traps_panic (text : Z → string) (f : code) ksp s :
  (0 < fuel)%nat →
  (csrr mcause (csrs (hart s)) ≠ MSTATUS_TIMER → m_handler text s = Panic) ∧
  (csrr sscratch (csrs (hart s)) = ksp → frame (ksp - 256) (mem_of s) → strapvec text f s = Panic).
Proof.
  intros Hf. split.
  - intros Hc. apply wp_panics, wp_bind, wp_on_hart. eapply wp_total; [reflexivity|].
    cbn. rewrite (proj2 (Z.eqb_neq _ _)) by done. apply wp_bind, wp_zoom.
    eapply wp_total; [by apply print_sent|]. by apply wp_panic.
  - intros Hks Hfr. apply wp_panics, wp_bind, (wp_save_regs sscratch ksp); [done | done |].
    intros m h _ _ _ _ _ _. apply wp_bind, wp_bind. by apply wp_s_handler.
Qed.

End interrupt.
