(* ===== verification/CsrModel.v ===== *)
(** * A hart's control registers, concretely

    Hardware that keeps the laws of [CsrLaws]: registers as a function, the
    supervisor views computed from the machine registers. *)

From S2P Require Import Prelude Machine Riscv.

Abbreviation csr_file := (csr → Z).

Definition upd (r : csr) (v : Z) (h : csr_file) : csr_file :=
  λ r', if decide (r' = r) then v else h r'.

(** The bits of [mstatus] that supervisor mode sees: SIE, SPIE and SPP. *)
Definition sstatus_mask : Z := 0x122.

(** MIE, MPIE and the two bits of MPP. *)
Definition trap_bits : Z := 0x1888.

Definition view (r : csr) (h : csr_file) : Z :=
  match r with
  | sstatus => Z.land (h mstatus) sstatus_mask
  | sie => Z.land (h mie) (h mideleg)
  | mideleg => Z.land (h mideleg) 0x222
  | _ => h r
  end.

Definition store (r : csr) (v : Z) (h : csr_file) : csr_file :=
  match r with
  | mhartid => h
  | mepc => upd mepc (v - v mod 2) h
  | sepc => upd sepc (v - v mod 2) h
  | mtvec => upd mtvec (v - v mod 4) h
  | stvec => upd stvec (v - v mod 4) h
  | sstatus => upd mstatus (Z.lor (Z.land (h mstatus) (unot sstatus_mask)) (Z.land v sstatus_mask)) h
  | sie => upd mie (Z.lor (Z.land (h mie) (unot (h mideleg))) (Z.land v (h mideleg))) h
  | r => upd r v h
  end.

Definition encode_mpp (m : mode) : Z :=
  match m with Machine => MSTATUS_MPP_M | Supervisor => MSTATUS_MPP_S | User => MSTATUS_MPP_U end.

Definition trap_mstatus (m : mode) (ms : Z) : Z :=
  Z.lor (Z.land ms (unot trap_bits)) (Z.lor (if Z.testbit ms 3 then 0x80 else 0) (encode_mpp m)).

Definition mret_mstatus (ms : Z) : Z :=
  Z.lor (Z.land ms (unot trap_bits)) (Z.lor (if Z.testbit ms 7 then 0x8 else 0) 0x80).

(** [sret]: SIE from SPIE (bits 1 and 5), SPIE set, SPP (bit 8) cleared. *)
Definition sret_mstatus (ms : Z) : Z :=
  Z.lor (Z.land ms (unot sstatus_mask)) (Z.lor (if Z.testbit ms 5 then 0x2 else 0) 0x20).

#[export] Instance file_hw : CsrHw csr_file := {|
  csrr := λ r h, wrap (view r h);
  csrw := store;
  csr_trap := λ m a c h, upd mstatus (trap_mstatus m (h mstatus)) (upd mcause c (upd mepc a h));
  csr_mret := λ h, upd mstatus (mret_mstatus (h mstatus)) h;
  csr_sret := λ h, upd mstatus (sret_mstatus (h mstatus)) h
|}.

Lemma wrap_bit x i : 0 ≤ i < 64 → Z.testbit (wrap x) i = Z.testbit x i.
Proof. intros Hi. apply Z.mod_pow2_bits_low. lia. Qed.

(** The supervisor's view of [mstatus] has none of the bits a trap changes. *)
Lemma mask_trap_bits ms x :
  Z.land x sstatus_mask = 0 →
  Z.land (Z.lor (Z.land ms (unot trap_bits)) x) sstatus_mask = Z.land ms sstatus_mask.
Proof.
  intros Hx. rewrite Z.land_lor_distr_l, Hx, Z.lor_0_r, <- Z.land_assoc. reflexivity.
Qed.

(** A bit that a trap replaces. *)
Lemma replaced_bit ms x i :
  0 ≤ i < 64 → Z.testbit (unot trap_bits) i = false →
  Z.testbit (wrap (Z.lor (Z.land ms (unot trap_bits)) x)) i = Z.testbit x i.
Proof.
  intros Hi Hb. rewrite wrap_bit, Z.lor_spec, Z.land_spec, Hb by lia. by rewrite andb_false_r.
Qed.

Lemma trap_mstatus_bits m ms :
  decode_mpp (wrap (trap_mstatus m ms)) = m ∧
  Z.testbit (wrap (trap_mstatus m ms)) 7 = Z.testbit ms 3.
Proof.
  unfold decode_mpp, trap_mstatus. rewrite !replaced_bit by (lia || reflexivity).
  by destruct (Z.testbit ms 3), m.
Qed.

Lemma mret_mstatus_bit ms : Z.testbit (wrap (mret_mstatus ms)) 3 = Z.testbit ms 7.
Proof.
  unfold mret_mstatus. rewrite replaced_bit by (lia || reflexivity). by destruct (Z.testbit ms 7).
Qed.

#[export] Instance file_laws : CsrLaws csr_file.
Proof.
  split.
  - intros r h. apply Z.mod_pos_bound. reflexivity.
  - intros r r' v h Ha. by destruct r, r'.
  - intros v h Hv Hu. cbn. unfold upd. cbn. rewrite Hv, Z.sub_0_r. by apply wrap_small.
  - intros v h Hv Hu. cbn. unfold upd. cbn. rewrite Hv, Z.sub_0_r. by apply wrap_small.
  - intros v h Hv Hu. cbn. unfold upd. cbn. rewrite Hv, Z.sub_0_r. by apply wrap_small.
  - intros v h Hu. by apply wrap_small.
  - intros v h Hu. by apply wrap_small.
  - intros v h Hu _. by apply wrap_small.
  - intros v h H1 H2. unfold decode_mpp, csrr. cbn -[Z.testbit wrap].
    rewrite !wrap_bit by lia. unfold upd. rewrite decide_True by done. by rewrite H1, H2.
  - intros v h Hu. cbn -[Z.testbit wrap]. by rewrite wrap_bit by lia.
  - intros v h Hu. cbn -[Z.testbit wrap]. by rewrite wrap_bit by lia.
  - intros h. cbn -[Z.testbit wrap]. rewrite wrap_bit, Z.land_spec by lia. apply andb_false_r.
  - intros m a c h _ Hu. by apply wrap_small.
  - reflexivity.
  - intros m a c h. apply (trap_mstatus_bits m (h mstatus)).
  - intros m a c h. rewrite (wrap_bit (h mstatus)) by lia. apply (trap_mstatus_bits m (h mstatus)).
  - intros m a c h r H1 H2 H3. destruct r; try done. cbn. unfold upd. cbn.
    f_equal. apply mask_trap_bits. by destruct (Z.testbit (h mstatus) 3), m.
  - intros h. rewrite (wrap_bit (h mstatus)) by lia. apply (mret_mstatus_bit (h mstatus)).
  - intros h r H3. destruct r; try done. cbn. unfold upd. cbn.
    f_equal. apply mask_trap_bits. by destruct (Z.testbit (h mstatus) 7).
Qed.
