(* ===== verification/Boot.v ===== *)
(** * Booting (src/asm/entry.s, src/main.rs, src/hw.rs, src/vm.rs)

    The path of a hart from the entry point to supervisor mode, and the functions of
    the virtual memory module that hart 0 then calls. The addresses of functions and of
    the global pointer are the linker's: they are arguments. *)

From S2P Require Import Prelude Machine Param Mutex Palloc VmState Vmalloc Host Ptable Global Riscv Device Trap.

(** ** The entry point *)

Definition gp : nat := 3.
Definition a0 : nat := 10.
Definition a1 : nat := 11.
Definition a2 : nat := 12.

(** A stack of two pages and a guard page per hart, then the two interrupt stacks. *)
Definition entry (L : Layout) (global_pointer : Z) : list insn :=
  [ Li gp global_pointer;
    Csrr a1 mhartid; Li a0 0x3000; Mul a1 a1 a0; Li a2 (stacks_end L); Sub sp a2 a1;
    Csrr a1 mhartid; Li a0 0x4000; Mul a1 a1 a0; Li a2 (intstacks_end L); Sub a2 a2 a1;
    Csrw mscratch a2; Li a0 0x2000; Sub a2 a2 a0; Csrw sscratch a2 ].

(** The function addresses the boot code takes. *)
Record Symbols : Type := mkSymbols {
  global_pointer : Z;
  main_addr : Z;
  mtrapvec_addr : Z;
  strapvec_addr : Z
}.

Section boot.
Context {cfg : Config} {H U : Type} `{!CsrHw H} `{!UartHw U}.

(** [hw::timerinit]. *)
Definition timerinit (sym : Symbols) : M (Sys H U) unit :=
  let interval := 10000000 in
  set_mtimecmp interval ;;
  on_hart (write_mtvec (mtrapvec_addr sym)) ;;
  mstatus ← on_hart read_mstatus;
  let mstatus := Z.lor mstatus MSTATUS_MIE in
  on_hart (write_mstatus mstatus) ;;
  mie ← on_hart read_mie;
  let mie := Z.lor mie MIE_MTIE in
  on_hart (write_mie mie).

(** The source of [_start]; the stack and the scratch registers that compiled code uses
    are not part of it. *)
Definition _start (sym : Symbols) : M (Sys H U) unit :=
  let fn_main := main_addr sym in
  ms ← on_hart read_mstatus;
  let ms := Z.land ms (unot MSTATUS_MPP_MASK) in
  let ms := Z.lor ms MSTATUS_MPP_S in
  on_hart (write_mstatus ms) ;;
  on_hart (write_mepc fn_main) ;;
  on_hart (write_satp 0) ;;
  on_hart (write_medeleg 0xffff) ;;
  on_hart (write_mideleg 0xffff) ;;
  sie ← on_hart read_sie;
  let sie := Z.lor (Z.lor (Z.lor sie SIE_SEIE) SIE_STIE) SIE_SSIE in
  on_hart (write_sie sie) ;;
  on_hart (write_pmpaddr0 0x3fffffffffffff) ;;
  on_hart (write_pmpcfg0 0xf) ;;
  hartid ← on_hart read_mhartid;
  on_hart (write_tp hartid) ;;
  timerinit sym ;;
  on_hart call_mret.

(** From reset to the first instruction of [main]. *)
Definition _entry (L : Layout) (sym : Symbols) : M (Sys H U) unit :=
  exec (entry L (global_pointer sym)) ;; _start sym.

(** ** The virtual memory module *)

(** [OnceCell::set], with the panic of [init] when it is set already. *)
Definition set_pagepool (pp : PagePool) : M (Sys H U) unit := λ s,
  match PAGEPOOL (vm s) with
  | Some _ => Panic
  | None => Done ((), set_vm (mkVm (vm_mem (vm s)) (Some pp)) s)
  end.

Definition set_global (g : Galloc) : M (Sys H U) unit := λ s,
  match GLOBAL s with
  | Some _ => Panic
  | None => Done ((), mkSys (hart s) (vm s) (Some g) (clint s) (uart s))
  end.

(** [PageTable::write_satp]. *)
Definition PageTable_write_satp (self : PageTable) : M (Sys H U) unit :=
  on_hart (flush_tlb ;; write_satp (phy_to_satp (pt_base self)) ;; flush_tlb).

Definition vm_init (L : Layout) : M (Sys H U) (result unit PagePool) :=
  pp ← on_vm (on_mem (PagePool_new (bss_end L) (dram_end L)));
  set_pagepool pp ;;
  on_uart (log Debug ["Successfully initialized kernel page pool..."%string]) ;;
  g ← on_vm Galloc_new;
  set_global g ;;
  r ← kpage_init L;
  match r with
  | Ok pt => PageTable_write_satp pt ;; mret (Ok ())
  | Err _ => panic
  end.

(** [GlobalAlloc for GlobalWrapper]: [self.inner.get().unwrap()], then the call. *)
Definition with_global {A} (op : Galloc → M VmState A) : M (Sys H U) A := λ s,
  match GLOBAL s with None => Panic | Some g => on_vm (op g) s end.

Definition global_alloc (layout : MemLayout) : M (Sys H U) Z :=
  with_global (λ g, galloc_alloc g layout).
Definition global_dealloc (ptr : Z) (layout : MemLayout) : M (Sys H U) unit :=
  with_global (λ g, galloc_dealloc g ptr layout).
Definition global_alloc_zeroed (layout : MemLayout) : M (Sys H U) Z :=
  with_global (λ g, galloc_alloc_zeroed g layout).
Definition global_realloc (ptr : Z) (layout : MemLayout) (new_size : Z) : M (Sys H U) Z :=
  with_global (λ g, galloc_realloc g ptr layout new_size).

Definition test_palloc : M (Sys H U) unit :=
  r ← on_vm vm_palloc;
  one ← expect r;
  on_vm (on_mem (write (pg_addr one) 0xdeadbeaf)) ;;
  r ← on_vm (vm_palloc_plural 5);
  many ← expect r;
  on_vm (on_mem (fill many 0x0505050505050505 (512 * 2))) ;;
  _ ← on_vm (vm_pfree one);
  _ ← on_vm (vm_pfree_plural many 5);
  on_uart (log Debug ["Successful test of page allocation and freeing..."%string]).

End boot.
