(* ===== verification/AllocCrate.v ===== *)
(** * The [alloc] crate as the kernel's test uses it (src/vm.rs, [test_galloc])

    [Box] and [VecDeque<u32>] of the standard library, over the global allocator: which
    layouts they ask for, what they write into their blocks, and when they give them
    back. A [VecDeque] is four words, whose places in the struct the compiler chooses
    ([DequeFields]); its buffer is allocated by the first push, for four elements.
    Growing a buffer that is full and not empty, which the test never does, is left to
    the argument [regrow]. *)

From S2P Require Import Prelude Machine Param Mutex Palloc VmState Vmalloc Ptable Global Riscv Device Trap Boot.

(** The [n] bytes of [v] from [a] on, lowest first. *)
Fixpoint store (n : nat) (a v : Z) : M mem unit :=
  match n with
  | O => mret ()
  | S n' => write_byte a (Z.land v 0xFF) ;; store n' (byte_add a 1) (Z.shiftr v 8)
  end.

Fixpoint load (n : nat) (a : Z) : M mem Z :=
  match n with
  | O => mret 0
  | S n' => b ← read_byte a; r ← load n' (byte_add a 1); mret (Z.lor b (Z.shiftl r 8))
  end.

#[global] Arguments store : simpl never.
#[global] Arguments load : simpl never.

Definition layout_u32 : MemLayout := mkMemLayout 4 4.
Definition layout_deque : MemLayout := mkMemLayout 32 8.
Definition layout_buffer (cap : Z) : MemLayout := mkMemLayout (4 * cap) 4.
Definition layout_big : MemLayout := mkMemLayout (8 * 513) 8.

(** Offsets of the fields of [VecDeque]. *)
Record DequeFields : Type := mkDequeFields {
  off_cap : Z;
  off_ptr : Z;
  off_head : Z;
  off_len : Z
}.

(** Four words, in some order. *)
Definition fields_ok (F : DequeFields) : Prop :=
  [off_cap F; off_ptr F; off_head F; off_len F] ≡ₚ [0; 8; 16; 24].

Section alloc.
Context {cfg : Config} {H U : Type} `{!CsrHw H} `{!UartHw U}.
Context (F : DequeFields) (regrow : Z → M (Sys H U) unit).

Definition on_ram {A} (e : M mem A) : M (Sys H U) A := on_vm (on_mem e).

(** [exchange_malloc]: a null answer is an allocation error. *)
Definition exchange_malloc (layout : MemLayout) : M (Sys H U) Z :=
  p ← global_alloc layout;
  if p =? 0 then panic else mret p.

(** [Box::new] of a [u32]. *)
Definition Box_new_u32 (x : Z) : M (Sys H U) Z :=
  p ← exchange_malloc layout_u32;
  on_ram (store 4 p x) ;;
  mret p.

Definition drop_u32 (p : Z) : M (Sys H U) unit := global_dealloc p layout_u32.

(** ** [VecDeque<u32>] in a box *)

Definition get_field (f : DequeFields → Z) (d : Z) : M (Sys H U) Z := on_ram (read (d + f F)).
Definition set_field (f : DequeFields → Z) (d v : Z) : M (Sys H U) unit := on_ram (write (d + f F) v).

(** [Box::default]: no elements and no buffer, the pointer dangling. *)
Definition Box_default_deque : M (Sys H U) Z :=
  d ← exchange_malloc layout_deque;
  set_field off_cap d 0 ;;
  set_field off_ptr d 4 ;;
  set_field off_head d 0 ;;
  set_field off_len d 0 ;;
  mret d.

(** The index of element [i]. *)
Definition wrap_index (i cap : Z) : Z := if cap <=? i then i - cap else i.

(** [if self.is_full() { self.grow() }]. *)
Definition ensure_room (d : Z) : M (Sys H U) unit :=
  len ← get_field off_len d;
  cap ← get_field off_cap d;
  if len =? cap then
    if cap =? 0 then
      p ← exchange_malloc (layout_buffer 4);
      set_field off_ptr d p ;;
      set_field off_cap d 4
    else regrow d
  else mret ().

Definition push_back (d x : Z) : M (Sys H U) unit :=
  ensure_room d ;;
  cap ← get_field off_cap d;
  ptr ← get_field off_ptr d;
  head ← get_field off_head d;
  len ← get_field off_len d;
  on_ram (store 4 (ptr + 4 * wrap_index (head + len) cap) x) ;;
  set_field off_len d (len + 1).

Definition push_front (d x : Z) : M (Sys H U) unit :=
  ensure_room d ;;
  cap ← get_field off_cap d;
  ptr ← get_field off_ptr d;
  head ← get_field off_head d;
  len ← get_field off_len d;
  let head := wrap_index (head + cap - 1) cap in
  set_field off_head d head ;;
  set_field off_len d (len + 1) ;;
  on_ram (store 4 (ptr + 4 * head) x).

(** The buffer, then the box. *)
Definition drop_deque (d : Z) : M (Sys H U) unit :=
  cap ← get_field off_cap d;
  (if cap =? 0 then mret ()
   else
     ptr ← get_field off_ptr d;
     global_dealloc ptr (layout_buffer cap)) ;;
  global_dealloc d layout_deque.

(** ** The test *)

(** Locals are dropped in the reverse order of their declarations. *)
Definition test_galloc : M (Sys H U) unit :=
  one ← Box_new_u32 5;
  x ← on_ram (load 4 one);
  y ← on_ram (load 4 one);
  assert (x =? y) ;;
  one_vec ← Box_default_deque;
  push_back one_vec 555 ;;
  push_front one_vec 111 ;;
  drop_deque one_vec ;;
  drop_u32 one ;;
  big ← exchange_malloc layout_big;
  on_ram (fill big 0x8BADF00D 513) ;;
  global_dealloc big layout_big ;;
  on_uart (log Debug ["Successful test of alloc crate..."%string]).

End alloc.
