(* ===== verification/Main.v ===== *)
(** * The bootstrap function and the panic handler (src/main.rs)

    [main] as far as the empty loop that ends it, and what the panic handler prints
    before it loops. The formatted pieces of a panic message and the decimal line
    number are arguments. *)

From S2P Require Import Prelude Machine Param Mutex Palloc VmState Vmalloc Ptable Global Riscv Device Trap Boot.
From S2P Require Import AllocCrate.

(** [param::BANNER]. *)
Definition BANNER : string := "
Mellow Swirled,
                       __
   ________  ___  ____/ /___  _____
  / ___/ _ \/ _ \/ __  / __ \/ ___/
 / /  /  __/  __/ /_/ / /_/ (__  )
/_/   \___/\___/\__,_/\____/____/

"%string.

Section main.
Context {cfg : Config} {H U : Type} `{!CsrHw H} `{!UartHw U}.

(** [main] up to the loop that ends it. *)
Definition main (F : DequeFields) (regrow : Z → M (Sys H U) unit) (L : Layout) (sym : Symbols) : M (Sys H U) unit :=
  id ← on_hart read_tp;
  if id =? 0 then
    on_uart Uart_init ;;
    on_uart (println [BANNER]) ;;
    on_uart (log Info ["Bootstrapping on hart0..."%string]) ;;
    trap_init (strapvec_addr sym) ;;
    on_uart (log Info ["Finished trap init..."%string]) ;;
    _ ← vm_init L;
    on_uart (log Info ["Initialized the kernel page table..."%string]) ;;
    on_uart (log Debug ["Testing page allocation and freeing..."%string]) ;;
    test_palloc ;;
    on_uart (log Debug ["Testing galloc allocation and freeing..."%string]) ;;
    test_galloc F regrow
  else trap_init (strapvec_addr sym).

(** [PanicInfo]: the pieces of the message, the file and the line. *)
Record PanicInfo : Type := mkPanicInfo {
  message : option (list string);
  location : option (string * string)
}.

(** What the handler prints. *)
Definition panic_report (info : PanicInfo) : M U unit :=
  let msg := default ["No message provided"%string] (message info) in
  match location info with
  | None => println (["PANIC! "%string] ++ msg ++ [" at "%string; "No location provided"%string])
  | Some (file, line) => println (["PANIC! "%string] ++ msg ++ [" at "%string; file; ":"%string; line])
  end.

(** The handler never returns: [loop {}]. *)
Definition panic_handler (info : PanicInfo) : M (Sys H U) unit :=
  on_uart (panic_report info) ;; diverge.

End main.
