(* ===== verification/BootTheorems.v ===== *)
(** * The boot

    What a hart finds when [main] starts, what [vm::init] sets up, and the test of
    the page allocator that follows it. *)

From S2P Require Import Prelude Machine Param Mutex Palloc FreeList PallocFree PallocTheorems VmState.
From S2P Require Import Vmalloc Zone ZoneScan Heap KallocProofs KallocTheorems.
From S2P Require Import Host Ptable Sv39 PtProofs KpageProofs PtTheorems Global.
From S2P Require Import Riscv Device DeviceTheorems Trap TrapTheorems Boot.

(** ** Into supervisor mode *)

Section start.
Context {cfg : Config} {H U : Type} `{!CsrHw H} `{!CsrLaws H} `{!UartHw U}.
Implicit Type s : Sys H U.

Lemma wp_csr_write r v s (Q : unit → Sys H U → Prop) P :
  Q () (set_hart (set_csrs (csrw r v (csrs (hart s))) (hart s)) s) →
  wp (on_hart (csr_write r v)) s Q P.
Proof. intros HQ. apply wp_on_hart. by eapply wp_total. Qed.

Lemma wp_csr_read r s (Q : Z → Sys H U → Prop) P :
  Q (csrr r (csrs (hart s))) s → wp (on_hart (csr_read r)) s Q P.
Proof. intros HQ. apply wp_on_hart. eapply wp_total; [done|]. by destruct s. Qed.

(** Where the linker may put the functions. *)
Record symbols_ok (sym : Symbols) : Prop := {
  sy_main : main_addr sym mod 2 = 0 ∧ is_u64 (main_addr sym);
  sy_mtrapvec : mtrapvec_addr sym mod 4 = 0 ∧ is_u64 (mtrapvec_addr sym);
  sy_strapvec : strapvec_addr sym mod 4 = 0 ∧ is_u64 (strapvec_addr sym)
}.

(** The [mstatus] the code computes: the previous mode is supervisor. *)
Lemma mpp_supervisor ms : is_u64 ms →
  let v := Z.lor (Z.land ms (unot MSTATUS_MPP_MASK)) MSTATUS_MPP_S in
  Z.testbit v 11 = true ∧ Z.testbit v 12 = false.
Proof.
  intros Hms v. unfold v. rewrite !Z.lor_spec, !Z.land_spec.
  change (Z.testbit (unot MSTATUS_MPP_MASK) 12) with false. rewrite (andb_false_r (Z.testbit ms 12)).
  split; [apply orb_true_r | reflexivity].
Qed.

Lemma decode_mpp_supervisor ms :
  decode_mpp ms = Supervisor → Z.testbit ms 11 = true ∧ Z.testbit ms 12 = false.
Proof. unfold decode_mpp. by destruct (Z.testbit ms 12), (Z.testbit ms 11). Qed.

Ltac sys_simpl :=
  unfold set_hart, set_csrs; cbn [hart csrs gprs priv pc stale_tlb vm GLOBAL clint uart].

(** The next access to a control register. *)
Ltac csr_step := apply wp_bind; first [apply wp_csr_write | apply wp_csr_read]; sys_simpl.

(** Discharges a read of a register that was not written. *)
Ltac csr_skip := repeat rewrite csrw_other by reflexivity.

Lemma is_u64_lor a b : is_u64 a → is_u64 b → is_u64 (Z.lor a b).
Proof.
  intros [Ha Ha'] [Hb Hb']. split; [by apply Z.lor_nonneg|]. unfold u64_size in *.
  destruct (Z.eq_dec (Z.lor a b) 0) as [->|Hne]; [done|]. apply Z.log2_lt_pow2.
  - assert (0 ≤ Z.lor a b) by by apply Z.lor_nonneg. lia.
  - rewrite Z.log2_lor by done. apply Z.max_lub_lt; [destruct (Z.eq_dec a 0) as [->|] | destruct (Z.eq_dec b 0) as [->|]];
      try done; apply Z.log2_lt_pow2; lia.
Qed.

(** Or-ing in a bit leaves the others. *)
Lemma lor_mie_bits ms :
  Z.testbit (Z.lor ms MSTATUS_MIE) 3 = true ∧ Z.testbit (Z.lor ms MSTATUS_MIE) 11 = Z.testbit ms 11 ∧
  Z.testbit (Z.lor ms MSTATUS_MIE) 12 = Z.testbit ms 12.
Proof.
  rewrite !Z.lor_spec. change (Z.testbit MSTATUS_MIE 3) with true.
  change (Z.testbit MSTATUS_MIE 11) with false. change (Z.testbit MSTATUS_MIE 12) with false.
  rewrite orb_true_r, !orb_false_r. done.
Qed.

Definition timer_csrs : list csr := [mtvec; mstatus; sstatus; mie; sie].

(** What [timerinit] leaves in the control registers. *)
Record timer_set (sym : Symbols) (h h' : H) : Prop := {
  ts_mtvec : csrr mtvec h' = mtrapvec_addr sym;
  ts_mtie : Z.testbit (csrr mie h') 7 = true;
  ts_mpp : decode_mpp (csrr mstatus h) = Supervisor → decode_mpp (csrr mstatus h') = Supervisor;
  ts_other : ∀ r, r ∉ timer_csrs → csrr r h' = csrr r h
}.

Lemma wp_timerinit (sym : Symbols) s t id (Q : unit → Sys H U → Prop) P :
  symbols_ok sym → csrr mhartid (csrs (hart s)) = id → 0 ≤ id < 4095 →
  clint s !! MTIME = Some t → is_Some (clint s !! MTIMECMP id) → is_u64 (t + 10000000) →
  (∀ h, timer_set sym (csrs (hart s)) h →
    Q () (set_clint (<[MTIMECMP id := t + 10000000]> (clint s)) (set_hart (set_csrs h (hart s)) s))) →
  wp (timerinit sym) s Q P.
Proof.
  intros [_ [Ht4 Htv] _] Hid Hr Ht Hcmp Hu HQ. unfold timerinit. apply wp_bind.
  apply (wp_set_mtimecmp _ _ t id); try done.
  apply wp_bind, wp_csr_write, wp_bind, wp_csr_read, wp_bind, wp_csr_write, wp_bind, wp_csr_read, wp_csr_write.
  cbn [hart set_hart set_clint csrs set_csrs]. set (h0 := csrs (hart s)).
  set (h1 := csrw mtvec _ h0). set (h2 := csrw mstatus _ h1). set (h3 := csrw mie _ h2).
  specialize (HQ h3). destruct s as [[] ? ? ? ?]. apply HQ. clear HQ. split.
  - unfold h3, h2. csr_skip. by apply csrw_mtvec.
  - unfold h3. rewrite csrw_mtie by (apply is_u64_lor; [apply csrr_u64 | done]).
    rewrite Z.lor_spec. apply orb_true_r.
  - intros [E11 E12]%decode_mpp_supervisor. unfold h3. csr_skip. unfold h2.
    destruct (lor_mie_bits (csrr mstatus h1)) as (_ & B11 & B12).
    apply csrw_mpp; [rewrite B11 | rewrite B12]; unfold h1; csr_skip; done.
  - intros r Hr'. unfold timer_csrs in Hr'. rewrite !not_elem_of_cons in Hr'.
    unfold h3, h2, h1. rewrite !csrw_other; [done | ..]; destruct r; naive_solver.
Qed.

(** C20: from machine mode, with a timer that leaves room for an interval, [_start] ends
    in an [mret] that enters [main] in supervisor mode with paging off, the hart's
    number in the thread pointer, the trap vector set and the timer interrupt enabled
    and due ten million ticks later; memory and the scratch registers are untouched. *)
Theorem start_enters_main (sym : Symbols) s t id :
  symbols_ok sym → csrr mhartid (csrs (hart s)) = id → 0 ≤ id < 4095 →
  clint s !! MTIME = Some t → is_Some (clint s !! MTIMECMP id) → is_u64 (t + 10000000) →
  ∃ s', _start sym s = Done ((), s') ∧
    priv (hart s') = Supervisor ∧ pc (hart s') = main_addr sym ∧ xreg 4 (hart s') = id ∧
    csrr satp (csrs (hart s')) = 0 ∧ csrr mtvec (csrs (hart s')) = mtrapvec_addr sym ∧
    timer_enabled (hart s') = true ∧
    clint s' = <[MTIMECMP id := t + 10000000]> (clint s) ∧ vm s' = vm s ∧ GLOBAL s' = GLOBAL s ∧
    csrr mscratch (csrs (hart s')) = csrr mscratch (csrs (hart s)) ∧
    csrr sscratch (csrs (hart s')) = csrr sscratch (csrs (hart s)) ∧
    ∀ i, i ≠ 4%nat → xreg i (hart s') = xreg i (hart s).
Proof.
  intros Hsym Hid Hr Ht Hcmp Hu. pose proof Hsym as [[Hm2 Hm] [Ht4 Htv] _].
  enough (wp (_start sym) s (λ _ s',
    priv (hart s') = Supervisor ∧ pc (hart s') = main_addr sym ∧ xreg 4 (hart s') = id ∧
    csrr satp (csrs (hart s')) = 0 ∧ csrr mtvec (csrs (hart s')) = mtrapvec_addr sym ∧
    timer_enabled (hart s') = true ∧
    clint s' = <[MTIMECMP id := t + 10000000]> (clint s) ∧ vm s' = vm s ∧ GLOBAL s' = GLOBAL s ∧
    csrr mscratch (csrs (hart s')) = csrr mscratch (csrs (hart s)) ∧
    csrr sscratch (csrs (hart s')) = csrr sscratch (csrs (hart s)) ∧
    ∀ i, i ≠ 4%nat → xreg i (hart s') = xreg i (hart s)) False) as Hw.
  { apply wp_done in Hw as ([] & s' & E & Hs). by exists s'. }
  unfold _start. do 3 csr_step. apply wp_bind, wp_on_hart. eapply wp_total; [reflexivity|]. sys_simpl.
  do 7 csr_step. apply wp_bind, wp_on_hart. eapply wp_total; [reflexivity|]. sys_simpl.
  set (h1 := csrw pmpcfg0 _ _).
  assert (decode_mpp (csrr mstatus h1) = Supervisor) as E1.
  { unfold h1. csr_skip. destruct (mpp_supervisor (csrr mstatus (csrs (hart s)))) as [B1 B2]; [apply csrr_u64|].
    by apply csrw_mpp. }
  assert (csrr mepc h1 = main_addr sym) as E2 by (unfold h1; csr_skip; by apply csrw_mepc).
  assert (csrr satp h1 = 0) as E3 by (unfold h1; csr_skip; apply csrw_satp; [done | by left]).
  assert (csrr mhartid h1 = id) as E4 by (unfold h1; csr_skip; done).
  assert (csrr mscratch h1 = csrr mscratch (csrs (hart s))) as E5 by (unfold h1; by csr_skip).
  assert (csrr sscratch h1 = csrr sscratch (csrs (hart s))) as E6 by (unfold h1; by csr_skip).
  clearbody h1. rewrite E4. apply wp_bind.
  apply (wp_timerinit sym _ t id); [done | exact E4 | done | done | done | done |].
  intros h [T1 T2 T3 T4]. apply wp_on_hart. eapply wp_total; [reflexivity|].
  cbn [hart set_hart csrs set_csrs gprs priv pc clint set_clint vm GLOBAL] in *.
  change (csrs (set_xreg 4 id ?x)) with (csrs x) in *. cbn [csrs] in *.
  rewrite !mret_other by done.
  assert (∀ r, bool_decide (r ∉ timer_csrs) = true → csrr r h = csrr r h1) as T4'.
  { intros r Hr'. apply T4. by apply bool_decide_eq_true in Hr'. }
  rewrite (T4' satp), (T4' mepc), (T4' mscratch), (T4' sscratch) by reflexivity. split_and!; try done.
  - by apply T3.
  - change (xreg 4 (set_xreg 4 id (hart s)) = id). by rewrite xreg_set, decide_True by done.
  - unfold timer_enabled. cbn [csrs priv]. change (csrs (set_csrs h ?x)) with h.
    rewrite !mret_other by done. rewrite T2, mti_not_delegated, T3 by done. reflexivity.
  - intros i Hi. change (xreg i (set_xreg 4 id (hart s)) = xreg i (hart s)).
    by rewrite xreg_set, decide_False by (by intros [? _]).
Qed.

End start.

(** ** The stacks *)

Section stacks.
Context {H U : Type} `{!CsrHw H} `{!CsrLaws H}.
Implicit Type s : Sys H U.

Lemma kmap_in rs y f :
  (∃ r, r ∈ rs ∧ in_region r y = true) → (∀ r, r ∈ rs → in_region r y = true → r.2 = f) →
  kmap rs y = Some (y, with_valid f).
Proof.
  intros (r & Hr & Hy). induction rs as [|r' rs IH]; intros Hf; [by apply not_elem_of_nil in Hr|].
  simpl. destruct (in_region r' y) eqn:E; [rewrite (Hf r' ltac:(left) E); done|].
  apply elem_of_cons in Hr as [->|Hr]; [congruence|]. apply IH; [done|]. intros r'' Hin. apply Hf. by right.
Qed.

(** Case analysis on a region of the kernel. *)
Ltac each_region Hr :=
  rewrite elem_of_reverse in Hr; unfold kernel_regions in Hr;
  repeat (apply elem_of_cons in Hr as [->|Hr]); [..|by apply not_elem_of_nil in Hr].

(** The pages of the stacks are mapped for reading and writing. *)
Lemma stack_page_mapped L k y :
  layout_ok L → k ∈ [1; 2; 4; 5; 7; 9; 11; 13] →
  stacks_start L + PAGE_SIZE * k ≤ y < stacks_start L + PAGE_SIZE * (k + 1) →
  kmap (reverse (kernel_regions L)) y = Some (y, with_valid RW).
Proof.
  intros HL Hk Hy. destruct (layout_facts HL) as (Ht & Hrd & Hd & Hbs & Hb & Hde & ? & ? & ? & Es & Ei & Eb & ? & ? & ?).
  assert (∀ a b, page_aligned a → page_aligned b → a ≤ b → PAGE_SIZE * Z.of_nat (pages a b) = b - a) as Hpg
    by apply pages_eq.
  assert (page_aligned DRAM_BASE) as Hdram by done.
  apply kmap_in.
  - set_unfold in Hk. unfold PAGE_SIZE in Hy.
    assert (∃ j n, (stacks_start L + PAGE_SIZE * j, n, RW) ∈ kernel_regions L ∧ j ≤ k < j + Z.of_nat n) as (j & n & Hin & Hj).
    { unfold kernel_regions. assert (∀ a, intstacks_start L + PAGE_SIZE * a = stacks_start L + PAGE_SIZE * (a + 6)) as Hadd.
      { intros a. unfold PAGE_SIZE. lia. }
      rewrite !Hadd.
      destruct Hk as [->|[->|[->|[->|[->|[->|[->|[->|[]]]]]]]]];
        [exists 1, 2%nat | exists 1, 2%nat | exists 4, 2%nat | exists 4, 2%nat | exists (1 + 6), 1%nat
        | exists (3 + 6), 1%nat | exists (5 + 6), 1%nat | exists (7 + 6), 1%nat]; (split; [repeat (left || right) | lia]). }
    exists (stacks_start L + PAGE_SIZE * j, n, RW). split; [by rewrite elem_of_reverse|].
    unfold in_region, region_end, PAGE_SIZE. cbn [fst snd]. lia.
  - intros r Hr Hin. unfold in_region, region_end in Hin. set_unfold in Hk.
    each_region Hr; cbn [fst snd] in Hin |- *; try reflexivity; exfalso;
      rewrite ?Hpg in Hin by (done || unfold DRAM_BASE; lia);
      unfold UART_BASE, DRAM_BASE, PAGE_SIZE in *; lia.
Qed.

Lemma set_hart_hart h h' s : set_hart h (set_hart h' s) = set_hart h s.
Proof. done. Qed.

Ltac asm_step :=
  apply wp_exec_cons; cbn [exec1];
  repeat lazymatch goal with
         | |- wp (mbind _ _) _ _ _ => apply wp_bind
         | |- wp (get_x _) _ _ _ => apply wp_get_x
         | |- wp (set_x _ _) _ _ _ => apply wp_set_x
         | |- wp (on_hart (csr_read _)) _ _ _ => apply wp_csr_read
         | |- wp (on_hart (csr_write _ _)) _ _ _ => apply wp_csr_write
         end;
  rewrite ?set_hart_hart; cbn [hart set_hart];
  repeat first [ rewrite csrs_set_xreg | rewrite xreg_csrs | rewrite xreg_set_eq by done
               | rewrite xreg_set_ne by done ].

(** The stack pointer and the two scratch registers of hart [id]. *)
Lemma wp_entry L g s id (Q : unit → Sys H U → Prop) P :
  csrr mhartid (csrs (hart s)) = id → 0 ≤ id < NHART →
  20480 ≤ stacks_end L → 36864 ≤ intstacks_end L → intstacks_end L < u64_size → stacks_end L < u64_size →
  (∀ h, xreg sp h = stacks_end L - 0x3000 * id →
    csrr mscratch (csrs h) = intstacks_end L - 0x4000 * id →
    csrr sscratch (csrs h) = intstacks_end L - 0x4000 * id - 0x2000 → Q () (set_hart h s)) →
  wp (exec (entry L g)) s Q P.
Proof.
  intros Hid Hr H1 H2 H3 H4 HQ. unfold entry. unfold NHART in Hr.
  do 6 asm_step. rewrite Hid, (wrap_small (id * 12288)), wrap_small by u64_range.
  do 5 asm_step. rewrite Hid, (wrap_small (id * 16384)), (wrap_small (intstacks_end L - _)) by u64_range.
  do 4 asm_step. rewrite (wrap_small (_ - 8192)) by u64_range. apply wp_ret.
  set (h := set_csrs _ _). specialize (HQ h). destruct s as [[c x p q b] ? ? ? ?]. apply HQ; clear HQ; unfold h.
  - repeat first [ rewrite xreg_csrs | rewrite xreg_set_eq by done | rewrite xreg_set_ne by done ]. lia.
  - cbn [csrs set_csrs]. rewrite csrw_other, ?csrs_set_xreg by reflexivity. cbn [csrs set_csrs].
    rewrite csrw_mscratch by u64_range. lia.
  - cbn [csrs set_csrs]. rewrite csrw_sscratch by u64_range. lia.
Qed.

(** [n] pages below [top] that the translation [tr] maps to themselves for reading and
    writing, and a guard page below them. *)
Definition guarded (tr : Z → option (Z * Z)) (top n : Z) : Prop :=
  (∀ y, top - PAGE_SIZE * n ≤ y < top → tr y = Some (y, with_valid RW)) ∧
  (∀ y, top - PAGE_SIZE * (n + 1) ≤ y < top - PAGE_SIZE * n → tr y = None).

Lemma guarded_pages L k n :
  layout_ok L → (k, n) ∈ [(3, 2); (6, 2); (8, 1); (10, 1); (12, 1); (14, 1)] →
  guarded (kmap (reverse (kernel_regions L))) (stacks_start L + PAGE_SIZE * k) n.
Proof.
  intros HL Hkn. destruct (layout_facts HL) as (_ & _ & _ & _ & _ & _ & _ & _ & _ & Es & Ei & _).
  split; intros y Hy; unfold PAGE_SIZE in Hy.
  - pose proof (stack_page_mapped L ((y - stacks_start L) / 4096) y HL) as Hm. unfold PAGE_SIZE in Hm.
    apply Hm; [|zdm]. set_unfold in Hkn. set_unfold.
    destruct Hkn as [[= -> ->]|[[= -> ->]|[[= -> ->]|[[= -> ->]|[[= -> ->]|[[= -> ->]|[]]]]]]]; zdm.
  - apply (kmap_guard L (stacks_start L + 4096 * (k - n - 1))); [done | | unfold PAGE_SIZE; lia].
    unfold guard_pages. set_unfold in Hkn. set_unfold. unfold PAGE_SIZE.
    destruct Hkn as [[= -> ->]|[[= -> ->]|[[= -> ->]|[[= -> ->]|[[= -> ->]|[[= -> ->]|[]]]]]]]; lia.
Qed.

(** The same for a translation that agrees with the map of the kernel. *)
Lemma guarded_ext (tr tr' : Z → option (Z * Z)) top n :
  (∀ y, 0 ≤ y < VA_TOP → tr' y = tr y) → PAGE_SIZE * (n + 1) ≤ top ≤ VA_TOP → 0 ≤ n →
  guarded tr top n → guarded tr' top n.
Proof.
  unfold guarded, PAGE_SIZE. intros E Hb Hn [H1 H2]. split; intros y Hy; rewrite E by lia; auto.
Qed.

(** What the entry code gives hart [id]: the top of its stack and of its interrupt stacks. *)
Lemma entry_stacks L g s id :
  layout_ok L → csrr mhartid (csrs (hart s)) = id → 0 ≤ id < NHART →
  ∃ s' k1 k2 k3, exec (entry L g) s = Done ((), s') ∧
    xreg sp (hart s') = stacks_start L + PAGE_SIZE * k1 ∧
    csrr mscratch (csrs (hart s')) = stacks_start L + PAGE_SIZE * k2 ∧
    csrr sscratch (csrs (hart s')) = stacks_start L + PAGE_SIZE * k3 ∧
    (k1, k2, k3) ∈ [(6, 14, 12); (3, 10, 8)].
Proof.
  intros HL Hid Hr. destruct (layout_facts HL) as (_ & _ & _ & _ & _ & _ & ? & ? & ? & Es & Ei & Eb & ? & ? & ?).
  assert (stacks_end L = stacks_start L + 24576 ∧ intstacks_end L = stacks_start L + 57344) as [Ese Eie].
  { destruct HL as []. unfold PAGE_SIZE, NHART in *. lia. }
  assert (wp (exec (entry L g)) s (λ _ s', xreg sp (hart s') = stacks_end L - 0x3000 * id ∧
    csrr mscratch (csrs (hart s')) = intstacks_end L - 0x4000 * id ∧
    csrr sscratch (csrs (hart s')) = intstacks_end L - 0x4000 * id - 0x2000) False) as Hw.
  { apply (wp_entry L g s id); try done; rewrite ?u64_size_eq; lia || auto. }
  apply wp_done in Hw as ([] & s' & E & E1 & E2 & E3). unfold NHART, PAGE_SIZE in *.
  assert (id = 0 ∨ id = 1) as [->| ->] by lia.
  - exists s', 6, 14, 12. split_and!; [done | lia | lia | lia | left].
  - exists s', 3, 10, 8. split_and!; [done | lia | lia | lia | right; left].
Qed.

(** C21: in the table that [kpage_init] builds, the stacks that the entry code gives each
    hart are mapped for reading and writing, two pages below its stack pointer and one
    below each of the two scratch registers, and the page below each of them is not
    mapped. The two run independently: the entry code on any hart, from any state, and
    [kpage_init] on a layout of the linker script (under overflow checks one without
    empty sections) with 68 free pages. *)
Theorem boot_stacks_guarded `{!UartHw U} {cfg : Config} L g s id s0 m pp root fl :
  layout_ok L → (overflow_checks = true → sections_full L) →
  csrr mhartid (csrs (hart s)) = id → 0 ≤ id < NHART →
  vm s0 = mkVm m (Some pp) → pagepool_rep m pp (root :: fl) → (67 ≤ length fl)%nat → 32768 < Z.of_nat fuel →
  ∃ s' s1, exec (entry L g) s = Done ((), s') ∧ kpage_init L s0 = Done (Ok (mkPageTable root), s1) ∧
    guarded (sv39 (mem_of s1) root) (xreg sp (hart s')) 2 ∧
    guarded (sv39 (mem_of s1) root) (csrr mscratch (csrs (hart s'))) 1 ∧
    guarded (sv39 (mem_of s1) root) (csrr sscratch (csrs (hart s'))) 1.
Proof.
  intros HL Hfull Hid Hr Hvm Hrep Hlen Hf.
  destruct (entry_stacks L g s id HL Hid Hr) as (s' & k1 & k2 & k3 & E & E1 & E2 & E3 & Hk).
  assert (wp (kpage_init L) s0 (λ r s1, r = Ok (mkPageTable root) ∧
    ∀ y, 0 ≤ y < VA_TOP → sv39 (mem_of s1) root y = kmap (reverse (kernel_regions L)) y) False) as Hw.
  { eapply (wp_kpage_init pagepool_rep 0); [lia | exact Hvm | done | exact Hrep | lia | done
      | by intros Hoc Hne; destruct (Hne (Hfull Hoc)) |].
    intros s1 m' pp' own fl' _ Ev _ Hsv _ _ _ _ _. split; [done|]. unfold mem_of.
    change (vm s1) with (host_vm s1). by rewrite Ev. }
  apply wp_done in Hw as (r & s1 & Ek & -> & Hsv). exists s', s1. rewrite E1, E2, E3.
  destruct (layout_facts HL) as (_ & _ & _ & _ & _ & _ & ? & ? & ? & Es & _ & Eb & ? & ? & ?).
  assert (∀ k n, (k, n) ∈ [(3, 2); (6, 2); (8, 1); (10, 1); (12, 1); (14, 1)] →
    guarded (sv39 (mem_of s1) root) (stacks_start L + PAGE_SIZE * k) n) as Hg.
  { intros k n Hkn. eapply guarded_ext; [exact Hsv | | | by apply guarded_pages]; set_unfold in Hkn;
      change VA_TOP with 549755813888; unfold PAGE_SIZE;
      destruct Hkn as [[= -> ->]|[[= -> ->]|[[= -> ->]|[[= -> ->]|[[= -> ->]|[[= -> ->]|[]]]]]]]; lia. }
  set_unfold in Hk. destruct Hk as [[= -> -> ->]|[[= -> -> ->]|[]]];
    (split_and!; [done | done | ..]; apply Hg; repeat (left || right)).
Qed.

End stacks.
