(* ===== verification/VmInit.v ===== *)
(** * [vm::init] and the test of the page allocator (src/vm.rs)

    The pool, the heap and the page table one after the other, from a machine whose
    memory module is not set up; then [test_palloc] on what is left of the pool. *)

From S2P Require Import Prelude Machine Param Mutex Palloc FreeList PallocFree PallocTheorems VmState.
From S2P Require Import Vmalloc Zone ZoneScan Heap KallocProofs KallocTheorems.
From S2P Require Import Host Ptable Sv39 PtProofs KpageProofs PtTheorems Global.
From S2P Require Import Riscv Device DeviceTheorems Trap TrapTheorems Boot.

(** A suffix of a run of pages is a run of pages. *)
Lemma suffix_run l b n :
  l `suffix_of` run b n → ∃ k, (k ≤ n)%nat ∧ l = run (b + PAGE_SIZE * Z.of_nat k) (n - k).
Proof.
  intros [l' E]. exists (length l').
  assert (length l' + length l = n)%nat as Hlen.
  { rewrite <- length_app, <- E. apply length_run. }
  split; [lia|]. rewrite <- Hlen, run_app in E. apply app_inj_1 in E as [_ E]; [|apply length_run].
  rewrite <- E. f_equal. lia.
Qed.

Lemma run_disjoint b n p : p < b → p ∉ run b n.
Proof. intros Hp (i & Hi & ->)%elem_of_run. unfold PAGE_SIZE in *. lia. Qed.

Section galloc.
Context {cfg : Config}.

(** [Galloc::new] turns the lowest free page into an empty heap. *)
Lemma wp_Galloc_new m pp p l (Q : _ → VmState → Prop) P :
  pagepool_rep m pp (p :: l) → (2 < fuel)%nat →
  (∀ m' pp', pagepool_rep m' pp' l → zone_rep m' p 0 [(MAX_CHUNK_SIZE, false)] → p ∉ l →
    same_outside (p :: l) m m' → keeps m m' → Q (mkGalloc (heap_at p)) (mkVm m' (Some pp'))) →
  wp Galloc_new (mkVm m (Some pp)) Q P.
Proof.
  intros Hrep Hf HQ. unfold Galloc_new. apply wp_bind, wp_with_pool.
  destruct (pas_page _ _ _ p Hrep) as ([Hal _] & H0 & Hu & _); [left|].
  pose proof (pas_nodup _ _ _ Hrep) as [Hn _]%NoDup_cons.
  eapply wp_mono; [by eapply pas_palloc | | done].
  intros [r pp1] m1 (Hr & Hrep1 & _ & Hz & Hs & Hk). simpl in Hr. subst r. cbn [fst snd].
  apply wp_bind, wp_ret, wp_bind, wp_on_mem. cbn [vm_mem].
  assert (∀ x, x = p ∨ x = p + 8 → page_of x = p) as Hpg.
  { intros x Hx. apply page_of_unique; [done | unfold PAGE_SIZE; lia]. }
  apply wp_Kalloc_new; [done | done | done | intros a Ha H8; by rewrite Hz |].
  intros m2 Hzone Hk2 Hx. apply wp_ret, HQ; [| done | done | |].
  - eapply pas_frame; [exact Hrep1 | | done]. intros a Ha.
    apply Hx; intros ->; rewrite Hpg in Ha by auto; done.
  - intros a Ha. apply not_elem_of_cons in Ha as [Hne Ha]. rewrite Hx; [apply Hs; by apply not_elem_of_cons| |];
      intros ->; apply Hne, Hpg; auto.
  - by eapply keeps_trans.
Qed.

End galloc.

Ltac vm_simpl :=
  unfold set_vm, set_mem, set_uart;
  cbn [hart vm GLOBAL clint uart vm_mem PAGEPOOL fst snd pg_addr].

Section init.
Context {cfg : Config} {H U : Type} `{!CsrHw H} `{!CsrLaws H} `{!UartHw U}.
Implicit Type s : Sys H U.

(** What [vm::init] leaves: the root table [root] in [satp] and nothing stale in the
    TLB, the kernel's map, a heap with the chunks [cs] in the first page, and the other
    pages but the [k] lowest free. *)
Record vm_ready (L : Layout) s s' (n k : nat) (cs : list chunk) : Prop := {
  vr_satp : csrr satp (csrs (hart s')) = phy_to_satp (bss_end L + PAGE_SIZE);
  vr_tlb : stale_tlb (hart s') = false;
  vr_hart : priv (hart s') = priv (hart s) ∧ pc (hart s') = pc (hart s) ∧ gprs (hart s') = gprs (hart s);
  vr_map : ∀ y, 0 ≤ y < VA_TOP →
    sv39 (mem_of s') (bss_end L + PAGE_SIZE) y = kmap (reverse (kernel_regions L)) y;
  vr_heap : GLOBAL s' = Some (mkGalloc (heap_at (bss_end L)));
  vr_zone : zone_rep (mem_of s') (bss_end L) 0 cs;
  vr_pool : ∃ pp own, PAGEPOOL (vm s') = Some pp ∧
    pt_state pagepool_rep (mem_of s') pp (bss_end L + PAGE_SIZE) own
      (run (bss_end L + PAGE_SIZE * Z.of_nat k) (n - k)) ∧ own !! bss_end L = None;
  vr_used : (2 ≤ k ≤ 69)%nat;
  vr_frame : ∀ a, a < bss_end L ∨ dram_end L ≤ a → mem_of s' !! a = mem_of s !! a
}.

Lemma wp_write_satp p s (Q : unit → Sys H U → Prop) P :
  0 ≤ p < 2 ^ 56 →
  (∀ h, csrr satp (csrs h) = phy_to_satp p → stale_tlb h = false → priv h = priv (hart s) →
    pc h = pc (hart s) → gprs h = gprs (hart s) →
    (∀ r, r ≠ satp → csrr r (csrs h) = csrr r (csrs (hart s))) → Q () (set_hart h s)) →
  wp (PageTable_write_satp (mkPageTable p)) s Q P.
Proof.
  intros Hp HQ. apply wp_on_hart. eapply wp_total; [reflexivity|]. apply HQ; try done; cbn [csrs pt_base].
  2: { intros r Hr. apply csrw_other. simpl. by rewrite bool_decide_false. }
  destruct (satp_bits p Hp) as (E1 & E2 & E3). apply csrw_satp; [done|]. right. split; [done|].
  rewrite E2. change (2 ^ 56) with 72057594037927936 in Hp. change (2 ^ 44) with 17592186044416.
  unfold PAGE_SIZE. zdm.
Qed.

Lemma page_of_run_in a b n :
  page_aligned b → page_of a ∈ run b n → b ≤ a < b + PAGE_SIZE * Z.of_nat n.
Proof.
  intros Hb (i & Hi & E)%elem_of_run. pose proof (page_of_bounds a). unfold PAGE_SIZE in *. lia.
Qed.

Lemma wp_vm_init L s n (Q : _ → Sys H U → Prop) P :
  layout_ok L → (overflow_checks = true → sections_full L) → dram_end L = bss_end L + PAGE_SIZE * Z.of_nat n → (69 ≤ n)%nat →
  (∀ a, bss_end L ≤ a < dram_end L → a mod 8 = 0 → is_Some (mem_of s !! a)) →
  PAGEPOOL (vm s) = None → GLOBAL s = None → 32768 < Z.of_nat fuel →
  (∀ s' k, vm_ready L s s' n k [(MAX_CHUNK_SIZE, false)] → (∀ r, r ≠ satp → csrr r (csrs (hart s')) = csrr r (csrs (hart s))) →
    Q (Ok ()) s') →
  wp (vm_init L) s Q P.
Proof.
  intros HL Hfull En Hn Hram Hpp Hg Hf HQ. set (b := bss_end L) in *.
  destruct (layout_facts HL) as (_ & _ & _ & _ & Hal & _ & ? & ? & ? & _ & _ & Eb & Hbb & Hbd & Hd). fold b in Hal, Hbb, Hbd.
  assert (4096 * Z.of_nat n = dram_end L - b) as Hn' by (unfold PAGE_SIZE in En; lia).
  unfold vm_init. apply wp_bind, wp_on_vm, wp_on_mem. rewrite En.
  apply wp_PagePool_new; [done | lia | rewrite u64_size_eq; lia | lia | by rewrite <- En |].
  intros m1 pp1 Hrep1 Hs1. apply wp_bind. eapply wp_total; [unfold set_pagepool; cbn; by rewrite Hpp|].
  apply wp_bind. eapply wp_zoom, wp_total; [by apply print_sent; lia|].
  generalize (sent (concat (bytes <$> (prefix Debug :: ["Successfully initialized kernel page pool..."%string] ++ [crlf])))).
  intros out. cbn.
  destruct n as [|[|n]]; [lia | lia |]. cbn [run] in Hrep1. set (root := b + PAGE_SIZE) in *.
  apply wp_bind, wp_on_vm. cbn.
  eapply wp_Galloc_new; [exact Hrep1 | lia |]. intros m2 pp2 Hrep2 Hz2 Hnb Hs2 Hk2.
  apply wp_bind. eapply wp_total; [unfold set_global; cbn; by rewrite Hg|].
  apply wp_bind. set (fl := run _ n) in *.
  assert (length fl = n) as Hfl by apply length_run.
  eapply (wp_kpage_init pagepool_rep (n - 67)); [lia | reflexivity | done | exact Hrep2 | lia | done
    | by intros Hoc Hne; destruct (Hne (Hfull Hoc)) |].
  intros s3 m3 pp3 own fl' _ Ev (Eh & Eg & Ec) Hsv Hs3 Hst Hsuf Hown Hsp.
  destruct s3 as [h3 v3 g3 c3 u3]. cbn in Ev, Eh, Eg, Ec. subst v3 h3 g3 c3. cbn. apply wp_bind. unfold root.
  apply wp_write_satp; [change (2 ^ 56) with 72057594037927936; unfold PAGE_SIZE; lia|].
  intros h E1 E2 E3 E4 E5 E6. apply wp_ret.
  change (root :: fl) with (run root (S n)) in Hsuf.
  apply suffix_run in Hsuf as (k & Hk & ->). rewrite length_run in Hsp.
  assert (k ≠ 0)%nat as Hk0.
  { intros ->. assert (own !! root = None); [|by rewrite (pt_root _ _ _ (ps_pt _ _ _ _ _ _ Hst)) in *].
    apply (ps_disj _ _ _ _ _ _ Hst). replace (root + _) with root by (unfold PAGE_SIZE; lia). left. }
  assert (same_outside (run b (S (S n))) (mem_of s) m3) as Hs.
  { eapply same_outside_trans; [exact Hs1|]. eapply same_outside_trans; [exact Hs2|].
    eapply same_outside_mono; [|exact Hs3]. intros u Hu. by right. }
  cbn in E3, E4, E5, E6. apply (HQ _ (S k)); [|exact E6]. unfold mem_of. split; cbn; try done.
  - eapply zone_rep_frame; [|exact Hz2]. intros x Hx. apply Hs3. by rewrite Hx.
  - exists pp3, own. split; [done|]. fold b. fold root.
    replace (b + PAGE_SIZE * Z.of_nat (S k)) with (root + PAGE_SIZE * Z.of_nat k)
      by (unfold root, PAGE_SIZE; lia).
    split; [exact Hst|]. destruct (own !! b) eqn:E; [|done]. destruct Hnb. apply Hown. by rewrite E.
  - lia.
  - intros a Ha. apply Hs. intros Hin%page_of_run_in; [|done]. unfold PAGE_SIZE in Hin. fold b in Ha. lia.
Qed.

(** C3: for every layout of the linker script, under overflow checks one without empty
    sections, with at least 69 pages of RAM behind the kernel, [vm::init] on a machine
    whose memory module is not set up returns [Ok]: the page table register selects a table that maps the kernel to itself, with a clean
    TLB, the global allocator is an empty heap in the first page, and at most 69 pages
    have left the pool; nothing below the end of the kernel is written. *)
Theorem vm_init_ready L s n :
  layout_ok L → (overflow_checks = true → sections_full L) → dram_end L = bss_end L + PAGE_SIZE * Z.of_nat n → (69 ≤ n)%nat →
  (∀ a, bss_end L ≤ a < dram_end L → a mod 8 = 0 → is_Some (mem_of s !! a)) →
  PAGEPOOL (vm s) = None → GLOBAL s = None → 32768 < Z.of_nat fuel →
  ∃ s' k, vm_init L s = Done (Ok (), s') ∧ vm_ready L s s' n k [(MAX_CHUNK_SIZE, false)] ∧
    ∀ r, r ≠ satp → csrr r (csrs (hart s')) = csrr r (csrs (hart s)).
Proof.
  intros HL Hfull En Hn Hram Hpp Hg Hf.
  enough (wp (vm_init L) s (λ r s', r = Ok () ∧ ∃ k, vm_ready L s s' n k [(MAX_CHUNK_SIZE, false)] ∧
    ∀ r, r ≠ satp → csrr r (csrs (hart s')) = csrr r (csrs (hart s))) False) as Hw.
  { apply wp_done in Hw as (r & s' & E & -> & k & Hk). by exists s', k. }
  eapply wp_vm_init; eauto.
Qed.

(** A second [vm::init] panics. *)
Theorem vm_init_twice_panics L s pp n :
  layout_ok L → dram_end L = bss_end L + PAGE_SIZE * Z.of_nat n → (2 ≤ n)%nat →
  (∀ a, bss_end L ≤ a < dram_end L → a mod 8 = 0 → is_Some (mem_of s !! a)) →
  PAGEPOOL (vm s) = Some pp → 32768 < Z.of_nat fuel → vm_init L s = Panic.
Proof.
  intros HL En Hn Hram Hpp Hf. apply wp_panics.
  destruct (layout_facts HL) as (_ & _ & _ & _ & Hal & _ & ? & ? & ? & _ & _ & Eb & Hbb & Hbd & Hd).
  assert (4096 * Z.of_nat n = dram_end L - bss_end L) as Hn' by (unfold PAGE_SIZE in En; lia).
  unfold vm_init. apply wp_bind, wp_on_vm, wp_on_mem. rewrite En.
  apply wp_PagePool_new; [done | lia | rewrite u64_size_eq; lia | lia | by rewrite <- En |].
  intros m1 pp1 _ _. apply wp_bind. Transparent wp. unfold wp, set_pagepool. cbn. by rewrite Hpp.
Qed.
#[global] Opaque wp.

(** ** The test of the page allocator *)

Lemma run_split p j :
  run p (7 + j) = p :: run (p + PAGE_SIZE) 5 ++ run (p + PAGE_SIZE * 6) (S j).
Proof.
  change (7 + j)%nat with (S (5 + S j)). change (run p (S ?k)) with (p :: run (p + PAGE_SIZE) k).
  f_equal. rewrite run_app. f_equal. f_equal. unfold PAGE_SIZE. lia.
Qed.

(** Writing to pages that are not free leaves the pool as it is. *)
Lemma pool_untouched m m' pp l ps :
  pagepool_rep m pp l → same_outside ps m m' → keeps m m' → (∀ q, q ∈ ps → q ∉ l) → pagepool_rep m' pp l.
Proof.
  intros Hrep Hs Hk Hd. eapply pas_frame; [exact Hrep | | done]. intros a Ha. apply Hs. intros Hin.
  by apply (Hd _ Hin).
Qed.

(** Filling words of two pages of RAM. *)
Lemma wp_fill_pages a v k m (Q : unit → mem → Prop) P :
  Z.of_nat k ≤ 1024 →
  page_aligned a → 0 ≤ a → a + PAGE_SIZE * 2 < u64_size → page_mapped m a → page_mapped m (a + PAGE_SIZE) →
  (∀ m', same_outside (run a 2) m m' → keeps m m' → Q () m') →
  wp (fill a v k) m Q P.
Proof.
  intros Hk Hal H0 Hu Hm1 Hm2 HQ. pose proof (page_aligned_8 _ Hal). unfold PAGE_SIZE in *.
  assert (∀ x, in_words a (Z.of_nat k) x = true → a ≤ x < a + 8192 ∧ x mod 8 = 0) as Hw.
  { intros x Hx%in_words_spec. split; lia. }
  apply wp_fill; [done | done | lia | |].
  - intros x (Hx & H8)%Hw. destruct (Z.lt_ge_cases x (a + 4096)); [apply Hm1 | apply Hm2]; try done;
      unfold PAGE_SIZE; lia.
  - intros m' Hm'. apply HQ.
    + intros x Hx. rewrite Hm'. destruct (in_words _ _ x) eqn:E; [|done]. exfalso. apply Hx.
      apply Hw in E as [E _]. apply elem_of_run. unfold page_of, page_aligned, PAGE_SIZE in *.
      exists ((x - a) / 4096). zdm.
    + intros x H8 Hx. rewrite Hm'. by destruct (in_words _ _ x).
Qed.

(** The pages of the test: [p], the five behind it, and the rest [l2] of the pool. *)
Section test.
Context (p : Z) (j : nat).
Let q := p + PAGE_SIZE.
Let l2 := run (p + PAGE_SIZE * 6) (S j).

Lemma test_five x : x ∈ run q 5 → p < x ∧ x < p + PAGE_SIZE * 6.
Proof using Type. intros (i & Hi & ->)%elem_of_run. unfold q, PAGE_SIZE. lia. Qed.

Lemma test_rest x : x ∈ l2 → p + PAGE_SIZE * 5 < x.
Proof using Type. intros (i & Hi & ->)%elem_of_run. unfold PAGE_SIZE. lia. Qed.

(** Seven pages from [p] on lie in the pool. *)
Lemma test_in_pool m pp i :
  pagepool_rep m pp (p :: run q 5 ++ l2) → 0 ≤ i ≤ 6 → in_pool pp (p + PAGE_SIZE * i).
Proof using Type.
  intros [_ HP] Hi. assert (p + PAGE_SIZE * i ∈ run p (7 + j)) as Hx.
  { apply elem_of_run. exists i. split; [lia | done]. }
  rewrite run_split in Hx. apply (pr_pages _ _ _ HP _ Hx).
Qed.

(** The first half: the allocations and the writes. *)
Lemma wp_test_take (h : Hart H) g c u m pp (K : Page → Z → M (Sys H U) unit) (Q : unit → Sys H U → Prop) P :
  pagepool_rep m pp (p :: run q 5 ++ l2) → (8 < fuel)%nat →
  (∀ m' pp', pagepool_rep m' pp' l2 → same_outside (p :: run q 5 ++ l2) m m' → same_bounds pp pp' →
    wp (K (mkPage p) q) (mkSys h (mkVm m' (Some pp')) g c u) Q P) →
  wp (r ← on_vm vm_palloc; one ← expect r;
      on_vm (on_mem (write (pg_addr one) 0xdeadbeaf)) ;;
      r ← on_vm (vm_palloc_plural 5); many ← expect r;
      on_vm (on_mem (fill many 0x0505050505050505 (512 * 2))) ;; K one many)
    (mkSys h (mkVm m (Some pp)) g c u) Q P.
Proof using Type.
  intros Hrep Hf HQ. pose proof Hrep as [_ HP]. destruct (pr_pages _ _ _ HP p) as [Hal Hlo]; [left|].
  assert (page_aligned q) as Hqal by (apply (page_aligned_add p 1), Hal).
  destruct (pr_top _ _ _ HP) as [_ Htu]. destruct (pr_bottom _ _ _ HP) as [_ Hb0].
  apply wp_bind, wp_on_vm, wp_with_pool.
  eapply wp_palloc; [exact Hrep | lia |]. intros m1 pp1 (Hrep1 & Hz1 & Hs1 & Hk1) [Bb1 Bt1]. vm_simpl.
  apply wp_bind, wp_ret, wp_bind, wp_on_vm, wp_on_mem. vm_simpl.
  apply wp_write; [by apply page_aligned_8 | rewrite Hz1; [done | left | unfold PAGE_SIZE; lia | by apply page_aligned_8] |].
  set (m2 := <[p := _]> m1). assert (pagepool_rep m2 pp1 (run q 5 ++ l2)) as Hrep2.
  { eapply (pool_untouched m1 m2 pp1 _ [p]); [exact Hrep1 | | apply keeps_insert |].
    - apply same_outside_insert. rewrite page_of_id by done. left.
    - intros x ->%list_elem_of_singleton [Hx%test_five|Hx%test_rest]%elem_of_app; unfold PAGE_SIZE in *; lia. }
  apply wp_bind, wp_on_vm, wp_with_pool. vm_simpl.
  eapply (wp_palloc_plural m2 pp1 q 4 l2); [exact Hrep2 | right | lia |].
  { unfold l2, q. cbn [run head]. f_equal. unfold PAGE_SIZE. lia. }
  intros m3 pp2 (Hrep3 & Hz3 & Hs3 & Hk3) [Bb2 Bt2]. vm_simpl.
  apply wp_bind, wp_ret, wp_bind, wp_on_vm, wp_on_mem. vm_simpl.
  assert (∀ x, x ∈ run q 5 → page_mapped m3 x) as Hm3 by (intros x Hx a Ha H8; by rewrite (Hz3 x Hx)).
  apply wp_fill_pages; [done | done | unfold q, PAGE_SIZE; lia | | apply Hm3; left | apply Hm3; right; left |].
  { destruct (test_in_pool m pp 6 Hrep ltac:(lia)) as (_ & _ & ?). unfold q, PAGE_SIZE in *. lia. }
  intros m4 Hs4 Hk4. apply HQ; [| |split; congruence].
  - eapply (pool_untouched m3 m4 pp2 _ (run q 2)); [exact Hrep3 | done | done |].
    intros x (i & Hi & ->)%elem_of_run Hx%test_rest. unfold q, PAGE_SIZE in *. lia.
  - assert (same_outside [p] m1 m2) as Hs2 by (apply same_outside_insert; rewrite page_of_id by done; left).
    intros a Ha. rewrite (Hs4 a), (Hs3 a), (Hs2 a), (Hs1 a); [done | ..]; intros Hx; apply Ha; revert Hx;
      unfold l2; cbn [run take app]; rewrite ?elem_of_cons, ?elem_of_nil; intuition.
Qed.

Lemma wp_test_palloc s pp (Q : unit → Sys H U → Prop) P :
  PAGEPOOL (vm s) = Some pp → pagepool_rep (mem_of s) pp (run p (7 + j)) → (8 < fuel)%nat →
  (∀ m' pp' u, pagepool_rep m' pp' (run p (7 + j)) → same_outside (run p (7 + j)) (mem_of s) m' →
    Q () (set_uart u (set_vm (mkVm m' (Some pp')) s))) →
  wp test_palloc s Q P.
Proof using Type.
  intros Epp Hrep Hf HQ. destruct s as [h [m p0] g c u]. cbn in Epp. subst p0. unfold mem_of, set_vm, set_uart in *.
  cbn [hart vm GLOBAL clint uart vm_mem] in Hrep, HQ. rewrite run_split in Hrep, HQ. fold q l2 in Hrep, HQ.
  pose proof Hrep as [_ HP]. destruct (pr_pages _ _ _ HP p) as [Hal Hlo]; [left|].
  destruct (test_in_pool m pp 6 Hrep ltac:(lia)) as (_ & _ & H6). unfold PAGE_SIZE in H6.
  eapply wp_test_take; [exact Hrep | done |]. intros m4 pp2 Hrep4 Hs4 [Bb2 Bt2].
  apply wp_bind, wp_on_vm, wp_with_pool. vm_simpl.
  apply (wp_pfree m4 pp2 p [] l2); [exact Hrep4 | done | lia | unfold PAGE_SIZE; lia
    | by intros ? ?%not_elem_of_nil | | lia | simpl; lia |].
  { intros x Hx%test_rest. unfold PAGE_SIZE in Hx. lia. }
  intros m5 pp3 Hrep5 Hs5 [Bb3 Bt3]. vm_simpl. cbn [app] in Hrep5, Hs5.
  apply wp_bind, wp_on_vm, wp_with_pool. vm_simpl.
  apply (wp_pfree_plural m5 pp3 q 4 [p] l2); [exact Hrep5 | apply (page_aligned_add p 1), Hal
    | unfold q, PAGE_SIZE; lia | unfold q, PAGE_SIZE; lia | | | lia | simpl; lia |].
  { intros x ->%list_elem_of_singleton. unfold q, PAGE_SIZE. lia. }
  { intros x Hx%test_rest. unfold q, PAGE_SIZE in *. lia. }
  intros m6 pp4 Hrep6 Hs6 _. vm_simpl.
  eapply wp_zoom, wp_total; [apply print_sent; lia|]. apply HQ; [exact Hrep6|].
  intros a Ha. rewrite (Hs6 a Ha), (Hs5 a), (Hs4 a Ha); [done|].
  intros Hx. apply Ha. revert Hx. rewrite !elem_of_cons, elem_of_app. intuition.
Qed.

End test.

(** [test_palloc] on a pool whose free pages are at least seven in a row passes: it
    takes one page and then five, writes to them, and gives them back, after which the
    free list is as before and only free pages have changed. *)
Theorem test_palloc_passes s pp p j :
  PAGEPOOL (vm s) = Some pp → pagepool_rep (mem_of s) pp (run p (7 + j)) → (8 < fuel)%nat →
  ∃ s' pp', test_palloc s = Done ((), s') ∧ PAGEPOOL (vm s') = Some pp' ∧
    pagepool_rep (mem_of s') pp' (run p (7 + j)) ∧
    same_outside (run p (7 + j)) (mem_of s) (mem_of s') ∧ hart s' = hart s ∧ GLOBAL s' = GLOBAL s.
Proof.
  intros Hpp Hrep Hf. enough (wp test_palloc s (λ _ s', ∃ pp', PAGEPOOL (vm s') = Some pp' ∧
    pagepool_rep (mem_of s') pp' (run p (7 + j)) ∧
    same_outside (run p (7 + j)) (mem_of s) (mem_of s') ∧ hart s' = hart s ∧ GLOBAL s' = GLOBAL s) False) as Hw.
  { apply wp_done in Hw as ([] & s' & E & pp' & Hs). by exists s', pp'. }
  eapply wp_test_palloc; [exact Hpp | exact Hrep | done |]. intros m' pp' u Hr Hs. by exists pp'.
Qed.

(** Work on the heap's page and on free pages keeps what [vm::init] set up. *)
Lemma vm_ready_keeps L s s1 n k cs cs' pp own m' pp' u :
  vm_ready L s s1 n k cs → bss_end L + PAGE_SIZE * Z.of_nat n = dram_end L →
  page_aligned (bss_end L) → (k ≤ n)%nat →
  let l := run (bss_end L + PAGE_SIZE * Z.of_nat k) (n - k) in
  pt_state pagepool_rep (mem_of s1) pp (bss_end L + PAGE_SIZE) own l → own !! bss_end L = None →
  pagepool_rep m' pp' l → zone_rep m' (bss_end L) 0 cs' → same_outside (bss_end L :: l) (mem_of s1) m' →
  vm_ready L s (set_uart u (set_vm (mkVm m' (Some pp')) s1)) n k cs'.
Proof.
  intros [V1 V2 V3 V4 V5 _ _ V8 V9] En Hal Hk l Hst Hob Hrep Hz Hs.
  assert (∀ a, is_Some (own !! page_of a) → m' !! a = mem_of s1 !! a) as Hown.
  { intros a Ha. apply Hs. intros [E|Hin]%elem_of_cons.
    - rewrite E, Hob in Ha. by destruct Ha.
    - rewrite (ps_disj _ _ _ _ _ _ Hst _ Hin) in Ha. by destruct Ha. }
  pose proof (ps_pt _ _ _ _ _ _ Hst) as Hpt.
  assert (page_aligned (bss_end L + PAGE_SIZE * Z.of_nat k)) as Hal' by by apply page_aligned_add.
  split; try done; unfold mem_of in *; vm_simpl.
  - intros y Hy. by rewrite (sv39_frame Hpt), V4 by done.
  - exists pp', own. split; [done|]. split; [|done]. split; [by apply (pt_rep_frame Hpt) | done | apply Hst].
  - intros a Ha. rewrite <- V9 by done. apply Hs. pose proof (page_of_bounds a).
    intros [E|Hin]%elem_of_cons; [|apply page_of_run_in in Hin; [|done]]; unfold PAGE_SIZE in *; lia.
Qed.

(** A log line leaves everything but the device as it is. *)
Lemma wp_printed ss s (Q : unit → Sys H U → Prop) P :
  (0 < fuel)%nat → (∀ u, Q () (set_uart u s)) → wp (on_uart (print ss)) s Q P.
Proof. intros Hf HQ. eapply wp_zoom, wp_total; [by apply print_sent | apply HQ]. Qed.

End init.
