(* ===== verification/GallocTest.v ===== *)
(** * The test of the [alloc] crate (src/vm.rs, [test_galloc])

    [test_galloc] runs through on an empty heap with three contiguous free pages:
    boxes and a deque live in the first zone, the big box in two pages of the pool,
    and everything is given back. *)

From S2P Require Import Prelude Machine Param Mutex Palloc FreeList PallocAlloc PallocFree PallocTheorems VmState.
From S2P Require Import Vmalloc Zone ZoneScan Heap KallocProofs KallocFree KallocTheorems.
From S2P Require Import Ptable Global GlobalTheorems Bytes GlobalBytes.
From S2P Require Import Riscv Device DeviceTheorems Trap TrapTheorems Boot VmInit AllocCrate.

(** ** Integers in memory *)

Lemma wp_store n a v m (Q : unit → mem → Prop) P :
  0 ≤ a → a + Z.of_nat n < u64_size → range_mapped m a (Z.of_nat n) →
  (∀ m' f, bytes_written a (Z.of_nat n) f m m' → Q () m') → wp (store n a v) m Q P.
Proof.
  revert a v m. enough (∀ a v m, 0 ≤ a → a + Z.of_nat n < u64_size → range_mapped m a (Z.of_nat n) →
    wp (store n a v) m (λ _ m', ∃ f, bytes_written a (Z.of_nat n) f m m') P) as Hw.
  { intros a v m ? ? ? HQ. eapply wp_mono; [by apply Hw | | done]. intros [] m' [f Hf]. by eapply HQ. }
  induction n as [|n IH]; intros a v m H0 Hu Hr; [apply wp_ret; exists (λ _, None); apply bytes_written_none|].
  change (store (S n) a v) with (write_byte a (Z.land v 0xFF) ;; store n (byte_add a 1) (Z.shiftr v 8)).
  rewrite byte_add_small by u64_range. apply wp_bind, wp_write_byte; [apply Hr; lia | |].
  { change 0xFF with (Z.ones 8). rewrite land_low by lia. apply Z.mod_pos_bound. lia. }
  intros m1 (E1 & O1 & K1). eapply wp_mono; [apply IH; [lia | lia |] | | done].
  - eapply range_mapped_keeps; [|done]. intros x Hx. apply Hr. lia.
  - intros ? m2 [f (E2 & O2 & K2)].
    exists (λ x, if x =? a then Some (Z.land v 0xFF) else f x). rewrite Nat2Z.inj_succ, <- Z.add_1_r.
    split_and!; [| intros y Hy; rewrite O2, O1; [done | |]; intros x Hx; apply Hy; lia | by eapply keeps_trans].
    intros x. rewrite E2, E1.
    destruct (Z.leb_spec (a + 1) x), (Z.ltb_spec x (a + 1 + Z.of_nat n)), (Z.leb_spec a x), (Z.ltb_spec x (a + 1)),
      (Z.ltb_spec x (a + (Z.of_nat n + 1))), (Z.eqb_spec x a); simpl; (done || lia).
Qed.

(** Reading is total on RAM, and changes nothing. *)
Lemma load_total n a m :
  0 ≤ a → a + Z.of_nat n < u64_size → range_mapped m a (Z.of_nat n) → ∃ v, load n a m = Done (v, m).
Proof.
  revert a. induction n as [|n IH]; intros a H0 Hu Hr; [by exists 0|].
  destruct (get_byte_Some m a) as [b Hb]; [apply Hr; lia|].
  destruct (IH (a + 1)) as [v Hv]; [lia | lia | intros x Hx; apply Hr; lia |].
  exists (Z.lor b (Z.shiftl v 8)). apply wp_exact.
  change (load (S n) a) with (b ← read_byte a; r ← load n (byte_add a 1); mret (Z.lor b (Z.shiftl r 8))).
  rewrite byte_add_small by u64_range. apply wp_bind. eapply wp_read_byte; [exact Hb|].
  apply wp_bind. eapply wp_total; [exact Hv|]. by apply wp_ret.
Qed.

(** ** Field offsets *)

Section fields.
Context {F : DequeFields} (HF : fields_ok F).

Lemma field_in f : f ∈ [off_cap; off_ptr; off_head; off_len] →
  0 ≤ f F ≤ 24 ∧ f F mod 8 = 0.
Proof using HF.
  intros Hf. assert (f F ∈ [0; 8; 16; 24]) as Hin.
  { unfold fields_ok in HF. rewrite <- HF. set_solver. }
  set_unfold in Hin. destruct Hin as [-> | [-> | [-> | [-> | []]]]]; (split; [lia | done]).
Qed.

Lemma fields_distinct :
  off_cap F ≠ off_ptr F ∧ off_cap F ≠ off_head F ∧ off_cap F ≠ off_len F ∧
  off_ptr F ≠ off_head F ∧ off_ptr F ≠ off_len F ∧ off_head F ≠ off_len F.
Proof using HF.
  assert (NoDup [off_cap F; off_ptr F; off_head F; off_len F]) as Hn.
  { unfold fields_ok in HF. rewrite HF. repeat constructor; set_solver. }
  rewrite !NoDup_cons in Hn. set_solver.
Qed.

Record deque_is (m : mem) (d cap ptr head len : Z) : Prop := {
  di_cap : m !! (d + off_cap F) = Some cap;
  di_ptr : m !! (d + off_ptr F) = Some ptr;
  di_head : m !! (d + off_head F) = Some head;
  di_len : m !! (d + off_len F) = Some len
}.

Lemma field_in_block f d :
  f ∈ [off_cap; off_ptr; off_head; off_len] → in_block (d, 32) (d + f F).
Proof using HF. intros Hf. destruct (field_in f Hf) as [? _]. unfold in_block. simpl. lia. Qed.

(** The fields only depend on the block. *)
Lemma deque_frame m (m' : mem) d cap ptr head len :
  deque_is m d cap ptr head len → (∀ x, in_block (d, 32) x → m' !! x = m !! x) →
  deque_is m' d cap ptr head len.
Proof using HF.
  intros [E1 E2 E3 E4] Hm. split; rewrite Hm; try done; apply field_in_block; set_solver.
Qed.

End fields.

(** The allocator, once it is set. *)
Lemma wp_with_global {H U A} (op : Galloc → M VmState A) g (s : Sys H U) (Q : A → Sys H U → Prop) P :
  GLOBAL s = Some g → wp (op g) (vm s) (λ a v, Q a (set_vm v s)) P → wp (with_global op) s Q P.
Proof.
  intros HG. Transparent wp. unfold wp, with_global, on_vm, zoom. rewrite HG.
  by destruct (op _ _) as [[a v]| | |].
Qed.
#[global] Opaque wp.

(** ** Blocks of the heap *)

Section heap.
Context {cfg : Config} {H U : Type} `{!CsrHw H} `{!UartHw U}.
Context (s : Sys H U) (b nx : Z) (HG : GLOBAL s = Some (mkGalloc (heap_at b))).
Context (Hend : is_Some (mem_of s !! (b + PAGE_SIZE))) (Hfuel : 512 ≤ Z.of_nat fuel).

(** The state with another memory. *)
Definition ram_is (m : mem) : Sys H U := set_vm (set_mem m (vm s)) s.

(** The heap holds the chunks [cs]; nothing outside of its page has changed. *)
Definition heap_is (m : mem) (cs : list chunk) : Prop :=
  zone_rep m b nx cs ∧ same_outside [b] (mem_of s) m.

Lemma wp_on_ram {A} (e : M mem A) m (Q : A → Sys H U → Prop) P :
  wp e m (λ a m', Q a (ram_is m')) P → wp (on_ram e) (ram_is m) Q P.
Proof using Type. intros He. by apply wp_on_vm, wp_on_mem. Qed.

Lemma wp_exchange_malloc l m c rest o cs' (Q : Z → Sys H U → Prop) P :
  small l → heap_is m (c :: rest) → first_fit (round8 (lsize l)) c rest = (Some o, cs') →
  (∀ m', heap_is m' cs' → blocks_kept b (c :: rest) m m' → Q (b + 16 + o) (ram_is m')) →
  wp (exchange_malloc l) (ram_is m) Q P.
Proof using HG Hfuel.
  intros Hl [Hz Hs] Hff HQ. pose proof Hl as [[H0 Hmax] Ha]. unfold MAX_CHUNK_SIZE in Hmax.
  unfold exchange_malloc. apply wp_bind. eapply wp_with_global; [exact HG|]. unfold galloc_alloc.
  rewrite (proj2 (Z.ltb_ge PAGE_SIZE (align l))) by (unfold PAGE_SIZE; lia).
  apply wp_bind, wp_scheme_small; [done|]. cbn [Z.eqb small_pool]. apply wp_bind.
  eapply wp_alloc_exact; [exact Hz | lia | rewrite u64_size_eq; lia | exact Hff | lia |].
  intros m' Hz' Hfr. cbn [vm_mem set_mem] in Hfr. apply wp_ret.
  pose proof (first_fit_live (round8 (lsize l)) (b + ZONE_SIZE) c rest) as Hb. rewrite Hff in Hb.
  destruct (blocks_bounds _ _ _ _ (b + ZONE_SIZE + o + HEADER_SIZE) (round8 (lsize l)) Hz') as (Hlo & _).
  { unfold blocks. rewrite Hb. left. }
  destruct (zr_base _ _ _ _ Hz') as (_ & Hb0 & _).
  replace (b + ZONE_SIZE + o + HEADER_SIZE) with (b + 16 + o) in * by (unfold ZONE_SIZE, HEADER_SIZE; lia).
  rewrite (proj2 (Z.eqb_neq (b + 16 + o) 0)) by lia. apply wp_ret, HQ.
  - split; [done|]. eapply same_outside_trans; [exact Hs|]. eapply zone_frame_page; [exact Hz | exact Hfr].
  - eapply zone_frame_blocks; [exact Hz | exact Hfr].
Qed.

(** Giving a block back. *)
Lemma wp_drop_block l p m cs (Q : unit → Sys H U → Prop) P :
  small l → heap_is m cs → (p, round8 (lsize l)) ∈ blocks b cs →
  (∀ m' cs', heap_is m' cs' → blocks b cs ≡ₚ (p, round8 (lsize l)) :: blocks b cs' → Q () (ram_is m')) →
  wp (global_dealloc p l) (ram_is m) Q P.
Proof using HG Hend.
  intros Hl [Hz Hs] Hin HQ. eapply wp_with_global; [exact HG|].
  eapply wp_dealloc_small; [done | done | exact Hz | done | exact (zone_end _ _ _ _ Hz Hs Hend) |].
  intros st' (m' & cs' & -> & Hz' & Hb & _ & Hs' & _). apply (HQ m' cs'); [|done].
  split; [done | by eapply same_outside_trans].
Qed.

(** Writing inside of a block. *)
Lemma heap_write m m' cs p n :
  heap_is m cs → (p, n) ∈ blocks b cs → (∀ x, ¬ in_block (p, n) x → m' !! x = m !! x) → keeps m m' →
  heap_is m' cs.
Proof using Type.
  intros [Hz Hs] Hin Hm Hk. split; [exact (zone_write_block Hz m' p n Hin Hm Hk)|].
  eapply same_outside_trans; [exact Hs|]. exact (block_page _ _ _ _ _ Hz Hin Hm).
Qed.

(** Storing an integer into a block. *)
Lemma wp_store_block k a v m cs p n (Q : unit → Sys H U → Prop) P :
  heap_is m cs → (p, n) ∈ blocks b cs → p ≤ a → a + Z.of_nat k ≤ p + n →
  (∀ m', heap_is m' cs → (∀ x, ¬ in_block (p, n) x → m' !! x = m !! x) → Q () (ram_is m')) →
  wp (on_ram (store k a v)) (ram_is m) Q P.
Proof using Type.
  intros Hh Hin Hlo Hhi HQ. pose proof Hh as [Hz _].
  destruct (blocks_bounds _ _ _ _ _ _ Hz Hin) as (? & ? & Hn & Hp8). pose proof (blocks_mod Hz _ _ Hin).
  destruct (zr_base _ _ _ _ Hz) as (_ & ? & ?).
  apply wp_on_ram, wp_store; [clear Hfuel; lia | clear Hfuel; lia | |].
  - intros x Hx. apply (block_mapped Hz p n n Hin (Z.le_refl n)). clear Hfuel. lia.
  - intros m' f (_ & O & K). assert (∀ x, ¬ in_block (p, n) x → m' !! x = m !! x) as Hout.
    { intros y Hy. apply O. intros x Hx <-. apply Hy. unfold in_block, word_of. simpl. clear Hfuel. zdm. }
    apply HQ; [by eapply heap_write | done].
Qed.

(** ** The deque *)

Context {F : DequeFields} (HF : fields_ok F).

Section one_deque.
Context (d : Z) (Hd8 : d mod 8 = 0).

Lemma wp_get_field f v m (Q : Z → Sys H U → Prop) P :
  f ∈ [off_cap; off_ptr; off_head; off_len] → m !! (d + f F) = Some v → Q v (ram_is m) →
  wp (get_field F f d) (ram_is m) Q P.
Proof using HF Hd8.
  intros Hf Hm HQ. destruct (field_in HF f Hf) as [_ H8]. apply wp_on_ram.
  eapply wp_read; [clear Hfuel; zdm | done | done].
Qed.

Lemma wp_set_field f v m cs (Q : unit → Sys H U → Prop) P :
  f ∈ [off_cap; off_ptr; off_head; off_len] → heap_is m cs → (d, 32) ∈ blocks b cs →
  (heap_is (<[d + f F := v]> m) cs → Q () (ram_is (<[d + f F := v]> m))) →
  wp (set_field F f d v) (ram_is m) Q P.
Proof using HF Hd8.
  intros Hf Hh Hin HQ. destruct (field_in HF f Hf) as [Hr H8]. apply wp_on_ram.
  assert ((d + f F) mod 8 = 0) as Hal by (clear Hfuel; zdm). pose proof Hh as [Hz _].
  destruct (blocks_bounds _ _ _ _ _ _ Hz Hin) as (? & ? & _).
  apply wp_write; [done | apply (zr_ram _ _ _ _ Hz); [clear Hfuel; lia | done] |]. apply HQ.
  eapply heap_write; [exact Hh | exact Hin | | apply keeps_insert].
  intros x Hx. apply lookup_insert_ne. intros <-. by apply Hx, (field_in_block HF).
Qed.

End one_deque.

(** ** The heap along the test *)

Definition heap0 : list chunk := [(4080, false)].
Definition heap1 : list chunk := [(8, true); (4064, false)].
Definition heap2 : list chunk := [(8, true); (32, true); (4024, false)].
Definition heap3 : list chunk := [(8, true); (32, true); (16, true); (4000, false)].

Lemma cons_block (x y n : Z) (l l' : list (Z * Z)) : x = y → l = l' → (x, n) :: l = (y, n) :: l'.
Proof using Type. by intros -> ->. Qed.

Lemma heap1_blocks : blocks b heap1 = [(b + 16, 8)].
Proof using Type. unfold blocks, heap1. simpl. unfold ZONE_SIZE, HEADER_SIZE.
  repeat (apply cons_block; [clear Hfuel; lia|]). done. Qed.

Lemma heap2_blocks : blocks b heap2 = [(b + 16, 8); (b + 32, 32)].
Proof using Type. unfold blocks, heap2. simpl. unfold ZONE_SIZE, HEADER_SIZE.
  repeat (apply cons_block; [clear Hfuel; lia|]). done. Qed.

Lemma heap3_blocks : blocks b heap3 = [(b + 16, 8); (b + 32, 32); (b + 72, 16)].
Proof using Type. unfold blocks, heap3. simpl. unfold ZONE_SIZE, HEADER_SIZE.
  repeat (apply cons_block; [clear Hfuel; lia|]). done. Qed.

Lemma heap_base m cs : heap_is m cs → b mod 8 = 0.
Proof using Type. intros [Hz _]. apply page_aligned_8, (zr_base _ _ _ _ Hz). Qed.

Lemma wp_Box_new m x (Q : Z → Sys H U → Prop) P :
  heap_is m heap0 → (∀ m', heap_is m' heap1 → Q (b + 16) (ram_is m')) →
  wp (Box_new_u32 x) (ram_is m) Q P.
Proof using HG Hfuel.
  intros Hh HQ. unfold Box_new_u32. apply wp_bind.
  eapply wp_exchange_malloc; [done | exact Hh | vm_compute; reflexivity |]. intros m1 H1 _.
  rewrite Z.add_0_r. apply wp_bind. eapply (wp_store_block 4 _ _ m1 heap1 (b + 16) 8);
    [exact H1 | rewrite heap1_blocks; left | lia | lia |].
  intros m2 H2 _. by apply wp_ret, HQ.
Qed.

(** Reading the box twice gives the same value. *)
Lemma wp_read_twice m (K : M (Sys H U) unit) (Q : unit → Sys H U → Prop) P :
  heap_is m heap1 → wp K (ram_is m) Q P →
  wp (x ← on_ram (load 4 (b + 16)); y ← on_ram (load 4 (b + 16)); assert (x =? y) ;; K) (ram_is m) Q P.
Proof using Type.
  intros [Hz _] HK. destruct (zr_base _ _ _ _ Hz) as (Hal & ? & ?). unfold PAGE_SIZE in *.
  destruct (load_total 4 (b + 16) m) as [v Hv]; [clear Hfuel; lia | clear Hfuel; lia | |].
  { apply (block_mapped Hz (b + 16) 8); [rewrite heap1_blocks; left | done]. }
  apply wp_bind, wp_on_ram. eapply wp_total; [exact Hv|].
  apply wp_bind, wp_on_ram. eapply wp_total; [exact Hv|].
  apply wp_bind, wp_assert_true; [apply Z.eqb_refl | exact HK].
Qed.

(** The fields after some of them have been set. *)
Ltac deque_set :=
  destruct (fields_distinct HF) as (? & ? & ? & ? & ? & ?); split;
  repeat first [rewrite lookup_insert_eq; reflexivity | rewrite lookup_insert_ne by lia]; try assumption.

Ltac field_list := first [left | right; field_list].

Lemma wp_Box_default m (Q : Z → Sys H U → Prop) P :
  heap_is m heap1 →
  (∀ m', heap_is m' heap2 → deque_is (F := F) m' (b + 32) 0 4 0 0 → Q (b + 32) (ram_is m')) →
  wp (Box_default_deque F) (ram_is m) Q P.
Proof using HF HG Hfuel.
  intros Hh HQ. pose proof (heap_base _ _ Hh). unfold Box_default_deque. apply wp_bind.
  eapply wp_exchange_malloc; [done | exact Hh | vm_compute; reflexivity |]. intros m1 H1 _.
  replace (b + 16 + 16) with (b + 32) by lia. assert ((b + 32) mod 8 = 0) as Hd8 by zdm.
  assert ((b + 32, 32) ∈ blocks b heap2) as Hin by (rewrite heap2_blocks; field_list).
  apply wp_bind. eapply (wp_set_field _ Hd8); [field_list | exact H1 | done |]. intros H2.
  apply wp_bind. eapply (wp_set_field _ Hd8); [field_list | exact H2 | done |]. intros H3.
  apply wp_bind. eapply (wp_set_field _ Hd8); [field_list | exact H3 | done |]. intros H4.
  apply wp_bind. eapply (wp_set_field _ Hd8); [field_list | exact H4 | done |]. intros H5.
  apply wp_ret, HQ; [exact H5 | deque_set].
Qed.

(** Dropping the deque gives back its buffer and its box. *)
Lemma wp_drop_deque m head len (Q : unit → Sys H U → Prop) P :
  heap_is m heap3 → deque_is (F := F) m (b + 32) 4 (b + 72) head len →
  (∀ m' cs, heap_is m' cs → blocks b cs ≡ₚ [(b + 16, 8)] → Q () (ram_is m')) →
  wp (drop_deque F (b + 32)) (ram_is m) Q P.
Proof using HF HG Hend.
  intros Hh Hd HQ. pose proof (heap_base _ _ Hh). assert ((b + 32) mod 8 = 0) as Hd8 by (clear Hfuel; zdm).
  unfold drop_deque. apply wp_bind. eapply (wp_get_field _ Hd8); [field_list | apply Hd |].
  cbn [Z.eqb]. apply wp_bind, wp_bind. eapply (wp_get_field _ Hd8); [field_list | apply Hd |].
  apply (wp_drop_block (layout_buffer 4) (b + 72) m heap3); [done | done | rewrite heap3_blocks; field_list |].
  intros m1 cs1 H1 E1. rewrite heap3_blocks in E1.
  assert (blocks b cs1 ≡ₚ [(b + 16, 8); (b + 32, 32)]) as Hb1.
  { apply (Permutation_cons_inv (a := (b + 72, 16))). rewrite <- E1. symmetry. apply Permutation_cons_append. }
  apply (wp_drop_block layout_deque (b + 32) m1 cs1); [done | done | rewrite Hb1; field_list |].
  intros m2 cs2 H2 E2. apply (HQ m2 cs2); [done|].
  apply (Permutation_cons_inv (a := (b + 32, 32))). rewrite <- E2, Hb1. constructor.
Qed.

(** Only the page of the heap differs, so nothing is lost. *)
Lemma heap_keeps m cs : heap_is m cs → keeps (mem_of s) m.
Proof using Type.
  intros [Hz Hs] a H8 Ha. destruct (decide (page_of a = b)) as [E|Hne].
  - apply (zr_ram _ _ _ _ Hz); [|done]. rewrite <- E. apply page_of_bounds.
  - rewrite Hs; [done|]. by intros ?%list_elem_of_singleton.
Qed.

Context (regrow : Z → M (Sys H U) unit).

(** Reading the four fields. *)
Lemma wp_fields d m cap ptr head len (K : Z → Z → Z → Z → M (Sys H U) unit) (Q : unit → Sys H U → Prop) P :
  d mod 8 = 0 → deque_is (F := F) m d cap ptr head len → wp (K cap ptr head len) (ram_is m) Q P →
  wp (cap ← get_field F off_cap d; ptr ← get_field F off_ptr d; head ← get_field F off_head d;
      len ← get_field F off_len d; K cap ptr head len) (ram_is m) Q P.
Proof using HF.
  intros Hd8 [E1 E2 E3 E4] HK.
  apply wp_bind. eapply (wp_get_field _ Hd8); [field_list | exact E1 |].
  apply wp_bind. eapply (wp_get_field _ Hd8); [field_list | exact E2 |].
  apply wp_bind. eapply (wp_get_field _ Hd8); [field_list | exact E3 |].
  apply wp_bind. eapply (wp_get_field _ Hd8); [field_list | exact E4 |]. exact HK.
Qed.

(** The first push gets a buffer of four elements. *)
Lemma wp_ensure_room_empty m (Q : unit → Sys H U → Prop) P :
  heap_is m heap2 → deque_is (F := F) m (b + 32) 0 4 0 0 →
  (∀ m', heap_is m' heap3 → deque_is (F := F) m' (b + 32) 4 (b + 72) 0 0 → Q () (ram_is m')) →
  wp (ensure_room F regrow (b + 32)) (ram_is m) Q P.
Proof using HF HG Hfuel.
  intros Hh Hd HQ. pose proof (heap_base _ _ Hh). assert ((b + 32) mod 8 = 0) as Hd8 by zdm.
  unfold ensure_room. apply wp_bind. eapply (wp_get_field _ Hd8); [field_list | apply Hd |].
  apply wp_bind. eapply (wp_get_field _ Hd8); [field_list | apply Hd |]. cbn [Z.eqb]. apply wp_bind.
  eapply wp_exchange_malloc; [done | exact Hh | vm_compute; reflexivity |]. intros m1 H1 Hk1.
  replace (b + 16 + 56) with (b + 72) by lia.
  assert ((b + 32, 32) ∈ blocks b heap3) as Hin by (rewrite heap3_blocks; field_list).
  assert (deque_is (F := F) m1 (b + 32) 0 4 0 0) as Hd1.
  { eapply (deque_frame HF); [exact Hd|]. intros x. apply (Hk1 (b + 32, 32)).
    change ((b + 32, 32) ∈ blocks b heap2). rewrite heap2_blocks. field_list. }
  apply wp_bind. eapply (wp_set_field _ Hd8); [field_list | exact H1 | done |]. intros H2.
  eapply (wp_set_field _ Hd8); [field_list | exact H2 | done |]. intros H3.
  apply HQ; [exact H3|]. destruct Hd1. deque_set.
Qed.

(** A push with room does not allocate. *)
Lemma wp_ensure_room_room d m cap ptr head len (Q : unit → Sys H U → Prop) P :
  d mod 8 = 0 → deque_is (F := F) m d cap ptr head len → len ≠ cap → Q () (ram_is m) →
  wp (ensure_room F regrow d) (ram_is m) Q P.
Proof using HF.
  intros Hd8 Hd Hne HQ. unfold ensure_room. apply wp_bind.
  eapply (wp_get_field _ Hd8); [field_list | apply Hd |]. apply wp_bind.
  eapply (wp_get_field _ Hd8); [field_list | apply Hd |].
  rewrite (proj2 (Z.eqb_neq len cap)) by done. by apply wp_ret.
Qed.

(** An element goes into the buffer; the fields stay. *)
Lemma wp_put_element i x m cap ptr head len (Q : unit → Sys H U → Prop) P :
  0 ≤ i ≤ 3 → heap_is m heap3 → deque_is (F := F) m (b + 32) cap ptr head len →
  (∀ m', heap_is m' heap3 → deque_is (F := F) m' (b + 32) cap ptr head len → Q () (ram_is m')) →
  wp (on_ram (store 4 (b + 72 + 4 * i) x)) (ram_is m) Q P.
Proof using HF.
  intros Hi Hh Hd HQ. eapply (wp_store_block 4 _ _ m heap3 (b + 72) 16);
    [exact Hh | rewrite heap3_blocks; field_list | clear Hfuel; lia | clear Hfuel; lia |].
  intros m' Hh' Hout. apply HQ; [done|]. eapply (deque_frame HF); [exact Hd|].
  intros y Hy. apply Hout. unfold in_block in *. simpl in *. clear Hfuel. lia.
Qed.

Lemma wp_push_back_empty x m (Q : unit → Sys H U → Prop) P :
  heap_is m heap2 → deque_is (F := F) m (b + 32) 0 4 0 0 →
  (∀ m', heap_is m' heap3 → deque_is (F := F) m' (b + 32) 4 (b + 72) 0 1 → Q () (ram_is m')) →
  wp (push_back F regrow (b + 32) x) (ram_is m) Q P.
Proof using HF HG Hfuel.
  intros Hh Hd HQ. pose proof (heap_base _ _ Hh). assert ((b + 32) mod 8 = 0) as Hd8 by zdm.
  unfold push_back. apply wp_bind, wp_ensure_room_empty; [done | done |]. intros m1 H1 Hd1.
  eapply wp_fields; [done | exact Hd1 |]. change (wrap_index (0 + 0) 4) with 0.
  apply wp_bind. eapply wp_put_element; [lia | exact H1 | exact Hd1 |]. intros m2 H2 Hd2.
  eapply (wp_set_field _ Hd8); [field_list | exact H2 | rewrite heap3_blocks; field_list |]. intros H3.
  apply HQ; [exact H3|]. destruct Hd2. deque_set.
Qed.

Lemma wp_push_front_one x m (Q : unit → Sys H U → Prop) P :
  heap_is m heap3 → deque_is (F := F) m (b + 32) 4 (b + 72) 0 1 →
  (∀ m', heap_is m' heap3 → deque_is (F := F) m' (b + 32) 4 (b + 72) 3 2 → Q () (ram_is m')) →
  wp (push_front F regrow (b + 32) x) (ram_is m) Q P.
Proof using HF.
  intros Hh Hd HQ. pose proof (heap_base _ _ Hh). assert ((b + 32) mod 8 = 0) as Hd8 by (clear Hfuel; zdm).
  assert ((b + 32, 32) ∈ blocks b heap3) as Hin by (rewrite heap3_blocks; field_list).
  unfold push_front. apply wp_bind. eapply wp_ensure_room_room; [done | exact Hd | done |].
  eapply wp_fields; [done | exact Hd |]. change (wrap_index (0 + 4 - 1) 4) with 3.
  apply wp_bind. eapply (wp_set_field _ Hd8); [field_list | exact Hh | done |]. intros H2.
  apply wp_bind. eapply (wp_set_field _ Hd8); [field_list | exact H2 | done |]. intros H3.
  eapply wp_put_element; [done | exact H3 | | done]. destruct Hd. clear Hfuel. deque_set.
Qed.

(** The first block of the test, as a whole: the heap is as empty as before. *)
Lemma wp_test_small (K : M (Sys H U) unit) m (Q : unit → Sys H U → Prop) P :
  heap_is m heap0 →
  (∀ m' cs, heap_is m' cs → blocks b cs = [] → wp K (ram_is m') Q P) →
  wp (one ← Box_new_u32 5;
      x ← on_ram (load 4 one);
      y ← on_ram (load 4 one);
      assert (x =? y) ;;
      one_vec ← Box_default_deque F;
      push_back F regrow one_vec 555 ;;
      push_front F regrow one_vec 111 ;;
      drop_deque F one_vec ;;
      drop_u32 one ;; K) (ram_is m) Q P.
Proof using HF HG Hend Hfuel.
  intros Hh HK. apply wp_bind, wp_Box_new; [done|]. intros m1 H1. apply wp_read_twice; [done|].
  apply wp_bind, wp_Box_default; [done|]. intros m2 H2 D2.
  apply wp_bind, wp_push_back_empty; [done | done |]. intros m3 H3 D3.
  apply wp_bind, wp_push_front_one; [done | done |]. intros m4 H4 D4.
  apply wp_bind. eapply wp_drop_deque; [exact H4 | exact D4 |]. intros m5 cs5 H5 E5. apply wp_bind.
  apply (wp_drop_block layout_u32 (b + 16) m5 cs5); [done | done | rewrite E5; left |].
  intros m6 cs6 H6 E6. apply (HK m6 cs6); [done|]. rewrite E5 in E6.
  by apply Permutation_cons_inv, Permutation_nil in E6.
Qed.

End heap.

(** ** More than a page *)

Section big.
Context {cfg : Config} {H U : Type} `{!CsrHw H} `{!UartHw U}.
Context (s : Sys H U) (g : Galloc) (pp : PagePool) (p : Z) (j : nat).
Context (HG : GLOBAL s = Some g) (Hpp : PAGEPOOL (vm s) = Some pp) (Hfuel : 512 ≤ Z.of_nat fuel).
Let l2 : list Z := run (p + PAGE_SIZE * 2) (S j).

Lemma run_three : run p (3 + j) = run p 2 ++ l2.
Proof using Type. change (3 + j)%nat with (2 + S j)%nat. rewrite run_app. done. Qed.

(** The big box: two pages of the pool, filled and given back. *)
Lemma wp_test_big (K : M (Sys H U) unit) (Q : unit → Sys H U → Prop) P :
  pagepool_rep (mem_of s) pp (run p (3 + j)) →
  (∀ m' pp', pagepool_rep m' pp' (run p (3 + j)) → same_outside (run p (3 + j)) (mem_of s) m' →
    wp K (set_vm (mkVm m' (Some pp')) s) Q P) →
  wp (big ← exchange_malloc layout_big;
      on_ram (fill big 0x8BADF00D 513) ;;
      global_dealloc big layout_big ;; K) s Q P.
Proof using HG Hpp Hfuel.
  intros Hrep HK. rewrite run_three in Hrep, HK. destruct s as [h [m po] g' c u]. unfold mem_of, set_vm in *.
  cbn [hart vm GLOBAL clint uart vm_mem PAGEPOOL] in HG, Hpp, Hrep, HK. subst po g'. pose proof Hrep as [_ HP].
  destruct (pr_pages _ _ _ HP p) as [Hal Hlo]; [left|]. pose proof (pr_pos HP p ltac:(left)) as Hp0.
  assert (p + PAGE_SIZE ∈ run p 2 ++ l2) as Hsnd by (right; left).
  pose proof (pr_page_top HP _ Hsnd) as Htop. destruct (pr_top _ _ _ HP) as [_ Htu].
  assert (∀ q, q ∈ l2 → p + PAGE_SIZE * 1 < q) as Hl2.
  { intros q (i & Hi & ->)%elem_of_run. unfold PAGE_SIZE. clear Hfuel. lia. }
  apply wp_bind. unfold exchange_malloc. apply wp_bind. eapply wp_with_global; [reflexivity|]. unfold galloc_alloc.
  change (PAGE_SIZE <? align layout_big) with false. apply wp_bind, wp_scheme; [done | done |].
  change (scheme layout_big) with 2. cbn [Z.eqb]. apply wp_bind, wp_with_pool.
  apply (wp_palloc_plural m pp p 1 l2); [exact Hrep | right; done | lia |].
  intros m1 pp1 (Hrep1 & Hz1 & Hs1 & Hk1) [Eb1 Et1]. cbn [fst snd]. apply wp_ret.
  rewrite (proj2 (Z.eqb_neq p 0)) by lia. apply wp_ret, wp_bind, wp_on_vm, wp_on_mem. vm_simpl.
  assert (∀ q, q ∈ run p 2 → page_mapped m1 q) as Hm1 by (intros q Hq a Ha H8; by rewrite (Hz1 q Hq)).
  apply wp_fill_pages; [vm_compute; discriminate | done | lia | unfold PAGE_SIZE in *; lia
    | apply Hm1; left | apply Hm1; right; left |]. intros m2 Hs2 Hk2.
  assert (pagepool_rep m2 pp1 l2) as Hrep2.
  { eapply (pool_untouched m1 m2 pp1 _ (run p 2)); [done | done | done |].
    intros q (i & Hi & ->)%elem_of_run Hq%Hl2. unfold PAGE_SIZE in Hq. lia. }
  apply wp_bind. eapply wp_with_global; [reflexivity|]. unfold galloc_dealloc.
  change (PAGE_SIZE <? align layout_big) with false. apply wp_bind, wp_scheme; [done | done |].
  change (scheme layout_big) with 2. cbn [Z.eqb]. apply wp_bind, wp_with_pool.
  apply (wp_pfree_plural m2 pp1 p 1 [] l2); [exact Hrep2 | done | lia | unfold PAGE_SIZE in *; lia
    | by intros q ?%not_elem_of_nil | exact Hl2 | lia | simpl; lia |].
  intros m3 pp3 Hrep3 Hs3 _. cbn [fst snd]. apply wp_ret. apply (HK m3 pp3 Hrep3).
  eapply same_outside_trans; [|exact Hs3]. eapply same_outside_trans; [eapply same_outside_mono; [|exact Hs1]|].
  - intros q. rewrite !elem_of_app. unfold l2. cbn [run take].
    rewrite list_elem_of_singleton, (elem_of_cons (run _ j)). intuition.
  - eapply same_outside_mono; [|exact Hs2]. intros q. rewrite elem_of_app. auto.
Qed.

End big.

(** ** The test *)

Section test.
Context {cfg : Config} {H U : Type} `{!CsrHw H} `{!UartHw U}.
Context {F : DequeFields} (HF : fields_ok F) (regrow : Z → M (Sys H U) unit).

Lemma wp_test_galloc (s : Sys H U) b nx pp p j (Q : unit → Sys H U → Prop) P :
  GLOBAL s = Some (mkGalloc (heap_at b)) → zone_rep (mem_of s) b nx heap0 →
  is_Some (mem_of s !! (b + PAGE_SIZE)) → PAGEPOOL (vm s) = Some pp →
  pagepool_rep (mem_of s) pp (run p (3 + j)) → b ∉ run p (3 + j) → 512 ≤ Z.of_nat fuel →
  (∀ m' pp' cs u, zone_rep m' b nx cs → blocks b cs = [] → pagepool_rep m' pp' (run p (3 + j)) →
    same_outside (b :: run p (3 + j)) (mem_of s) m' →
    Q () (set_uart u (set_vm (mkVm m' (Some pp')) s))) →
  wp (test_galloc F regrow) s Q P.
Proof using HF.
  intros HG Hz Hend Hpp Hrep Hb Hf HQ. unfold test_galloc.
  replace s with (ram_is s (mem_of s)) by by destruct s as [h [m po] g c u].
  apply (wp_test_small s b nx HG Hend Hf HF regrow); [by split|]. intros m1 cs1 [Hz1 Hs1] Hcs1.
  pose proof (heap_keeps s b nx m1 cs1 (conj Hz1 Hs1)) as Hk1.
  apply (wp_test_big (ram_is s m1) (mkGalloc (heap_at b)) pp p j); [done | done | done | |].
  { eapply pool_untouched; [exact Hrep | exact Hs1 | done |]. by intros q ->%list_elem_of_singleton. }
  intros m2 pp2 Hrep2 Hs2. eapply wp_zoom, wp_total; [apply print_sent; lia|].
  apply (HQ m2 pp2 cs1); [|done | done |].
  - eapply zone_rep_frame; [|exact Hz1]. intros x Hx. apply Hs2. by rewrite Hx.
  - intros a [Ha1 Ha2]%not_elem_of_cons. rewrite (Hs2 a Ha2). apply Hs1. by intros ?%list_elem_of_singleton.
Qed.

End test.
