(* ===== verification/MainTheorems.v ===== *)
(** * [main] (src/main.rs)

    Hart 0 gets through the whole of [main]: devices, traps, the memory module and the
    tests of the two allocators; and what a panic prints. *)

From S2P Require Import Prelude Machine Param Mutex Palloc FreeList PallocFree PallocTheorems VmState.
From S2P Require Import Vmalloc Zone ZoneScan Heap KallocProofs KallocTheorems.
From S2P Require Import Ptable Sv39 PtProofs KpageProofs PtTheorems Global.
From S2P Require Import Riscv Device DeviceTheorems Trap TrapTheorems Boot AllocCrate Main VmInit GallocTest.

Section main.
Context {cfg : Config} {H U : Type} `{!CsrHw H} `{!CsrLaws H} `{!UartHw U}.
Context {F : DequeFields} (HF : fields_ok F) (regrow : Z → M (Sys H U) unit).
Implicit Type s : Sys H U.

(** the test of the [alloc] crate passes on an empty heap with at least three
    contiguous free pages, wherever the compiler puts the fields of a deque: the boxes,
    the deque and its buffer are served by the heap and the big box by two pages, the
    assertion holds, and afterwards the heap has no live block, the free list is as
    before, and nothing but the heap's page and free pages has changed. *)
Theorem test_galloc_passes s b nx pp p j :
  GLOBAL s = Some (mkGalloc (heap_at b)) → zone_rep (mem_of s) b nx [(MAX_CHUNK_SIZE, false)] →
  is_Some (mem_of s !! (b + PAGE_SIZE)) → PAGEPOOL (vm s) = Some pp →
  pagepool_rep (mem_of s) pp (run p (3 + j)) → b ∉ run p (3 + j) → 512 ≤ Z.of_nat fuel →
  ∃ s' pp' cs, test_galloc F regrow s = Done ((), s') ∧ zone_rep (mem_of s') b nx cs ∧ blocks b cs = [] ∧
    PAGEPOOL (vm s') = Some pp' ∧ pagepool_rep (mem_of s') pp' (run p (3 + j)) ∧
    same_outside (b :: run p (3 + j)) (mem_of s) (mem_of s').
Proof using HF.
  intros HG Hz Hend Hpp Hrep Hb Hf. enough (wp (test_galloc F regrow) s (λ _ s', ∃ pp' cs,
    zone_rep (mem_of s') b nx cs ∧ blocks b cs = [] ∧ PAGEPOOL (vm s') = Some pp' ∧
    pagepool_rep (mem_of s') pp' (run p (3 + j)) ∧
    same_outside (b :: run p (3 + j)) (mem_of s) (mem_of s')) False) as Hw.
  { apply wp_done in Hw as ([] & s' & E & pp' & cs & Hw). by exists s', pp', cs. }
  eapply (wp_test_galloc HF); try done. intros m' pp' cs u Hz' Hcs Hrep' Hs'. by exists pp', cs.
Qed.

(** The two tests of [main], after [vm::init]. *)
Lemma wp_tests L s s2 n k (Q : unit → Sys H U → Prop) P :
  vm_ready L s s2 n k [(MAX_CHUNK_SIZE, false)] → (k + 7 ≤ n)%nat →
  dram_end L = bss_end L + PAGE_SIZE * Z.of_nat n → page_aligned (bss_end L) → 512 ≤ Z.of_nat fuel →
  (∀ m pp cs u, vm_ready L s (set_uart u (set_vm (mkVm m (Some pp)) s2)) n k cs → blocks (bss_end L) cs = [] →
    Q () (set_uart u (set_vm (mkVm m (Some pp)) s2))) →
  wp (test_palloc ;; on_uart (log Debug ["Testing galloc allocation and freeing..."%string]) ;;
      test_galloc F regrow) s2 Q P.
Proof using HF.
  intros Hr Hn En Hal Hf HQ. apply wp_bind.
  destruct (vr_pool _ _ _ _ _ _ Hr) as (pp & own & Epp & Hpt & Hob). pose proof (vr_used _ _ _ _ _ _ Hr) as Hk.
  set (l := run _ _) in Hpt. assert (bss_end L ∉ l) as Hbl by (apply run_disjoint; unfold PAGE_SIZE; lia).
  assert (l = run (bss_end L + PAGE_SIZE * Z.of_nat k) (7 + (n - k - 7))) as El by (unfold l; f_equal; lia).
  pose proof (ps_pool _ _ _ _ _ _ Hpt) as Hrep. rewrite El in Hrep.
  eapply wp_test_palloc; [exact Epp | exact Hrep | lia |]. intros m3 pp3 u3 Hrep3 Hs3. rewrite <- El in Hrep3, Hs3.
  apply wp_bind, wp_printed; [lia|]. intros u4.
  assert (vm_ready L s (set_uart u4 (set_vm (mkVm m3 (Some pp3)) s2)) n k [(MAX_CHUNK_SIZE, false)]) as Hr3.
  { apply (vm_ready_keeps L s s2 n k _ _ pp own m3 pp3 u4 Hr); try done; [lia | |].
    - eapply zone_rep_frame; [|apply (vr_zone _ _ _ _ _ _ Hr)]. intros x Hx. apply Hs3. by rewrite Hx.
    - eapply same_outside_mono; [|exact Hs3]. intros q. by right. }
  destruct (vr_pool _ _ _ _ _ _ Hr3) as (pp4 & own4 & Epp4 & Hpt4 & Hob4). fold l in Hpt4.
  injection Epp4 as <-. pose proof (ps_pool _ _ _ _ _ _ Hpt4) as Hrep4.
  change (7 + (n - k - 7))%nat with (3 + (4 + (n - k - 7)))%nat in El. rewrite El in Hrep4, Hbl.
  eapply (wp_test_galloc HF regrow _ (bss_end L) 0 pp3); [apply Hr3 | apply Hr3 | | done | exact Hrep4 | done | lia |].
  { apply (pt_page _ _ _ (ps_pt _ _ _ _ _ _ Hpt4) _ [] (pt_root _ _ _ (ps_pt _ _ _ _ _ _ Hpt4)));
      [unfold PAGE_SIZE; lia|]. pose proof (page_aligned_8 _ Hal). unfold PAGE_SIZE. zdm. }
  intros m5 pp5 cs5 u5 Hz5 Hcs5 Hrep5 Hs5. rewrite <- El in Hrep5, Hs5. apply (HQ m5 pp5 cs5 u5); [|done].
  apply (vm_ready_keeps L s _ n k _ cs5 pp3 own4 m5 pp5 u5 Hr3); try done; lia.
Qed.

(** C2: with at least 76 pages of RAM behind the kernel, and under overflow checks no
    empty section, hart 0 gets through all of [main] when no interrupt comes: the
    supervisor trap vector is set, paging is on with the kernel's identity map and a clean TLB, the tests of the page allocator
    and of the [alloc] crate have passed and given back everything they took, so the
    heap has no live block and all but at most 69 of the pages behind the kernel are
    free; nothing below the end of the kernel or above the RAM is written. *)
Theorem main_boots_hart0 L (sym : Symbols) s n :
  layout_ok L → (overflow_checks = true → sections_full L) → dram_end L = bss_end L + PAGE_SIZE * Z.of_nat n → (76 ≤ n)%nat →
  (∀ a, bss_end L ≤ a < dram_end L → a mod 8 = 0 → is_Some (mem_of s !! a)) →
  PAGEPOOL (vm s) = None → GLOBAL s = None → 32768 < Z.of_nat fuel →
  xreg 4 (hart s) = 0 → strapvec_addr sym mod 4 = 0 → is_u64 (strapvec_addr sym) →
  ∃ s' k cs, main F regrow L sym s = Done ((), s') ∧ vm_ready L s s' n k cs ∧
    blocks (bss_end L) cs = [] ∧ csrr stvec (csrs (hart s')) = strapvec_addr sym.
Proof using All.
  intros HL Hfull En Hn Hram Hpp Hg Hf Htp Hs4 Hsu.
  enough (wp (main F regrow L sym) s (λ _ s', ∃ k cs, vm_ready L s s' n k cs ∧ blocks (bss_end L) cs = [] ∧
    csrr stvec (csrs (hart s')) = strapvec_addr sym) False) as Hw.
  { apply wp_done in Hw as ([] & s' & E & k & cs & Hk). by exists s', k, cs. }
  destruct (layout_facts HL) as (_ & _ & _ & _ & Hal & _).
  unfold main. apply wp_bind, wp_on_hart. eapply wp_total; [reflexivity|]. rewrite Htp. cbn [Z.eqb].
  apply wp_bind, wp_zoom. eapply wp_total; [reflexivity|]. do 2 (apply wp_bind, wp_printed; [lia|]; intros ?).
  apply wp_bind, wp_on_hart. eapply wp_total; [reflexivity|]. apply wp_bind, wp_printed; [lia|]. intros u1.
  set (s1 := set_uart u1 _). apply wp_bind. apply (wp_vm_init L s1 n); try done; [lia|].
  intros s2 k Hr2 Hc2. assert (vm_ready L s s2 n k [(MAX_CHUNK_SIZE, false)]) as Hr by (destruct Hr2; by split).
  assert (csrr stvec (csrs (hart s2)) = strapvec_addr sym) as Hst by (rewrite Hc2 by done; by apply csrw_stvec).
  pose proof (vr_used _ _ _ _ _ _ Hr). do 2 (apply wp_bind, wp_printed; [lia|]; intros ?).
  eapply (wp_tests L s _ n k); [destruct Hr; by split | lia | done | done | lia |].
  intros m5 pp5 cs5 u5 Hr5 Hcs5. by exists k, cs5.
Qed.

(** A panic prints the message and the place, or their defaults, and never returns. *)
Theorem panic_reports info (u : U) s :
  (0 < fuel)%nat →
  panic_report info u = Done ((), sent (bytes "PANIC! " ++
    concat (bytes <$> default ["No message provided"%string] (message info)) ++ bytes " at " ++
    match location info with
    | None => bytes "No location provided"
    | Some (file, line) => bytes file ++ bytes ":" ++ bytes line
    end ++ [13; 10]) u) ∧
  panic_handler info s = Diverge.
Proof using Type.
  intros Hf. assert (∀ u', ∃ u'', panic_report info u' = Done ((), u'')) as Hr.
  { intros u'. unfold panic_report, println. destruct (location info) as [[f l]|]; rewrite print_sent by done; eauto. }
  split.
  - unfold panic_report, println. destruct (location info) as [[f l]|]; rewrite print_sent by done; do 3 f_equal;
      rewrite !fmap_app, !concat_app, <- !app_assoc; cbn [fmap list_fmap concat]; by rewrite ?app_nil_r, <- ?app_assoc.
  - unfold panic_handler, mbind, M_bind, on_uart, zoom. destruct (Hr (uart s)) as [u'' ->]. done.
Qed.

End main.
