(* ===== verification/BootWitness.v ===== *)
(** * Traps and the boot on a concrete machine

    The theorems of TrapTheorems.v, BootTheorems.v, VmInit.v and MainTheorems.v on a hart with the
    registers of CsrModel.v, a UART that records what it is sent, and 128M of RAM. *)

From S2P Require Import Prelude Machine Param Mutex Palloc FreeList PallocTheorems VmState.
From S2P Require Import Vmalloc Zone ZoneScan KallocProofs KallocTheorems Checks Ptable Sv39 PtProofs KpageProofs PtTheorems PtWitness.
From S2P Require Import Global Riscv Device DeviceTheorems Trap TrapTheorems CsrModel Boot BootTheorems VmInit.
From S2P Require Import AllocCrate Main GallocTest MainTheorems.

#[local] Instance boot_cfg : Config := big_cfg.

Abbreviation machine := (Sys csr_file (list (Z * Z))).

Definition no_text : Z → string := λ _, EmptyString.

Definition demo_clint : mem := <[MTIME := 5]> (<[MTIMECMP 0 := 0]> ∅).

Definition demo_symbols : Symbols := {|
  global_pointer := 0x80008000; main_addr := 0x80000102;
  mtrapvec_addr := 0x80000200; strapvec_addr := 0x80000400
|}.

(** ** Traps *)

Ltac by_range := split; [vm_compute; discriminate | vm_compute; reflexivity].

(** Hart 0 in supervisor mode, its interrupt stack at the top of its page. *)
Definition running : machine := mkSys
  (mkHart (upd mscratch 0x80019000 (λ _, 0)) (<[2%nat := 0x80011000]> ∅) Supervisor 0x80000106 false)
  (mkVm (ram 0x80018f00 32) None) None demo_clint [].

Lemma running_interruptible : interruptible 0 5 0x80019000 running.
Proof.
  split.
  - split; [reflexivity | lia].
  - split; [reflexivity | by_range].
  - split; [reflexivity | split; [discriminate | reflexivity] |]. intros i Hi. unfold mem_of.
    cbn [running vm vm_mem].
    rewrite ram_lookup by reflexivity. rewrite (proj2 (in_words_spec _ _ _)); [done|]. split; [lia | zdm].
  - split; [reflexivity|]. split; [exists 0; vm_compute; reflexivity | by_range].
  - split; [reflexivity | by_range].
  - by_range.
Qed.

(** Its handler uses two temporaries. *)
Lemma timer_interrupt_resumes_witness :
  ∃ s' v, (on_hart timer_interrupt ;; mtrapvec no_text (λ g m, (<[31%nat := 7]> (<[5%nat := 9]> g), m))) running =
      Done ((), s') ∧ resumed 0 5 0x80019000 running s' v.
Proof.
  apply (timer_interrupt_resumes no_text); [|exact running_interruptible].
  split; [|reflexivity]. intros g m i Hi. cbn [fst].
  rewrite !lookup_insert_ne; [reflexivity | |]; intros <-; vm_compute in Hi; set_solver.
Defined.

Lemma timer_interrupt_loses_x31_witness :
  ∃ f s', abi f ∧ (on_hart timer_interrupt ;; mtrapvec no_text f) running = Done ((), s') ∧
    xreg 31 (hart s') = 77.
Proof. apply (timer_interrupt_loses_x31 no_text 0 5 0x80019000), running_interruptible. Defined.

(** The same hart with its supervisor's interrupt stack. *)
Definition running_s : machine := mkSys
  (mkHart (upd sscratch 0x80019000 (λ _, 0)) (<[2%nat := 0x80011000]> ∅) Supervisor 0x80000106 false)
  (mkVm (ram 0x80018f00 32) None) None demo_clint [].

Lemma other_traps_panic_witness :
  m_handler no_text running_s = Panic ∧ strapvec no_text (λ g m, (g, m)) running_s = Panic.
Proof.
  destruct (other_traps_panic no_text (λ g m, (g, m)) 0x80019000 running_s) as [Hm Hs].
  { apply Nat.ltb_lt. vm_compute. reflexivity. }
  split; [apply Hm; discriminate | apply Hs; [reflexivity|]]. exact (in_frame _ _ _ _ running_interruptible).
Defined.

(** ** Into supervisor mode *)

(** Hart 0 out of reset. *)
Definition reset : machine := mkSys (mkHart (λ _, 0) ∅ Machine 0x80000000 false)
  (mkVm ∅ None) None demo_clint [].

Lemma demo_symbols_ok : symbols_ok demo_symbols.
Proof. split; repeat split; reflexivity || discriminate. Qed.

Lemma start_enters_main_witness :
  ∃ s', _start demo_symbols reset = Done ((), s') ∧
    priv (hart s') = Supervisor ∧ pc (hart s') = 0x80000102 ∧ xreg 4 (hart s') = 0 ∧
    csrr satp (csrs (hart s')) = 0 ∧ csrr mtvec (csrs (hart s')) = 0x80000200 ∧
    timer_enabled (hart s') = true ∧
    clint s' = <[MTIMECMP 0 := 5 + 10000000]> demo_clint ∧ vm s' = vm reset ∧ GLOBAL s' = None ∧
    csrr mscratch (csrs (hart s')) = csrr mscratch (csrs (hart reset)) ∧
    csrr sscratch (csrs (hart s')) = csrr sscratch (csrs (hart reset)) ∧
    ∀ i, i ≠ 4%nat → xreg i (hart s') = xreg i (hart reset).
Proof.
  apply (start_enters_main demo_symbols reset 5 0);
    [exact demo_symbols_ok | reflexivity | lia | reflexivity | exists 0; vm_compute; reflexivity | split; [discriminate | reflexivity]].
Defined.

(** Seventy pages behind the kernel, one of them the heap's. *)
Definition mapping : machine := mkSys (hart reset) seventy_set None demo_clint [].

Lemma boot_stacks_guarded_witness :
  ∃ s' s1, exec (entry demo_layout 0x80008000) reset = Done ((), s') ∧
    @kpage_init big_cfg _ _ demo_layout mapping = Done (Ok (mkPageTable 0x8001c000), s1) ∧
    guarded (sv39 (mem_of s1) 0x8001c000) (xreg sp (hart s')) 2 ∧
    guarded (sv39 (mem_of s1) 0x8001c000) (csrr mscratch (csrs (hart s'))) 1 ∧
    guarded (sv39 (mem_of s1) 0x8001c000) (csrr sscratch (csrs (hart s'))) 1.
Proof.
  apply (@boot_stacks_guarded _ _ _ _ _ big_cfg demo_layout 0x80008000 reset 0 mapping (vm_mem seventy)
    (the_pool seventy) 0x8001c000 (run 0x8001d000 68));
    [exact demo_layout_ok | intros _; exact demo_full | reflexivity | split; [discriminate | reflexivity]
    | exact eq_refl | exact seventy_pool | vm_compute; lia | vm_compute; reflexivity].
Defined.

(** ** The virtual memory module *)

Definition demo_pages : nat := Z.to_nat 32741.

(** All of the RAM behind the kernel. *)
Definition demo_ram : mem := ram 0x8001b000 (512 * demo_pages).

Definition powered : machine := mkSys (mkHart (λ _, 0) ∅ Supervisor 0x80000102 false)
  (mkVm demo_ram None) None demo_clint [].

Lemma demo_dram : dram_end demo_layout = bss_end demo_layout + PAGE_SIZE * Z.of_nat demo_pages.
Proof. unfold demo_pages. rewrite Z2Nat.id by lia. reflexivity. Qed.

Lemma demo_ram_covers a :
  bss_end demo_layout ≤ a < dram_end demo_layout → a mod 8 = 0 → is_Some (demo_ram !! a).
Proof.
  intros Ha H8. unfold demo_ram. rewrite ram_lookup by reflexivity.
  rewrite (proj2 (in_words_spec _ _ _)); [done|]. split; [|done].
  cbn [bss_end dram_end demo_layout] in Ha. unfold demo_pages. rewrite Nat2Z.inj_mul, Z2Nat.id by lia. lia.
Qed.

Lemma vm_init_ready_witness :
  ∃ s' k, vm_init demo_layout powered = Done (Ok (), s') ∧ vm_ready demo_layout powered s' demo_pages k [(MAX_CHUNK_SIZE, false)] ∧
    ∀ r, r ≠ satp → csrr r (csrs (hart s')) = csrr r (csrs (hart powered)).
Proof.
  apply (vm_init_ready demo_layout powered demo_pages);
    [exact demo_layout_ok | intros _; exact demo_full | exact demo_dram | unfold demo_pages; lia | exact demo_ram_covers
    | reflexivity | reflexivity | vm_compute; reflexivity].
Defined.

Definition twice : machine := set_vm (mkVm demo_ram (Some (mkPagePool (Mutex_new (mkPool None 0 0))))) powered.

Lemma vm_init_twice_panics_witness : vm_init demo_layout twice = Panic.
Proof.
  apply (vm_init_twice_panics demo_layout twice (mkPagePool (Mutex_new (mkPool None 0 0))) demo_pages);
    [exact demo_layout_ok | exact demo_dram | unfold demo_pages; lia | exact demo_ram_covers
    | reflexivity | vm_compute; reflexivity].
Defined.

(** The fields of a deque in the order of their declaration; no second growth. *)
Definition demo_fields : DequeFields := mkDequeFields 16 24 0 8.

Lemma demo_fields_ok : fields_ok demo_fields.
Proof. apply (Permutation_app_comm [16; 24] [0; 8]). Qed.

Definition no_regrow : Z → M machine unit := λ _, panic.

Lemma main_boots_hart0_witness :
  ∃ s' k cs, main demo_fields no_regrow demo_layout demo_symbols powered = Done ((), s') ∧
    vm_ready demo_layout powered s' demo_pages k cs ∧ blocks 0x8001b000 cs = [] ∧
    csrr stvec (csrs (hart s')) = 0x80000400.
Proof.
  apply (main_boots_hart0 demo_fields_ok no_regrow demo_layout demo_symbols powered demo_pages);
    [exact demo_layout_ok | intros _; exact demo_full | exact demo_dram | unfold demo_pages; lia | exact demo_ram_covers
    | reflexivity | reflexivity | vm_compute; reflexivity | reflexivity | reflexivity
    | split; [discriminate | reflexivity]].
Defined.

(** Eight pages, one of them the heap's. *)
Definition eight : VmState := @booted (dev 600) B 8.

Definition tested : machine := mkSys (hart reset) (mkVm (vm_mem eight) (Some (the_pool eight))) None demo_clint [].

Lemma test_palloc_passes_witness :
  ∃ s' pp', @test_palloc (dev 600) _ _ _ tested = Done ((), s') ∧ PAGEPOOL (vm s') = Some pp' ∧
    pagepool_rep (mem_of s') pp' (run (B + 4096) 7) ∧
    same_outside (run (B + 4096) 7) (mem_of tested) (mem_of s') ∧ hart s' = hart tested ∧ GLOBAL s' = GLOBAL tested.
Proof.
  apply (@test_palloc_passes (dev 600) _ _ _ tested (the_pool eight) (B + 4096) 0).
  - reflexivity.
  - apply pagepool_repb_sound. vm_compute. reflexivity.
  - simpl. lia.
Defined.

(** The same machine with its heap in place. *)
Definition heaped : machine :=
  mkSys (hart reset) (mkVm (vm_mem eight) (Some (the_pool eight))) (Some (mkGalloc (heap_at B))) demo_clint [].

Lemma test_galloc_passes_witness :
  ∃ s' pp' cs, @test_galloc (dev 600) _ _ _ demo_fields no_regrow heaped = Done ((), s') ∧
    zone_rep (mem_of s') B 0 cs ∧ blocks B cs = [] ∧ PAGEPOOL (vm s') = Some pp' ∧
    pagepool_rep (mem_of s') pp' (run (B + 4096) 7) ∧
    same_outside (B :: run (B + 4096) 7) (mem_of heaped) (mem_of s').
Proof.
  apply (@test_galloc_passes (dev 600) _ _ _ _ demo_fields_ok no_regrow heaped B 0 (the_pool eight) (B + 4096) 4).
  - reflexivity.
  - apply zone_repb_sound. vm_compute. reflexivity.
  - vm_compute. eauto.
  - reflexivity.
  - apply pagepool_repb_sound. vm_compute. reflexivity.
  - apply run_disjoint. reflexivity.
  - simpl. lia.
Defined.

Lemma panic_reports_witness :
  @panic_report (dev 1) _ trace_uart (mkPanicInfo None None) [] = Done ((),
    (λ c, (UART_BASE, c)) <$> bytes "PANIC! No message provided at No location provided" ++ [13; 10]) ∧
  @panic_handler (dev 1) csr_file _ trace_uart (mkPanicInfo None None) tested = Diverge.
Proof. exact (@panic_reports (dev 1) csr_file _ trace_uart (mkPanicInfo None None) [] tested (Nat.lt_0_succ 0)). Defined.
